(** * DataGeneratorService: a shallow embedding of [src/lib/dataGenerator.ts]

    The class under study infers a schema from an uploaded CSV or JSON file,
    fabricates placeholder rows from a type-tagged schema when the remote
    backend is unreachable, and serialises a row set to CSV or JSON.

    The embedding follows the TypeScript source function by function.  The
    JavaScript run-time it relies on (property access, [Object.keys],
    [String.prototype.split]/[trim], [Array.prototype.join], [Number],
    [JSON.stringify]/[JSON.parse], [Date.prototype.toISOString]) is modelled
    in the first half of the file, after ECMA-262.

    The standalone exports [generateSyntheticData] and [generateMockData]
    of the same file are embedded in [Module Standalone]; of the page that
    calls the service, [src/pages/DataGenerator.tsx], the file embeds the
    test applied to a generated schema and the update of the log.

    Modelling conventions.
    - A string is a sequence of code units below 256 ([string] of the
      Standard Library).
    - A number is an integer ([JNum z]); the random source [Math.random()] is
      a rational in [[0,1)] and arithmetic on it is exact (IEEE-754 rounding
      is not part of the model).
    - A number is printed digit by digit, which is what [Number::toString]
      does on the safe integers (at most 2^53 - 1 in magnitude).
    - An object is a plain object, given by the list of its own properties
      in the order in which JavaScript lists them: array indices first, in
      ascending order, then the other keys in the order of their creation.
      [define_property] and [obj_set] keep that order.  The members that a
      value inherits from a built-in prototype are not part of the model:
      [get] reads own properties, which is what [v[k]] does when [k] is an
      own property of [v] or names no inherited member.
    - An exception is an explicit [Throw] outcome; a promise that rejects is
      modelled the same way. *)

From Stdlib Require Import List String Ascii ZArith QArith Qround Qabs Bool Lia.
From Stdlib Require Import DecimalString Lqa.
From Stdlib Require DecimalPos.
Import ListNotations.

Local Open Scope string_scope.
Local Open Scope Z_scope.

(* ================================================================== *)
(** * JavaScript values and completions *)
(* ================================================================== *)

#[warnings="-register-all"]
Inductive JsVal : Type :=
| JUndefined
| JNull
| JBool (b : bool)
| JNum (n : Z)
| JStr (s : string)
| JArr (items : list JsVal)
| JObj (props : list (string * JsVal)).

Inductive JsError : Type :=
| TypeError
| RangeError
| SyntaxError
| Failure (message : string).

(** The outcome of evaluating a piece of code: a value, or an exception. *)
Inductive Completion (A : Type) : Type :=
| Normal (a : A)
| Throw (e : JsError).

Arguments Normal {A} a.
Arguments Throw {A} e.

Definition cbind {A B} (c : Completion A) (k : A -> Completion B) : Completion B :=
  match c with
  | Normal a => k a
  | Throw e => Throw e
  end.

(* ================================================================== *)
(** * Strings *)
(* ================================================================== *)

Definition comma : ascii := ","%char.
Definition newline : ascii := "010"%char.
Definition dquote : ascii := "034"%char.
Definition backslash : ascii := "092"%char.

(** WhiteSpace and LineTerminator code units below 256 (ECMA-262, 12.2 and
    12.3): TAB, LF, VT, FF, CR, SP and NBSP. *)
Definition is_space (c : ascii) : bool :=
  let n := nat_of_ascii c in
  ((9 <=? n) && (n <=? 13))%nat || (n =? 32)%nat || (n =? 160)%nat.

(** [s.split(sep)] for a one-character separator. *)
Fixpoint split (sep : ascii) (s : string) : list string :=
  match s with
  | EmptyString => [EmptyString]
  | String c s' =>
      if Ascii.eqb c sep then EmptyString :: split sep s'
      else match split sep s' with
           | [] => [String c EmptyString]
           | h :: t => String c h :: t
           end
  end.

Fixpoint trim_start (s : string) : string :=
  match s with
  | EmptyString => EmptyString
  | String c s' => if is_space c then trim_start s' else s
  end.

Fixpoint trim_end (s : string) : string :=
  match s with
  | EmptyString => EmptyString
  | String c s' =>
      match trim_end s' with
      | EmptyString => if is_space c then EmptyString else String c EmptyString
      | r => String c r
      end
  end.

(** [s.trim()] *)
Definition trim (s : string) : string := trim_end (trim_start s).

(** [l.join(sep)] on a list of strings. *)
Definition join (sep : string) (l : list string) : string := String.concat sep l.

Fixpoint ends_with_rev (suffix s : list ascii) : bool :=
  match suffix, s with
  | [], _ => true
  | _ :: _, [] => false
  | a :: suffix', b :: s' => Ascii.eqb a b && ends_with_rev suffix' s'
  end.

(** [s.endsWith(suffix)] *)
Definition endsWith (s suffix : string) : bool :=
  ends_with_rev (rev (list_ascii_of_string suffix)) (rev (list_ascii_of_string s)).

(** [Number::toString] on an integer: its decimal digits, which is the
    text of every safe integer. *)
Definition number_to_string (z : Z) : string :=
  NilZero.string_of_int (Z.to_int z).

Definition is_digit (c : ascii) : bool :=
  let n := nat_of_ascii c in ((48 <=? n) && (n <=? 57))%nat.

Definition digit_value (c : ascii) : Z := Z.of_nat (nat_of_ascii c) - 48.

Definition digit_char (d : Z) : ascii := ascii_of_nat (Z.to_nat (48 + d)).

(** Value of a run of decimal digits, most significant first. *)
Fixpoint digits_value (acc : Z) (s : string) : option Z :=
  match s with
  | EmptyString => Some acc
  | String c s' =>
      if is_digit c then digits_value (10 * acc + digit_value c) s' else None
  end.

(** [width] decimal digits of [n], zero padded, least significant last. *)
Fixpoint digits_fixed (width : nat) (n : Z) : string :=
  match width with
  | O => EmptyString
  | S w => digits_fixed w (n / 10) ++ String (digit_char (n mod 10)) EmptyString
  end.

(** A canonical array index: the key [k] is [String(n)] for the natural [n]. *)
Definition array_index (k : string) : option nat :=
  match k with
  | EmptyString => None
  | _ =>
      match digits_value 0 k with
      | Some n => if String.eqb (number_to_string n) k then Some (Z.to_nat n) else None
      | None => None
      end
  end.

(* ================================================================== *)
(** * Objects and property access *)
(* ================================================================== *)

Definition Props : Type := list (string * JsVal).

Fixpoint lookup (k : string) (o : Props) : option JsVal :=
  match o with
  | [] => None
  | (k', v) :: o' => if String.eqb k k' then Some v else lookup k o'
  end.

(** An array index as the key of an object (ECMA-262, 6.1.7): the
    canonical text of an integer from 0 to 2^32 - 2. *)
Definition key_index (k : string) : option Z :=
  match k with
  | EmptyString => None
  | _ =>
      match digits_value 0 k with
      | Some n =>
          if String.eqb (number_to_string n) k && (n <? 4294967295)
          then Some n else None
      | None => None
      end
  end.

(** The key [k] is listed before the key [k'] whatever the order of their
    creation (OrdinaryOwnPropertyKeys, ECMA-262, 10.1.11.1): [k] is an array
    index, and [k'] is a larger one or none. *)
Definition listed_before (k k' : string) : bool :=
  match key_index k, key_index k' with
  | Some n, Some n' => n <? n'
  | Some _, None => true
  | None, _ => false
  end.

(** A new own property, at its place in the list. *)
Fixpoint insert_key (k : string) (v : JsVal) (o : Props) : Props :=
  match o with
  | [] => [(k, v)]
  | (k', v') :: o' =>
      if listed_before k k' then (k, v) :: o
      else (k', v') :: insert_key k v o'
  end.

(** A new value for the own property [k], which keeps its place. *)
Fixpoint overwrite (k : string) (v : JsVal) (o : Props) : Props :=
  match o with
  | [] => []
  | (k', v') :: o' =>
      if String.eqb k k' then (k, v) :: o' else (k', v') :: overwrite k v o'
  end.

(** CreateDataProperty, as [JSON.parse] builds an object: also the key
    [__proto__] becomes an own property. *)
Definition define_property (k : string) (v : JsVal) (o : Props) : Props :=
  match lookup k o with
  | Some _ => overwrite k v o
  | None => insert_key k v o
  end.

(** [o[k] = v] on a plain object.  The key [__proto__], when it is not an
    own property, is the accessor of [Object.prototype]: its setter takes
    the value, and the object gains no property (the setter ignores a value
    that is neither an object nor null, and makes any other the prototype
    of [o], through which the service reads nothing: it reads the keys that
    [Object.keys] lists). *)
Definition obj_set (k : string) (v : JsVal) (o : Props) : Props :=
  match lookup k o with
  | Some _ => overwrite k v o
  | None => if String.eqb k "__proto__" then o else insert_key k v o
  end.

Definition keys (o : Props) : list string := map fst o.

Definition or_undefined (o : option JsVal) : JsVal :=
  match o with
  | Some v => v
  | None => JUndefined
  end.

(** The keys ["0"], ["1"], ... of an array or string of [n] elements. *)
Definition index_keys (n : nat) : list string :=
  map (fun i => number_to_string (Z.of_nat i)) (seq 0 n).

Definition char_at (s : string) (i : nat) : JsVal :=
  match String.get i s with
  | Some c => JStr (String c EmptyString)
  | None => JUndefined
  end.

(** [v[k]] and [v.k]: reading a property of a null or undefined value raises
    a TypeError. *)
Definition get (v : JsVal) (k : string) : Completion JsVal :=
  match v with
  | JUndefined | JNull => Throw TypeError
  | JBool _ | JNum _ => Normal JUndefined
  | JStr s =>
      if String.eqb k "length" then Normal (JNum (Z.of_nat (String.length s)))
      else match array_index k with
           | Some i => Normal (char_at s i)
           | None => Normal JUndefined
           end
  | JArr items =>
      if String.eqb k "length" then Normal (JNum (Z.of_nat (List.length items)))
      else match array_index k with
           | Some i => Normal (nth i items JUndefined)
           | None => Normal JUndefined
           end
  | JObj props => Normal (or_undefined (lookup k props))
  end.

(** [v?.k]: undefined instead of a TypeError. *)
Definition get_opt (v : JsVal) (k : string) : JsVal :=
  match get v k with
  | Normal x => x
  | Throw _ => JUndefined
  end.

(** [Object.keys(v)] *)
Definition Object_keys (v : JsVal) : Completion (list string) :=
  match v with
  | JUndefined | JNull => Throw TypeError
  | JBool _ | JNum _ => Normal []
  | JStr s => Normal (index_keys (String.length s))
  | JArr items => Normal (index_keys (List.length items))
  | JObj props => Normal (keys props)
  end.

(** [Object.values(v)] of an object. *)
Definition values (o : Props) : list JsVal := map snd o.

(** ToBoolean *)
Definition truthy (v : JsVal) : bool :=
  match v with
  | JUndefined | JNull => false
  | JBool b => b
  | JNum n => negb (n =? 0)
  | JStr s => negb (String.eqb s "")
  | JArr _ | JObj _ => true
  end.

(** [a || b] *)
Definition js_or (a b : JsVal) : JsVal := if truthy a then a else b.

(** [typeof v === 'string'] *)
Definition is_string (v : JsVal) : bool :=
  match v with
  | JStr _ => true
  | _ => false
  end.

(** [v === 'lit'] against a string literal. *)
Definition strict_eq_str (v : JsVal) (lit : string) : bool :=
  match v with
  | JStr s => String.eqb s lit
  | _ => false
  end.

(** ToString; an array prints as its elements joined by commas, null and
    undefined elements printing as the empty string. *)
Fixpoint to_string (v : JsVal) : string :=
  match v with
  | JUndefined => "undefined"
  | JNull => "null"
  | JBool true => "true"
  | JBool false => "false"
  | JNum n => number_to_string n
  | JStr s => s
  | JArr items =>
      join ","
        (map (fun x => match x with
                       | JUndefined | JNull => ""
                       | _ => to_string x
                       end) items)
  | JObj _ => "[object Object]"
  end.

(** ToPrimitive raises a TypeError (ECMA-262, 7.1.1.1).  An object that
    has an own property [toString] has no method left to call: that
    property is no function, as no value of the embedding is one, and
    [valueOf] is one too or is the inherited method, which returns the
    object.  An
    array is joined, which converts its elements other than null and
    undefined. *)
Fixpoint to_primitive_throws (v : JsVal) : bool :=
  match v with
  | JObj props => existsb (fun p => String.eqb (fst p) "toString") props
  | JArr items =>
      existsb (fun x => match x with
                        | JUndefined | JNull => false
                        | _ => to_primitive_throws x
                        end) items
  | _ => false
  end.

(** One element of [Array.prototype.join]. *)
Definition join_item (v : JsVal) : string :=
  match v with
  | JUndefined | JNull => ""
  | _ => to_string v
  end.

(** [values.join(sep)] on a list of values, each of which converts. *)
Definition join_values (sep : string) (l : list JsVal) : string :=
  join sep (map join_item l).

(** [values.join(sep)]: a TypeError when an element does not convert. *)
Definition array_join (sep : string) (l : list JsVal) : Completion string :=
  if existsb to_primitive_throws l then Throw TypeError
  else Normal (join_values sep l).

(* ================================================================== *)
(** * [Number(v)]: which values convert to NaN *)
(* ================================================================== *)

Fixpoint all_chars (p : ascii -> bool) (s : string) : bool :=
  match s with
  | EmptyString => true
  | String c s' => p c && all_chars p s'
  end.

(** The rest of [s] after its leading digits, and how many there were. *)
Fixpoint span_digits (s : string) : nat * string :=
  match s with
  | EmptyString => (O, EmptyString)
  | String c s' =>
      if is_digit c then let (n, r) := span_digits s' in (S n, r) else (O, s)
  end.

Definition non_empty (s : string) : bool := negb (String.eqb s "").

Definition is_hex_digit (c : ascii) : bool :=
  let n := nat_of_ascii c in
  (is_digit c || ((65 <=? n) && (n <=? 70)) || ((97 <=? n) && (n <=? 102)))%nat.

Definition is_octal_digit (c : ascii) : bool :=
  let n := nat_of_ascii c in ((48 <=? n) && (n <=? 55))%nat.

Definition is_binary_digit (c : ascii) : bool :=
  let n := nat_of_ascii c in ((48 <=? n) && (n <=? 49))%nat.

Definition one_of (c a b : ascii) : bool := Ascii.eqb c a || Ascii.eqb c b.

(** NonDecimalIntegerLiteral: [0x..], [0o..], [0b..] *)
Definition non_decimal_literal (s : string) : bool :=
  match s with
  | String "0"%char (String c rest) =>
      if one_of c "x" "X" then non_empty rest && all_chars is_hex_digit rest
      else if one_of c "o" "O" then non_empty rest && all_chars is_octal_digit rest
      else if one_of c "b" "B" then non_empty rest && all_chars is_binary_digit rest
      else false
  | _ => false
  end.

Definition drop_sign (s : string) : string :=
  match s with
  | String c rest => if one_of c "+" "-" then rest else s
  | EmptyString => s
  end.

(** What may follow the mantissa: nothing, or ExponentPart. *)
Definition exponent_part_ok (s : string) : bool :=
  match s with
  | EmptyString => true
  | String c rest =>
      one_of c "e" "E" &&
      (let r := drop_sign rest in non_empty r && all_chars is_digit r)
  end.

(** StrUnsignedDecimalLiteral *)
Definition unsigned_decimal_literal (s : string) : bool :=
  if String.eqb s "Infinity" then true
  else
    let (n1, r1) := span_digits s in
    match r1 with
    | String "."%char r2 =>
        let (n2, r3) := span_digits r2 in
        (negb (n1 =? 0)%nat || negb (n2 =? 0)%nat) && exponent_part_ok r3
    | _ => negb (n1 =? 0)%nat && exponent_part_ok r1
    end.

(** StringToNumber (ECMA-262, 7.1.4.1) does not give NaN: the trimmed text is
    empty, a non-decimal literal, or an optionally signed decimal literal. *)
Definition string_is_numeric (s : string) : bool :=
  let t := trim s in
  String.eqb t "" || non_decimal_literal t || unsigned_decimal_literal (drop_sign t).

(** [isNaN(Number(v))] *)
Definition Number_isNaN (v : JsVal) : bool :=
  match v with
  | JUndefined => true
  | JNull | JBool _ | JNum _ => false
  | JStr s => negb (string_is_numeric s)
  | JArr _ | JObj _ => negb (string_is_numeric (to_string v))
  end.

(* ================================================================== *)
(** * Dates *)
(* ================================================================== *)

Definition ms_per_day : Z := 86400000.

(** The largest magnitude of a time value (ECMA-262, 21.4.1.1). *)
Definition max_time : Z := 8640000000000000.

(** Year, month (1-12) and day of month of the day numbered [z] from
    1970-01-01 in the proleptic Gregorian calendar. *)
Definition civil_from_days (z : Z) : Z * Z * Z :=
  let z := z + 719468 in
  let era := z / 146097 in
  let doe := z mod 146097 in
  let yoe := (doe - doe / 1460 + doe / 36524 - doe / 146096) / 365 in
  let y := yoe + era * 400 in
  let doy := doe - (365 * yoe + yoe / 4 - yoe / 100) in
  let mp := (5 * doy + 2) / 153 in
  let d := doy - (153 * mp + 2) / 5 + 1 in
  let m := if mp <? 10 then mp + 3 else mp - 9 in
  (if m <=? 2 then y + 1 else y, m, d).

Definition year_string (y : Z) : string :=
  if (0 <=? y) && (y <=? 9999) then digits_fixed 4 y
  else (if y <? 0 then "-" else "+") ++ digits_fixed 6 (Z.abs y).

(** The text [YYYY-MM-DDTHH:mm:ss.sssZ] of the time value [t]. *)
Definition iso_string (t : Z) : string :=
  let day := t / ms_per_day in
  let tod := t mod ms_per_day in
  let '(y, m, d) := civil_from_days day in
  year_string y ++ "-" ++ digits_fixed 2 m ++ "-" ++ digits_fixed 2 d ++ "T" ++
  digits_fixed 2 (tod / 3600000) ++ ":" ++
  digits_fixed 2 ((tod / 60000) mod 60) ++ ":" ++
  digits_fixed 2 ((tod / 1000) mod 60) ++ "." ++
  digits_fixed 3 (tod mod 1000) ++ "Z".

(** A Date object: its time value, or [None] for an invalid date (NaN). *)
Definition JsDate : Type := option Z.

Definition Qtruncate (q : Q) : Z :=
  if Qle_bool 0 q then Qfloor q else Qceiling q.

(** [new Date(q)] on a number: TimeClip. *)
Definition Date_of_number (q : Q) : JsDate :=
  if Qle_bool (Qabs q) (inject_Z max_time) then Some (Qtruncate q) else None.

(** [d.toISOString()]: a RangeError on an invalid date. *)
Definition toISOString (d : JsDate) : Completion string :=
  match d with
  | Some t => Normal (iso_string t)
  | None => Throw RangeError
  end.

(** MakeDay of ECMA-262 for a month in range: the day number of [y]-[m]-[d]. *)
Definition is_leap (y : Z) : bool :=
  ((y mod 4 =? 0) && negb (y mod 100 =? 0)) || (y mod 400 =? 0).

Definition leap_day (y : Z) : Z := if is_leap y then 1 else 0.

Definition day_from_year (y : Z) : Z :=
  365 * (y - 1970) + (y - 1969) / 4 - (y - 1901) / 100 + (y - 1601) / 400.

Definition days_in_month (y m : Z) : Z :=
  if m =? 2 then (if is_leap y then 29 else 28)
  else if (m =? 4) || (m =? 6) || (m =? 9) || (m =? 11) then 30
  else 31.

Fixpoint days_before_month (y : Z) (m : nat) : Z :=
  match m with
  | O => 0
  | S m' => days_before_month y m' + days_in_month y (Z.of_nat m)
  end.

Definition days_from_civil (y m d : Z) : Z :=
  day_from_year y + days_before_month y (Z.to_nat (m - 1)) + (d - 1).

(** Fixed-width decimal field at the head of [s]. *)
Fixpoint take (n : nat) (s : string) : option (string * string) :=
  match n with
  | O => Some (EmptyString, s)
  | S n' =>
      match s with
      | EmptyString => None
      | String c s' =>
          match take n' s' with
          | Some (h, r) => Some (String c h, r)
          | None => None
          end
      end
  end.

Definition field (n : nat) (s : string) : option (Z * string) :=
  match take n s with
  | Some (h, r) =>
      match digits_value 0 h with
      | Some v => Some (v, r)
      | None => None
      end
  | None => None
  end.

Definition expect (c : ascii) (s : string) : option string :=
  match s with
  | String c' r => if Ascii.eqb c c' then Some r else None
  | EmptyString => None
  end.

Definition obind {A B} (o : option A) (k : A -> option B) : option B :=
  match o with
  | Some a => k a
  | None => None
  end.

Definition year_field (s : string) : option (Z * string) :=
  match s with
  | String "+"%char r => field 6 r
  | String "-"%char r =>
      obind (field 6 r) (fun '(y, r') => if y =? 0 then None else Some (- y, r'))
  | _ => field 4 s
  end.

(** [Date.parse] on the complete Date Time String Format with the [Z]
    offset (ECMA-262, 21.4.1.32): the time value, or [None] when the text
    is not of that form or names no instant. *)
Definition Date_parse_iso (s : string) : JsDate :=
  obind (year_field s) (fun '(y, s) =>
  obind (expect "-" s) (fun s =>
  obind (field 2 s) (fun '(m, s) =>
  obind (expect "-" s) (fun s =>
  obind (field 2 s) (fun '(d, s) =>
  obind (expect "T" s) (fun s =>
  obind (field 2 s) (fun '(h, s) =>
  obind (expect ":" s) (fun s =>
  obind (field 2 s) (fun '(mi, s) =>
  obind (expect ":" s) (fun s =>
  obind (field 2 s) (fun '(sec, s) =>
  obind (expect "." s) (fun s =>
  obind (field 3 s) (fun '(ms, s) =>
  if String.eqb s "Z" then
    if (1 <=? m) && (m <=? 12) && (1 <=? d) && (d <=? days_in_month y m) &&
       (h <=? 24) && (mi <=? 59) && (sec <=? 59) &&
       ((h <? 24) || ((mi =? 0) && (sec =? 0) && (ms =? 0)))
    then
      let t := days_from_civil y m d * ms_per_day
               + h * 3600000 + mi * 60000 + sec * 1000 + ms in
      if Z.abs t <=? max_time then Some t else None
    else None
  else None))))))))))))).

(* ================================================================== *)
(** * JSON *)
(* ================================================================== *)

Definition hex_char (n : nat) : ascii :=
  if (n <? 10)%nat then ascii_of_nat (48 + n) else ascii_of_nat (87 + n).

(** One code unit of QuoteJSONString (ECMA-262, 25.5.2.3). *)
Definition quote_char (c : ascii) : string :=
  let n := nat_of_ascii c in
  if (n =? 8)%nat then "\b"
  else if (n =? 9)%nat then "\t"
  else if (n =? 10)%nat then "\n"
  else if (n =? 12)%nat then "\f"
  else if (n =? 13)%nat then "\r"
  else if (n =? 34)%nat then String backslash (String dquote EmptyString)
  else if (n =? 92)%nat then "\\"
  else if (n <? 32)%nat then
    "\u00" ++ String (hex_char (n / 16)) (String (hex_char (n mod 16)) EmptyString)
  else String c EmptyString.

Fixpoint quote_body (s : string) : string :=
  match s with
  | EmptyString => EmptyString
  | String c s' => quote_char c ++ quote_body s'
  end.

Definition quote (s : string) : string :=
  String dquote (quote_body s ++ String dquote EmptyString).

Definition lf : string := String newline EmptyString.

(** Wrap the serialised [members] of an array or object, one per line,
    indented one level deeper than [indent]. *)
Definition wrap (opening closing indent : string) (members : list string) : string :=
  match members with
  | [] => opening ++ closing
  | _ =>
      let inner := indent ++ "  " in
      opening ++ lf ++ inner ++ join ("," ++ lf ++ inner) members
      ++ lf ++ indent ++ closing
  end.

(** SerializeJSONProperty with a gap of two spaces, at the indentation
    [indent]; an undefined array element prints as [null], an undefined
    property is left out. *)
Fixpoint serialize (indent : string) (v : JsVal) {struct v} : string :=
  match v with
  | JUndefined | JNull => "null"
  | JBool true => "true"
  | JBool false => "false"
  | JNum n => number_to_string n
  | JStr s => quote s
  | JArr items => wrap "[" "]" indent (map (serialize (indent ++ "  ")) items)
  | JObj props =>
      wrap "{" "}" indent
        ((fix members (ps : list (string * JsVal)) : list string :=
            match ps with
            | [] => []
            | (_, JUndefined) :: ps' => members ps'
            | (k, x) :: ps' =>
                (quote k ++ ": " ++ serialize (indent ++ "  ") x) :: members ps'
            end) props)
  end.

(** [JSON.stringify(v, null, 2)]; [None] is the result [undefined]. *)
Definition JSON_stringify (v : JsVal) : option string :=
  match v with
  | JUndefined => None
  | _ => Some (serialize "" v)
  end.

(** The state of a parser: a value and the text that is left, a syntax
    error, or a text the embedding has no value for (a number that is not a
    safe integer, a code unit above 255). *)
Inductive Parse (A : Type) : Type :=
| Parsed (a : A) (rest : string)
| Malformed
| Unsupported.

Arguments Parsed {A} a rest.
Arguments Malformed {A}.
Arguments Unsupported {A}.

Definition pmap {A B} (f : A -> B) (p : Parse A) : Parse B :=
  match p with
  | Parsed a r => Parsed (f a) r
  | Malformed => Malformed
  | Unsupported => Unsupported
  end.

Definition is_json_space (c : ascii) : bool :=
  let n := nat_of_ascii c in
  ((n =? 32) || (n =? 9) || (n =? 10) || (n =? 13))%nat.

Fixpoint skip_ws (s : string) : string :=
  match s with
  | EmptyString => EmptyString
  | String c s' => if is_json_space c then skip_ws s' else s
  end.

Definition hex_value (c : ascii) : option nat :=
  let n := nat_of_ascii c in
  if is_digit c then Some (n - 48)%nat
  else if ((65 <=? n) && (n <=? 70))%nat then Some (n - 55)%nat
  else if ((97 <=? n) && (n <=? 102))%nat then Some (n - 87)%nat
  else None.

Definition hex4 (a b c d : ascii) : option nat :=
  match hex_value a, hex_value b, hex_value c, hex_value d with
  | Some x, Some y, Some z, Some t => Some (((x * 16 + y) * 16 + z) * 16 + t)%nat
  | _, _, _, _ => None
  end.

(** The character named by a one-letter escape. *)
Definition unescape (e : ascii) : option ascii :=
  let n := nat_of_ascii e in
  if (n =? 34)%nat then Some dquote
  else if (n =? 92)%nat then Some backslash
  else if (n =? 47)%nat then Some "/"%char
  else if (n =? 98)%nat then Some "008"%char
  else if (n =? 102)%nat then Some "012"%char
  else if (n =? 110)%nat then Some "010"%char
  else if (n =? 114)%nat then Some "013"%char
  else if (n =? 116)%nat then Some "009"%char
  else None.

(** A JSON string, from just after its opening quote. *)
Fixpoint parse_string_body (s : string) : Parse string :=
  match s with
  | EmptyString => Malformed
  | String c rest =>
      if Ascii.eqb c dquote then Parsed EmptyString rest
      else if Ascii.eqb c backslash then
        match rest with
        | EmptyString => Malformed
        | String e rest1 =>
            if Ascii.eqb e "u" then
              match rest1 with
              | String h1 (String h2 (String h3 (String h4 rest2))) =>
                  match hex4 h1 h2 h3 h4 with
                  | Some n =>
                      if (n <? 256)%nat
                      then pmap (String (ascii_of_nat n)) (parse_string_body rest2)
                      else Unsupported
                  | None => Malformed
                  end
              | _ => Malformed
              end
            else
              match unescape e with
              | Some ch => pmap (String ch) (parse_string_body rest1)
              | None => Malformed
              end
        end
      else if (nat_of_ascii c <? 32)%nat then Malformed
      else pmap (String c) (parse_string_body rest)
  end.

Definition max_safe_integer : Z := 9007199254740991.

(** The digits of a JSON integer: a single [0], or a run of digits. *)
Definition parse_digits (s : string) : Parse Z :=
  match s with
  | String "0"%char rest => Parsed 0 rest
  | _ =>
      let (n, rest) := span_digits s in
      match take n s with
      | Some (ds, _) =>
          match digits_value 0 ds with
          | Some v => if (n =? 0)%nat then Malformed else Parsed v rest
          | None => Malformed
          end
      | None => Malformed
      end
  end.

(** A JSON number; fractions, exponents and unsafe integers are outside
    the embedding. *)
Definition parse_number (s : string) : Parse Z :=
  let (negative, s1) :=
    match s with
    | String "-"%char r => (true, r)
    | _ => (false, s)
    end in
  match parse_digits s1 with
  | Parsed v rest =>
      match rest with
      | String c _ =>
          if Ascii.eqb c "." || one_of c "e" "E" then Unsupported
          else if v <=? max_safe_integer
               then Parsed (if negative then - v else v) rest else Unsupported
      | EmptyString =>
          if v <=? max_safe_integer
          then Parsed (if negative then - v else v) rest else Unsupported
      end
  | Malformed => Malformed
  | Unsupported => Unsupported
  end.

Fixpoint strip_prefix (p s : string) : option string :=
  match p, s with
  | EmptyString, _ => Some s
  | String a p', String b s' => if Ascii.eqb a b then strip_prefix p' s' else None
  | String _ _, EmptyString => None
  end.

Definition parse_literal (s : string) : Parse JsVal :=
  match strip_prefix "true" s, strip_prefix "false" s, strip_prefix "null" s with
  | Some r, _, _ => Parsed (JBool true) r
  | _, Some r, _ => Parsed (JBool false) r
  | _, _, Some r => Parsed JNull r
  | _, _, _ => Malformed
  end.

(** Recursive descent over the JSON grammar; [fuel] bounds the number of
    nested calls and running out of it is reported as [Unsupported]. *)
Fixpoint parse_value (fuel : nat) (s : string) : Parse JsVal :=
  match fuel with
  | O => Unsupported
  | S fuel' =>
      match skip_ws s with
      | EmptyString => Malformed
      | String c rest as t =>
          if Ascii.eqb c "{" then
            match skip_ws rest with
            | String "}"%char r => Parsed (JObj []) r
            | t' => parse_members fuel' t' []
            end
          else if Ascii.eqb c "[" then
            match skip_ws rest with
            | String "]"%char r => Parsed (JArr []) r
            | t' => parse_elements fuel' t' []
            end
          else if Ascii.eqb c dquote then pmap JStr (parse_string_body rest)
          else if Ascii.eqb c "-" || is_digit c then pmap JNum (parse_number t)
          else parse_literal t
      end
  end

with parse_elements (fuel : nat) (s : string) (acc : list JsVal) : Parse JsVal :=
  match fuel with
  | O => Unsupported
  | S fuel' =>
      match parse_value fuel' s with
      | Parsed v r =>
          match skip_ws r with
          | String ","%char r' => parse_elements fuel' r' (acc ++ [v])
          | String "]"%char r' => Parsed (JArr (acc ++ [v])) r'
          | _ => Malformed
          end
      | Malformed => Malformed
      | Unsupported => Unsupported
      end
  end

with parse_members (fuel : nat) (s : string) (acc : Props) : Parse JsVal :=
  match fuel with
  | O => Unsupported
  | S fuel' =>
      match skip_ws s with
      | String c r =>
          if Ascii.eqb c dquote then
            match parse_string_body r with
            | Parsed k r1 =>
                match skip_ws r1 with
                | String ":"%char r2 =>
                    match parse_value fuel' r2 with
                    | Parsed v r3 =>
                        match skip_ws r3 with
                        | String ","%char r4 =>
                            parse_members fuel' r4 (define_property k v acc)
                        | String "}"%char r4 =>
                            Parsed (JObj (define_property k v acc)) r4
                        | _ => Malformed
                        end
                    | Malformed => Malformed
                    | Unsupported => Unsupported
                    end
                | _ => Malformed
                end
            | Malformed => Malformed
            | Unsupported => Unsupported
            end
          else Malformed
      | EmptyString => Malformed
      end
  end.

(** [JSON.parse(text)]: the value, a SyntaxError, or [None] for a text
    outside the embedding. *)
Definition JSON_parse (text : string) : option (Completion JsVal) :=
  match parse_value (2 * String.length text + 2) text with
  | Parsed v rest =>
      match skip_ws rest with
      | EmptyString => Some (Normal v)
      | _ => Some (Throw SyntaxError)
      end
  | Malformed => Some (Throw SyntaxError)
  | Unsupported => None
  end.

(* ================================================================== *)
(** * The ambient world: random source and clock *)
(* ================================================================== *)

(** The [k]-th call that reads the world answers [Math_random w k] when it
    is [Math.random()] and [Date_now w k] when it reads the clock. *)
Record World : Type := {
  Math_random : nat -> Q;
  Date_now : nat -> Z
}.

(** Code that reads the world: the number of reads so far is threaded
    through, and an exception aborts the computation. *)
Definition Eff (A : Type) : Type := nat -> Completion (A * nat).

Definition ret {A} (a : A) : Eff A := fun n => Normal (a, n).

Definition bind {A B} (m : Eff A) (k : A -> Eff B) : Eff B :=
  fun n =>
    match m n with
    | Normal (a, n') => k a n'
    | Throw e => Throw e
    end.

Definition lift {A} (c : Completion A) : Eff A :=
  fun n =>
    match c with
    | Normal a => Normal (a, n)
    | Throw e => Throw e
    end.

Notation "x <- m ;; k" := (bind m (fun x => k))
  (at level 61, m at next level, right associativity).

(** [Math.random()] *)
Definition random (w : World) : Eff Q := fun n => Normal (Math_random w n, S n).

(** [Date.now()] *)
Definition now (w : World) : Eff Z := fun n => Normal (Date_now w n, S n).

(** [Math.floor(Math.random() * 1000)] *)
Definition random_below_1000 (w : World) : Eff JsVal :=
  r <- random w ;; ret (JNum (Qfloor (r * 1000))).

(* ================================================================== *)
(** * DataGeneratorService *)
(* ================================================================== *)

(** [interface DatasetGenerationOptions]; an optional field that is absent
    is [None]. *)
Record DatasetGenerationOptions : Type := {
  domain : string;
  data_type : string;
  sourceData : list JsVal;
  schema : JsVal;
  description : option string;
  isGuest : option bool;
  rowCount : option Z;
  quality_level : option string;
  privacy_level : option string
}.

Record Metadata : Type := {
  rowsGenerated : JsVal;
  columnsGenerated : Z;
  generationMethod : string
}.

(** The object that [generateSyntheticDataset] resolves to. *)
Record GenerationResult : Type := {
  data : JsVal;
  metadata : Metadata;
  qualityScore : Z;
  privacyScore : Z;
  biasScore : Z
}.

(** The object that [generateFallbackSchema] returns. *)
Module SchemaResult.
Record t : Type := {
  schema : Props;
  sampleData : list JsVal;
  detectedDomain : string
}.
End SchemaResult.

(** The object that [processUploadedData] resolves to; [analysis] is the
    constant [{ domain: 'custom', quality: { score: 85 } }]. *)
Module Upload.
Record t : Type := {
  data : list JsVal;
  schema : Props;
  rowCount : Z;
  columnCount : Z;
  analysis_domain : string;
  analysis_quality_score : Z
}.
End Upload.

(** An uploaded file: its name and what [FileReader.readAsText] delivers,
    [None] when the read fails. *)
Record File : Type := {
  name : string;
  text : option string
}.

Definition type_of (t : string) : JsVal := JObj [("type", JStr t)].

(** ** generateFallbackSchema *)

Definition healthcare_schema : Props :=
  [ ("patient_id", type_of "string"); ("name", type_of "string");
    ("age", type_of "number"); ("condition", type_of "string");
    ("treatment", type_of "string"); ("admission_date", type_of "date") ].

Definition finance_schema : Props :=
  [ ("account_id", type_of "string"); ("customer_name", type_of "string");
    ("transaction_amount", type_of "number"); ("transaction_type", type_of "string");
    ("transaction_date", type_of "date"); ("balance", type_of "number") ].

Definition retail_schema : Props :=
  [ ("customer_id", type_of "string"); ("product_name", type_of "string");
    ("category", type_of "string"); ("price", type_of "number");
    ("quantity", type_of "number"); ("purchase_date", type_of "date") ].

Definition generic_schema : Props :=
  [ ("id", type_of "string"); ("name", type_of "string");
    ("value", type_of "number"); ("category", type_of "string");
    ("created_at", type_of "date") ].

Definition domain_schema (domain : string) : Props :=
  if String.eqb domain "healthcare" then healthcare_schema
  else if String.eqb domain "finance" then finance_schema
  else if String.eqb domain "retail" then retail_schema
  else generic_schema.

(** The [switch (fieldType)] of the sample-data loop (lines 168-180). *)
Definition sample_value (w : World) (fieldType : JsVal) (key : string) (i : Z)
  : Eff JsVal :=
  if strict_eq_str fieldType "string" then
    ret (JStr ("Sample " ++ key ++ " " ++ number_to_string (i + 1)))
  else if strict_eq_str fieldType "number" then
    random_below_1000 w
  else if strict_eq_str fieldType "date" then
    t <- now w ;;
    s <- lift (toISOString (Some t)) ;;
    ret (JStr s)
  else
    ret (JStr ("Value " ++ number_to_string (i + 1))).

(** The [switch (fieldType)] of the row loop (lines 233-248). *)
Definition fallback_value (w : World) (fieldType : JsVal) (key : string) (i : Z)
  : Eff JsVal :=
  if strict_eq_str fieldType "string" then
    ret (JStr ("Generated " ++ key ++ " " ++ number_to_string (i + 1)))
  else if strict_eq_str fieldType "number" then
    random_below_1000 w
  else if strict_eq_str fieldType "boolean" then
    r <- random w ;; ret (JBool (negb (Qle_bool r (1 # 2))))
  else if strict_eq_str fieldType "date" then
    t <- now w ;;
    r <- random w ;;
    s <- lift (toISOString
                 (Date_of_number (inject_Z t - r * 365 * 24 * 60 * 60 * 1000))) ;;
    ret (JStr s)
  else
    ret (JStr ("Value " ++ number_to_string (i + 1))).

(** [Object.keys(schema).forEach(key => { ... row[key] = ... })], for
    either of the two switches. *)
Fixpoint fill_row (value : JsVal -> string -> Z -> Eff JsVal)
    (schema : JsVal) (i : Z) (ks : list string) (row : Props) : Eff Props :=
  match ks with
  | [] => ret row
  | key :: ks' =>
      descriptor <- lift (get schema key) ;;
      fieldType <- lift (get descriptor "type") ;;
      v <- value fieldType key i ;;
      fill_row value schema i ks' (obj_set key v row)
  end.

(** [for (let i = ...; i < ...; i++) { ...; data.push(row) }] with [n]
    iterations left. *)
Fixpoint rows_loop (value : JsVal -> string -> Z -> Eff JsVal)
    (schema : JsVal) (n : nat) (i : Z) (data : list JsVal) : Eff (list JsVal) :=
  match n with
  | O => ret data
  | S n' =>
      ks <- lift (Object_keys schema) ;;
      row <- fill_row value schema i ks [] ;;
      rows_loop value schema n' (i + 1) (data ++ [JObj row])
  end.

Definition generateFallbackSchema (w : World) (domain : string)
  : Eff SchemaResult.t :=
  let schema := domain_schema domain in
  sampleData <- rows_loop (sample_value w) (JObj schema) 3 0 [] ;;
  ret {| SchemaResult.schema := schema;
         SchemaResult.sampleData := sampleData;
         SchemaResult.detectedDomain := domain |}.

(** ** generateFallbackData *)

Definition generateFallbackData (w : World) (options : DatasetGenerationOptions)
  : Eff GenerationResult :=
  let schema := schema options in
  let rowCount := match rowCount options with Some n => n | None => 1000 end in
  data <- rows_loop (fallback_value w) schema (Z.to_nat rowCount) 0 [] ;;
  ks <- lift (Object_keys schema) ;;
  ret {| data := JArr data;
         metadata := {| rowsGenerated := JNum (Z.of_nat (List.length data));
                        columnsGenerated := Z.of_nat (List.length ks);
                        generationMethod := "local_fallback" |};
         qualityScore := 85;
         privacyScore := 90;
         biasScore := 88 |}.

(** ** generateSyntheticDataset *)

(** What [fetch] and [response.json()] come to: the request fails, or a
    response arrives with its [ok] flag and a body that parses as JSON or
    does not. *)
Inductive FetchOutcome : Type :=
| NetworkFailure
| Response (ok : bool) (body : Completion JsVal).

(** The object built at lines 205-215 from the parsed body. *)
Definition remote_result (result : JsVal) : Completion GenerationResult :=
  cbind (get result "data") (fun d =>
  cbind (Object_keys (js_or (get_opt d "0") (JObj []))) (fun ks =>
  Normal {| data := d;
            metadata := {| rowsGenerated := js_or (get_opt d "length") (JNum 0);
                           columnsGenerated := Z.of_nat (List.length ks);
                           generationMethod := "backend_local" |};
            qualityScore := 95;
            privacyScore := 98;
            biasScore := 92 |})).

Definition generateSyntheticDataset (w : World) (options : DatasetGenerationOptions)
    (outcome : FetchOutcome) : Eff GenerationResult :=
  match outcome with
  | Response true (Normal result) =>
      match remote_result result with
      | Normal r => ret r
      | Throw _ => generateFallbackData w options
      end
  | _ => generateFallbackData w options
  end.

(** ** processUploadedData *)

(** [values[index] || ''] *)
Definition value_at (values : list string) (index : nat) : JsVal :=
  js_or (match nth_error values index with
         | Some s => JStr s
         | None => JUndefined
         end) (JStr "").

(** [headers.forEach((header, index) => { obj[header] = values[index] || '' })] *)
Fixpoint fill_object (values : list string) (headers : list string) (index : nat)
    (obj : Props) : Props :=
  match headers with
  | [] => obj
  | header :: headers' =>
      fill_object values headers' (S index) (obj_set header (value_at values index) obj)
  end.

(** [Object.values(row).some(val => val !== '')] *)
Definition some_non_empty (row : JsVal) : bool :=
  match row with
  | JObj props => existsb (fun val => negb (strict_eq_str val "")) (values props)
  | _ => false
  end.

(** The CSV branch (lines 44-53). *)
Definition parse_csv (text : string) : list JsVal :=
  let lines := split newline text in
  let headers := map trim (split comma (hd "" lines)) in
  filter some_non_empty
    (map (fun line =>
            let values := map trim (split comma line) in
            JObj (fill_object values headers 0 []))
         (tl lines)).

(** [new Date(v).toString() !== 'Invalid Date'].  What [Date.parse] accepts
    beyond the ISO format is left to the implementation by ECMA-262, hence
    the parameter [date_parses]. *)
Definition Date_valid (date_parses : string -> bool) (v : JsVal) : bool :=
  match v with
  | JUndefined => false
  | JNull | JBool _ => true
  | JNum n => Z.abs n <=? max_time
  | JStr s => date_parses s
  | JArr _ | JObj _ => date_parses (to_string v)
  end.

(** The type chosen for one sample value (lines 61-69). *)
Definition infer_type (date_parses : string -> bool) (sampleValue : JsVal) : string :=
  if negb (Number_isNaN sampleValue) then "number"
  else if strict_eq_str sampleValue "true" || strict_eq_str sampleValue "false"
  then "boolean"
  else if Date_valid date_parses sampleValue then "date"
  else "string".

(** [Object.keys(data[0]).forEach(key => { ... schema[key] = { type } })];
    [Number(sampleValue)] comes first and raises a TypeError on a value
    that does not convert. *)
Fixpoint infer_fields (date_parses : string -> bool) (first : JsVal)
    (ks : list string) (schema : Props) : Completion Props :=
  match ks with
  | [] => Normal schema
  | key :: ks' =>
      cbind (get first key) (fun sampleValue =>
      if to_primitive_throws sampleValue then Throw TypeError
      else
        infer_fields date_parses first ks'
          (obj_set key (type_of (infer_type date_parses sampleValue)) schema))
  end.

Definition infer_schema (date_parses : string -> bool) (data : list JsVal)
  : Completion Props :=
  match data with
  | [] => Normal []
  | first :: _ =>
      cbind (Object_keys first) (fun ks => infer_fields date_parses first ks [])
  end.

(** The rows read from the file.  [data] is declared [any[]]: a JSON
    document that is not an array has no counterpart in the embedding
    ([None]), like a document that [JSON_parse] does not cover. *)
Definition read_rows (file_name text : string) : option (Completion (list JsVal)) :=
  if endsWith file_name ".json" then
    match JSON_parse text with
    | Some (Normal (JArr rows)) => Some (Normal rows)
    | Some (Normal _) => None
    | Some (Throw e) => Some (Throw e)
    | None => None
    end
  else if endsWith file_name ".csv" then Some (Normal (parse_csv text))
  else Some (Normal []).

(** [Normal] is a promise that resolves, [Throw] one that rejects. *)
Definition processUploadedData (date_parses : string -> bool) (file : File)
  : option (Completion Upload.t) :=
  match text file with
  | None => Some (Throw (Failure "Failed to read file"))
  | Some text =>
      match read_rows (name file) text with
      | None => None
      | Some (Throw e) => Some (Throw e)
      | Some (Normal data) =>
          Some (cbind (infer_schema date_parses data) (fun schema =>
                Normal {| Upload.data := data;
                          Upload.schema := schema;
                          Upload.rowCount := Z.of_nat (List.length data);
                          Upload.columnCount := Z.of_nat (List.length (keys schema));
                          Upload.analysis_domain := "custom";
                          Upload.analysis_quality_score := 85 |}))
      end
  end.

(** ** exportData *)

(** [typeof value === 'string' ? `"${value}"` : value] *)
Definition csv_cell (value : JsVal) : JsVal :=
  match value with
  | JStr s => JStr (String dquote (s ++ String dquote EmptyString))
  | _ => value
  end.

(** [headers.map(header => ...)] over one row. *)
Fixpoint csv_values (row : JsVal) (headers : list string) : Completion (list JsVal) :=
  match headers with
  | [] => Normal []
  | header :: headers' =>
      cbind (get row header) (fun value =>
      cbind (csv_values row headers') (fun rest =>
      Normal (csv_cell value :: rest)))
  end.

(** [data.forEach(row => { ...; csvRows.push(values.join(',')) })] *)
Fixpoint csv_rows (headers : list string) (data : list JsVal) (csvRows : list string)
  : Completion (list string) :=
  match data with
  | [] => Normal csvRows
  | row :: data' =>
      cbind (csv_values row headers) (fun values =>
      cbind (array_join "," values) (fun line =>
      csv_rows headers data' (csvRows ++ [line])))
  end.

Definition export_json (data : list JsVal) : string := serialize "" (JArr data).

(** [format] is [None] when the caller leaves the argument out. *)
Definition exportData (data : list JsVal) (format : option string) : Completion string :=
  let format := match format with Some f => f | None => "csv" end in
  if String.eqb format "json" then Normal (export_json data)
  else if String.eqb format "csv" then
    match data with
    | [] => Normal ""
    | first :: _ =>
        cbind (Object_keys first) (fun headers =>
        cbind (csv_rows headers data [join "," headers]) (fun csvRows =>
        Normal (join lf csvRows)))
    end
  else Normal (export_json data).

(** ** generateSchemaFromDescription *)

(** The object literal [{ schema, sampleData, detectedDomain }] that
    [generateFallbackSchema] returns, as a value. *)
Definition schema_result_value (r : SchemaResult.t) : JsVal :=
  JObj [ ("schema", JObj (SchemaResult.schema r));
         ("sampleData", JArr (SchemaResult.sampleData r));
         ("detectedDomain", JStr (SchemaResult.detectedDomain r)) ].

(** Lines 94-118: the body of an [ok] answer is returned as it is; a failed
    request, another status or a body that does not parse leads to
    [generateFallbackSchema(domain)].  The description and the data type
    only travel in the request. *)
Definition generateSchemaFromDescription (w : World)
    (description domain dataType : string) (outcome : FetchOutcome) : Eff JsVal :=
  match outcome with
  | Response true (Normal result) => ret result
  | _ => r <- generateFallbackSchema w domain ;; ret (schema_result_value r)
  end.

(** ** The standalone exports [generateSyntheticData] and [generateMockData] *)

Module Standalone.

(** [interface DataGenerationOptions] *)
Record DataGenerationOptions : Type := {
  dataType : string;
  numRows : Z;
  schema : JsVal;
  includeHeaders : option bool;
  format : option string
}.

(** The [metadata] of [interface GenerationResult]; [rowCount] is whatever
    [.length] of the data is. *)
Module Metadata.
Record t : Type := {
  rowCount : JsVal;
  columns : list string;
  generationTime : Z;
  format : string
}.
End Metadata.

(** [interface GenerationResult] *)
Record GenerationResult : Type := {
  data : JsVal;
  metadata : Metadata.t
}.

(** The [switch (fieldType)] of [generateMockData] (lines 354-369). *)
Definition mock_value (w : World) (fieldType : JsVal) (key : string) (i : Z)
  : Eff JsVal :=
  if strict_eq_str fieldType "string" then
    ret (JStr ("Sample " ++ key ++ " " ++ number_to_string (i + 1)))
  else if strict_eq_str fieldType "number" then
    random_below_1000 w
  else if strict_eq_str fieldType "boolean" then
    r <- random w ;; ret (JBool (negb (Qle_bool r (1 # 2))))
  else if strict_eq_str fieldType "date" then
    t <- now w ;;
    r <- random w ;;
    s <- lift (toISOString
                 (Date_of_number (inject_Z t - r * 365 * 24 * 60 * 60 * 1000))) ;;
    ret (JStr s)
  else
    ret (JStr ("Value " ++ number_to_string (i + 1))).

(** Lines 344-376. *)
Definition generateMockData (w : World) (options : DataGenerationOptions)
  : Eff (list JsVal) :=
  rows_loop (mock_value w) (schema options) (Z.to_nat (numRows options)) 0 [].

(** [options.format || 'json'] *)
Definition format_or_json (options : DataGenerationOptions) : string :=
  match format options with
  | Some f => if String.eqb f "" then "json" else f
  | None => "json"
  end.

(** The object returned from the [try] block (lines 316-324). *)
Definition remote_result (options : DataGenerationOptions) (generationTime : Z)
    (result : JsVal) : Completion GenerationResult :=
  cbind (get result "data") (fun d =>
  cbind (get d "length") (fun n =>
  cbind (get d "0") (fun first =>
  cbind (Object_keys (js_or first (JObj []))) (fun ks =>
  Normal {| data := d;
            metadata := {| Metadata.rowCount := n;
                           Metadata.columns := ks;
                           Metadata.generationTime := generationTime;
                           Metadata.format := format_or_json options |} |})))).

(** The [catch] block (lines 325-341); an exception of [generateMockData]
    is not caught. *)
Definition mock_result (w : World) (options : DataGenerationOptions) (startTime : Z)
  : Eff GenerationResult :=
  mockData <- generateMockData w options ;;
  t <- now w ;;
  ks <- lift (Object_keys (js_or (nth 0 mockData JUndefined) (JObj []))) ;;
  ret {| data := JArr mockData;
         metadata := {| Metadata.rowCount := JNum (Z.of_nat (List.length mockData));
                        Metadata.columns := ks;
                        Metadata.generationTime := t - startTime;
                        Metadata.format := format_or_json options |} |}.

(** Lines 293-342.  The clock is read on entry, once more after the body
    has been parsed, and once more in the [catch] block. *)
Definition generateSyntheticData (w : World) (options : DataGenerationOptions)
    (outcome : FetchOutcome) : Eff GenerationResult :=
  startTime <- now w ;;
  match outcome with
  | Response true (Normal result) =>
      t <- now w ;;
      match remote_result options (t - startTime) result with
      | Normal r => ret r
      | Throw _ => mock_result w options startTime
      end
  | _ => mock_result w options startTime
  end.

End Standalone.

(** ** The page that calls the service ([src/pages/DataGenerator.tsx]) *)

(** The test that [handleGenerateSchema] applies to the answer of
    [generateSchemaFromDescription] (lines 237-239). *)
Definition schema_answer_check (schema : JsVal) : Completion unit :=
  let invalid := Throw (Failure "Generated schema is empty or invalid") in
  if negb (truthy schema) then invalid
  else
    cbind (get schema "schema") (fun fields =>
    if negb (truthy fields) then invalid
    else
      cbind (Object_keys fields) (fun ks =>
      if (List.length ks =? 0)%nat then invalid else Normal tt)).

(** [prev.slice(-n)]: the last [n] elements. *)
Definition slice_last {A} (n : nat) (l : list A) : list A :=
  skipn (List.length l - n) l.

(** The state update of [addRealtimeLog] (lines 97-100); [timestamp] is
    the text of [new Date().toLocaleTimeString()]. *)
Definition addRealtimeLog (timestamp message : string) (prev : list string)
  : list string :=
  let logEntry := "[" ++ timestamp ++ "] " ++ message in
  (slice_last 9 prev ++ [logEntry])%list.

(* ================================================================== *)
(** * Vocabulary of the specifications *)
(* ================================================================== *)

(** [365 * 24 * 60 * 60 * 1000] *)
Definition year_ms : Z := 31536000000.

(** The random source stays in [[0,1)], and the clock reads time values
    from which a year can be subtracted. *)
Definition world_ok (w : World) : Prop :=
  forall k, (0 <= Math_random w k /\ Math_random w k < 1)%Q /\
            year_ms - max_time <= Date_now w k <= max_time.

Definition nullish (v : JsVal) : bool :=
  match v with
  | JUndefined | JNull => true
  | _ => false
  end.

(** A schema object none of whose descriptors is null or undefined. *)
Definition descriptors_defined (fields : Props) : Prop :=
  forallb (fun d => negb (nullish d)) (values fields) = true.

(** The declared type is none of the four that the row loop knows. *)
Definition unknown_type (fieldType : JsVal) : Prop :=
  fieldType <> JStr "string" /\ fieldType <> JStr "number" /\
  fieldType <> JStr "boolean" /\ fieldType <> JStr "date".

Definition same_keys (a b : Props) : Prop :=
  forall k, In k (keys a) <-> In k (keys b).

(** What the row loop stores under [key] in row [i] for a field declared
    [fieldType], when the world is read from its [a]-th read on and up to
    its [b]-th: a date is the text of an instant at most a year before one
    of these clock reads. *)
Definition cell_ok (w : World) (a b : nat) (i : Z) (key : string)
    (fieldType v : JsVal) : Prop :=
  (fieldType = JStr "string" ->
     v = JStr ("Generated " ++ key ++ " " ++ number_to_string (i + 1))) /\
  (fieldType = JStr "number" -> exists z, v = JNum z /\ 0 <= z < 1000) /\
  (fieldType = JStr "boolean" -> exists b, v = JBool b) /\
  (fieldType = JStr "date" ->
     exists t k, (a <= k < b)%nat /\ v = JStr (iso_string t) /\
                 Z.abs t <= max_time /\
                 Date_now w k - year_ms <= t <= Date_now w k) /\
  (unknown_type fieldType -> v = JStr ("Value " ++ number_to_string (i + 1))).

(** What the sample loop of [generateFallbackSchema] stores: a date is the
    text of a clock read itself. *)
Definition sample_ok (w : World) (a b : nat) (i : Z) (key : string)
    (fieldType v : JsVal) : Prop :=
  (fieldType = JStr "string" ->
     v = JStr ("Sample " ++ key ++ " " ++ number_to_string (i + 1))) /\
  (fieldType = JStr "number" -> exists z, v = JNum z /\ 0 <= z < 1000) /\
  (fieldType = JStr "date" ->
     exists k, (a <= k < b)%nat /\ v = JStr (iso_string (Date_now w k))) /\
  (fieldType <> JStr "string" -> fieldType <> JStr "number" ->
   fieldType <> JStr "date" -> v = JStr ("Value " ++ number_to_string (i + 1))).

(** The keys are in the order in which JavaScript lists the own keys of
    an object: no key stands after one that it is listed before. *)
Fixpoint key_order (ks : list string) : bool :=
  match ks with
  | [] => true
  | k :: r => forallb (fun k' => negb (listed_before k' k)) r && key_order r
  end.

(** The keys of [fields] that [row[key] = value] stores in a row: all but
    [__proto__]. *)
Definition stored_keys (row fields : Props) : Prop :=
  forall k, In k (keys row) <-> In k (keys fields) /\ k <> "__proto__".

(** A row that carries, for every field of the schema that a row can
    store, a value accepted by [cell]. *)
Definition row_ok (cell : string -> JsVal -> JsVal -> Prop) (fields row : Props) : Prop :=
  stored_keys row fields /\ NoDup (keys row) /\ key_order (keys row) = true /\
  forall k d, lookup k fields = Some d -> k <> "__proto__" ->
    exists fieldType v,
      get d "type" = Normal fieldType /\ lookup k row = Some v /\ cell k fieldType v.

(** The new key goes to the end of the list when it is listed before
    none of the keys that are there. *)
Definition listed_last (k : string) (ks : list string) : bool :=
  forallb (fun k' => negb (listed_before k k')) ks.

(** [Number(first[k])] raises nothing. *)
Definition sample_converts (first : JsVal) (k : string) : bool :=
  negb (to_primitive_throws (get_opt first k)).

(** The cells of [row] under [headers] convert to strings. *)
Definition row_converts (headers : list string) (row : JsVal) : bool :=
  forallb (sample_converts row) headers.

(** Schema inference gets through the first row: every value of it
    converts to a number. *)
Definition first_row_converts (data : list JsVal) : bool :=
  match data with
  | first :: _ =>
      match Object_keys first with
      | Normal ks => forallb (sample_converts first) ks
      | Throw _ => true
      end
  | [] => true
  end.

(** The members that a plain object inherits from [Object.prototype]
    (ECMA-262, 20.1.3 and B.2.2.1). *)
Definition object_prototype_names : list string :=
  [ "constructor"; "hasOwnProperty"; "isPrototypeOf"; "propertyIsEnumerable";
    "toLocaleString"; "toString"; "valueOf"; "__proto__";
    "__defineGetter__"; "__defineSetter__"; "__lookupGetter__"; "__lookupSetter__" ].

Definition inherited_name (k : string) : bool :=
  existsb (String.eqb k) object_prototype_names.

Definition has_key (k : string) (o : Props) : bool :=
  existsb (String.eqb k) (keys o).

(** [row[k]] is decided by the own properties of the plain object [row]:
    [k] is one of them, or names no inherited member. *)
Definition own_read (row : Props) (k : string) : bool :=
  has_key k row || negb (inherited_name k).

(** The backend call did not deliver a usable body: the request failed,
    the status was not a success, the body did not parse, or it parsed to
    null (on which [result.data] raises inside the [try]). *)
Definition remote_call_fails (outcome : FetchOutcome) : bool :=
  match outcome with
  | Response true (Normal body) => nullish body
  | _ => true
  end.

(** [rowCount = 1000] in the destructuring of [options]. *)
Definition requested_rows (options : DatasetGenerationOptions) : Z :=
  match rowCount options with
  | Some n => n
  | None => 1000
  end.

(** ** Sample inputs *)

(** A world whose draws alternate between 1/4 and 3/4 and whose clock
    starts on 2026-11-02 and advances by a millisecond per read, for an
    hour. *)
Definition demo_world : World :=
  {| Math_random := fun k => if Nat.even k then 1 # 4 else 3 # 4;
     Date_now := fun k => 1793577600000 + Z.min (Z.of_nat k) 3600000 |}.

(** A schema with the four known types, an unknown one, and a descriptor
    without a type. *)
Definition demo_fields : Props :=
  [ ("id", type_of "string"); ("score", type_of "number");
    ("active", type_of "boolean"); ("joined", type_of "date");
    ("blob", type_of "binary"); ("bare", JObj []) ].

(** A schema with a field named [__proto__]. *)
Definition proto_fields : Props :=
  [ ("id", type_of "string"); ("__proto__", type_of "number") ].

Definition request (schema : JsVal) (rowCount : option Z) : DatasetGenerationOptions :=
  {| domain := "custom"; data_type := "tabular"; sourceData := [];
     schema := schema; description := None; isGuest := None;
     rowCount := rowCount; quality_level := None; privacy_level := None |}.

(** A backend body that carries scores of its own. *)
Definition scored_body : JsVal :=
  JObj [ ("data", JArr [JObj [("id", JStr "r1")]]);
         ("qualityScore", JNum 70); ("privacyScore", JNum 60); ("biasScore", JNum 50) ].

Definition one_field : Props := [("id", type_of "string")].

(** A backend body with no rows, and one whose row has a column that the
    schema does not have. *)
Definition empty_body : JsVal := JObj [("data", JArr [])].

Definition wide_body : JsVal :=
  JObj [("data", JArr [JObj [("id", JStr "r1"); ("extra", JNum 7)]])].

(** The CSV text of section 8 of the specification. *)
Definition example_csv : string := "a,b" ++ lf ++ "1,true" ++ lf ++ "2,false".

Definition example_file : File := {| name := "example.csv"; text := Some example_csv |}.

(** Rows with a comma inside a string, a number, a boolean, an empty
    string and a null. *)
Definition example_rows : list JsVal :=
  [ JObj [("name", JStr "Doe, Jane"); ("n", JNum 3); ("ok", JBool true)];
    JObj [("name", JStr ""); ("n", JNull)] ].

(** ** The value rule in the words of the specification *)

(** [part] occurs in [label]. *)
Definition embeds (label part : string) : Prop :=
  exists before after, label = before ++ part ++ after.

(** The value rule of section 4.3 of the specification, for the field
    [key] of the row with the ordinal [i], the world being read from its
    [a]-th read on and up to its [b]-th: a string field holds a label that
    embeds the field name and the 1-based ordinal, a number field an
    integer in [[0, 1000)], a boolean field a boolean, a date field the
    ISO-8601 text of an instant of the 365 days before a clock read, and a
    field of any other type a string that embeds the ordinal. *)
Definition synthesis_rule (w : World) (a b : nat) (i : Z) (key : string)
    (fieldType v : JsVal) : Prop :=
  (fieldType = JStr "string" ->
     exists label, v = JStr label /\ embeds label key
                   /\ embeds label (number_to_string (i + 1)))
  /\ (fieldType = JStr "number" -> exists z, v = JNum z /\ 0 <= z < 1000)
  /\ (fieldType = JStr "boolean" -> exists b, v = JBool b)
  /\ (fieldType = JStr "date" ->
        exists t k, (a <= k < b)%nat /\ v = JStr (iso_string t)
                    /\ Date_now w k - year_ms <= t <= Date_now w k)
  /\ (unknown_type fieldType ->
        exists label, v = JStr label /\ embeds label (number_to_string (i + 1))).

(** ** CSV lines *)

(** The text of one CSV cell: a string between double quotes, as it is;
    null and undefined as nothing; anything else as [String(value)]. *)
Definition cell_text (value : JsVal) : string :=
  match value with
  | JStr s => String dquote (s ++ String dquote EmptyString)
  | JUndefined | JNull => ""
  | _ => to_string value
  end.

(** [line] is the CSV line of [row] under [headers]. *)
Definition csv_line_of (headers : list string) (row : JsVal) (line : string) : Prop :=
  exists cells,
    line = join "," cells
    /\ Forall2 (fun header cell =>
                  exists value, get row header = Normal value
                                /\ cell = cell_text value) headers cells.

(** ** Round trips through the two file formats *)

(** [s] holds no occurrence of [c]. *)
Definition no_char (c : ascii) (s : string) : bool :=
  all_chars (fun x => negb (Ascii.eqb x c)) s.

(** [s] does not end with white space (in particular, [s] may be empty). *)
Fixpoint no_trailing_space (s : string) : bool :=
  match s with
  | EmptyString => true
  | String c EmptyString => negb (is_space c)
  | String _ s' => no_trailing_space s'
  end.

Definition no_leading_space (s : string) : bool :=
  match s with
  | EmptyString => true
  | String c _ => negb (is_space c)
  end.

Definition numeral_char (c : ascii) : bool := is_digit c || Ascii.eqb c "-".

(** A header or cell that the CSV reader gives back as it is. *)
Definition survives (s : string) : Prop :=
  no_char comma s = true /\ no_char newline s = true /\ trim s = s.

(** A value whose CSV cell the reader gives back as it is: a number (a
    safe integer, which is printed digit by digit), a boolean, or a string
    with no comma and no line feed in it. *)
Definition plain_value (v : JsVal) : bool :=
  match v with
  | JStr s => no_char comma s && no_char newline s
  | JNum n => Z.abs n <=? max_safe_integer
  | JBool _ => true
  | _ => false
  end.

(** A value that a CSV line can carry: a plain one, or null or undefined,
    whose cell is empty. *)
Definition csv_value (v : JsVal) : bool := plain_value v || nullish v.

(** The CSV cells of [row] under the headers [ks]. *)
Definition cells_of (ks : list string) (row : JsVal) : list string :=
  map (fun k => cell_text (get_opt row k)) ks.

(** The rows that the CSV reader builds from a table of non-empty cells
    under distinct headers. *)
Definition table_rows (ks : list string) (table : list (list string)) : list JsVal :=
  map (fun cells => JObj (combine ks (map JStr cells))) table.

(** The CSV text of a non-empty row set under the headers [ks]. *)
Definition csv_text (ks : list string) (rows : list JsVal) : string :=
  join lf (join "," ks :: map (fun row => join "," (cells_of ks row)) rows).

(** Every value that [row] holds under the headers [ks] is plain, or is
    null or missing; one at least is there. *)
Definition plain_row (ks : list string) (row : JsVal) : Prop :=
  Forall (fun k => csv_value (get_opt row k) = true) ks
  /\ Exists (fun k => nullish (get_opt row k) = false) ks.

(** A row that the CSV writer takes: a plain object that is a plain row
    and whose cells under the headers [ks] are read from its own
    properties. *)
Definition csv_row (ks : list string) (row : JsVal) : Prop :=
  (exists props, row = JObj props /\ Forall (fun k => own_read props k = true) ks)
  /\ plain_row ks row.

(** Every number that [String(v)] prints is a safe integer; the numbers
    inside an object are not printed. *)
Fixpoint safe_numbers (v : JsVal) : bool :=
  match v with
  | JNum n => Z.abs n <=? max_safe_integer
  | JArr items => forallb safe_numbers items
  | _ => true
  end.

(** A row of a well-formed dataset under the headers [headers]: a plain
    object whose cells are read from its own properties, and hold values
    that convert to a string and print their numbers digit by digit. *)
Definition dataset_row (headers : list string) (row : JsVal) : Prop :=
  exists props,
    row = JObj props
    /\ Forall (fun k => own_read props k = true
                        /\ to_primitive_throws (get_opt row k) = false
                        /\ safe_numbers (get_opt row k) = true) headers.

(** A dataset all of whose rows are rows under the keys of the first,
    which are distinct and in the order of listing, as the keys of an
    object are. *)
Definition well_formed_dataset (data : list JsVal) : Prop :=
  match data with
  | [] => True
  | first :: _ =>
      exists headers, Object_keys first = Normal headers
                      /\ NoDup headers /\ key_order headers = true
                      /\ Forall (dataset_row headers) data
  end.

(** A string value with no comma and no line feed in it. *)
Definition plain_string (v : JsVal) : Prop :=
  exists s, v = JStr s /\ no_char comma s = true /\ no_char newline s = true.

(** The text of one property whose value is a string. *)
Definition member_text (k s : string) : string := quote k ++ ": " ++ quote s.

Definition member_of (p : string * string) : string := member_text (fst p) (snd p).

Definition string_props (pairs : list (string * string)) : Props :=
  map (fun p => (fst p, JStr (snd p))) pairs.

Definition row_text (ks cells : list string) : string :=
  serialize "  " (JObj (combine ks (map JStr cells))).

(** Upload [text] as a file of the given format. *)
Definition upload (date_parses : string -> bool) (format text : string)
  : option (Completion Upload.t) :=
  processUploadedData date_parses
    {| name := "roundtrip." ++ format; text := Some text |}.

(** Export [rows] as [format1], upload the text, export what was read as
    [format2], and upload that. *)
Definition round_trip (date_parses : string -> bool) (format1 format2 : string)
    (rows : list JsVal) : option (Completion Upload.t) :=
  match exportData rows (Some format1) with
  | Throw e => Some (Throw e)
  | Normal text1 =>
      match upload date_parses format1 text1 with
      | Some (Normal r1) =>
          match exportData (Upload.data r1) (Some format2) with
          | Throw e => Some (Throw e)
          | Normal text2 => upload date_parses format2 text2
          end
      | other => other
      end
  end.

(** The rows can go through the CSV writer and reader: the headers, the
    keys of the first row, are distinct, at least one, in the order of
    listing, free of commas, line feeds and surrounding white space, and
    none is [__proto__]; every row is a plain object that gives the headers
    plain values or none, and one value at least. *)
Definition csv_exportable (ks : list string) (rows : list JsVal) : Prop :=
  NoDup ks /\ ks <> [] /\ Forall survives ks
  /\ key_order ks = true /\ ~ In "__proto__" ks
  /\ (exists first rest, rows = first :: rest /\ Object_keys first = Normal ks)
  /\ Forall (csv_row ks) rows.

Definition null_json : string := "[{" ++ quote "a" ++ ":null}]".

Definition staff_keys : list string := ["name"; "age"; "active"].

Definition staff_rows : list JsVal :=
  [ JObj [("name", JStr "Ann Lee"); ("age", JNum 41); ("active", JBool true)];
    JObj [("name", JStr ""); ("age", JNum (-3)); ("active", JBool false)] ].

(** ** Vocabulary of the further properties *)

(** The schema request did not deliver a body: no answer, an answer that
    is not [ok], or a body that does not parse. *)
Definition schema_call_fails (outcome : FetchOutcome) : bool :=
  match outcome with
  | Response true (Normal _) => false
  | _ => true
  end.

(** [{ ...options, schema }], as [handleGenerate] builds its request. *)
Definition with_schema (options : DatasetGenerationOptions) (s : JsVal)
  : DatasetGenerationOptions :=
  {| domain := domain options;
     data_type := data_type options;
     sourceData := sourceData options;
     schema := s;
     description := description options;
     isGuest := isGuest options;
     rowCount := rowCount options;
     quality_level := quality_level options;
     privacy_level := privacy_level options |}.

(** The four types that schema inference can assign. *)
Definition inferred_types : list string := ["number"; "boolean"; "date"; "string"].

Definition typed_descriptor (d : JsVal) : Prop :=
  exists t, d = type_of t /\ In t inferred_types.

(** What [generateMockData] stores under [key] in row [i]: as [cell_ok],
    with the label of the mock generator. *)
Definition mock_ok (w : World) (a b : nat) (i : Z) (key : string)
    (fieldType v : JsVal) : Prop :=
  (fieldType = JStr "string" ->
     v = JStr ("Sample " ++ key ++ " " ++ number_to_string (i + 1))) /\
  (fieldType = JStr "number" -> exists z, v = JNum z /\ 0 <= z < 1000) /\
  (fieldType = JStr "boolean" -> exists b, v = JBool b) /\
  (fieldType = JStr "date" ->
     exists t k, (a <= k < b)%nat /\ v = JStr (iso_string t) /\
                 Z.abs t <= max_time /\
                 Date_now w k - year_ms <= t <= Date_now w k) /\
  (unknown_type fieldType -> v = JStr ("Value " ++ number_to_string (i + 1))).

(** The call of [generateSyntheticData] ends in the [catch] block: no
    answer, an answer that is not [ok], a body that does not parse, or a
    body without [data]. *)
Definition data_missing (outcome : FetchOutcome) : bool :=
  match outcome with
  | Response true (Normal body) => nullish body || nullish (get_opt body "data")
  | _ => true
  end.

(** The clock never goes back. *)
Definition clock_monotone (w : World) : Prop :=
  forall a b, (a <= b)%nat -> Date_now w a <= Date_now w b.

(** Two properties with the same key whose values are equal, or are the
    string labels of the mock generator and of the row synthesizer. *)
Definition relabelled (p q : string * JsVal) : Prop :=
  fst p = fst q /\
  (snd p = snd q \/
   exists ordinal,
     snd p = JStr ("Sample " ++ fst p ++ " " ++ ordinal) /\
     snd q = JStr ("Generated " ++ fst p ++ " " ++ ordinal)).

Definition relabelled_row (r1 r2 : JsVal) : Prop :=
  exists p q, r1 = JObj p /\ r2 = JObj q /\ Forall2 relabelled p q.

(** Two runs end alike: with related results after the same number of
    reads of the world, or with the same exception. *)
Definition runs_agree {A B} (R : A -> B -> Prop)
    (c1 : Completion (A * nat)) (c2 : Completion (B * nat)) : Prop :=
  match c1, c2 with
  | Normal (a, t1), Normal (b, t2) => t1 = t2 /\ R a b
  | Throw e1, Throw e2 => e1 = e2
  | _, _ => False
  end.

(** What an upload with no rows resolves to. *)
Definition empty_upload : Upload.t :=
  {| Upload.data := [];
     Upload.schema := [];
     Upload.rowCount := 0;
     Upload.columnCount := 0;
     Upload.analysis_domain := "custom";
     Upload.analysis_quality_score := 85 |}.

(** A cell as the CSV reader stores it: a trimmed string with no comma and
    no line feed. *)
Definition trimmed_cell (v : JsVal) : Prop :=
  exists s, v = JStr s /\ trim s = s /\ no_char comma s = true /\ no_char newline s = true.

(** A line of commas and white space only. *)
Definition blank_line (l : string) : bool :=
  all_chars (fun c => is_space c || Ascii.eqb c comma) l.

Definition carriage_return : ascii := "013"%char.

Definition crlf : string := String carriage_return lf.

(** [l] with [suffix] appended to its last element. *)
Fixpoint append_to_last (l : list string) (suffix : string) : list string :=
  match l with
  | [] => []
  | [x] => [x ++ suffix]
  | x :: r => x :: append_to_last r suffix
  end.

(** The lines of a text with CR LF line ends, as the reader sees them: each
    one but the last ends with a carriage return. *)
Fixpoint crlf_lines (l : string) (ls : list string) : list string :=
  match ls with
  | [] => [l]
  | l' :: ls' => (l ++ String carriage_return EmptyString) :: crlf_lines l' ls'
  end.

(** The first [width] cells of a line; a short line is filled up with empty
    cells. *)
Definition padded_cells (width : nat) (cells : list string) : list string :=
  map (fun i => nth i cells "") (seq 0 width).

(** The CSV cell of the string [s]. *)
Definition quoted (s : string) : string := String dquote (s ++ String dquote EmptyString).

(** The row that the CSV reader gives back for [row]: every value has
    become the text of its cell. *)
Definition reread (ks : list string) (row : JsVal) : JsVal :=
  JObj (map (fun k => (k, JStr (cell_text (get_opt row k)))) ks).

(** The characters of an ISO date-time text. *)
Definition iso_char (c : ascii) : bool :=
  is_digit c || Ascii.eqb c "-" || Ascii.eqb c "+" || Ascii.eqb c "T"
  || Ascii.eqb c ":" || Ascii.eqb c "." || Ascii.eqb c "Z".

(** The log after the calls [addRealtimeLog(message)] of [entries], each
    with the time stamp it was made at, from the empty log. *)
Definition log_after (entries : list (string * string)) : list string :=
  fold_left (fun prev e => addRealtimeLog (fst e) (snd e) prev) entries [].

Definition log_entry (e : string * string) : string :=
  "[" ++ fst e ++ "] " ++ snd e.

(** ** Further sample inputs *)

Definition mock_request (schema : JsVal) (numRows : Z) (format : option string)
  : Standalone.DataGenerationOptions :=
  {| Standalone.dataType := "tabular";
     Standalone.numRows := numRows;
     Standalone.schema := schema;
     Standalone.includeHeaders := None;
     Standalone.format := format |}.

(** JSON texts with a null row, first and last. *)
Definition null_first_json : string := "[null,{" ++ quote "a" ++ ":1}]".

Definition null_later_json : string := "[{" ++ quote "a" ++ ":1},null]".

(** A JSON text whose row holds an object with a property [toString]. *)
Definition unconvertible_json : string :=
  "[{" ++ quote "a" ++ ":{" ++ quote "toString" ++ ":1}}]".

(** A CSV text with a blank line, a line of commas, a short line and a long
    one. *)
Definition ragged_lines : list string :=
  ["1,true"; ""; " , "; "2"; "3,false,extra"].

(** The rows of [staff_rows], the first one apart. *)
Definition staff_first : JsVal :=
  JObj [("name", JStr "Ann Lee"); ("age", JNum 41); ("active", JBool true)].

Definition staff_rest : list JsVal :=
  [JObj [("name", JStr ""); ("age", JNum (-3)); ("active", JBool false)]].

(** ** JSON texts that parse back *)

(** What may follow a value in JSON text written by [serialize]: nothing,
    a comma, or the line feed before a closing bracket. *)
Definition delimited (tail : string) : bool :=
  match tail with
  | EmptyString => true
  | String c _ => Ascii.eqb c "," || Ascii.eqb c newline
  end.

(** No string occurs twice. *)
Fixpoint distinct (l : list string) : bool :=
  match l with
  | [] => true
  | k :: r => negb (existsb (String.eqb k) r) && distinct r
  end.

(** A value that JSON text carries and the embedding reads back: no
    undefined in it, every number a safe integer, and the keys of every
    object distinct and in the order of listing. *)
Fixpoint json_safe (v : JsVal) : bool :=
  match v with
  | JUndefined => false
  | JNull | JBool _ | JStr _ => true
  | JNum n => Z.abs n <=? max_safe_integer
  | JArr items => forallb json_safe items
  | JObj props =>
      distinct (keys props) && key_order (keys props) &&
      (fix all (ps : list (string * JsVal)) : bool :=
         match ps with
         | [] => true
         | (_, x) :: ps' => json_safe x && all ps'
         end) props
  end.

(** The number of nested calls that the parser makes on the text of [v]. *)
Fixpoint weight (v : JsVal) : nat :=
  match v with
  | JArr items => S (fold_right (fun x n => S (weight x + n)) 0 items)%nat
  | JObj props =>
      S ((fix sum (ps : list (string * JsVal)) : nat :=
            match ps with
            | [] => 0
            | (_, x) :: ps' => S (weight x + sum ps')
            end) props)%nat
  | _ => 1%nat
  end.

Definition items_weight (items : list JsVal) : nat :=
  fold_right (fun x n => S (weight x + n))%nat 0%nat items.

Definition props_weight (props : Props) : nat :=
  fold_right (fun p n => S (weight (snd p) + n))%nat 0%nat props.

(** A run of spaces, as an indentation is. *)
Definition spaces (s : string) : bool := all_chars (fun c => Ascii.eqb c " ") s.

(** The text of one property at the indentation [inner]. *)
Definition member (inner : string) (p : string * JsVal) : string :=
  quote (fst p) ++ ": " ++ serialize inner (snd p).

(** A character that the text of a value can start with: no white space,
    and no closing bracket. *)
Definition opens_value (c : ascii) : bool :=
  negb (is_json_space c) && negb (Ascii.eqb c "]") && negb (Ascii.eqb c "}").

(** The text of [v], at any indentation and before any text that may
    follow a value, parses back to [v] with the fuel that [v] needs. *)
Definition parses_back (v : JsVal) : Prop :=
  json_safe v = true ->
  forall indent tail fuel,
    spaces indent = true -> delimited tail = true -> (weight v <= fuel)%nat ->
    parse_value fuel (serialize indent v ++ tail) = Parsed v tail.

(** The lengths of the strings of [l], added up. *)
Definition sum_lengths (l : list string) : nat :=
  fold_right (fun s n => String.length s + n)%nat 0%nat l.

(** Rows with a string that holds a comma and a quote, a negative number,
    a null and a nested array. *)
Definition nested_rows : list JsVal :=
  [ JObj [("name", JStr "Doe, Jane"); ("n", JNum (-3)); ("tags", JArr [JStr "a"; JNull])];
    JObj [("name", JStr (String dquote "x")); ("ok", JBool false); ("more", JObj [])] ].


(* ================================================================== *)
(** * Properties of objects *)
(* ================================================================== *)

Lemma lookup_in_keys (k : string) (o : Props) :
  In k (keys o) <-> exists v, lookup k o = Some v.
Proof.
  unfold keys. induction o as [|[k0 v0] o IH]; simpl.
  - split; [intros [] | intros [v Hv]; discriminate].
  - destruct (String.eqb k k0) eqn:E.
    + apply String.eqb_eq in E. subst. split; eauto.
    + rewrite IH. split; [intros [Heq|H]; auto|intros H; auto].
      subst. now rewrite String.eqb_refl in E.
Qed.

Lemma lookup_none (k : string) (o : Props) :
  lookup k o = None <-> ~ In k (keys o).
Proof.
  rewrite lookup_in_keys. destruct (lookup k o) as [v|].
  - split; [discriminate|]. intros H. exfalso. apply H. eauto.
  - split; auto. intros _ [v Hv]. discriminate.
Qed.

Lemma stored_keys_same (row fields : Props) :
  stored_keys row fields -> ~ In "__proto__" (keys fields) -> same_keys row fields.
Proof.
  intros H Hp k. rewrite (H k). split; [tauto|]. intros Hk. split; auto.
  intros ->. contradiction.
Qed.

Lemma keys_overwrite (k : string) (v : JsVal) (o : Props) :
  keys (overwrite k v o) = keys o.
Proof.
  unfold keys. induction o as [|[k0 v0] o IH]; simpl; auto.
  destruct (String.eqb k k0) eqn:E; simpl; [|now rewrite IH].
  apply String.eqb_eq in E. now subst.
Qed.

Lemma lookup_overwrite_same (k : string) (v : JsVal) (o : Props) :
  In k (keys o) -> lookup k (overwrite k v o) = Some v.
Proof.
  unfold keys. induction o as [|[k0 v0] o IH]; simpl; [intros []|].
  intros H. destruct (String.eqb k k0) eqn:E; simpl; rewrite ?E.
  - now rewrite String.eqb_refl.
  - apply IH. destruct H as [->|H]; auto. now rewrite String.eqb_refl in E.
Qed.

Lemma lookup_overwrite_other (k k' : string) (v : JsVal) (o : Props) :
  k <> k' -> lookup k' (overwrite k v o) = lookup k' o.
Proof.
  intros Hne. induction o as [|[k0 v0] o IH]; simpl; auto.
  destruct (String.eqb k k0) eqn:E; simpl.
  - apply String.eqb_eq in E. subst k0.
    destruct (String.eqb k' k) eqn:E'; auto.
    apply String.eqb_eq in E'. congruence.
  - now rewrite IH.
Qed.

Lemma keys_insert_key (k k' : string) (v : JsVal) (o : Props) :
  In k' (keys (insert_key k v o)) <-> k' = k \/ In k' (keys o).
Proof.
  unfold keys. induction o as [|[k0 v0] o IH]; simpl.
  - intuition.
  - destruct (listed_before k k0); simpl.
    + intuition.
    + rewrite IH. intuition.
Qed.

Lemma lookup_insert_key_same (k : string) (v : JsVal) (o : Props) :
  lookup k o = None -> lookup k (insert_key k v o) = Some v.
Proof.
  induction o as [|[k0 v0] o IH]; simpl.
  - now rewrite String.eqb_refl.
  - destruct (String.eqb k k0) eqn:E; [discriminate|]. intros H.
    destruct (listed_before k k0); simpl.
    + now rewrite String.eqb_refl.
    + rewrite E. auto.
Qed.

Lemma lookup_insert_key_other (k k' : string) (v : JsVal) (o : Props) :
  k <> k' -> lookup k' (insert_key k v o) = lookup k' o.
Proof.
  intros Hne.
  assert (E : String.eqb k' k = false) by (apply String.eqb_neq; congruence).
  induction o as [|[k0 v0] o IH]; simpl.
  - now rewrite E.
  - destruct (listed_before k k0); simpl.
    + now rewrite E.
    + now rewrite IH.
Qed.

Lemma NoDup_keys_insert_key (k : string) (v : JsVal) (o : Props) :
  ~ In k (keys o) -> NoDup (keys o) -> NoDup (keys (insert_key k v o)).
Proof.
  unfold keys. induction o as [|[k0 v0] o IH]; simpl; intros Hnotin Hnd.
  - constructor; [intros [] | constructor].
  - destruct (listed_before k k0); simpl.
    + constructor; auto.
    + inversion Hnd as [|? ? Hk0 Hnd']; subst. constructor.
      * intros Hin. apply (keys_insert_key k k0 v o) in Hin.
        destruct Hin as [->|Hin]; [|contradiction]. apply Hnotin. now left.
      * apply IH; auto.
Qed.

Lemma insert_key_last (k : string) (v : JsVal) (o : Props) :
  listed_last k (keys o) = true -> insert_key k v o = (o ++ [(k, v)])%list.
Proof.
  unfold listed_last, keys. induction o as [|[k0 v0] o IH]; simpl; auto.
  intros H. apply andb_true_iff in H. destruct H as [H0 H].
  destruct (listed_before k k0); [discriminate|]. f_equal. auto.
Qed.

Lemma key_order_app (ks : list string) (k : string) :
  key_order (ks ++ [k]) = key_order ks && listed_last k ks.
Proof.
  unfold listed_last. induction ks as [|k0 ks IH]; simpl; auto.
  rewrite IH, forallb_app. simpl.
  destruct (listed_before k k0), (forallb (fun k' => negb (listed_before k' k0)) ks),
    (key_order ks), (forallb (fun k' => negb (listed_before k k')) ks); reflexivity.
Qed.

Lemma key_index_canonical (k k' : string) (n : Z) :
  key_index k = Some n -> key_index k' = Some n -> k = k'.
Proof.
  unfold key_index. intros H H'.
  destruct k as [|c k]; [discriminate|]. destruct k' as [|c' k']; [discriminate|].
  destruct (digits_value 0 (String c k)) as [m|]; [|discriminate].
  destruct (digits_value 0 (String c' k')) as [m'|]; [|discriminate].
  destruct (String.eqb (number_to_string m) (String c k)) eqn:E; [|discriminate].
  destruct (String.eqb (number_to_string m') (String c' k')) eqn:E'; [|discriminate].
  simpl in H, H'.
  destruct (m <? 4294967295); [|discriminate].
  destruct (m' <? 4294967295); [|discriminate].
  injection H as ->. injection H' as ->.
  apply String.eqb_eq in E, E'. congruence.
Qed.

Lemma key_order_middle (l : list string) (k : string) (r : list string) :
  key_order (l ++ k :: r) = true -> listed_last k l = true.
Proof.
  unfold listed_last. induction l as [|k0 l IH]; simpl; auto.
  intros H. apply andb_true_iff in H. destruct H as [H0 H].
  rewrite (IH H), andb_true_r.
  rewrite forallb_forall in H0. apply H0. apply in_or_app. right. now left.
Qed.

Lemma key_order_tail (k : string) (r : list string) :
  key_order (k :: r) = true -> key_order r = true.
Proof. simpl. intros H. now apply andb_true_iff in H. Qed.

Lemma listed_before_later (k k0 k2 : string) :
  listed_before k k0 = true -> listed_before k2 k0 = false ->
  listed_before k2 k = false.
Proof.
  unfold listed_before.
  destruct (key_index k) as [n|], (key_index k0) as [n0|], (key_index k2) as [n2|];
    simpl; intros H1 H2; try discriminate; auto.
  apply Z.ltb_lt in H1. apply Z.ltb_ge in H2. apply Z.ltb_ge. lia.
Qed.

Lemma listed_before_irrefl (k k0 : string) :
  listed_before k k0 = true -> listed_before k0 k = false.
Proof.
  unfold listed_before.
  destruct (key_index k) as [n|], (key_index k0) as [n0|]; simpl; intros H;
    try discriminate; auto.
  apply Z.ltb_lt in H. apply Z.ltb_ge. lia.
Qed.

Lemma key_order_insert_key (k : string) (v : JsVal) (o : Props) :
  key_order (keys o) = true -> key_order (keys (insert_key k v o)) = true.
Proof.
  unfold keys. induction o as [|[k0 v0] o IH]; simpl; auto.
  intros H. apply andb_true_iff in H. destruct H as [H0 H].
  destruct (listed_before k k0) eqn:E; simpl.
  - rewrite H0, H. rewrite (listed_before_irrefl _ _ E). simpl.
    rewrite andb_true_r. apply forallb_forall. intros k2 Hk2.
    rewrite forallb_forall in H0. specialize (H0 k2 Hk2).
    apply negb_true_iff in H0. apply negb_true_iff.
    now apply (listed_before_later k k0 k2).
  - rewrite (IH H), andb_true_r. apply forallb_forall. intros k2 Hk2.
    apply (keys_insert_key k k2 v o) in Hk2. destruct Hk2 as [->|Hk2].
    + now rewrite E.
    + rewrite forallb_forall in H0. now apply H0.
Qed.

(** ** [o[k] = v] *)

Lemma lookup_obj_set_same (k : string) (v : JsVal) (o : Props) :
  k <> "__proto__" -> lookup k (obj_set k v o) = Some v.
Proof.
  intros Hk. unfold obj_set. destruct (lookup k o) as [x|] eqn:E.
  - apply lookup_overwrite_same. apply lookup_in_keys. eauto.
  - apply String.eqb_neq in Hk. rewrite Hk. now apply lookup_insert_key_same.
Qed.

Lemma lookup_obj_set_other (k k' : string) (v : JsVal) (o : Props) :
  k <> k' -> lookup k' (obj_set k v o) = lookup k' o.
Proof.
  intros Hne. unfold obj_set. destruct (lookup k o) as [x|] eqn:E.
  - now apply lookup_overwrite_other.
  - destruct (String.eqb k "__proto__"); auto. now apply lookup_insert_key_other.
Qed.

Lemma keys_obj_set (k k' : string) (v : JsVal) (o : Props) :
  In k' (keys (obj_set k v o)) <-> (k' = k /\ k <> "__proto__") \/ In k' (keys o).
Proof.
  unfold obj_set. destruct (lookup k o) as [x|] eqn:E.
  - rewrite keys_overwrite. split; auto. intros [[-> _]|H]; auto.
    apply lookup_in_keys. eauto.
  - destruct (String.eqb k "__proto__") eqn:Ep.
    + apply String.eqb_eq in Ep. intuition.
    + apply String.eqb_neq in Ep. rewrite keys_insert_key. intuition.
Qed.

Lemma NoDup_keys_obj_set (k : string) (v : JsVal) (o : Props) :
  NoDup (keys o) -> NoDup (keys (obj_set k v o)).
Proof.
  intros Hnd. unfold obj_set. destruct (lookup k o) as [x|] eqn:E.
  - now rewrite keys_overwrite.
  - destruct (String.eqb k "__proto__"); auto.
    apply NoDup_keys_insert_key; auto. now apply lookup_none.
Qed.

Lemma key_order_obj_set (k : string) (v : JsVal) (o : Props) :
  key_order (keys o) = true -> key_order (keys (obj_set k v o)) = true.
Proof.
  intros H. unfold obj_set. destruct (lookup k o) as [x|].
  - now rewrite keys_overwrite.
  - destruct (String.eqb k "__proto__"); auto. now apply key_order_insert_key.
Qed.

Lemma obj_set_proto (v : JsVal) (o : Props) :
  ~ In "__proto__" (keys o) -> obj_set "__proto__" v o = o.
Proof.
  intros H. apply lookup_none in H. unfold obj_set. now rewrite H.
Qed.

Lemma obj_set_last (k : string) (v : JsVal) (o : Props) :
  ~ In k (keys o) -> k <> "__proto__" -> listed_last k (keys o) = true ->
  obj_set k v o = (o ++ [(k, v)])%list.
Proof.
  intros Hfresh Hk Hlast. apply lookup_none in Hfresh. apply String.eqb_neq in Hk.
  unfold obj_set. rewrite Hfresh, Hk. now apply insert_key_last.
Qed.

(** ** CreateDataProperty *)

Lemma lookup_define_property_same (k : string) (v : JsVal) (o : Props) :
  lookup k (define_property k v o) = Some v.
Proof.
  unfold define_property. destruct (lookup k o) as [x|] eqn:E.
  - apply lookup_overwrite_same. apply lookup_in_keys. eauto.
  - now apply lookup_insert_key_same.
Qed.

Lemma define_property_last (k : string) (v : JsVal) (o : Props) :
  ~ In k (keys o) -> listed_last k (keys o) = true ->
  define_property k v o = (o ++ [(k, v)])%list.
Proof.
  intros Hfresh Hlast. apply lookup_none in Hfresh.
  unfold define_property. rewrite Hfresh. now apply insert_key_last.
Qed.

Lemma strict_eq_str_true (v : JsVal) (lit : string) :
  strict_eq_str v lit = true <-> v = JStr lit.
Proof.
  destruct v; simpl; try (split; [discriminate | intros H; discriminate]).
  rewrite String.eqb_eq. split; [now intros -> | now intros [= ->]].
Qed.

Lemma strict_eq_str_false (v : JsVal) (lit : string) :
  strict_eq_str v lit = false <-> v <> JStr lit.
Proof.
  rewrite <- strict_eq_str_true. destruct (strict_eq_str v lit); intuition congruence.
Qed.

Lemma get_type_defined (d : JsVal) :
  nullish d = false -> exists fieldType, get d "type" = Normal fieldType.
Proof.
  destruct d; simpl; try discriminate; intros _; eauto.
Qed.

Lemma lookup_in_values (k : string) (d : JsVal) (o : Props) :
  lookup k o = Some d -> In d (values o).
Proof.
  unfold values. induction o as [|[k0 v0] o IH]; simpl; [discriminate|].
  destruct (String.eqb k k0); [intros [= ->]; now left | right; auto].
Qed.

Lemma descriptor_defined (fields : Props) (k : string) (d : JsVal) :
  descriptors_defined fields -> lookup k fields = Some d -> nullish d = false.
Proof.
  unfold descriptors_defined. rewrite forallb_forall. intros Hall Hd.
  apply lookup_in_values in Hd. apply Hall in Hd.
  now destruct (nullish d).
Qed.

(* ================================================================== *)
(** * The random draws *)
(* ================================================================== *)

Lemma floor_below_1000 (r : Q) :
  (0 <= r)%Q -> (r < 1)%Q -> 0 <= Qfloor (r * 1000) < 1000.
Proof.
  intros H0 H1. split.
  - rewrite <- (Qfloor_Z 0). apply Qfloor_resp_le. unfold inject_Z. lra.
  - rewrite Zlt_Qlt. eapply Qle_lt_trans; [apply Qfloor_le|]. unfold inject_Z. lra.
Qed.

Lemma Qtruncate_between (q : Q) (lo hi : Z) :
  (inject_Z lo <= q)%Q -> (q <= inject_Z hi)%Q -> lo <= Qtruncate q <= hi.
Proof.
  intros Hlo Hhi. unfold Qtruncate. destruct (Qle_bool 0 q).
  - split.
    + rewrite <- (Qfloor_Z lo). now apply Qfloor_resp_le.
    + rewrite <- (Qfloor_Z hi). now apply Qfloor_resp_le.
  - split.
    + rewrite <- (Qceiling_Z lo). now apply Qceiling_resp_le.
    + rewrite <- (Qceiling_Z hi). now apply Qceiling_resp_le.
Qed.

Lemma year_offset (t : Z) (r : Q) :
  (0 <= r)%Q -> (r < 1)%Q ->
  (inject_Z (t - year_ms) <= inject_Z t - r * 365 * 24 * 60 * 60 * 1000
   /\ inject_Z t - r * 365 * 24 * 60 * 60 * 1000 <= inject_Z t)%Q.
Proof.
  intros H0 H1. unfold year_ms, Z.sub. rewrite inject_Z_plus, inject_Z_opp.
  change (inject_Z 31536000000) with (31536000000 # 1)%Q. split; lra.
Qed.

Lemma Date_of_number_in_year (t : Z) (r : Q) :
  (0 <= r)%Q -> (r < 1)%Q -> year_ms - max_time <= t <= max_time ->
  exists t', Date_of_number (inject_Z t - r * 365 * 24 * 60 * 60 * 1000) = Some t'
             /\ t - year_ms <= t' <= t /\ Z.abs t' <= max_time.
Proof.
  intros H0 H1 Ht.
  destruct (year_offset t r H0 H1) as [Hlo Hhi].
  set (q := (inject_Z t - r * 365 * 24 * 60 * 60 * 1000)%Q) in *.
  pose proof (Qtruncate_between q _ _ Hlo Hhi) as Hb.
  exists (Qtruncate q). unfold Date_of_number.
  assert (Hq : Qle_bool (Qabs q) (inject_Z max_time) = true).
  { apply Qle_bool_iff. apply Qabs_Qle_condition. split.
    - eapply Qle_trans; [|exact Hlo]. rewrite <- inject_Z_opp. rewrite <- Zle_Qle. lia.
    - eapply Qle_trans; [exact Hhi|]. rewrite <- Zle_Qle. lia. }
  rewrite Hq. repeat split; try lia.
Qed.

(* ================================================================== *)
(** * One generated value *)
(* ================================================================== *)

Ltac by_type_tests :=
  repeat match goal with
         | |- context [strict_eq_str ?v ?lit] =>
             let E := fresh "E" in
             destruct (strict_eq_str v lit) eqn:E;
             [apply strict_eq_str_true in E | apply strict_eq_str_false in E]
         end.

Lemma fallback_value_ok (w : World) (i : Z) (key : string) (fieldType : JsVal)
    (tick : nat) :
  world_ok w ->
  exists v tick', fallback_value w fieldType key i tick = Normal (v, tick')
                  /\ (tick <= tick')%nat
                  /\ cell_ok w tick tick' i key fieldType v.
Proof.
  intros Hw. unfold fallback_value, cell_ok, unknown_type. by_type_tests.
  - eexists _, _. split; [reflexivity|]. subst.
    repeat split; try discriminate; auto. intuition congruence.
  - destruct (Hw tick) as [[H0 H1] _].
    eexists _, _. split; [reflexivity|]. subst.
    repeat split; try discriminate; try (intuition congruence); auto.
    intros _. eexists. split; [reflexivity|]. now apply floor_below_1000.
  - eexists _, _. split; [reflexivity|]. subst.
    repeat split; try discriminate; try (intuition congruence); eauto.
  - destruct (Hw tick) as [_ Ht]. destruct (Hw (S tick)) as [[H0 H1] _].
    destruct (Date_of_number_in_year _ _ H0 H1 Ht) as (t' & Hd & Hb & Ha).
    exists (JStr (iso_string t')), (S (S tick)). split.
    + unfold bind, now, random, lift, ret. rewrite Hd. reflexivity.
    + subst. repeat split; try discriminate; try (intuition congruence); auto.
      intros _. exists t', tick. repeat split; auto; lia.
  - eexists _, _. split; [reflexivity|].
    repeat split; try contradiction; auto.
Qed.

Lemma sample_value_ok (w : World) (i : Z) (key : string) (fieldType : JsVal)
    (tick : nat) :
  world_ok w ->
  exists v tick', sample_value w fieldType key i tick = Normal (v, tick')
                  /\ (tick <= tick')%nat
                  /\ sample_ok w tick tick' i key fieldType v.
Proof.
  intros Hw. unfold sample_value, sample_ok. by_type_tests.
  - eexists _, _. split; [reflexivity|]. subst.
    repeat split; try discriminate; auto. intuition congruence.
  - destruct (Hw tick) as [[H0 H1] _].
    eexists _, _. split; [reflexivity|]. subst.
    repeat split; try discriminate; try (intuition congruence); auto.
    intros _. eexists. split; [reflexivity|]. now apply floor_below_1000.
  - eexists _, _. split; [reflexivity|]. subst.
    repeat split; try discriminate; try (intuition congruence); auto.
    intros _. exists tick. split; [lia|reflexivity].
  - eexists _, _. split; [reflexivity|].
    repeat split; try contradiction; auto.
Qed.

Lemma cell_ok_mono (w : World) (a b a' b' : nat) (i : Z) (key : string)
    (fieldType v : JsVal) :
  (a' <= a)%nat -> (b <= b')%nat ->
  cell_ok w a b i key fieldType v -> cell_ok w a' b' i key fieldType v.
Proof.
  intros Ha Hb (Hs & Hn & Hbool & Hd & Hu). repeat split; auto.
  intros Hft. destruct (Hd Hft) as (t & k & Hk & Hrest).
  exists t, k. split; [lia|exact Hrest].
Qed.

Lemma sample_ok_mono (w : World) (a b a' b' : nat) (i : Z) (key : string)
    (fieldType v : JsVal) :
  (a' <= a)%nat -> (b <= b')%nat ->
  sample_ok w a b i key fieldType v -> sample_ok w a' b' i key fieldType v.
Proof.
  intros Ha Hb (Hs & Hn & Hd & Hu). repeat split; auto.
  intros Hft. destruct (Hd Hft) as (k & Hk & Hrest).
  exists k. split; [lia|exact Hrest].
Qed.

(* ================================================================== *)
(** * The row loop *)
(* ================================================================== *)

Section RowLoop.

Variable value : JsVal -> string -> Z -> Eff JsVal.
Variable cell : nat -> nat -> Z -> string -> JsVal -> JsVal -> Prop.
Variable fields : Props.

Hypothesis fields_defined : descriptors_defined fields.
Hypothesis cell_mono :
  forall a b a' b' i key fieldType v,
    (a' <= a)%nat -> (b <= b')%nat ->
    cell a b i key fieldType v -> cell a' b' i key fieldType v.
Hypothesis value_ok :
  forall i fieldType key tick,
    exists v tick', value fieldType key i tick = Normal (v, tick')
                    /\ (tick <= tick')%nat
                    /\ cell tick tick' i key fieldType v.

Lemma fill_row_spec (i : Z) (ks : list string) :
  forall (row : Props) (tick : nat),
    (forall k, In k ks -> In k (keys fields)) ->
    exists row' tick',
      fill_row value (JObj fields) i ks row tick = Normal (row', tick')
      /\ (tick <= tick')%nat
      /\ (forall k, In k (keys row') <-> In k (keys row) \/ (In k ks /\ k <> "__proto__"))
      /\ (NoDup (keys row) -> NoDup (keys row'))
      /\ (key_order (keys row) = true -> key_order (keys row') = true)
      /\ (forall k d, In k ks -> k <> "__proto__" -> lookup k fields = Some d ->
            exists fieldType v,
              get d "type" = Normal fieldType /\ lookup k row' = Some v
              /\ cell tick tick' i k fieldType v)
      /\ (forall k, ~ In k ks -> lookup k row' = lookup k row).
Proof.
  induction ks as [|key ks' IH]; intros row tick Hks.
  - exists row, tick. simpl. repeat split; auto; try tauto.
  - assert (Hkey : In key (keys fields)) by (apply Hks; now left).
    apply lookup_in_keys in Hkey. destruct Hkey as [d Hd].
    destruct (get_type_defined d (descriptor_defined _ _ _ fields_defined Hd))
      as [ft Hft].
    destruct (value_ok i ft key tick) as (v & tick1 & Hv & Hle & Hcell).
    destruct (IH (obj_set key v row) tick1)
      as (row' & tick' & Hrun & Hle' & Hkeys & Hnd & Hord & Hin & Hout).
    { intros k Hk. apply Hks. now right. }
    exists row', tick'. split; [|split; [|split; [|split; [|split; [|split]]]]].
    + simpl. unfold bind, lift. simpl. rewrite Hd. simpl. rewrite Hft, Hv. exact Hrun.
    + lia.
    + intros k. rewrite Hkeys, keys_obj_set. simpl. intuition (subst; auto).
    + intros H. apply Hnd. now apply NoDup_keys_obj_set.
    + intros H. apply Hord. now apply key_order_obj_set.
    + intros k d' Hk Hproto Hd'.
      destruct (in_dec string_dec k ks') as [Hin'|Hnotin].
      * destruct (Hin k d' Hin' Hproto Hd') as (ft' & v' & H1 & H2 & H3).
        exists ft', v'. repeat split; auto.
        apply (cell_mono tick1 tick'); auto; lia.
      * destruct Hk as [->|Hk]; [|contradiction].
        rewrite Hd in Hd'. injection Hd' as <-.
        exists ft, v. repeat split; auto.
        -- rewrite (Hout _ Hnotin). now apply lookup_obj_set_same.
        -- apply (cell_mono tick tick1); auto; lia.
    + intros k Hk. rewrite Hout by (intros H; apply Hk; now right).
      apply lookup_obj_set_other. intros ->. apply Hk. now left.
Qed.

Lemma rows_loop_spec (n : nat) :
  forall (i : Z) (acc : list JsVal) (tick : nat),
    exists rows tick',
      rows_loop value (JObj fields) n i acc tick = Normal ((acc ++ rows)%list, tick')
      /\ (tick <= tick')%nat
      /\ List.length rows = n
      /\ forall j row, nth_error rows j = Some row ->
           exists props, row = JObj props
                         /\ row_ok (cell tick tick' (i + Z.of_nat j)) fields props.
Proof.
  induction n as [|n IH]; intros i acc tick.
  - exists [], tick. simpl. rewrite app_nil_r. repeat split; auto.
    intros [|j] row; discriminate.
  - destruct (fill_row_spec i (keys fields) [] tick) as
      (row0 & tick1 & Hrun & Hle & Hkeys & Hnd & Hord & Hin & _); [auto|].
    destruct (IH (i + 1) (acc ++ [JObj row0])%list tick1)
      as (rows & tick' & Hloop & Hle' & Hlen & Hrows).
    exists (JObj row0 :: rows), tick'. split; [|split; [|split]].
    + simpl. unfold bind at 1. unfold lift at 1. simpl.
      unfold bind at 1. rewrite Hrun. rewrite Hloop. now rewrite <- app_assoc.
    + lia.
    + simpl. now rewrite Hlen.
    + intros [|j] row Hrow; simpl in Hrow.
      * injection Hrow as <-. exists row0. split; auto.
        rewrite Z.add_0_r. split; [|split; [|split]].
        -- intros k. rewrite Hkeys. simpl. tauto.
        -- apply Hnd. constructor.
        -- now apply Hord.
        -- intros k d Hd Hproto.
           destruct (Hin k d) as (ft & v & H1 & H2 & H3); auto.
           { apply lookup_in_keys. eauto. }
           exists ft, v. repeat split; auto.
           apply (cell_mono tick tick1); auto; lia.
      * destruct (Hrows j row Hrow) as (props & -> & Hk & Hnd' & Hord' & Hcells).
        exists props. split; auto.
        replace (i + Z.of_nat (S j)) with (i + 1 + Z.of_nat j) by lia.
        split; [|split; [|split]]; auto.
        intros k d Hd Hproto. destruct (Hcells k d Hd Hproto) as (ft & v & H1 & H2 & H3).
        exists ft, v. repeat split; auto.
        apply (cell_mono tick1 tick'); auto; lia.
Qed.

End RowLoop.

(** The fallback generator on a schema object whose descriptors are
    defined: its result, spelled out. *)
Lemma generateFallbackData_spec (w : World) (options : DatasetGenerationOptions)
    (fields : Props) (tick : nat) :
  world_ok w ->
  schema options = JObj fields ->
  descriptors_defined fields ->
  exists rows tick',
    generateFallbackData w options tick =
      Normal ({| data := JArr rows;
                 metadata :=
                   {| rowsGenerated := JNum (Z.of_nat (List.length rows));
                      columnsGenerated := Z.of_nat (List.length (keys fields));
                      generationMethod := "local_fallback" |};
                 qualityScore := 85;
                 privacyScore := 90;
                 biasScore := 88 |}, tick')
    /\ List.length rows =
         Z.to_nat (match rowCount options with Some n => n | None => 1000 end)
    /\ forall j row, nth_error rows j = Some row ->
         exists props, row = JObj props
           /\ row_ok (cell_ok w tick tick' (Z.of_nat j)) fields props.
Proof.
  intros Hw Hs Hdef.
  destruct (rows_loop_spec (fallback_value w) (cell_ok w) fields Hdef
              (cell_ok_mono w)
              (fun i ft key tick => fallback_value_ok w i key ft tick Hw)
              (Z.to_nat (match rowCount options with Some n => n | None => 1000 end))
              0 [] tick)
    as (rows & tick' & Hrun & Hle & Hlen & Hrows).
  exists rows, tick'. split; [|split; auto].
  unfold generateFallbackData. rewrite Hs. unfold bind at 1. rewrite Hrun.
  reflexivity.
Qed.

(* ================================================================== *)
(** * Calendar arithmetic *)
(* ================================================================== *)

Ltac bool_cases :=
  repeat match goal with
         | |- context [Z.eqb ?a ?b] =>
             let E := fresh "E" in destruct (Z.eqb a b) eqn:E;
             [apply Z.eqb_eq in E | apply Z.eqb_neq in E]
         end; cbn [andb orb negb].

Lemma is_leap_period (y e : Z) : is_leap (y + e * 400) = is_leap y.
Proof.
  unfold is_leap.
  replace ((y + e * 400) mod 4) with (y mod 4)
    by (replace (e * 400) with (e * 100 * 4) by ring; now rewrite Z.mod_add).
  replace ((y + e * 400) mod 100) with (y mod 100)
    by (replace (e * 400) with (e * 4 * 100) by ring; now rewrite Z.mod_add).
  now rewrite Z.mod_add.
Qed.

Lemma day_from_year_period (y e : Z) :
  day_from_year (y + e * 400) = day_from_year y + e * 146097.
Proof.
  unfold day_from_year. Z.to_euclidean_division_equations. lia.
Qed.

Lemma year_of_era_range (doe : Z) :
  0 <= doe < 146097 ->
  let yoe := (doe - doe / 1460 + doe / 36524 - doe / 146096) / 365 in
  let doy := doe - (365 * yoe + yoe / 4 - yoe / 100) in
  0 <= yoe <= 399 /\ 0 <= doy <= 364 + leap_day (yoe + 1).
Proof.
  intros H yoe doy. unfold leap_day, is_leap.
  bool_cases; subst yoe doy; Z.to_euclidean_division_equations; lia.
Qed.

Lemma march_first (yoe : Z) :
  0 <= yoe <= 399 ->
  day_from_year yoe + 59 + leap_day yoe = 365 * yoe + yoe / 4 - yoe / 100 - 719468.
Proof.
  intros H. unfold day_from_year, leap_day, is_leap.
  bool_cases; Z.to_euclidean_division_equations; lia.
Qed.

Lemma january_first (yoe : Z) :
  0 <= yoe <= 399 ->
  day_from_year (yoe + 1) - 306 = 365 * yoe + yoe / 4 - yoe / 100 - 719468.
Proof.
  intros H. unfold day_from_year.
  Z.to_euclidean_division_equations; lia.
Qed.


Ltac literal_month :=
  repeat match goal with
         | |- context [Z.to_nat ?x] =>
             let v := eval vm_compute in (Z.to_nat x) in
             progress change (Z.to_nat x) with v
         | |- context [days_in_month ?y ?m] =>
             let v := eval vm_compute in m in
             progress change m with v
         end;
  cbn -[is_leap Z.add Z.sub Z.mul Z.div Z.opp].

Lemma month_from_march (y doy : Z) :
  0 <= doy <= 305 ->
  let mp := (5 * doy + 2) / 153 in
  let m := mp + 3 in
  let d := doy - (153 * mp + 2) / 5 + 1 in
  mp < 10 /\ 3 <= m <= 12 /\ 1 <= d <= days_in_month y m
  /\ days_before_month y (Z.to_nat (m - 1)) + (d - 1) = 59 + leap_day y + doy.
Proof.
  intros Hdoy mp m d.
  assert (Hmp : 153 * mp <= 5 * doy + 2 < 153 * mp + 153)
    by (subst mp; Z.to_euclidean_division_equations; lia).
  assert (Hcases : mp = 0 \/ mp = 1 \/ mp = 2 \/ mp = 3 \/ mp = 4 \/ mp = 5 \/
                   mp = 6 \/ mp = 7 \/ mp = 8 \/ mp = 9) by lia.
  subst m d. unfold leap_day.
  destruct Hcases as [E|[E|[E|[E|[E|[E|[E|[E|[E|E]]]]]]]]];
    rewrite E in *; literal_month; destruct (is_leap y);
    Z.to_euclidean_division_equations; lia.
Qed.

Lemma month_from_january (y doy : Z) :
  306 <= doy <= 364 + leap_day y ->
  let mp := (5 * doy + 2) / 153 in
  let m := mp - 9 in
  let d := doy - (153 * mp + 2) / 5 + 1 in
  10 <= mp /\ 1 <= m <= 2 /\ 1 <= d <= days_in_month y m
  /\ days_before_month y (Z.to_nat (m - 1)) + (d - 1) = doy - 306.
Proof.
  intros Hdoy mp m d.
  assert (Hl : 0 <= leap_day y <= 1) by (unfold leap_day; destruct (is_leap y); lia).
  assert (Hmp : 153 * mp <= 5 * doy + 2 < 153 * mp + 153)
    by (subst mp; Z.to_euclidean_division_equations; lia).
  assert (Hcases : mp = 10 \/ mp = 11) by lia.
  subst m d. unfold leap_day in *.
  destruct Hcases as [E|E];
    rewrite E in *; literal_month; destruct (is_leap y);
    Z.to_euclidean_division_equations; lia.
Qed.

Lemma civil_from_days_correct (z : Z) :
  let '(y, m, d) := civil_from_days z in
  1 <= m <= 12 /\ 1 <= d <= days_in_month y m /\ days_from_civil y m d = z
  /\ (z + 719468) / 146097 * 400 <= y <= (z + 719468) / 146097 * 400 + 400.
Proof.
  unfold civil_from_days.
  set (era := (z + 719468) / 146097). set (doe := (z + 719468) mod 146097).
  assert (Hdoe : 0 <= doe < 146097) by (apply Z.mod_pos_bound; lia).
  assert (Hz : z = era * 146097 + doe - 719468)
    by (subst era doe; Z.to_euclidean_division_equations; lia).
  pose proof (year_of_era_range doe Hdoe) as Hy. cbv zeta in Hy.
  set (yoe := (doe - doe / 1460 + doe / 36524 - doe / 146096) / 365) in *.
  set (doy := doe - (365 * yoe + yoe / 4 - yoe / 100)) in *.
  destruct Hy as [Hyoe Hdoy].
  pose proof (march_first yoe Hyoe) as Hmar.
  pose proof (january_first yoe Hyoe) as Hjan.
  pose proof (day_from_year_period yoe era) as P0.
  pose proof (day_from_year_period (yoe + 1) era) as P1.
  assert (L0 : leap_day (yoe + era * 400) = leap_day yoe)
    by (unfold leap_day; now rewrite is_leap_period).
  assert (L1 : leap_day (yoe + era * 400 + 1) = leap_day (yoe + 1)).
  { unfold leap_day. replace (yoe + era * 400 + 1) with (yoe + 1 + era * 400) by ring.
    now rewrite is_leap_period. }
  replace (yoe + 1 + era * 400) with (yoe + era * 400 + 1) in P1 by ring.
  unfold days_from_civil.
  destruct (Z_le_gt_dec doy 305) as [Hlo|Hhi].
  - destruct (month_from_march (yoe + era * 400) doy) as (Hmp & Hm & Hd & Hsum); [lia|].
    cbv zeta in *.
    set (mp := (5 * doy + 2) / 153) in *.
    replace (mp <? 10) with true by (symmetry; apply Z.ltb_lt; lia).
    replace (mp + 3 <=? 2) with false by (symmetry; apply Z.leb_gt; lia).
    repeat split; try lia.
  - destruct (month_from_january (yoe + era * 400 + 1) doy) as (Hmp & Hm & Hd & Hsum); [lia|].
    cbv zeta in *.
    set (mp := (5 * doy + 2) / 153) in *.
    replace (mp <? 10) with false by (symmetry; apply Z.ltb_ge; lia).
    replace (mp - 9 <=? 2) with true by (symmetry; apply Z.leb_le; lia).
    repeat split; try lia.
Qed.

(* ================================================================== *)
(** * The ISO text of a time value parses back to it *)
(* ================================================================== *)

Lemma length_append (s1 s2 : string) :
  String.length (s1 ++ s2) = (String.length s1 + String.length s2)%nat.
Proof. induction s1; simpl; auto. Qed.

Lemma append_assoc (s1 s2 s3 : string) : ((s1 ++ s2) ++ s3 = s1 ++ (s2 ++ s3))%string.
Proof. induction s1; simpl; congruence. Qed.

Lemma append_nil_r (s : string) : (s ++ "" = s)%string.
Proof. induction s; simpl; congruence. Qed.

Lemma digit_char_ok (d : Z) :
  0 <= d < 10 -> is_digit (digit_char d) = true /\ digit_value (digit_char d) = d.
Proof.
  intros H.
  assert (Hc : d = 0 \/ d = 1 \/ d = 2 \/ d = 3 \/ d = 4 \/ d = 5 \/ d = 6 \/
               d = 7 \/ d = 8 \/ d = 9) by lia.
  destruct Hc as [->|[->|[->|[->|[->|[->|[->|[->|[->| ->]]]]]]]]]; split; reflexivity.
Qed.

Lemma digits_value_app (s1 s2 : string) :
  forall acc, digits_value acc (s1 ++ s2) =
              obind (digits_value acc s1) (fun a => digits_value a s2).
Proof.
  induction s1 as [|c s1 IH]; intros acc; simpl; auto.
  destruct (is_digit c); auto.
Qed.

Lemma digits_fixed_length (w : nat) : forall n, String.length (digits_fixed w n) = w.
Proof.
  induction w as [|w IH]; intros n; simpl; auto.
  rewrite length_append, IH. simpl. lia.
Qed.

Lemma take_append (s rest : string) : take (String.length s) (s ++ rest) = Some (s, rest).
Proof.
  induction s as [|c s IH]; simpl; auto. now rewrite IH.
Qed.

Lemma digits_value_fixed (w : nat) :
  forall n acc, 0 <= n < 10 ^ Z.of_nat w ->
    digits_value acc (digits_fixed w n) = Some (acc * 10 ^ Z.of_nat w + n).
Proof.
  induction w as [|w IH]; intros n acc Hn.
  - simpl in *. f_equal. lia.
  - rewrite Nat2Z.inj_succ, Z.pow_succ_r in * by lia.
    cbn [digits_fixed]. rewrite digits_value_app, IH
      by (Z.to_euclidean_division_equations; lia).
    cbn [obind digits_value].
    destruct (digit_char_ok (n mod 10)) as [-> ->];
      [Z.to_euclidean_division_equations; lia|].
    f_equal. Z.to_euclidean_division_equations; lia.
Qed.

Lemma field_digits_fixed (w : nat) (n : Z) (rest : string) :
  0 <= n < 10 ^ Z.of_nat w ->
  field w (digits_fixed w n ++ rest) = Some (n, rest).
Proof.
  intros Hn. unfold field.
  rewrite <- (digits_fixed_length w n) at 1. rewrite take_append.
  rewrite digits_value_fixed by auto. f_equal.
Qed.

Lemma year_field_digit (a : Z) (s : string) :
  0 <= a < 10 ->
  year_field (String (digit_char a) s) = field 4 (String (digit_char a) s).
Proof.
  intros H.
  assert (Hc : a = 0 \/ a = 1 \/ a = 2 \/ a = 3 \/ a = 4 \/ a = 5 \/ a = 6 \/
               a = 7 \/ a = 8 \/ a = 9) by lia.
  destruct Hc as [->|[->|[->|[->|[->|[->|[->|[->|[->| ->]]]]]]]]]; reflexivity.
Qed.

Lemma year_field_year_string (y : Z) (rest : string) :
  - 999999 <= y <= 999999 ->
  year_field (year_string y ++ rest) = Some (y, rest).
Proof.
  intros Hy. unfold year_string.
  destruct ((0 <=? y) && (y <=? 9999)) eqn:E.
  - apply andb_true_iff in E. destruct E as [E1 E2].
    apply Z.leb_le in E1. apply Z.leb_le in E2.
    assert (Hf : field 4 (digits_fixed 4 y ++ rest) = Some (y, rest))
      by (apply field_digits_fixed; simpl; lia).
    rewrite <- Hf. cbn [digits_fixed append].
    apply year_field_digit. Z.to_euclidean_division_equations; lia.
  - apply andb_false_iff in E.
    destruct (y <? 0) eqn:Eneg.
    + apply Z.ltb_lt in Eneg. cbn [append year_field].
      rewrite field_digits_fixed by (simpl; lia). cbn [obind].
      replace (Z.abs y =? 0) with false by (symmetry; apply Z.eqb_neq; lia).
      f_equal. f_equal. lia.
    + apply Z.ltb_ge in Eneg. cbn [append year_field].
      rewrite field_digits_fixed by (simpl; lia).
      f_equal. f_equal. destruct E as [E|E]; [apply Z.leb_gt in E | apply Z.leb_gt in E]; lia.
Qed.

Lemma year_in_range (day : Z) :
  - 100000000 <= day <= 100000000 ->
  let '(y, m, d) := civil_from_days day in - 999999 <= y <= 999999.
Proof.
  intros H. pose proof (civil_from_days_correct day) as Hc.
  destruct (civil_from_days day) as [[y m] d].
  destruct Hc as (_ & _ & _ & Hy).
  revert Hy. Z.to_euclidean_division_equations. lia.
Qed.

Theorem parse_iso_string (t : Z) :
  Z.abs t <= max_time -> Date_parse_iso (iso_string t) = Some t.
Proof.
  intros Ht. unfold Date_parse_iso, iso_string.
  assert (Hday : - 100000000 <= t / ms_per_day <= 100000000)
    by (unfold max_time, ms_per_day in *; Z.to_euclidean_division_equations; lia).
  pose proof (civil_from_days_correct (t / ms_per_day)) as Hc.
  pose proof (year_in_range (t / ms_per_day) Hday) as Hy.
  destruct (civil_from_days (t / ms_per_day)) as [[y m] d].
  destruct Hc as (Hm & Hd & Hdays & _).
  assert (Hdim : days_in_month y m <= 31)
    by (unfold days_in_month;
        repeat match goal with |- context [if ?b then _ else _] => destruct b end; lia).
  set (tod := t mod ms_per_day).
  assert (Htod : 0 <= tod < 86400000)
    by (subst tod; unfold ms_per_day; Z.to_euclidean_division_equations; lia).
  rewrite year_field_year_string by auto. cbn [obind expect append Ascii.eqb Bool.eqb].
  rewrite field_digits_fixed by (simpl; lia). cbn [obind expect append Ascii.eqb Bool.eqb].
  rewrite field_digits_fixed by (simpl; lia). cbn [obind expect append Ascii.eqb Bool.eqb].
  rewrite field_digits_fixed by (simpl; Z.to_euclidean_division_equations; lia).
  cbn [obind expect append Ascii.eqb Bool.eqb].
  rewrite field_digits_fixed by (simpl; Z.to_euclidean_division_equations; lia).
  cbn [obind expect append Ascii.eqb Bool.eqb].
  rewrite field_digits_fixed by (simpl; Z.to_euclidean_division_equations; lia).
  cbn [obind expect append Ascii.eqb Bool.eqb].
  replace (digits_fixed 3 (tod mod 1000) ++ "Z")%string
    with (digits_fixed 3 (tod mod 1000) ++ "Z" ++ "")%string by reflexivity.
  rewrite field_digits_fixed by (simpl; Z.to_euclidean_division_equations; lia).
  cbn [obind expect append Ascii.eqb Bool.eqb String.eqb].
  set (h := tod / 3600000). set (mi := (tod / 60000) mod 60).
  set (sec := (tod / 1000) mod 60). set (ms := tod mod 1000).
  assert (Hh : 0 <= h < 24) by (subst h; Z.to_euclidean_division_equations; lia).
  assert (Hmi : 0 <= mi < 60) by (subst mi; Z.to_euclidean_division_equations; lia).
  assert (Hsec : 0 <= sec < 60) by (subst sec; Z.to_euclidean_division_equations; lia).
  assert (Hsum : h * 3600000 + mi * 60000 + sec * 1000 + ms = tod)
    by (subst h mi sec ms; Z.to_euclidean_division_equations; lia).
  replace (1 <=? m) with true by (symmetry; apply Z.leb_le; lia).
  replace (m <=? 12) with true by (symmetry; apply Z.leb_le; lia).
  replace (1 <=? d) with true by (symmetry; apply Z.leb_le; lia).
  replace (d <=? days_in_month y m) with true by (symmetry; apply Z.leb_le; lia).
  replace (h <=? 24) with true by (symmetry; apply Z.leb_le; lia).
  replace (mi <=? 59) with true by (symmetry; apply Z.leb_le; lia).
  replace (sec <=? 59) with true by (symmetry; apply Z.leb_le; lia).
  replace (h <? 24) with true by (symmetry; apply Z.ltb_lt; lia).
  cbn [andb orb].
  assert (Hback : days_from_civil y m d * ms_per_day + h * 3600000 + mi * 60000
                  + sec * 1000 + ms = t).
  { rewrite Hdays. subst tod. unfold ms_per_day in *.
    Z.to_euclidean_division_equations; lia. }
  rewrite Hback.
  replace (Z.abs t <=? max_time) with true by (symmetry; apply Z.leb_le; lia).
  reflexivity.
Qed.

(* ================================================================== *)
(** * The claims on the fallback generator *)
(* ================================================================== *)

Ltac demo_world_ok :=
  let k := fresh "k" in
  intros k; cbn [Math_random Date_now demo_world];
  split; [split|split];
  [ destruct (Nat.even k); unfold Qle; simpl; lia
  | destruct (Nat.even k); unfold Qlt; simpl; lia
  | unfold year_ms, max_time; lia
  | unfold max_time; lia ].

(** Claim C1.  When the backend call fails (the request fails, the status
    is not a success, the body does not parse, or it parses to null),
    [generateSyntheticDataset] returns the fallback result: method
    ["local_fallback"], scores 85, 90 and 88, and a [data] array with as
    many rows as requested, 1000 when [rowCount] is left out.  The request
    is one of the data model: its schema is an object whose descriptors are
    defined, its row count is not negative. *)
Theorem fallback_on_remote_failure (w : World) (options : DatasetGenerationOptions)
    (fields : Props) (outcome : FetchOutcome) (tick : nat) :
  world_ok w ->
  schema options = JObj fields ->
  descriptors_defined fields ->
  0 <= requested_rows options ->
  remote_call_fails outcome = true ->
  exists r tick' rows,
    generateSyntheticDataset w options outcome tick = Normal (r, tick')
    /\ generationMethod (metadata r) = "local_fallback"
    /\ qualityScore r = 85 /\ privacyScore r = 90 /\ biasScore r = 88
    /\ data r = JArr rows
    /\ Z.of_nat (List.length rows) = requested_rows options.
Proof.
  intros Hw Hs Hdef Hn Hfail.
  destruct (generateFallbackData_spec w options fields tick Hw Hs Hdef)
    as (rows & tick' & Hrun & Hlen & _).
  assert (Hgen : generateSyntheticDataset w options outcome tick
                 = generateFallbackData w options tick).
  { destruct outcome as [|[|] [body|e]]; simpl in *; try reflexivity.
    destruct body; try discriminate; reflexivity. }
  rewrite Hgen, Hrun. eexists _, tick', rows. split; [reflexivity|].
  simpl. repeat split. rewrite Hlen. unfold requested_rows in *. lia.
Qed.

Lemma fallback_on_remote_failure_witness :
  exists r tick' rows,
    generateSyntheticDataset demo_world (request (JObj demo_fields) None)
      (Response false (Throw SyntaxError)) 0%nat = Normal (r, tick')
    /\ generationMethod (metadata r) = "local_fallback"
    /\ qualityScore r = 85 /\ privacyScore r = 90 /\ biasScore r = 88
    /\ data r = JArr rows
    /\ Z.of_nat (List.length rows) = 1000.
Proof.
  apply (fallback_on_remote_failure demo_world (request (JObj demo_fields) None)
           demo_fields (Response false (Throw SyntaxError)) 0%nat).
  - demo_world_ok.
  - reflexivity.
  - reflexivity.
  - unfold requested_rows; simpl; lia.
  - reflexivity.
Defined.

(** Claim C2, as stated, fails: [row[key] = value] stores no property
    under the key [__proto__].  For a schema with the fields [id] and
    [__proto__] the row holds [id] alone, after a draw for the other field
    that is thrown away. *)
Lemma proto_field_not_stored :
  exists r,
    generateFallbackData demo_world (request (JObj proto_fields) (Some 1)) 0%nat
      = Normal (r, 1%nat)
    /\ Object_keys (JObj proto_fields) = Normal ["id"; "__proto__"]
    /\ data r = JArr [JObj [("id", JStr "Generated id 1")]].
Proof. eexists. repeat split. Qed.

(** Claim C2, amended.  For every schema object [S] whose descriptors are
    defined and every row count [N >= 0], [generateFallbackData] returns
    exactly [N] rows, and every row is an object whose keys are those of
    [S] other than [__proto__], each once: the keys of [S] when no field
    has that name. *)
Theorem row_synthesizer_rows_and_keys (w : World) (options : DatasetGenerationOptions)
    (fields : Props) (n : Z) (tick : nat) :
  world_ok w ->
  schema options = JObj fields ->
  descriptors_defined fields ->
  rowCount options = Some n ->
  0 <= n ->
  exists r tick' rows,
    generateFallbackData w options tick = Normal (r, tick')
    /\ data r = JArr rows
    /\ Z.of_nat (List.length rows) = n
    /\ forall row, In row rows ->
         exists props,
           row = JObj props
           /\ (forall k, In k (keys props) <-> In k (keys fields) /\ k <> "__proto__")
           /\ (~ In "__proto__" (keys fields) -> same_keys props fields)
           /\ NoDup (keys props).
Proof.
  intros Hw Hs Hdef Hrc Hn.
  destruct (generateFallbackData_spec w options fields tick Hw Hs Hdef)
    as (rows & tick' & Hrun & Hlen & Hrows).
  rewrite Hrun. eexists _, tick', rows. split; [reflexivity|]. simpl.
  split; [reflexivity|]. split.
  - rewrite Hlen, Hrc. lia.
  - intros row Hin. apply In_nth_error in Hin. destruct Hin as [j Hj].
    destruct (Hrows j row Hj) as (props & -> & Hkeys & Hnd & _).
    exists props. split; [reflexivity|]. split; [exact Hkeys|]. split; auto.
    intros Hk. now apply stored_keys_same.
Qed.

Lemma row_synthesizer_rows_and_keys_witness :
  exists r tick' rows,
    generateFallbackData demo_world (request (JObj demo_fields) (Some 3)) 0%nat
      = Normal (r, tick')
    /\ data r = JArr rows
    /\ Z.of_nat (List.length rows) = 3
    /\ forall row, In row rows ->
         exists props,
           row = JObj props
           /\ (forall k, In k (keys props) <-> In k (keys demo_fields) /\ k <> "__proto__")
           /\ (~ In "__proto__" (keys demo_fields) -> same_keys props demo_fields)
           /\ NoDup (keys props).
Proof.
  apply (row_synthesizer_rows_and_keys demo_world
           (request (JObj demo_fields) (Some 3)) demo_fields 3 0%nat).
  - demo_world_ok.
  - reflexivity.
  - reflexivity.
  - reflexivity.
  - lia.
Defined.

(** Claim C3, as stated, fails: a descriptor that is null, or undefined,
    makes [schema[key].type] raise a TypeError, and the generator returns
    no result. *)
Lemma null_descriptor_raises :
  generateFallbackData demo_world (request (JObj [("a", JNull)]) (Some 1)) 0%nat
    = Throw TypeError
  /\ generateFallbackData demo_world (request (JObj [("a", JUndefined)]) (Some 1)) 0%nat
    = Throw TypeError.
Proof. split; reflexivity. Qed.

(** Claim C3, amended.  On a schema object whose descriptors are neither
    null nor undefined, the generator raises nothing, and every field
    whose declared type is none of string, number, boolean and date (a
    type that is absent or is not a string included) holds, in row [j],
    the placeholder ["Value <j+1>"]; a field named [__proto__] apart, which
    no row holds. *)
Theorem unknown_type_placeholder (w : World) (options : DatasetGenerationOptions)
    (fields : Props) (tick : nat) :
  world_ok w ->
  schema options = JObj fields ->
  descriptors_defined fields ->
  exists r tick' rows,
    generateFallbackData w options tick = Normal (r, tick')
    /\ data r = JArr rows
    /\ forall j row key d fieldType,
         nth_error rows j = Some row ->
         lookup key fields = Some d ->
         get d "type" = Normal fieldType ->
         unknown_type fieldType ->
         key <> "__proto__" ->
         get row key = Normal (JStr ("Value " ++ number_to_string (Z.of_nat j + 1))).
Proof.
  intros Hw Hs Hdef.
  destruct (generateFallbackData_spec w options fields tick Hw Hs Hdef)
    as (rows & tick' & Hrun & Hlen & Hrows).
  rewrite Hrun. eexists _, tick', rows. split; [reflexivity|]. simpl.
  split; [reflexivity|].
  intros j row key d ft Hj Hd Hft Hunk Hproto.
  destruct (Hrows j row Hj) as (props & -> & _ & _ & _ & Hcells).
  destruct (Hcells key d Hd Hproto) as (ft' & v & Hft' & Hv & Hcell).
  rewrite Hft in Hft'. injection Hft' as <-.
  destruct Hcell as (_ & _ & _ & _ & Hu).
  simpl. rewrite Hv. simpl. now rewrite (Hu Hunk).
Qed.

Lemma unknown_type_placeholder_witness :
  exists r tick' rows,
    generateFallbackData demo_world (request (JObj demo_fields) (Some 3)) 0%nat
      = Normal (r, tick')
    /\ data r = JArr rows
    /\ forall j row key d fieldType,
         nth_error rows j = Some row ->
         lookup key demo_fields = Some d ->
         get d "type" = Normal fieldType ->
         unknown_type fieldType ->
         key <> "__proto__" ->
         get row key = Normal (JStr ("Value " ++ number_to_string (Z.of_nat j + 1))).
Proof.
  apply (unknown_type_placeholder demo_world
           (request (JObj demo_fields) (Some 3)) demo_fields 0%nat).
  - demo_world_ok.
  - reflexivity.
  - reflexivity.
Defined.

(** Claim C8.  In every row that [generateFallbackData] produces, the
    value of a field declared [number] is an integer in [[0, 1000)], and
    the value of a field declared [date] is a text that parses, as an
    ISO-8601 timestamp, to an instant at most 365 days before a clock read
    made during the call, and not after it.  The row holds a value for
    every field of the schema, one named [__proto__] apart.
    [Math.random()] is a rational in [[0,1)] here, and the arithmetic on it
    is exact. *)
Theorem number_and_date_ranges (w : World) (options : DatasetGenerationOptions)
    (fields : Props) (tick : nat) :
  world_ok w ->
  schema options = JObj fields ->
  descriptors_defined fields ->
  exists r tick' rows,
    generateFallbackData w options tick = Normal (r, tick')
    /\ data r = JArr rows
    /\ forall row key d,
         In row rows -> lookup key fields = Some d ->
         exists props,
           row = JObj props
           /\ (key <> "__proto__" -> In key (keys props))
           /\ forall v, lookup key props = Some v ->
                (get d "type" = Normal (JStr "number") ->
                   exists z, v = JNum z /\ 0 <= z < 1000)
                /\ (get d "type" = Normal (JStr "date") ->
                      exists s t k,
                        v = JStr s
                        /\ Date_parse_iso s = Some t
                        /\ (tick <= k < tick')%nat
                        /\ Date_now w k - year_ms <= t <= Date_now w k).
Proof.
  intros Hw Hs Hdef.
  destruct (generateFallbackData_spec w options fields tick Hw Hs Hdef)
    as (rows & tick' & Hrun & Hlen & Hrows).
  rewrite Hrun. eexists _, tick', rows. split; [reflexivity|]. simpl.
  split; [reflexivity|].
  intros row key d Hin Hd. apply In_nth_error in Hin. destruct Hin as [j Hj].
  destruct (Hrows j row Hj) as (props & -> & Hkeys & _ & _ & Hcells).
  exists props. split; [reflexivity|]. split.
  - intros Hproto. apply Hkeys. split; auto. apply lookup_in_keys. eauto.
  - intros v Hv.
    assert (Hproto : key <> "__proto__").
    { intros ->. assert (Hin : In "__proto__" (keys props))
        by (apply lookup_in_keys; eauto).
      apply Hkeys in Hin. now destruct Hin. }
    destruct (Hcells key d Hd Hproto) as (ft & v' & Hft & Hv' & Hcell).
    rewrite Hv in Hv'. injection Hv' as <-.
    destruct Hcell as (_ & Hnum & _ & Hdate & _).
    split; intros Ht; rewrite Ht in Hft; injection Hft as <-.
    + destruct (Hnum eq_refl) as (z & -> & Hz). eauto.
    + destruct (Hdate eq_refl) as (t & k & Hk & -> & Habs & Hb).
      exists (iso_string t), t, k. repeat split; auto; try lia.
      now apply parse_iso_string.
Qed.

Lemma number_and_date_ranges_witness :
  exists r tick' rows,
    generateFallbackData demo_world (request (JObj demo_fields) (Some 3)) 0%nat
      = Normal (r, tick')
    /\ data r = JArr rows
    /\ forall row key d,
         In row rows -> lookup key demo_fields = Some d ->
         exists props,
           row = JObj props
           /\ (key <> "__proto__" -> In key (keys props))
           /\ forall v, lookup key props = Some v ->
                (get d "type" = Normal (JStr "number") ->
                   exists z, v = JNum z /\ 0 <= z < 1000)
                /\ (get d "type" = Normal (JStr "date") ->
                      exists s t k,
                        v = JStr s
                        /\ Date_parse_iso s = Some t
                        /\ (0 <= k < tick')%nat
                        /\ Date_now demo_world k - year_ms <= t
                           <= Date_now demo_world k).
Proof.
  apply (number_and_date_ranges demo_world
           (request (JObj demo_fields) (Some 3)) demo_fields 0%nat).
  - demo_world_ok.
  - reflexivity.
  - reflexivity.
Defined.

(** Claim C7, as stated, fails: the body carries the scores 70, 60 and 50,
    and the result carries 95, 98 and 92. *)
Lemma backend_scores_ignored :
  exists r,
    generateSyntheticDataset demo_world (request (JObj demo_fields) (Some 1))
      (Response true (Normal scored_body)) 0%nat = Normal (r, 0%nat)
    /\ get scored_body "qualityScore" = Normal (JNum 70)
    /\ get scored_body "privacyScore" = Normal (JNum 60)
    /\ get scored_body "biasScore" = Normal (JNum 50)
    /\ qualityScore r <> 70 /\ privacyScore r <> 60 /\ biasScore r <> 50.
Proof.
  eexists. split; [reflexivity|]. simpl. repeat split; discriminate.
Qed.

Lemma Object_keys_or_empty (v : JsVal) :
  exists ks, Object_keys (js_or v (JObj [])) = Normal ks.
Proof.
  unfold js_or. destruct v as [| |b|n|s|items|props]; simpl; eauto.
  - destruct b; simpl; eauto.
  - destruct (negb (n =? 0)); simpl; eauto.
  - destruct (negb (String.eqb s "")); simpl; eauto.
Qed.

(** Claim C7, amended.  When the backend call succeeds (a success status
    and a body that parses to a value other than null), the result has the
    method ["backend_local"], the [data] of the body, and the scores 95,
    98 and 92, whatever else the body carries. *)
Theorem remote_success_fixed_scores (w : World) (options : DatasetGenerationOptions)
    (body : JsVal) (tick : nat) :
  nullish body = false ->
  exists r,
    generateSyntheticDataset w options (Response true (Normal body)) tick
      = Normal (r, tick)
    /\ generationMethod (metadata r) = "backend_local"
    /\ get body "data" = Normal (data r)
    /\ qualityScore r = 95 /\ privacyScore r = 98 /\ biasScore r = 92.
Proof.
  intros Hbody. unfold generateSyntheticDataset, remote_result.
  assert (Hd : exists d, get body "data" = Normal d).
  { destruct body; simpl in *; try discriminate; eauto. }
  destruct Hd as [d Hd]. rewrite Hd. cbn [cbind].
  destruct (Object_keys_or_empty (get_opt d "0")) as [ks Hks]. rewrite Hks.
  cbn [cbind]. eexists. split; [reflexivity|]. simpl. auto.
Qed.

Lemma remote_success_fixed_scores_witness :
  exists r,
    generateSyntheticDataset demo_world (request (JObj demo_fields) (Some 1))
      (Response true (Normal scored_body)) 0%nat = Normal (r, 0%nat)
    /\ generationMethod (metadata r) = "backend_local"
    /\ get scored_body "data" = Normal (data r)
    /\ qualityScore r = 95 /\ privacyScore r = 98 /\ biasScore r = 92.
Proof.
  apply (remote_success_fixed_scores demo_world (request (JObj demo_fields) (Some 1))
           scored_body 0%nat).
  reflexivity.
Defined.

(** Claim C6, as stated, fails on the remote path: for a schema of one
    field, a body with no row gives [columnsGenerated = 0], and a body
    whose row has two keys gives [columnsGenerated = 2]. *)
Lemma remote_columns_differ_from_schema :
  (exists r,
     generateSyntheticDataset demo_world (request (JObj one_field) (Some 0))
       (Response true (Normal empty_body)) 0%nat = Normal (r, 0%nat)
     /\ Object_keys (schema (request (JObj one_field) (Some 0))) = Normal ["id"]
     /\ columnsGenerated (metadata r) = 0)
  /\ (exists r,
        generateSyntheticDataset demo_world (request (JObj one_field) (Some 1))
          (Response true (Normal wide_body)) 0%nat = Normal (r, 0%nat)
        /\ Object_keys (schema (request (JObj one_field) (Some 1))) = Normal ["id"]
        /\ columnsGenerated (metadata r) = 2).
Proof.
  split; eexists; (split; [reflexivity|]); split; reflexivity.
Qed.

Lemma generateFallbackData_shape (w : World) (options : DatasetGenerationOptions)
    (tick tick' : nat) (r : GenerationResult) :
  generateFallbackData w options tick = Normal (r, tick') ->
  exists rows ks,
    Object_keys (schema options) = Normal ks
    /\ r = {| data := JArr rows;
              metadata :=
                {| rowsGenerated := JNum (Z.of_nat (List.length rows));
                   columnsGenerated := Z.of_nat (List.length ks);
                   generationMethod := "local_fallback" |};
              qualityScore := 85;
              privacyScore := 90;
              biasScore := 88 |}.
Proof.
  unfold generateFallbackData, bind.
  destruct (rows_loop _ _ _ _ _ tick) as [[rows t1]|e]; [|discriminate].
  unfold lift. destruct (Object_keys (schema options)) as [ks|e]; [|discriminate].
  unfold ret. intros [= <- <-]. exists rows, ks. auto.
Qed.

Lemma first_index : array_index "0" = Some 0%nat.
Proof. reflexivity. Qed.

(** Claim C6, amended.  In every result of [generateSyntheticDataset],
    [rowsGenerated] is the number of rows of the returned [data], and 0
    when the body of the backend has no [data] (it is missing or null).  On
    the fallback path [columnsGenerated] is the number of keys of the
    schema; on the remote path it is the number of keys of the first
    returned row, 0 when there is none or when the body has no [data].
    Neither is read from the request's [rowCount]. *)
Theorem generated_counts (w : World) (options : DatasetGenerationOptions)
    (outcome : FetchOutcome) (tick tick' : nat) (r : GenerationResult) :
  generateSyntheticDataset w options outcome tick = Normal (r, tick') ->
  (generationMethod (metadata r) = "local_fallback"
   /\ exists rows ks,
        data r = JArr rows
        /\ rowsGenerated (metadata r) = JNum (Z.of_nat (List.length rows))
        /\ Object_keys (schema options) = Normal ks
        /\ columnsGenerated (metadata r) = Z.of_nat (List.length ks))
  \/ (generationMethod (metadata r) = "backend_local"
      /\ (forall rows, data r = JArr rows ->
            rowsGenerated (metadata r) = JNum (Z.of_nat (List.length rows))
            /\ exists ks,
                 Object_keys (js_or (nth 0 rows JUndefined) (JObj [])) = Normal ks
                 /\ columnsGenerated (metadata r) = Z.of_nat (List.length ks))
      /\ (nullish (data r) = true ->
            rowsGenerated (metadata r) = JNum 0
            /\ columnsGenerated (metadata r) = 0)).
Proof.
  intros Hrun.
  assert (Hfb : generateFallbackData w options tick = Normal (r, tick') ->
                generationMethod (metadata r) = "local_fallback"
                /\ exists rows ks,
                     data r = JArr rows
                     /\ rowsGenerated (metadata r) = JNum (Z.of_nat (List.length rows))
                     /\ Object_keys (schema options) = Normal ks
                     /\ columnsGenerated (metadata r) = Z.of_nat (List.length ks)).
  { intros H. apply generateFallbackData_shape in H.
    destruct H as (rows & ks & Hks & ->). simpl. split; auto.
    exists rows, ks. auto. }
  unfold generateSyntheticDataset in Hrun.
  destruct outcome as [|[|] [body|e]]; auto.
  destruct (remote_result body) as [r0|e] eqn:Hremote; auto.
  unfold ret in Hrun. injection Hrun as <- <-. right.
  unfold remote_result in Hremote.
  destruct (get body "data") as [d|e]; [|discriminate]. cbn [cbind] in Hremote.
  destruct (Object_keys (js_or (get_opt d "0") (JObj []))) as [ks|e] eqn:Hks;
    [|discriminate].
  cbn [cbind] in Hremote. injection Hremote as <-. simpl. split; auto. split.
  - intros rows ->. split.
    + unfold get_opt, js_or. simpl.
      destruct (List.length rows); reflexivity.
    + exists ks. split; auto.
  - intros Hnull. destruct d; try discriminate; cbn in Hks; injection Hks as <-;
      split; reflexivity.
Qed.

Lemma generated_counts_witness :
  exists r,
    generateSyntheticDataset demo_world (request (JObj one_field) (Some 1))
      (Response true (Normal wide_body)) 0%nat = Normal (r, 0%nat)
    /\ ((generationMethod (metadata r) = "local_fallback"
         /\ exists rows ks,
              data r = JArr rows
              /\ rowsGenerated (metadata r) = JNum (Z.of_nat (List.length rows))
              /\ Object_keys (schema (request (JObj one_field) (Some 1))) = Normal ks
              /\ columnsGenerated (metadata r) = Z.of_nat (List.length ks))
        \/ (generationMethod (metadata r) = "backend_local"
            /\ (forall rows, data r = JArr rows ->
                  rowsGenerated (metadata r) = JNum (Z.of_nat (List.length rows))
                  /\ exists ks,
                       Object_keys (js_or (nth 0 rows JUndefined) (JObj [])) = Normal ks
                       /\ columnsGenerated (metadata r) = Z.of_nat (List.length ks))
            /\ (nullish (data r) = true ->
                  rowsGenerated (metadata r) = JNum 0
                  /\ columnsGenerated (metadata r) = 0))).
Proof.
  eexists. split; [reflexivity|].
  apply (generated_counts demo_world (request (JObj one_field) (Some 1))
           (Response true (Normal wide_body)) 0%nat 0%nat).
  reflexivity.
Defined.

Lemma domain_schema_defined (domain : string) :
  descriptors_defined (domain_schema domain).
Proof.
  unfold domain_schema.
  repeat match goal with |- context [String.eqb ?a ?b] => destruct (String.eqb a b) end;
    reflexivity.
Qed.

Lemma domain_schema_typed (domain key : string) (d : JsVal) :
  lookup key (domain_schema domain) = Some d ->
  d = type_of "string" \/ d = type_of "number" \/ d = type_of "date".
Proof.
  unfold domain_schema.
  repeat match goal with |- context [String.eqb ?a ?b] => destruct (String.eqb a b) end;
    cbn [lookup healthcare_schema finance_schema retail_schema generic_schema];
    repeat match goal with
           | |- context [String.eqb key ?b] => destruct (String.eqb key b)
           end;
    intros H; try discriminate; injection H as <-; auto.
Qed.

Lemma domain_schema_no_proto (domain : string) :
  ~ In "__proto__" (keys (domain_schema domain)).
Proof.
  unfold domain_schema.
  repeat match goal with |- context [String.eqb ?a ?b] => destruct (String.eqb a b) end;
    cbn; intuition discriminate.
Qed.

Lemma embeds_middle (before part after : string) :
  embeds (before ++ part ++ after) part.
Proof. now exists before, after. Qed.

Lemma embeds_end (before part : string) : embeds (before ++ part) part.
Proof. exists before, "". now rewrite append_nil_r. Qed.

Lemma embeds_last (before key between part : string) :
  embeds (before ++ key ++ between ++ part) part.
Proof.
  exists (before ++ key ++ between)%string, "".
  now rewrite append_nil_r, !append_assoc.
Qed.

(** The values of the Row Synthesizer obey the rule of section 4.3. *)
Lemma cell_ok_rule (w : World) (a b : nat) (i : Z) (key : string)
    (fieldType v : JsVal) :
  cell_ok w a b i key fieldType v -> synthesis_rule w a b i key fieldType v.
Proof.
  intros (Hs & Hn & Hb & Hd & Hu). repeat split; auto.
  - intros H. rewrite (Hs H). eexists. split; [reflexivity|]. split.
    + apply (embeds_middle "Generated " key).
    + apply (embeds_last "Generated " key " ").
  - intros H. destruct (Hd H) as (t & k & Hk & Hv & _ & Ht). eauto.
  - intros H. rewrite (Hu H). eexists. split; [reflexivity|].
    apply (embeds_end "Value ").
Qed.

(** Claim C10.  For every domain tag, [generateFallbackSchema] returns the
    schema of the domain and exactly 3 sample rows with the keys of that
    schema.  Every value of row [j] obeys the value rule of section 4.3 for
    the declared type of its field and the ordinal [j] = 0, 1, 2, as the
    values of the Row Synthesizer do: a string field holds the label
    ["Sample <key> <j+1>"], a number field an integer in [[0, 1000)], drawn
    as the Row Synthesizer draws it, and a date field the ISO text of a
    clock read made during the call. *)
Theorem fallback_schema_samples (w : World) (domain : string) (tick : nat) :
  world_ok w ->
  exists r tick',
    generateFallbackSchema w domain tick = Normal (r, tick')
    /\ SchemaResult.schema r = domain_schema domain
    /\ List.length (SchemaResult.sampleData r) = 3%nat
    /\ (forall j row, nth_error (SchemaResult.sampleData r) j = Some row ->
          exists props,
            row = JObj props /\ same_keys props (domain_schema domain)
            /\ forall key d, lookup key (domain_schema domain) = Some d ->
                 exists fieldType v,
                   get d "type" = Normal fieldType /\ lookup key props = Some v
                   /\ synthesis_rule w tick tick' (Z.of_nat j) key fieldType v
                   /\ (fieldType = JStr "string" ->
                         v = JStr ("Sample " ++ key ++ " "
                                   ++ number_to_string (Z.of_nat j + 1)))
                   /\ (fieldType = JStr "number" ->
                         exists z, v = JNum z /\ 0 <= z < 1000)
                   /\ (fieldType = JStr "date" ->
                         exists k, (tick <= k < tick')%nat
                                   /\ v = JStr (iso_string (Date_now w k))))
    /\ (forall key i, sample_value w (JStr "number") key i
                      = fallback_value w (JStr "number") key i)
    /\ (forall fieldType key i tick0,
          exists v tick1,
            fallback_value w fieldType key i tick0 = Normal (v, tick1)
            /\ synthesis_rule w tick0 tick1 i key fieldType v).
Proof.
  intros Hw.
  destruct (rows_loop_spec (sample_value w) (sample_ok w) (domain_schema domain)
              (domain_schema_defined domain) (sample_ok_mono w)
              (fun i ft key tick => sample_value_ok w i key ft tick Hw)
              3 0 [] tick)
    as (rows & tick' & Hrun & Hle & Hlen & Hrows).
  unfold generateFallbackSchema, bind. rewrite Hrun. unfold ret.
  eexists _, tick'. split; [reflexivity|]. simpl.
  split; [reflexivity|]. split; [exact Hlen|]. split; [|split; [reflexivity|]].
  - intros j row Hj.
    destruct (Hrows j row Hj) as (props & -> & Hkeys & _ & _ & Hcells).
    exists props. split; auto. split.
    { apply stored_keys_same; auto. apply domain_schema_no_proto. }
    intros key d Hd.
    assert (Hproto : key <> "__proto__").
    { intros ->. apply (domain_schema_no_proto domain). apply lookup_in_keys. eauto. }
    destruct (Hcells key d Hd Hproto) as (ft & v & Hft & Hv & Hs & Hn & Hdt & _).
    exists ft, v. repeat split; auto.
    + intros H. rewrite (Hs H). eexists. split; [reflexivity|]. split.
      * apply (embeds_middle "Sample " key).
      * apply (embeds_last "Sample " key " ").
    + intros H. exfalso.
      destruct (domain_schema_typed domain key d Hd) as [Ht|[Ht|Ht]]; subst d;
        simpl in Hft; injection Hft as <-; discriminate.
    + intros H. destruct (Hdt H) as (k & Hk & ->).
      destruct (Hw k) as [_ Hnow].
      exists (Date_now w k), k. repeat split; auto; unfold year_ms; lia.
    + intros (H1 & H2 & _ & H4). exfalso.
      destruct (domain_schema_typed domain key d Hd) as [Ht|[Ht|Ht]]; subst d;
        simpl in Hft; injection Hft as <-; congruence.
  - intros ft key i tick0.
    destruct (fallback_value_ok w i key ft tick0 Hw) as (v & tick1 & Hv & _ & Hc).
    exists v, tick1. split; auto. now apply cell_ok_rule.
Qed.

Lemma fallback_schema_samples_witness :
  exists r tick',
    generateFallbackSchema demo_world "retail" 0%nat = Normal (r, tick')
    /\ SchemaResult.schema r = domain_schema "retail"
    /\ List.length (SchemaResult.sampleData r) = 3%nat
    /\ (forall j row, nth_error (SchemaResult.sampleData r) j = Some row ->
          exists props,
            row = JObj props /\ same_keys props (domain_schema "retail")
            /\ forall key d, lookup key (domain_schema "retail") = Some d ->
                 exists fieldType v,
                   get d "type" = Normal fieldType /\ lookup key props = Some v
                   /\ synthesis_rule demo_world 0 tick' (Z.of_nat j) key fieldType v
                   /\ (fieldType = JStr "string" ->
                         v = JStr ("Sample " ++ key ++ " "
                                   ++ number_to_string (Z.of_nat j + 1)))
                   /\ (fieldType = JStr "number" ->
                         exists z, v = JNum z /\ 0 <= z < 1000)
                   /\ (fieldType = JStr "date" ->
                         exists k, (0 <= k < tick')%nat
                                   /\ v = JStr (iso_string (Date_now demo_world k))))
    /\ (forall key i, sample_value demo_world (JStr "number") key i
                      = fallback_value demo_world (JStr "number") key i)
    /\ (forall fieldType key i tick0,
          exists v tick1,
            fallback_value demo_world fieldType key i tick0 = Normal (v, tick1)
            /\ synthesis_rule demo_world tick0 tick1 i key fieldType v).
Proof.
  apply (fallback_schema_samples demo_world "retail" 0%nat).
  demo_world_ok.
Defined.


Lemma get_defined (v : JsVal) (k : string) :
  nullish v = false -> exists x, get v k = Normal x.
Proof.
  destruct v; simpl; try discriminate; intros _; eauto.
  - destruct (String.eqb k "length"); eauto. destruct (array_index k); eauto.
  - destruct (String.eqb k "length"); eauto. destruct (array_index k); eauto.
Qed.

Lemma Object_keys_defined (v : JsVal) (ks : list string) :
  Object_keys v = Normal ks -> nullish v = false.
Proof. destruct v; simpl; auto; discriminate. Qed.

Lemma get_opt_get (row : JsVal) (k : string) :
  nullish row = false -> get row k = Normal (get_opt row k).
Proof.
  intros H. unfold get_opt. destruct (get_defined row k H) as [x Hx]. now rewrite Hx.
Qed.

Lemma infer_fields_spec (date_parses : string -> bool) (first : JsVal) :
  nullish first = false ->
  forall ks schema,
    forallb (sample_converts first) ks = true ->
    exists schema',
      infer_fields date_parses first ks schema = Normal schema'
      /\ (forall k, In k (keys schema')
                    <-> In k (keys schema) \/ (In k ks /\ k <> "__proto__"))
      /\ (forall k v, In k ks -> k <> "__proto__" -> get first k = Normal v ->
            lookup k schema' = Some (type_of (infer_type date_parses v)))
      /\ (forall k, ~ In k ks -> lookup k schema' = lookup k schema)
      /\ (NoDup (keys schema) -> NoDup (keys schema'))
      /\ (key_order (keys schema) = true -> key_order (keys schema') = true).
Proof.
  intros Hfirst. induction ks as [|key ks IH]; intros schema Hconv.
  - exists schema. simpl. repeat split; auto; try tauto.
  - simpl in Hconv. apply andb_true_iff in Hconv. destruct Hconv as [Hc Hconv].
    pose proof (get_opt_get first key Hfirst) as Hv.
    set (v := get_opt first key) in *.
    unfold sample_converts in Hc. fold v in Hc. apply negb_true_iff in Hc.
    destruct (IH (obj_set key (type_of (infer_type date_parses v)) schema) Hconv)
      as (schema' & Hrun & Hkeys & Hin & Hout & Hnd & Hord).
    exists schema'. split; [|split; [|split; [|split; [|split]]]].
    + simpl. rewrite Hv. cbn [cbind]. rewrite Hc. exact Hrun.
    + intros k. rewrite Hkeys, keys_obj_set. simpl. intuition (subst; auto).
    + intros k v' Hk Hproto Hv'.
      destruct (in_dec string_dec k ks) as [Hin'|Hnotin]; [now apply Hin|].
      destruct Hk as [->|Hk]; [|contradiction].
      rewrite Hv in Hv'. injection Hv' as <-.
      rewrite (Hout _ Hnotin). now apply lookup_obj_set_same.
    + intros k Hk. rewrite Hout by (intros H; apply Hk; now right).
      apply lookup_obj_set_other. intros ->. apply Hk. now left.
    + intros H. apply Hnd. now apply NoDup_keys_obj_set.
    + intros H. apply Hord. now apply key_order_obj_set.
Qed.

Lemma infer_fields_rejects (date_parses : string -> bool) (first : JsVal) :
  nullish first = false ->
  forall ks schema,
    forallb (sample_converts first) ks = false ->
    infer_fields date_parses first ks schema = Throw TypeError.
Proof.
  intros Hfirst. induction ks as [|key ks IH]; intros schema Hconv; [discriminate|].
  simpl in Hconv. simpl. rewrite (get_opt_get first key Hfirst). cbn [cbind].
  unfold sample_converts in Hconv at 1.
  destruct (to_primitive_throws (get_opt first key)); [reflexivity|].
  simpl in Hconv. now apply IH.
Qed.

Lemma infer_fields_converts (date_parses : string -> bool) (first : JsVal)
    (ks : list string) (schema schema' : Props) :
  nullish first = false ->
  infer_fields date_parses first ks schema = Normal schema' ->
  forallb (sample_converts first) ks = true.
Proof.
  intros Hfirst Hrun.
  destruct (forallb (sample_converts first) ks) eqn:E; auto.
  rewrite (infer_fields_rejects date_parses first Hfirst ks schema E) in Hrun.
  discriminate.
Qed.

Lemma processUploadedData_schema (date_parses : string -> bool) (file : File)
    (r : Upload.t) :
  processUploadedData date_parses file = Some (Normal r) ->
  infer_schema date_parses (Upload.data r) = Normal (Upload.schema r)
  /\ Upload.rowCount r = Z.of_nat (List.length (Upload.data r))
  /\ Upload.columnCount r = Z.of_nat (List.length (keys (Upload.schema r))).
Proof.
  unfold processUploadedData.
  destruct (text file) as [t|]; [|discriminate].
  destruct (read_rows (name file) t) as [[rows|e]|]; try discriminate.
  destruct (infer_schema date_parses rows) as [s|e] eqn:Hs; simpl; [|discriminate].
  intros [= <-]. simpl. auto.
Qed.

Lemma infer_type_precedence (date_parses : string -> bool) (v : JsVal) :
  (Number_isNaN v = false -> infer_type date_parses v = "number")
  /\ (Number_isNaN v = true -> v = JStr "true" \/ v = JStr "false" ->
        infer_type date_parses v = "boolean")
  /\ (Number_isNaN v = true -> v <> JStr "true" -> v <> JStr "false" ->
        Date_valid date_parses v = true -> infer_type date_parses v = "date")
  /\ (Number_isNaN v = true -> v <> JStr "true" -> v <> JStr "false" ->
        Date_valid date_parses v = false -> infer_type date_parses v = "string").
Proof.
  unfold infer_type. repeat split.
  - now intros ->.
  - intros -> [->| ->]; reflexivity.
  - intros -> Ht Hf ->. cbn [negb].
    apply strict_eq_str_false in Ht. apply strict_eq_str_false in Hf.
    now rewrite Ht, Hf.
  - intros -> Ht Hf ->. cbn [negb].
    apply strict_eq_str_false in Ht. apply strict_eq_str_false in Hf.
    now rewrite Ht, Hf.
Qed.

(** Claim C4.  Every field of the schema that [processUploadedData]
    infers is a key of the first row, and its type is decided by the value
    of the first row alone, in this order: number when [Number(value)] is
    not NaN, else boolean when the value is the string ["true"] or
    ["false"], else date when [new Date(value)] is a valid date, else
    string; the rows after the first play no part.  The fields are the
    keys of the first row, one named [__proto__] apart, which a row of a
    JSON file can have and which [schema[key] = ...] does not store.  The
    CSV text [a,b / 1,true / 2,false] yields [a : number] and
    [b : boolean]. *)
Theorem schema_inference_precedence (date_parses : string -> bool) (file : File)
    (r : Upload.t) (first : JsVal) (rest : list JsVal) (ks : list string) :
  processUploadedData date_parses file = Some (Normal r) ->
  Upload.data r = first :: rest ->
  Object_keys first = Normal ks ->
  (forall key, In key (keys (Upload.schema r)) <-> In key ks /\ key <> "__proto__")
  /\ (forall key, In key (keys (Upload.schema r)) ->
        exists sampleValue type,
          get first key = Normal sampleValue
          /\ lookup key (Upload.schema r) = Some (type_of type)
          /\ (Number_isNaN sampleValue = false -> type = "number")
          /\ (Number_isNaN sampleValue = true ->
              sampleValue = JStr "true" \/ sampleValue = JStr "false" ->
              type = "boolean")
          /\ (Number_isNaN sampleValue = true ->
              sampleValue <> JStr "true" -> sampleValue <> JStr "false" ->
              Date_valid date_parses sampleValue = true -> type = "date")
          /\ (Number_isNaN sampleValue = true ->
              sampleValue <> JStr "true" -> sampleValue <> JStr "false" ->
              Date_valid date_parses sampleValue = false -> type = "string"))
  /\ (forall rest', infer_schema date_parses (first :: rest')
                    = Normal (Upload.schema r))
  /\ (exists r', processUploadedData date_parses example_file = Some (Normal r')
                 /\ Upload.schema r' = [("a", type_of "number"); ("b", type_of "boolean")]).
Proof.
  intros Hrun Hdata Hks.
  apply processUploadedData_schema in Hrun. destruct Hrun as (Hschema & _).
  rewrite Hdata in Hschema. simpl in Hschema. rewrite Hks in Hschema.
  cbn [cbind] in Hschema.
  pose proof (Object_keys_defined _ _ Hks) as Hfirst.
  pose proof (infer_fields_converts _ _ _ _ _ Hfirst Hschema) as Hconv.
  destruct (infer_fields_spec date_parses first Hfirst ks [] Hconv)
    as (schema' & Hrun & Hkeys & Hin & _).
  rewrite Hrun in Hschema. injection Hschema as <-.
  split; [|split; [|split]].
  - intros key. rewrite Hkeys. simpl. tauto.
  - intros key Hkey. apply Hkeys in Hkey. destruct Hkey as [[]|[Hkey Hproto]].
    destruct (get_defined first key Hfirst) as [v Hv].
    exists v, (infer_type date_parses v). split; auto. split; [now apply Hin|].
    apply infer_type_precedence.
  - intros rest'. simpl. rewrite Hks. exact Hrun.
  - eexists. split; reflexivity.
Qed.

Lemma schema_inference_precedence_witness :
  exists r first rest ks,
    processUploadedData (fun _ => false) example_file = Some (Normal r)
    /\ Upload.data r = first :: rest
    /\ Object_keys first = Normal ks
    /\ (forall key, In key (keys (Upload.schema r)) <-> In key ks /\ key <> "__proto__")
    /\ (forall key, In key (keys (Upload.schema r)) ->
        exists sampleValue type,
          get first key = Normal sampleValue
          /\ lookup key (Upload.schema r) = Some (type_of type)
          /\ (Number_isNaN sampleValue = false -> type = "number")
          /\ (Number_isNaN sampleValue = true ->
              sampleValue = JStr "true" \/ sampleValue = JStr "false" ->
              type = "boolean")
          /\ (Number_isNaN sampleValue = true ->
              sampleValue <> JStr "true" -> sampleValue <> JStr "false" ->
              Date_valid (fun _ => false) sampleValue = true -> type = "date")
          /\ (Number_isNaN sampleValue = true ->
              sampleValue <> JStr "true" -> sampleValue <> JStr "false" ->
              Date_valid (fun _ => false) sampleValue = false -> type = "string")).
Proof.
  eexists _, _, _, _.
  split; [reflexivity|]. split; [reflexivity|]. split; [reflexivity|].
  pose proof (schema_inference_precedence (fun _ => false) example_file _ _ _ _
                eq_refl eq_refl eq_refl) as H.
  split; [exact (proj1 H) | exact (proj1 (proj2 H))].
Defined.


Lemma join_item_csv_cell (value : JsVal) : join_item (csv_cell value) = cell_text value.
Proof. destruct value; reflexivity. Qed.

Lemma Object_keys_total (v : JsVal) :
  nullish v = false -> exists ks, Object_keys v = Normal ks.
Proof. destruct v; simpl; try discriminate; eauto. Qed.

(* ================================================================== *)
(** * Round trips between CSV and JSON *)
(* ================================================================== *)

Lemma split_not_nil (c : ascii) (s : string) : split c s <> [].
Proof.
  induction s as [|a s IH]; simpl; [discriminate|].
  destruct (Ascii.eqb a c); [discriminate|].
  destruct (split c s); discriminate.
Qed.

Lemma split_no_sep (c : ascii) (s : string) :
  Forall (fun piece => no_char c piece = true) (split c s).
Proof.
  induction s as [|a s IH]; simpl.
  - constructor; [reflexivity|constructor].
  - destruct (Ascii.eqb a c) eqn:E.
    + constructor; [reflexivity|exact IH].
    + destruct (split c s) as [|h t].
      * constructor; [|constructor]. unfold no_char. simpl. now rewrite E.
      * inversion IH; subst.
        constructor; auto. unfold no_char in *. simpl. now rewrite E.
Qed.

Lemma split_piece (c : ascii) (s : string) :
  no_char c s = true -> split c s = [s].
Proof.
  unfold no_char. induction s as [|a s IH]; simpl; auto.
  intros H. apply andb_true_iff in H. destruct H as [Ha Hs].
  apply negb_true_iff in Ha. rewrite Ha, (IH Hs). reflexivity.
Qed.

Lemma split_append (c : ascii) (s rest : string) :
  no_char c s = true ->
  split c (s ++ String c rest) = s :: split c rest.
Proof.
  unfold no_char. induction s as [|a s IH]; simpl.
  - intros _. now rewrite Ascii.eqb_refl.
  - intros H. apply andb_true_iff in H. destruct H as [Ha Hs].
    apply negb_true_iff in Ha. rewrite Ha, (IH Hs). reflexivity.
Qed.

Lemma split_join (c : ascii) (l : list string) :
  l <> [] -> Forall (fun piece => no_char c piece = true) l ->
  split c (join (String c EmptyString) l) = l.
Proof.
  unfold join. induction l as [|x l IH]; intros Hne Hall; [congruence|].
  inversion Hall as [|? ? Hx Hl]; subst.
  destruct l as [|y l'].
  - simpl. now apply split_piece.
  - cbn [String.concat]. change (String c EmptyString ++ ?r)%string with (String c r).
    cbn [append]. rewrite split_append by auto. f_equal. apply IH; auto. discriminate.
Qed.

Lemma trim_end_last (s : string) (c : ascii) :
  is_space c = false -> trim_end (s ++ String c EmptyString) = s ++ String c EmptyString.
Proof.
  intros Hc. induction s as [|a s IH]; simpl.
  - now rewrite Hc.
  - rewrite IH. destruct s; reflexivity.
Qed.

Lemma trim_quoted (s : string) :
  trim (String dquote (s ++ String dquote EmptyString))
  = String dquote (s ++ String dquote EmptyString).
Proof.
  unfold trim. cbn [trim_start]. change (is_space dquote) with false. cbv iota.
  change (String dquote (s ++ String dquote EmptyString))
    with ((String dquote s) ++ String dquote EmptyString)%string.
  now apply trim_end_last.
Qed.

Lemma trim_end_no_space (s : string) :
  all_chars (fun c => negb (is_space c)) s = true -> trim_end s = s.
Proof.
  induction s as [|a s IH]; simpl; auto.
  intros H. apply andb_true_iff in H. destruct H as [Ha Hs].
  apply negb_true_iff in Ha. rewrite (IH Hs), Ha. destruct s; reflexivity.
Qed.

Lemma trim_no_space (s : string) :
  all_chars (fun c => negb (is_space c)) s = true -> trim s = s.
Proof.
  intros H. unfold trim.
  assert (Hs : trim_start s = s).
  { destruct s as [|a s]; simpl; auto. simpl in H.
    apply andb_true_iff in H. destruct H as [Ha _].
    apply negb_true_iff in Ha. now rewrite Ha. }
  rewrite Hs. now apply trim_end_no_space.
Qed.

Lemma trim_end_fixed (s : string) : no_trailing_space s = true -> trim_end s = s.
Proof.
  induction s as [|a s IH]; simpl; auto.
  destruct s as [|b s'].
  - simpl. intros H. apply negb_true_iff in H. now rewrite H.
  - intros H. rewrite (IH H). reflexivity.
Qed.

Lemma trim_end_no_trailing (s : string) : no_trailing_space (trim_end s) = true.
Proof.
  induction s as [|a s IH]; simpl; auto.
  destruct (trim_end s) as [|b r] eqn:E.
  - destruct (is_space a) eqn:Ea; simpl; auto. now rewrite Ea.
  - exact IH.
Qed.

Lemma trim_end_no_leading (s : string) :
  no_leading_space s = true -> no_leading_space (trim_end s) = true.
Proof.
  destruct s as [|a s]; simpl; auto.
  intros Ha. destruct (trim_end s); [|exact Ha].
  destruct (is_space a) eqn:E; simpl; auto. now rewrite E.
Qed.

Lemma trim_start_no_leading (s : string) : no_leading_space (trim_start s) = true.
Proof.
  induction s as [|a s IH]; simpl; auto.
  destruct (is_space a) eqn:Ea; auto. simpl. now rewrite Ea.
Qed.

Lemma trim_start_fixed (s : string) : no_leading_space s = true -> trim_start s = s.
Proof.
  destruct s as [|a s]; simpl; auto.
  intros H. apply negb_true_iff in H. now rewrite H.
Qed.

Lemma trim_idempotent (s : string) : trim (trim s) = trim s.
Proof.
  unfold trim.
  rewrite (trim_start_fixed (trim_end (trim_start s)))
    by (apply trim_end_no_leading, trim_start_no_leading).
  apply trim_end_fixed, trim_end_no_trailing.
Qed.

Lemma trim_start_no_char (c : ascii) (s : string) :
  no_char c s = true -> no_char c (trim_start s) = true.
Proof.
  unfold no_char. induction s as [|a s IH]; simpl; auto.
  intros H. destruct (is_space a); auto.
  apply andb_true_iff in H. destruct H as [_ Hs]. auto.
Qed.

Lemma trim_end_no_char (c : ascii) (s : string) :
  no_char c s = true -> no_char c (trim_end s) = true.
Proof.
  unfold no_char. induction s as [|a s IH]; simpl; auto.
  intros H. apply andb_true_iff in H. destruct H as [Ha Hs].
  specialize (IH Hs). destruct (trim_end s) as [|b r].
  - destruct (is_space a); simpl; auto. now rewrite Ha.
  - simpl in *. now rewrite Ha, IH.
Qed.

Lemma trim_no_char (c : ascii) (s : string) :
  no_char c s = true -> no_char c (trim s) = true.
Proof.
  intros H. unfold trim. now apply trim_end_no_char, trim_start_no_char.
Qed.

Lemma string_of_uint_digits (d : Decimal.uint) :
  all_chars is_digit (NilEmpty.string_of_uint d) = true.
Proof. induction d; simpl; auto. Qed.

Lemma number_to_string_numeral (z : Z) :
  all_chars numeral_char (number_to_string z) = true
  /\ number_to_string z <> "".
Proof.
  unfold number_to_string, NilZero.string_of_int.
  assert (Hu : forall d, all_chars numeral_char (NilZero.string_of_uint d) = true
                         /\ NilZero.string_of_uint d <> "").
  { intros d. unfold NilZero.string_of_uint. destruct d; try (split; [reflexivity|discriminate]);
      (split; [|discriminate]); simpl;
      pose proof (string_of_uint_digits d) as H;
      clear -H; induction (NilEmpty.string_of_uint d) as [|a s IH]; simpl in *; auto;
      apply andb_true_iff in H; destruct H as [Ha Hs];
      unfold numeral_char at 1; rewrite Ha; simpl; auto. }
  destruct (Z.to_int z) as [d|d].
  - apply Hu.
  - split; [|discriminate]. simpl. apply Hu.
Qed.

Lemma all_chars_impl (p q : ascii -> bool) (s : string) :
  (forall c, p c = true -> q c = true) ->
  all_chars p s = true -> all_chars q s = true.
Proof.
  intros Hpq. induction s as [|a s IH]; simpl; auto.
  intros H. apply andb_true_iff in H. destruct H as [Ha Hs].
  now rewrite (Hpq _ Ha), (IH Hs).
Qed.

Lemma numeral_char_cases (c : ascii) :
  numeral_char c = true ->
  negb (is_space c) = true /\ negb (Ascii.eqb c comma) = true
  /\ negb (Ascii.eqb c newline) = true.
Proof.
  destruct c as [[] [] [] [] [] [] [] []]; try discriminate; intros _; repeat split.
Qed.

Lemma no_char_append (c : ascii) (s1 s2 : string) :
  no_char c (s1 ++ s2) = no_char c s1 && no_char c s2.
Proof.
  unfold no_char. induction s1 as [|a s1 IH]; simpl; auto.
  rewrite IH. now rewrite andb_assoc.
Qed.

Lemma no_char_join (c : ascii) (sep : string) (l : list string) :
  no_char c sep = true -> Forall (fun s => no_char c s = true) l ->
  no_char c (join sep l) = true.
Proof.
  intros Hsep Hall. unfold join. induction l as [|x l IH]; [reflexivity|].
  inversion Hall as [|? ? Hx Hl]; subst. destruct l as [|y l'].
  - exact Hx.
  - cbn [String.concat]. rewrite !no_char_append, Hx, Hsep. now apply IH.
Qed.

Lemma cell_text_survives (v : JsVal) :
  plain_value v = true -> survives (cell_text v) /\ cell_text v <> "".
Proof.
  destruct v as [| |b|n|s|items|props]; simpl; try discriminate.
  - intros _. destruct b; (split; [repeat split|discriminate]).
  - intros _. destruct (number_to_string_numeral n) as [Hnum Hne].
    split; [|exact Hne]. repeat split.
    + eapply all_chars_impl; [|exact Hnum]. intros c Hc. now apply numeral_char_cases.
    + eapply all_chars_impl; [|exact Hnum]. intros c Hc. now apply numeral_char_cases.
    + apply trim_no_space. eapply all_chars_impl; [|exact Hnum].
      intros c Hc. now apply numeral_char_cases.
  - intros H. apply andb_true_iff in H. destruct H as [Hc Hn].
    split; [|discriminate]. repeat split.
    + unfold no_char in *. cbn [all_chars Ascii.eqb Bool.eqb negb andb dquote comma].
      fold (no_char comma (s ++ String dquote "")).
      rewrite no_char_append. unfold no_char at 1. now rewrite Hc.
    + unfold no_char in *. cbn [all_chars Ascii.eqb Bool.eqb negb andb dquote newline].
      fold (no_char newline (s ++ String dquote "")).
      rewrite no_char_append. unfold no_char at 1. now rewrite Hn.
    + apply trim_quoted.
Qed.

Lemma csv_values_closed (row : JsVal) (headers : list string) :
  nullish row = false ->
  csv_values row headers = Normal (map (fun h => csv_cell (get_opt row h)) headers).
Proof.
  intros Hrow. induction headers as [|h headers IH]; simpl; auto.
  rewrite (get_opt_get row h Hrow). cbn [cbind]. rewrite IH. reflexivity.
Qed.

Lemma join_values_cells (headers : list string) (row : JsVal) :
  join_values "," (map (fun h => csv_cell (get_opt row h)) headers)
  = join "," (cells_of headers row).
Proof.
  unfold join_values, cells_of. rewrite map_map. f_equal.
  apply map_ext. intros h. apply join_item_csv_cell.
Qed.

Lemma csv_cell_throws (v : JsVal) :
  to_primitive_throws (csv_cell v) = to_primitive_throws v.
Proof. destruct v; reflexivity. Qed.

Lemma array_join_cells (headers : list string) (row : JsVal) :
  array_join "," (map (fun h => csv_cell (get_opt row h)) headers)
  = if row_converts headers row then Normal (join "," (cells_of headers row))
    else Throw TypeError.
Proof.
  unfold array_join, row_converts. rewrite join_values_cells.
  replace (existsb to_primitive_throws (map (fun h => csv_cell (get_opt row h)) headers))
    with (negb (forallb (sample_converts row) headers)); [now destruct (forallb _ _)|].
  induction headers as [|h headers IH]; simpl; auto.
  rewrite negb_andb, IH, csv_cell_throws. unfold sample_converts.
  now rewrite negb_involutive.
Qed.

Lemma csv_rows_closed (headers : list string) :
  forall rows csvRows,
    Forall (fun row => nullish row = false /\ row_converts headers row = true) rows ->
    csv_rows headers rows csvRows
    = Normal (csvRows ++ map (fun row => join "," (cells_of headers row)) rows)%list.
Proof.
  induction rows as [|row rows IH]; intros csvRows Hdef; simpl.
  - now rewrite app_nil_r.
  - inversion Hdef as [|? ? [Hrow Hconv] Hrows]; subst.
    rewrite (csv_values_closed row headers Hrow). cbn [cbind].
    rewrite array_join_cells, Hconv. cbn [cbind].
    rewrite IH by auto. now rewrite <- app_assoc.
Qed.

Lemma exportData_csv_closed (first : JsVal) (rest : list JsVal) (ks : list string) :
  Object_keys first = Normal ks ->
  Forall (fun row => nullish row = false /\ row_converts ks row = true) (first :: rest) ->
  exportData (first :: rest) (Some "csv") = Normal (csv_text ks (first :: rest)).
Proof.
  intros Hks Hdef. unfold exportData. cbn [String.eqb Ascii.eqb Bool.eqb].
  rewrite Hks. cbn [cbind]. rewrite csv_rows_closed by auto. reflexivity.
Qed.

Lemma fill_object_fresh (values : list string) :
  forall headers cells pre acc,
    values = (pre ++ cells)%list ->
    List.length cells = List.length headers ->
    NoDup (keys acc ++ headers) ->
    key_order (keys acc ++ headers) = true ->
    ~ In "__proto__" headers ->
    fill_object values headers (List.length pre) acc
    = (acc ++ combine headers (map JStr cells))%list.
Proof.
  induction headers as [|h hs IH]; intros cells pre acc Hv Hlen Hnd Hord Hproto.
  - simpl. now rewrite app_nil_r.
  - destruct cells as [|c cs]; [discriminate|]. subst values.
    cbn [fill_object].
    assert (Hval : value_at (pre ++ c :: cs) (List.length pre) = JStr c).
    { unfold value_at. rewrite nth_error_app2 by lia. rewrite Nat.sub_diag. simpl.
      unfold js_or. simpl. destruct (String.eqb c "") eqn:E; auto.
      apply String.eqb_eq in E. now subst. }
    rewrite Hval.
    assert (Hfresh : ~ In h (keys acc)).
    { apply NoDup_remove_2 in Hnd. intros Hin. apply Hnd. apply in_or_app. now left. }
    rewrite (obj_set_last h (JStr c) acc Hfresh).
    + replace (S (List.length pre)) with (List.length (pre ++ [c])%list)
        by (rewrite length_app; simpl; lia).
      rewrite (IH cs (pre ++ [c])%list).
      * simpl. now rewrite <- app_assoc.
      * now rewrite <- app_assoc.
      * simpl in Hlen. lia.
      * unfold keys in *. rewrite map_app. simpl. rewrite <- app_assoc. exact Hnd.
      * unfold keys in *. rewrite map_app. simpl. rewrite <- app_assoc. exact Hord.
      * intros H. apply Hproto. now right.
    + intros ->. apply Hproto. now left.
    + now apply (key_order_middle (keys acc) h hs).
Qed.

Lemma filter_all {A} (f : A -> bool) (l : list A) :
  Forall (fun x => f x = true) l -> filter f l = l.
Proof.
  induction 1 as [|x l Hx _ IH]; simpl; auto. now rewrite Hx, IH.
Qed.

Lemma keys_combine (ks : list string) (vs : list JsVal) :
  List.length vs = List.length ks -> keys (combine ks vs) = ks.
Proof.
  unfold keys. revert vs. induction ks as [|k ks IH]; intros [|v vs] H; simpl in *;
    try discriminate; auto.
  f_equal. apply IH. lia.
Qed.

Lemma cells_of_length (ks : list string) (row : JsVal) :
  List.length (cells_of ks row) = List.length ks.
Proof. unfold cells_of. apply length_map. Qed.

Lemma csv_value_survives (v : JsVal) :
  csv_value v = true -> survives (cell_text v).
Proof.
  unfold csv_value. intros H. apply orb_true_iff in H. destruct H as [H|H].
  - now apply cell_text_survives.
  - destruct v; try discriminate; repeat split.
Qed.

Lemma csv_value_cell (v : JsVal) :
  csv_value v = true -> nullish v = false -> cell_text v <> "".
Proof.
  unfold csv_value. intros H Hn. rewrite Hn, orb_false_r in H.
  now apply cell_text_survives.
Qed.

Lemma csv_value_converts (v : JsVal) :
  csv_value v = true -> to_primitive_throws v = false.
Proof. destruct v; auto; discriminate. Qed.

Lemma cells_of_survive (ks : list string) (row : JsVal) :
  plain_row ks row ->
  Forall survives (cells_of ks row) /\ Exists (fun c => c <> "") (cells_of ks row).
Proof.
  unfold plain_row, cells_of. intros [Hall Hex]. split.
  - rewrite Forall_map. eapply Forall_impl; [|exact Hall].
    intros k Hk. now apply csv_value_survives.
  - rewrite Exists_exists in Hex. destruct Hex as (k & Hk & Hn).
    apply Exists_exists. exists (cell_text (get_opt row k)). split.
    + apply in_map_iff. eauto.
    + rewrite Forall_forall in Hall. apply csv_value_cell; auto.
Qed.

Lemma plain_row_converts (ks : list string) (row : JsVal) :
  plain_row ks row -> row_converts ks row = true.
Proof.
  intros [Hall _]. unfold row_converts. apply forallb_forall. intros k Hk.
  rewrite Forall_forall in Hall. unfold sample_converts.
  now rewrite (csv_value_converts _ (Hall k Hk)).
Qed.

Lemma read_line (ks : list string) (row : JsVal) :
  ks <> [] -> plain_row ks row ->
  map trim (split comma (join "," (cells_of ks row))) = cells_of ks row.
Proof.
  intros Hne Hrow. destruct (cells_of_survive ks row Hrow) as [Hcells _].
  change "," with (String comma EmptyString).
  rewrite split_join.
  - rewrite <- (map_id (cells_of ks row)) at 2. apply map_ext_in.
    intros c Hc. rewrite Forall_forall in Hcells. apply (Hcells c Hc).
  - intros E. apply (f_equal (@List.length string)) in E.
    rewrite cells_of_length in E. destruct ks; [congruence|discriminate].
  - eapply Forall_impl; [|exact Hcells]. intros c Hs. apply Hs.
Qed.

Lemma some_non_empty_row (ks : list string) (cells : list string) :
  List.length cells = List.length ks ->
  Exists (fun c => c <> "") cells ->
  some_non_empty (JObj (combine ks (map JStr cells))) = true.
Proof.
  intros Hlen Hex. unfold some_non_empty, values.
  revert ks Hlen. induction Hex as [c cells Hc|c cells _ IH]; intros [|k ks] Hlen;
    try discriminate; simpl.
  - destruct (String.eqb c "") eqn:E; auto.
    apply String.eqb_eq in E. contradiction.
  - rewrite IH by (simpl in Hlen; lia). apply orb_true_r.
Qed.

Lemma parse_csv_csv_text (ks : list string) (rows : list JsVal) :
  NoDup ks -> ks <> [] -> Forall survives ks ->
  key_order ks = true -> ~ In "__proto__" ks ->
  Forall (plain_row ks) rows ->
  parse_csv (csv_text ks rows) = table_rows ks (map (cells_of ks) rows).
Proof.
  intros Hnd Hne Hks Hord Hproto Hrows. unfold parse_csv, csv_text.
  change lf with (String newline EmptyString).
  rewrite split_join; [|discriminate|].
  - cbn [hd tl].
    assert (Hheaders : map trim (split comma (join "," ks)) = ks).
    { change "," with (String comma EmptyString). rewrite split_join; auto.
      - rewrite <- (map_id ks) at 2. apply map_ext_in. intros k Hk.
        rewrite Forall_forall in Hks. apply (Hks k Hk).
      - eapply Forall_impl; [|exact Hks]. intros k Hk. apply Hk. }
    rewrite Hheaders. rewrite map_map.
    assert (Hmap : map (fun row => JObj (fill_object
                     (map trim (split comma (join "," (cells_of ks row)))) ks 0 []))
                   rows
                   = table_rows ks (map (cells_of ks) rows)).
    { unfold table_rows. rewrite map_map. apply map_ext_in. intros row Hrow.
      rewrite Forall_forall in Hrows. specialize (Hrows row Hrow).
      rewrite (read_line ks row Hne Hrows). f_equal.
      apply (fill_object_fresh (cells_of ks row) ks (cells_of ks row) [] []); auto.
      apply cells_of_length. }
    rewrite Hmap. apply filter_all. unfold table_rows. rewrite Forall_map, Forall_map.
    rewrite Forall_forall. intros row Hrow.
    rewrite Forall_forall in Hrows. specialize (Hrows row Hrow).
    apply some_non_empty_row.
    + apply cells_of_length.
    + apply (cells_of_survive ks row Hrows).
  - constructor.
    + apply no_char_join; [reflexivity|].
      eapply Forall_impl; [|exact Hks]. intros k Hk. apply Hk.
    + rewrite Forall_map. rewrite Forall_forall. intros row Hrow.
      rewrite Forall_forall in Hrows. specialize (Hrows row Hrow).
      apply no_char_join; [reflexivity|].
      eapply Forall_impl; [|exact (proj1 (cells_of_survive ks row Hrows))].
      intros c Hs. apply Hs.
Qed.

Lemma keys_insert_key_same_keys (k : string) (v1 v2 : JsVal) (o1 o2 : Props) :
  keys o1 = keys o2 -> keys (insert_key k v1 o1) = keys (insert_key k v2 o2).
Proof.
  unfold keys. revert o2. induction o1 as [|[k1 x1] o1 IH]; intros [|[k2 x2] o2] H;
    simpl in *; try discriminate; auto.
  injection H as <- H. destruct (listed_before k k1); simpl; f_equal; auto.
  now f_equal.
Qed.

Lemma keys_obj_set_same_keys (k : string) (v1 v2 : JsVal) (o1 o2 : Props) :
  keys o1 = keys o2 -> keys (obj_set k v1 o1) = keys (obj_set k v2 o2).
Proof.
  intros H. unfold obj_set.
  destruct (lookup k o1) as [x1|] eqn:E1, (lookup k o2) as [x2|] eqn:E2.
  - now rewrite !keys_overwrite.
  - exfalso. apply lookup_none in E2. apply E2. rewrite <- H.
    apply lookup_in_keys. eauto.
  - exfalso. apply lookup_none in E1. apply E1. rewrite H.
    apply lookup_in_keys. eauto.
  - destruct (String.eqb k "__proto__"); auto.
    now apply keys_insert_key_same_keys.
Qed.

Lemma keys_fill_object (headers : list string) :
  forall values1 values2 n1 n2 acc1 acc2,
    keys acc1 = keys acc2 ->
    keys (fill_object values1 headers n1 acc1) = keys (fill_object values2 headers n2 acc2).
Proof.
  induction headers as [|h hs IH]; intros values1 values2 n1 n2 acc1 acc2 H; simpl; auto.
  apply IH. now apply keys_obj_set_same_keys.
Qed.

Lemma fill_object_keys_in (values : list string) (headers : list string) :
  forall n acc k,
    In k (keys (fill_object values headers n acc))
    <-> In k (keys acc) \/ (In k headers /\ k <> "__proto__").
Proof.
  induction headers as [|h hs IH]; intros n acc k; simpl; [tauto|].
  rewrite IH, keys_obj_set. intuition (subst; auto).
Qed.

Lemma fill_object_NoDup (values : list string) (headers : list string) :
  forall n acc, NoDup (keys acc) -> NoDup (keys (fill_object values headers n acc)).
Proof.
  induction headers as [|h hs IH]; intros n acc H; simpl; auto.
  apply IH. now apply NoDup_keys_obj_set.
Qed.

Lemma fill_object_key_order (values : list string) (headers : list string) :
  forall n acc,
    key_order (keys acc) = true ->
    key_order (keys (fill_object values headers n acc)) = true.
Proof.
  induction headers as [|h hs IH]; intros n acc H; simpl; auto.
  apply IH. now apply key_order_obj_set.
Qed.

Lemma overwrite_values (P : JsVal -> Prop) (k : string) (v : JsVal) (o : Props) :
  P v -> Forall P (values o) -> Forall P (values (overwrite k v o)).
Proof.
  unfold values. intros Hv. induction o as [|[k0 v0] o IH]; simpl; intros H; auto.
  inversion H; subst. destruct (String.eqb k k0); simpl; constructor; auto.
Qed.

Lemma insert_key_values (P : JsVal -> Prop) (k : string) (v : JsVal) (o : Props) :
  P v -> Forall P (values o) -> Forall P (values (insert_key k v o)).
Proof.
  unfold values. intros Hv. induction o as [|[k0 v0] o IH]; simpl; intros H.
  - constructor; auto.
  - inversion H; subst. destruct (listed_before k k0); simpl; constructor; auto.
Qed.

Lemma obj_set_values (P : JsVal -> Prop) (k : string) (v : JsVal) (o : Props) :
  P v -> Forall P (values o) -> Forall P (values (obj_set k v o)).
Proof.
  intros Hv H. unfold obj_set. destruct (lookup k o).
  - now apply overwrite_values.
  - destruct (String.eqb k "__proto__"); auto. now apply insert_key_values.
Qed.

Lemma value_at_plain (values : list string) (index : nat) :
  Forall (fun s => no_char comma s = true /\ no_char newline s = true) values ->
  plain_string (value_at values index).
Proof.
  intros Hall. unfold value_at.
  destruct (nth_error values index) as [s|] eqn:E.
  - apply nth_error_In in E. rewrite Forall_forall in Hall.
    destruct (Hall s E) as [Hc Hn]. unfold js_or. simpl.
    destruct (String.eqb s "") eqn:Es; simpl.
    + exists "". auto.
    + exists s. auto.
  - exists "". auto.
Qed.

Lemma fill_object_values (vals : list string) (headers : list string) :
  Forall (fun s => no_char comma s = true /\ no_char newline s = true) vals ->
  forall n acc,
    Forall plain_string (values acc) ->
    Forall plain_string (values (fill_object vals headers n acc)).
Proof.
  intros Hall. induction headers as [|h hs IH]; intros n acc H; simpl; auto.
  apply IH. apply obj_set_values; auto. now apply value_at_plain.
Qed.

Lemma split_keeps_no_char (c d : ascii) (s : string) :
  no_char d s = true -> Forall (fun piece => no_char d piece = true) (split c s).
Proof.
  unfold no_char. induction s as [|a s IH]; simpl; intros H.
  - constructor; [reflexivity|constructor].
  - apply andb_true_iff in H. destruct H as [Ha Hs]. specialize (IH Hs).
    destruct (Ascii.eqb a c).
    + constructor; [reflexivity|exact IH].
    + destruct (split c s) as [|h t].
      * constructor; [|constructor]. simpl. now rewrite Ha.
      * inversion IH; subst. constructor; auto. simpl. now rewrite Ha.
Qed.

(** The pieces of a line free of line feeds, trimmed. *)
Lemma line_pieces (line : string) :
  no_char newline line = true ->
  Forall (fun s => no_char comma s = true /\ no_char newline s = true /\ trim s = s)
    (map trim (split comma line)).
Proof.
  intros Hline. rewrite Forall_map.
  pose proof (split_no_sep comma line) as H1.
  pose proof (split_keeps_no_char comma newline line Hline) as H2.
  rewrite Forall_forall in *. intros piece Hp. repeat split.
  - apply trim_no_char. now apply H1.
  - apply trim_no_char. now apply H2.
  - apply trim_idempotent.
Qed.

Lemma props_combine (o : Props) : combine (keys o) (values o) = o.
Proof.
  unfold keys, values. induction o as [|[k v] o IH]; simpl; congruence.
Qed.

Lemma plain_strings_cells (vs : list JsVal) :
  Forall plain_string vs ->
  exists cells, vs = map JStr cells
                /\ Forall (fun s => no_char comma s = true /\ no_char newline s = true) cells.
Proof.
  induction 1 as [|v vs (s & -> & Hc & Hn) _ (cells & -> & Hcells)].
  - exists []. split; [reflexivity|constructor].
  - exists (s :: cells). split; [reflexivity|constructor; auto].
Qed.

Lemma read_lines_shape (headers : list string) (lines : list string) :
  Forall (fun l => no_char newline l = true) lines ->
  exists table,
    filter some_non_empty
      (map (fun line => JObj (fill_object (map trim (split comma line)) headers 0 []))
         lines)
    = table_rows (keys (fill_object [] headers 0 [])) table
    /\ Forall (fun cells =>
                 List.length cells = List.length (keys (fill_object [] headers 0 []))
                 /\ Forall (fun s => no_char comma s = true /\ no_char newline s = true)
                      cells) table.
Proof.
  set (ks := keys (fill_object [] headers 0 [])).
  induction 1 as [|line rest Hline _ (table & Heq & Htable)].
  - exists []. split; [reflexivity|constructor].
  - cbn [map filter].
    set (props := fill_object (map trim (split comma line)) headers 0 []).
    assert (Hkeys : keys props = ks) by (apply keys_fill_object; reflexivity).
    assert (Hvals : Forall plain_string (values props)).
    { apply fill_object_values; [|constructor].
      eapply Forall_impl; [|exact (line_pieces _ Hline)]. intros s (H1 & H2 & _). auto. }
    destruct (plain_strings_cells _ Hvals) as (cells & Hcells & Hplain).
    assert (Hrow : JObj props = JObj (combine ks (map JStr cells))).
    { rewrite <- Hkeys, <- Hcells. now rewrite props_combine. }
    assert (Hlen : List.length cells = List.length ks).
    { rewrite <- Hkeys. unfold keys. rewrite length_map.
      rewrite <- (length_map JStr cells), <- Hcells. unfold values. now rewrite length_map. }
    destruct (some_non_empty (JObj props)).
    + exists (cells :: table). split.
      * simpl. now rewrite Hrow, Heq.
      * constructor; auto.
    + exists table. auto.
Qed.

(** What the CSV reader delivers, whatever the text: a table of strings
    under distinct headers. *)
Lemma parse_csv_shape (text : string) :
  exists ks table,
    parse_csv text = table_rows ks table
    /\ NoDup ks /\ ks <> [] /\ Forall survives ks
    /\ key_order ks = true /\ ~ In "__proto__" ks
    /\ (forall k, In k ks ->
          table = [] \/ In k (map trim (split comma (hd "" (split newline text)))))
    /\ Forall (fun cells =>
                 List.length cells = List.length ks
                 /\ Forall (fun s => no_char comma s = true /\ no_char newline s = true)
                      cells) table.
Proof.
  unfold parse_csv.
  set (lines := split newline text).
  assert (Hlines : Forall (fun l => no_char newline l = true) lines)
    by apply split_no_sep.
  assert (Hline0 : no_char newline (hd "" lines) = true).
  { destruct lines as [|l ls]; [reflexivity|]. now inversion Hlines. }
  assert (Htl : Forall (fun l => no_char newline l = true) (tl lines)).
  { destruct lines as [|l ls]; [constructor|]. now inversion Hlines. }
  set (headers := map trim (split comma (hd "" lines))).
  pose proof (line_pieces _ Hline0) as Hheaders. fold headers in Hheaders.
  destruct (read_lines_shape headers (tl lines) Htl) as (table & Heq & Htable).
  destruct (keys (fill_object [] headers 0 [])) as [|k0 ks0] eqn:Eks.
  - exists ["a"], []. rewrite Heq.
    assert (Hempty : table = []).
    { destruct table as [|cells table']; auto. exfalso.
      assert (Hin : In (JObj []) (table_rows [] (cells :: table'))) by now left.
      rewrite <- Heq in Hin. apply filter_In in Hin. destruct Hin as [_ Hin].
      discriminate. }
    subst table.
    split; [reflexivity|]. split; [|split; [|split; [|split; [|split; [|split]]]]];
      auto; try discriminate.
    + constructor; [intros []|constructor].
    + constructor; [|constructor]. repeat split.
    + intros [H|[]]. discriminate.
  - assert (Hne : keys (fill_object [] headers 0 []) <> []) by (rewrite Eks; discriminate).
    rewrite <- Eks in Heq, Htable. clear Eks.
    exists (keys (fill_object [] headers 0 [])), table.
    split; [exact Heq|]. split; [|split; [|split; [|split; [|split; [|split]]]]]; auto.
    + apply fill_object_NoDup. constructor.
    + rewrite Forall_forall. intros k Hk.
      apply fill_object_keys_in in Hk. destruct Hk as [[]|[Hk _]].
      rewrite Forall_forall in Hheaders. apply (Hheaders k Hk).
    + now apply fill_object_key_order.
    + intros Hin. apply fill_object_keys_in in Hin. destruct Hin as [[]|[_ Hin]].
      now apply Hin.
    + intros k Hk. right. apply fill_object_keys_in in Hk.
      destruct Hk as [[]|[Hk _]]. exact Hk.
Qed.

Lemma lookup_combine (ks : list string) (vs : list JsVal) (k : string) :
  List.length vs = List.length ks -> In k ks ->
  exists v, lookup k (combine ks vs) = Some v /\ In v vs.
Proof.
  revert vs. induction ks as [|k0 ks IH]; intros [|v vs] Hlen Hin; simpl in *;
    try discriminate; try contradiction.
  destruct (String.eqb k k0) eqn:E.
  - exists v. auto.
  - destruct Hin as [->|Hin]; [now rewrite String.eqb_refl in E|].
    destruct (IH vs) as (x & Hx & Hin'); auto. exists x. auto.
Qed.

Lemma has_key_in (k : string) (o : Props) : has_key k o = true <-> In k (keys o).
Proof.
  unfold has_key. rewrite existsb_exists. split.
  - intros (x & Hx & E). apply String.eqb_eq in E. now subst.
  - intros H. exists k. split; auto. apply String.eqb_refl.
Qed.

Lemma table_rows_plain (ks : list string) (table : list (list string)) :
  ks <> [] ->
  Forall (fun cells =>
            List.length cells = List.length ks
            /\ Forall (fun s => no_char comma s = true /\ no_char newline s = true)
                 cells) table ->
  Forall (csv_row ks) (table_rows ks table).
Proof.
  intros Hne Htable. unfold table_rows. rewrite Forall_map.
  eapply Forall_impl; [|exact Htable]. intros cells [Hlen Hcells].
  assert (Hvalue : forall k, In k ks ->
            exists s, get_opt (JObj (combine ks (map JStr cells))) k = JStr s
                      /\ no_char comma s = true /\ no_char newline s = true).
  { intros k Hk.
    destruct (lookup_combine ks (map JStr cells) k) as (v & Hv & Hin); auto.
    { now rewrite length_map. }
    unfold get_opt. simpl. rewrite Hv. simpl.
    apply in_map_iff in Hin. destruct Hin as (s & <- & Hs).
    rewrite Forall_forall in Hcells. exists s. split; auto. }
  split; [|split].
  - eexists. split; [reflexivity|]. rewrite Forall_forall. intros k Hk.
    unfold own_read. apply orb_true_iff. left. apply has_key_in.
    rewrite keys_combine; auto. now rewrite length_map.
  - rewrite Forall_forall. intros k Hk.
    destruct (Hvalue k Hk) as (s & -> & Hc & Hn).
    unfold csv_value. simpl. now rewrite Hc, Hn.
  - destruct ks as [|k ks']; [congruence|]. apply Exists_cons_hd.
    destruct (Hvalue k) as (s & -> & _); [now left|reflexivity].
Qed.

Lemma csv_rows_defined (ks : list string) (rows : list JsVal) :
  Forall (csv_row ks) rows ->
  Forall (fun row => nullish row = false /\ row_converts ks row = true) rows.
Proof.
  intros H. eapply Forall_impl; [|exact H].
  intros row [(props & -> & _) Hplain]. split; [reflexivity|].
  now apply plain_row_converts.
Qed.

Lemma parse_quote_char (c : ascii) (rest : string) :
  parse_string_body (quote_char c ++ rest) = pmap (String c) (parse_string_body rest).
Proof.
  destruct c as [[] [] [] [] [] [] [] []]; reflexivity.
Qed.

Lemma parse_quote_body (s rest : string) :
  parse_string_body (quote_body s ++ String dquote rest) = Parsed s rest.
Proof.
  induction s as [|c s IH]; [reflexivity|].
  cbn [quote_body]. rewrite append_assoc, parse_quote_char, IH. reflexivity.
Qed.

Lemma quote_append (s rest : string) :
  (quote s ++ rest)%string = String dquote (quote_body s ++ String dquote rest).
Proof.
  unfold quote. cbn [append]. now rewrite append_assoc.
Qed.

Lemma serialize_string_row (indent : string) (ks cells : list string) :
  List.length cells = List.length ks ->
  serialize indent (JObj (combine ks (map JStr cells)))
  = wrap "{" "}" indent (map (fun '(k, s) => member_text k s) (combine ks cells)).
Proof.
  intros Hlen. cbn [serialize]. f_equal.
  revert cells Hlen. induction ks as [|k ks IH]; intros [|c cells] Hlen;
    simpl in *; try discriminate; auto.
  f_equal. apply IH. lia.
Qed.

Lemma member_text_append (k s tail : string) :
  (member_text k s ++ tail)%string
  = String dquote (quote_body k ++ String dquote
      (String ":" (String " " (String dquote (quote_body s ++ String dquote tail))))).
Proof.
  unfold member_text. rewrite !append_assoc. rewrite quote_append.
  cbn [append]. now rewrite quote_append.
Qed.

Lemma skip_ws_idempotent (s : string) : skip_ws (skip_ws s) = skip_ws s.
Proof.
  induction s as [|c s IH]; simpl; auto.
  destruct (is_json_space c) eqn:E; auto. simpl. now rewrite E.
Qed.

Lemma parse_members_skip_ws (fuel : nat) (s : string) (acc : Props) :
  parse_members fuel s acc = parse_members fuel (skip_ws s) acc.
Proof.
  destruct fuel; [reflexivity|]. cbn [parse_members]. now rewrite skip_ws_idempotent.
Qed.

Lemma parse_value_skip_ws (fuel : nat) (s : string) :
  parse_value fuel s = parse_value fuel (skip_ws s).
Proof.
  destruct fuel; [reflexivity|]. cbn [parse_value]. now rewrite skip_ws_idempotent.
Qed.

Lemma parse_members_step (f : nat) (s : string) (acc : Props) :
  parse_members (S f) s acc
  = match skip_ws s with
    | String c r =>
        if Ascii.eqb c dquote then
          match parse_string_body r with
          | Parsed k r1 =>
              match skip_ws r1 with
              | String ":"%char r2 =>
                  match parse_value f r2 with
                  | Parsed v r3 =>
                      match skip_ws r3 with
                      | String ","%char r4 => parse_members f r4 (define_property k v acc)
                      | String "}"%char r4 => Parsed (JObj (define_property k v acc)) r4
                      | _ => Malformed
                      end
                  | Malformed => Malformed
                  | Unsupported => Unsupported
                  end
              | _ => Malformed
              end
          | Malformed => Malformed
          | Unsupported => Unsupported
          end
        else Malformed
    | EmptyString => Malformed
    end.
Proof. reflexivity. Qed.

Lemma parse_elements_step (f : nat) (s : string) (acc : list JsVal) :
  parse_elements (S f) s acc
  = match parse_value f s with
    | Parsed v r =>
        match skip_ws r with
        | String ","%char r' => parse_elements f r' (acc ++ [v])
        | String "]"%char r' => Parsed (JArr (acc ++ [v])) r'
        | _ => Malformed
        end
    | Malformed => Malformed
    | Unsupported => Unsupported
    end.
Proof. reflexivity. Qed.

Lemma parse_value_step (f : nat) (s : string) :
  parse_value (S f) s
  = match skip_ws s with
    | EmptyString => Malformed
    | String c rest as t =>
        if Ascii.eqb c "{" then
          match skip_ws rest with
          | String "}"%char r => Parsed (JObj []) r
          | t' => parse_members f t' []
          end
        else if Ascii.eqb c "[" then
          match skip_ws rest with
          | String "]"%char r => Parsed (JArr []) r
          | t' => parse_elements f t' []
          end
        else if Ascii.eqb c dquote then pmap JStr (parse_string_body rest)
        else if Ascii.eqb c "-" || is_digit c then pmap JNum (parse_number t)
        else parse_literal t
    end.
Proof. reflexivity. Qed.

Lemma skip_ws_dquote (x : string) : skip_ws (String dquote x) = String dquote x.
Proof. reflexivity. Qed.

Lemma parse_value_string (f : nat) (s tail : string) :
  parse_value (S f) (String " " (quote s ++ tail)) = Parsed (JStr s) tail.
Proof.
  rewrite parse_value_step, quote_append.
  change (skip_ws (String " " (String dquote ?x))) with (String dquote x).
  cbv iota beta.
  change (Ascii.eqb dquote "{") with false.
  change (Ascii.eqb dquote "[") with false.
  change (Ascii.eqb dquote dquote) with true. cbv iota.
  now rewrite parse_quote_body.
Qed.

(** One property, then what the text after it asks for. *)
Lemma parse_member (f : nat) (k s tail : string) (acc : Props) :
  parse_members (S (S f)) (member_text k s ++ tail) acc
  = match skip_ws tail with
    | String ","%char r4 => parse_members (S f) r4 (define_property k (JStr s) acc)
    | String "}"%char r4 => Parsed (JObj (define_property k (JStr s) acc)) r4
    | _ => Malformed
    end.
Proof.
  rewrite parse_members_step. unfold member_text. rewrite !append_assoc.
  rewrite quote_append, skip_ws_dquote. cbv iota beta.
  change (Ascii.eqb dquote dquote) with true. cbv iota.
  rewrite parse_quote_body.
  change (": " ++ ?x)%string with (String ":" (String " " x)).
  change (skip_ws (String ":" ?x)) with (String ":"%char x). cbv iota beta.
  rewrite parse_value_string. reflexivity.
Qed.

Lemma join_cons (sep x y : string) (l : list string) :
  join sep (x :: y :: l) = (x ++ sep ++ join sep (y :: l))%string.
Proof. reflexivity. Qed.

Lemma members_head (sep closing : string) (p : string * string)
    (ps : list (string * string)) :
  exists y, (join sep (map member_of (p :: ps)) ++ closing)%string = String dquote y.
Proof.
  destruct ps as [|q ps].
  - cbn [map]. unfold join. cbn [String.concat]. unfold member_of.
    rewrite member_text_append. eauto.
  - cbn [map]. rewrite join_cons. unfold member_of at 1.
    rewrite append_assoc, member_text_append. eauto.
Qed.

Lemma parse_members_row (pairs : list (string * string)) :
  forall (acc : Props) (f : nat) (rest : string),
    pairs <> [] -> (List.length pairs <= f)%nat ->
    NoDup (keys acc ++ map fst pairs) ->
    key_order (keys acc ++ map fst pairs) = true ->
    parse_members (S f)
      (join ("," ++ lf ++ "    ") (map member_of pairs) ++ lf ++ "  " ++ "}" ++ rest) acc
    = Parsed (JObj (acc ++ string_props pairs)%list) rest.
Proof.
  induction pairs as [|[k s] ps IH]; intros acc f rest Hne Hf Hnd Hord; [congruence|].
  assert (Hfresh : ~ In k (keys acc)).
  { simpl in Hnd. apply NoDup_remove_2 in Hnd. intros Hin. apply Hnd.
    apply in_or_app. now left. }
  assert (Hlast : listed_last k (keys acc) = true).
  { simpl in Hord. now apply key_order_middle in Hord. }
  assert (Hnd' : NoDup (keys (acc ++ [(k, JStr s)])%list ++ map fst ps)).
  { unfold keys in *. rewrite map_app. simpl. now rewrite <- app_assoc. }
  assert (Hord' : key_order (keys (acc ++ [(k, JStr s)])%list ++ map fst ps) = true).
  { unfold keys in *. rewrite map_app. simpl. now rewrite <- app_assoc. }
  destruct f as [|f]; [simpl in Hf; lia|].
  destruct ps as [|q ps].
  - cbn [map]. unfold join. cbn [String.concat]. unfold member_of. cbn [fst snd].
    rewrite parse_member.
    change (skip_ws (lf ++ "  " ++ "}" ++ rest)) with (String "}" rest).
    cbv iota beta. now rewrite (define_property_last k (JStr s) acc Hfresh Hlast).
  - cbn [map]. rewrite join_cons. unfold member_of at 1. cbn [fst snd].
    rewrite !append_assoc. rewrite parse_member.
    change (skip_ws ("," ++ ?x)) with (String ","%char x).
    cbv iota beta.
    rewrite parse_members_skip_ws.
    change (skip_ws (lf ++ "    " ++ ?x)) with (skip_ws x).
    rewrite <- parse_members_skip_ws.
    rewrite (define_property_last k (JStr s) acc Hfresh Hlast).
    change (member_of q :: map member_of ps) with (map member_of (q :: ps)).
    rewrite (IH (acc ++ [(k, JStr s)])%list f rest); auto.
    + unfold string_props. simpl. now rewrite <- app_assoc.
    + discriminate.
    + simpl in Hf. simpl. lia.
Qed.

Lemma string_props_combine (ks cells : list string) :
  string_props (combine ks cells) = combine ks (map JStr cells).
Proof.
  unfold string_props. revert cells.
  induction ks as [|k ks IH]; intros [|c cells]; simpl; auto. now rewrite IH.
Qed.

Lemma serialize_row (indent : string) (ks cells : list string) :
  serialize indent (JObj (combine ks (map JStr cells)))
  = wrap "{" "}" indent (map member_of (combine ks cells)).
Proof.
  cbn [serialize]. f_equal.
  revert cells. induction ks as [|k ks IH]; intros [|c cells]; simpl; auto.
  now rewrite IH.
Qed.

Lemma parse_elements_skip_ws (fuel : nat) (s : string) (acc : list JsVal) :
  parse_elements fuel s acc = parse_elements fuel (skip_ws s) acc.
Proof.
  destruct fuel; [reflexivity|]. rewrite !parse_elements_step.
  now rewrite parse_value_skip_ws.
Qed.

Lemma map_fst_combine (ks cells : list string) :
  List.length cells = List.length ks -> map fst (combine ks cells) = ks.
Proof.
  revert cells. induction ks as [|k ks IH]; intros [|c cells] H; simpl in *;
    try discriminate; auto.
  f_equal. apply IH. lia.
Qed.

(** The text of one row of strings parses back to the row. *)
Lemma parse_row (ks cells : list string) (f : nat) (tail : string) :
  NoDup ks -> key_order ks = true -> List.length cells = List.length ks ->
  (List.length ks + 1 <= f)%nat ->
  parse_value (S f) (serialize "  " (JObj (combine ks (map JStr cells))) ++ tail)
  = Parsed (JObj (combine ks (map JStr cells))) tail.
Proof.
  intros Hnd Hord Hlen Hf. rewrite serialize_row, parse_value_step.
  destruct (combine ks cells) as [|p ps] eqn:E.
  - assert (ks = []) by (destruct ks, cells; simpl in *; congruence).
    subst. reflexivity.
  - unfold wrap. cbn [map].
    change (("{" ++ ?x) ++ tail)%string with (String "{" (x ++ tail)).
    change (skip_ws (String "{" ?x)) with (String "{"%char x). cbv iota beta.
    change (Ascii.eqb "{" "{") with true. cbv iota.
    rewrite !append_assoc.
    change (skip_ws (lf ++ "  " ++ "  " ++ ?x)) with (skip_ws x).
    change ("," ++ lf ++ "  " ++ "  ")%string with ("," ++ lf ++ "    ")%string.
    change (member_of p :: map member_of ps) with (map member_of (p :: ps)).
    destruct (members_head ("," ++ lf ++ "    ") (lf ++ "  " ++ "}" ++ tail) p ps)
      as [y Hy].
    rewrite Hy, skip_ws_dquote.
    match goal with
    | |- ?lhs = _ => change lhs with (parse_members f (String dquote y) [])
    end.
    rewrite <- Hy. destruct f as [|f]; [lia|].
    rewrite parse_members_row.
    + rewrite <- E, string_props_combine. reflexivity.
    + discriminate.
    + rewrite <- E. rewrite length_combine. lia.
    + rewrite <- E. simpl. now rewrite map_fst_combine.
    + rewrite <- E. simpl. now rewrite map_fst_combine.
Qed.

Lemma row_text_head (ks cells : list string) (tail : string) :
  exists y, (row_text ks cells ++ tail)%string = String "{" y.
Proof.
  unfold row_text. rewrite serialize_row. unfold wrap.
  destruct (map member_of (combine ks cells)); cbn [append]; eauto.
Qed.

Lemma parse_rows (ks : list string) (table : list (list string)) :
  NoDup ks -> key_order ks = true ->
  forall (acc : list JsVal) (f : nat) (rest : string),
    table <> [] ->
    Forall (fun cells => List.length cells = List.length ks) table ->
    (List.length table + List.length ks + 1 <= f)%nat ->
    parse_elements (S f)
      (join ("," ++ lf ++ "  ") (map (row_text ks) table) ++ lf ++ "]" ++ rest) acc
    = Parsed (JArr (acc ++ table_rows ks table)%list) rest.
Proof.
  intros Hnd Hord. induction table as [|cells table IH]; intros acc f rest Hne Hall Hf;
    [congruence|].
  inversion Hall as [|? ? Hlen Hall']; subst.
  rewrite parse_elements_step.
  destruct f as [|f]; [simpl in Hf; lia|].
  destruct table as [|cells' table].
  - cbn [map]. unfold join. cbn [String.concat]. unfold row_text.
    rewrite parse_row by (auto; simpl in Hf; lia).
    change (skip_ws (lf ++ "]" ++ rest)) with (String "]" rest).
    reflexivity.
  - cbn [map]. rewrite join_cons. unfold row_text at 1.
    rewrite !append_assoc.
    rewrite parse_row by (auto; simpl in Hf; lia).
    change (skip_ws ("," ++ ?x)) with (String ","%char x). cbv iota beta.
    rewrite parse_elements_skip_ws.
    change (skip_ws (lf ++ "  " ++ ?x)) with (skip_ws x).
    rewrite <- parse_elements_skip_ws.
    change (row_text ks cells' :: map (row_text ks) table)
      with (map (row_text ks) (cells' :: table)).
    destruct f as [|f]; [simpl in Hf; lia|].
    rewrite IH; auto.
    + unfold table_rows. cbn [map]. now rewrite <- app_assoc.
    + discriminate.
    + simpl in *. lia.
Qed.

Lemma length_join_head (sep x : string) (l : list string) :
  (String.length x <= String.length (join sep (x :: l)))%nat.
Proof.
  destruct l as [|y l]; [simpl; lia|].
  rewrite join_cons, length_append. lia.
Qed.

Lemma length_join_count (sep : string) (l : list string) :
  Forall (fun s => s <> "") l -> (List.length l <= String.length (join sep l))%nat.
Proof.
  induction 1 as [|x l Hx Hl IH]; [simpl; lia|].
  assert (Hlen : (1 <= String.length x)%nat) by (destruct x; [congruence|simpl; lia]).
  destruct l as [|y l]; [simpl; lia|].
  rewrite join_cons, !length_append. simpl in *. lia.
Qed.

Lemma member_of_not_empty (p : string * string) : member_of p <> "".
Proof. unfold member_of, member_text, quote. discriminate. Qed.

Lemma row_text_length (ks cells : list string) :
  List.length cells = List.length ks ->
  (List.length ks <= String.length (row_text ks cells))%nat
  /\ row_text ks cells <> "".
Proof.
  intros Hlen. unfold row_text. rewrite serialize_row. unfold wrap.
  destruct (combine ks cells) as [|p ps] eqn:E.
  - assert (ks = []) by (destruct ks, cells; simpl in *; congruence).
    subst. simpl. split; [lia|discriminate].
  - split; [|discriminate].
    assert (Hk : List.length ks = List.length (map member_of (p :: ps))).
    { rewrite length_map, <- E, length_combine. lia. }
    rewrite Hk. cbn [map].
    rewrite !length_append.
    pose proof (length_join_count ("," ++ lf ++ "  " ++ "  ")
                  (member_of p :: map member_of ps)) as Hc.
    assert (Hall : Forall (fun s => s <> "") (member_of p :: map member_of ps)).
    { constructor; [apply member_of_not_empty|].
      rewrite Forall_map. rewrite Forall_forall. intros q _. apply member_of_not_empty. }
    specialize (Hc Hall). cbn [map List.length] in *. lia.
Qed.

(** The JSON text of a table of strings parses back to the table. *)
Lemma JSON_parse_export_json (ks : list string) (table : list (list string)) :
  NoDup ks -> key_order ks = true ->
  Forall (fun cells => List.length cells = List.length ks) table ->
  JSON_parse (export_json (table_rows ks table))
  = Some (Normal (JArr (table_rows ks table))).
Proof.
  intros Hnd Hord Hall. destruct table as [|cells table]; [reflexivity|].
  unfold JSON_parse, export_json.
  set (rows := table_rows ks (cells :: table)).
  assert (Htext : serialize "" (JArr rows)
                  = ("[" ++ lf ++ "  "
                     ++ join ("," ++ lf ++ "  ") (map (row_text ks) (cells :: table))
                     ++ lf ++ "]" ++ "")%string).
  { subst rows. unfold table_rows. cbn [serialize]. rewrite map_map. reflexivity. }
  rewrite Htext.
  set (body := join ("," ++ lf ++ "  ") (map (row_text ks) (cells :: table))).
  assert (Hcount : (List.length (cells :: table) <= String.length body)%nat).
  { subst body. rewrite <- (length_map (row_text ks)). apply length_join_count.
    rewrite Forall_map. eapply Forall_impl; [|exact Hall].
    intros c Hc. now apply row_text_length. }
  assert (Hkeys : (List.length ks <= String.length body)%nat).
  { subst body. cbn [map].
    inversion Hall as [|? ? Hlen _]; subst.
    pose proof (length_join_head ("," ++ lf ++ "  ") (row_text ks cells)
                  (map (row_text ks) table)).
    pose proof (row_text_length ks cells Hlen). lia. }
  assert (Hlen : String.length ("[" ++ lf ++ "  " ++ body ++ lf ++ "]" ++ "")
                 = (String.length body + 6)%nat).
  { cbn [append String.length lf]. rewrite length_append. simpl. lia. }
  rewrite Hlen.
  replace (2 * (String.length body + 6) + 2)%nat
    with (S (S (2 * String.length body + 12)))%nat by lia.
  rewrite parse_value_step.
  change (skip_ws ("[" ++ ?x)) with (String "["%char x). cbv iota beta.
  change (Ascii.eqb "[" "{") with false. change (Ascii.eqb "[" "[") with true.
  cbv iota.
  change (skip_ws (lf ++ "  " ++ ?x)) with (skip_ws x).
  destruct (row_text_head ks cells
              (match table with
               | [] => lf ++ "]" ++ ""
               | _ => ("," ++ lf ++ "  ")
                      ++ join ("," ++ lf ++ "  ") (map (row_text ks) table)
                      ++ lf ++ "]" ++ ""
               end)%string) as [y Hy].
  assert (Hbody : (body ++ lf ++ "]" ++ "")%string = String "{" y).
  { rewrite <- Hy. subst body. cbn [map]. destruct table as [|c' t'].
    - reflexivity.
    - change (map (row_text ks) (c' :: t')) with (row_text ks c' :: map (row_text ks) t').
      rewrite join_cons. now rewrite !append_assoc. }
  rewrite Hbody.
  change (skip_ws (String "{" y)) with (String "{" y).
  match goal with
  | |- match ?scrut with _ => _ end = _ =>
      change scrut with (parse_elements (S (2 * String.length body + 12))
                           (String "{" y) [])
  end.
  rewrite <- Hbody. subst body.
  rewrite parse_rows; [reflexivity | auto | auto | discriminate | auto | lia].
Qed.

(** Claim C9, as stated, fails: the JSON file [[{"a":null}]] holds one row
    with the field [a]; its CSV export is the header alone, which reads
    back as no row and no field. *)
Lemma null_rows_lost :
  exists r r2,
    upload (fun _ => false) "json" null_json = Some (Normal r)
    /\ Upload.data r = [JObj [("a", JNull)]]
    /\ Upload.rowCount r = 1
    /\ keys (Upload.schema r) = ["a"]
    /\ exportData (Upload.data r) (Some "csv") = Normal ("a" ++ lf)
    /\ round_trip (fun _ => false) "csv" "json" (Upload.data r) = Some (Normal r2)
    /\ Upload.rowCount r2 = 0
    /\ keys (Upload.schema r2) = [].
Proof.
  eexists _, _. split; [vm_compute; reflexivity|].
  repeat split; vm_compute; reflexivity.
Qed.

Lemma infer_schema_keys (date_parses : string -> bool) (rows : list JsVal) :
  Forall (fun row => nullish row = false) rows ->
  first_row_converts rows = true ->
  exists schema,
    infer_schema date_parses rows = Normal schema
    /\ (rows = [] -> schema = [])
    /\ (forall first rest ks, rows = first :: rest -> Object_keys first = Normal ks ->
          forall k, In k (keys schema) <-> In k ks /\ k <> "__proto__").
Proof.
  intros Hdef Hconv. destruct rows as [|first rest].
  - exists []. repeat split; auto; intros; discriminate.
  - inversion Hdef as [|? ? Hfirst _]; subst.
    destruct (Object_keys_total first Hfirst) as [ks Hks].
    simpl in Hconv. rewrite Hks in Hconv.
    destruct (infer_fields_spec date_parses first Hfirst ks [] Hconv)
      as (schema & Hrun & Hkeys & _).
    exists schema. split; [|split].
    + simpl. rewrite Hks. exact Hrun.
    + discriminate.
    + intros f r ks' [= <- <-] Hks'. rewrite Hks in Hks'. injection Hks' as <-.
      intros k. rewrite Hkeys. simpl. tauto.
Qed.

Lemma upload_rows (date_parses : string -> bool) (format content : string)
    (rows : list JsVal) :
  read_rows ("roundtrip." ++ format) content = Some (Normal rows) ->
  Forall (fun row => nullish row = false) rows ->
  first_row_converts rows = true ->
  exists r,
    upload date_parses format content = Some (Normal r)
    /\ Upload.data r = rows
    /\ Upload.rowCount r = Z.of_nat (List.length rows)
    /\ infer_schema date_parses rows = Normal (Upload.schema r).
Proof.
  intros Hread Hdef Hconv. unfold upload, processUploadedData. cbn [text name].
  rewrite Hread.
  destruct (infer_schema_keys date_parses rows Hdef Hconv) as (schema & Hs & _).
  rewrite Hs. cbn [cbind]. eexists. split; [reflexivity|]. simpl. auto.
Qed.

Lemma table_rows_defined (ks : list string) (table : list (list string)) :
  Forall (fun row => nullish row = false) (table_rows ks table).
Proof.
  unfold table_rows. rewrite Forall_map. rewrite Forall_forall. intros; reflexivity.
Qed.

(** An object whose values are no objects and no arrays converts, key by
    key. *)
Lemma props_convert (props : Props) (ks : list string) :
  Forall (fun v => to_primitive_throws v = false) (values props) ->
  forallb (sample_converts (JObj props)) ks = true.
Proof.
  intros Hall. apply forallb_forall. intros k _. unfold sample_converts, get_opt.
  simpl. destruct (lookup k props) as [v|] eqn:E; [|reflexivity].
  apply lookup_in_values in E. rewrite Forall_forall in Hall.
  simpl. now rewrite (Hall v E).
Qed.

Lemma table_values_convert (ks : list string) (cells : list string) :
  Forall (fun v => to_primitive_throws v = false)
    (values (combine ks (map JStr cells))).
Proof.
  unfold values. revert cells.
  induction ks as [|k ks IH]; intros [|c cells]; simpl; constructor; auto.
Qed.

Lemma table_rows_convert (ks : list string) (table : list (list string)) :
  first_row_converts (table_rows ks table) = true.
Proof.
  destruct table as [|cells table]; [reflexivity|].
  unfold table_rows. cbn [map first_row_converts Object_keys].
  apply props_convert, table_values_convert.
Qed.

Lemma upload_json_table (date_parses : string -> bool) (ks : list string)
    (table : list (list string)) :
  NoDup ks -> key_order ks = true ->
  Forall (fun cells => List.length cells = List.length ks) table ->
  exists r,
    upload date_parses "json" (export_json (table_rows ks table)) = Some (Normal r)
    /\ Upload.data r = table_rows ks table
    /\ Upload.rowCount r = Z.of_nat (List.length table)
    /\ infer_schema date_parses (table_rows ks table) = Normal (Upload.schema r).
Proof.
  intros Hnd Hord Hall.
  destruct (upload_rows date_parses "json" (export_json (table_rows ks table))
              (table_rows ks table)) as (r & Hr & Hd & Hc & Hs).
  - unfold read_rows.
    change (endsWith ("roundtrip." ++ "json") ".json") with true. cbv iota.
    now rewrite JSON_parse_export_json.
  - apply table_rows_defined.
  - apply table_rows_convert.
  - exists r. repeat split; auto. rewrite Hc. unfold table_rows. now rewrite length_map.
Qed.

Lemma upload_csv_text (date_parses : string -> bool) (text : string) :
  exists ks table r,
    upload date_parses "csv" text = Some (Normal r)
    /\ Upload.data r = table_rows ks table
    /\ parse_csv text = table_rows ks table
    /\ Upload.rowCount r = Z.of_nat (List.length table)
    /\ infer_schema date_parses (table_rows ks table) = Normal (Upload.schema r)
    /\ NoDup ks /\ ks <> [] /\ Forall survives ks
    /\ key_order ks = true /\ ~ In "__proto__" ks
    /\ (forall k, In k ks ->
          table = [] \/ In k (map trim (split comma (hd "" (split newline text)))))
    /\ Forall (fun cells =>
                 List.length cells = List.length ks
                 /\ Forall (fun s => no_char comma s = true /\ no_char newline s = true)
                      cells) table.
Proof.
  destruct (parse_csv_shape text)
    as (ks & table & Heq & Hnd & Hne & Hks & Hord & Hproto & Hhead & Htable).
  destruct (upload_rows date_parses "csv" text (table_rows ks table))
    as (r & Hr & Hd & Hc & Hs).
  - unfold read_rows.
    change (endsWith ("roundtrip." ++ "csv") ".json") with false.
    change (endsWith ("roundtrip." ++ "csv") ".csv") with true. cbv iota.
    now rewrite Heq.
  - apply table_rows_defined.
  - apply table_rows_convert.
  - exists ks, table, r.
    split; [exact Hr|]. split; [exact Hd|]. split; [exact Heq|]. split.
    + rewrite Hc. unfold table_rows. now rewrite length_map.
    + repeat split; auto.
Qed.

Lemma table_first_keys (ks cells : list string) :
  List.length cells = List.length ks ->
  Object_keys (JObj (combine ks (map JStr cells))) = Normal ks.
Proof.
  intros H. simpl. f_equal. apply keys_combine. now rewrite length_map.
Qed.

Lemma table_schema_keys (date_parses : string -> bool) (ks : list string)
    (cells : list string) (table : list (list string)) (schema : Props) :
  List.length cells = List.length ks ->
  ~ In "__proto__" ks ->
  infer_schema date_parses (table_rows ks (cells :: table)) = Normal schema ->
  forall k, In k (keys schema) <-> In k ks.
Proof.
  intros Hlen Hproto Hs.
  destruct (infer_schema_keys date_parses (table_rows ks (cells :: table))
              (table_rows_defined _ _) (table_rows_convert _ _))
    as (schema' & Hs' & _ & Hkeys).
  rewrite Hs in Hs'. injection Hs' as <-.
  intros k. rewrite (Hkeys _ _ ks eq_refl (table_first_keys ks cells Hlen) k).
  split; [tauto|]. intros Hk. split; auto. intros ->. contradiction.
Qed.

(** The CSV leg: rows that can go through the CSV writer and reader come
    back as a table of their cells. *)
Lemma csv_leg (date_parses : string -> bool) (ks : list string) (rows : list JsVal) :
  csv_exportable ks rows ->
  exists r1,
    exportData rows (Some "csv") = Normal (csv_text ks rows)
    /\ upload date_parses "csv" (csv_text ks rows) = Some (Normal r1)
    /\ Upload.data r1 = table_rows ks (map (cells_of ks) rows)
    /\ Upload.rowCount r1 = Z.of_nat (List.length rows)
    /\ (forall k, In k (keys (Upload.schema r1)) <-> In k ks).
Proof.
  intros (Hnd & Hne & Hks & Hord & Hproto & (first & rest & -> & Hfirst) & Hrows).
  assert (Hplain : Forall (plain_row ks) (first :: rest))
    by (eapply Forall_impl; [|exact Hrows]; intros row [_ H]; exact H).
  destruct (upload_rows date_parses "csv" (csv_text ks (first :: rest))
              (table_rows ks (map (cells_of ks) (first :: rest))))
    as (r1 & Hr & Hd & Hc & Hs).
  - unfold read_rows.
    change (endsWith ("roundtrip." ++ "csv") ".json") with false.
    change (endsWith ("roundtrip." ++ "csv") ".csv") with true. cbv iota.
    now rewrite parse_csv_csv_text.
  - apply table_rows_defined.
  - apply table_rows_convert.
  - exists r1. split.
    { apply exportData_csv_closed; auto. now apply csv_rows_defined. }
    split; [exact Hr|]. split; [exact Hd|]. split.
    + rewrite Hc. unfold table_rows. now rewrite !length_map.
    + cbn [map] in Hs. eapply table_schema_keys; [| |exact Hs]; auto.
      apply cells_of_length.
Qed.

Lemma table_exportable (ks : list string) (cells : list string)
    (table : list (list string)) :
  NoDup ks -> ks <> [] -> Forall survives ks ->
  key_order ks = true -> ~ In "__proto__" ks ->
  Forall (fun cells =>
            List.length cells = List.length ks
            /\ Forall (fun s => no_char comma s = true /\ no_char newline s = true)
                 cells) (cells :: table) ->
  csv_exportable ks (table_rows ks (cells :: table)).
Proof.
  intros Hnd Hne Hks Hord Hproto Htable.
  split; [|split; [|split; [|split; [|split; [|split]]]]]; auto.
  - eexists _, _. split; [reflexivity|]. apply table_first_keys.
    inversion Htable as [|? ? [Hlen _] _]; auto.
  - now apply table_rows_plain.
Qed.

(** Claim C9, amended.  For every CSV file, exporting what was read as
    JSON, uploading it, exporting as CSV and uploading again gives the row
    count and the field set of the first upload.  Exporting rows as CSV,
    uploading, exporting as JSON and uploading again gives the row count and
    the keys of the first row, provided the rows can go through the CSV
    writer and reader: every row is a plain object that gives every key of
    the first row a number, a boolean, a string with no comma and no line
    feed, or nothing (null, or no value), and gives one key at least a
    value; and these keys are distinct, at least one, free of commas, line
    feeds and surrounding white space, and none is [__proto__].  No rows
    come back as no rows. *)
Theorem round_trips_preserve (date_parses : string -> bool) (text : string)
    (r : Upload.t) (ks : list string) (rows : list JsVal) :
  upload date_parses "csv" text = Some (Normal r) ->
  csv_exportable ks rows ->
  (exists r2,
     round_trip date_parses "json" "csv" (Upload.data r) = Some (Normal r2)
     /\ Upload.rowCount r2 = Upload.rowCount r
     /\ same_keys (Upload.schema r2) (Upload.schema r))
  /\ (exists r2,
        round_trip date_parses "csv" "json" rows = Some (Normal r2)
        /\ Upload.rowCount r2 = Z.of_nat (List.length rows)
        /\ forall k, In k (keys (Upload.schema r2)) <-> In k ks)
  /\ (exists r2,
        round_trip date_parses "csv" "json" [] = Some (Normal r2)
        /\ Upload.rowCount r2 = 0 /\ Upload.schema r2 = []).
Proof.
  intros Hup Hexp. split; [|split].
  - destruct (upload_csv_text date_parses text)
      as (ks0 & table & r' & Hr' & Hd & _ & Hc & Hs & Hnd & Hne & Hks & Hord
          & Hproto & _ & Htable).
    rewrite Hup in Hr'. injection Hr' as <-.
    assert (Hlens : Forall (fun cells => List.length cells = List.length ks0) table)
      by (eapply Forall_impl; [|exact Htable]; intros c [H _]; exact H).
    destruct (upload_json_table date_parses ks0 table Hnd Hord Hlens)
      as (r1 & Hr1 & Hd1 & _ & _).
    unfold round_trip. rewrite Hd.
    change (exportData (table_rows ks0 table) (Some "json"))
      with (Normal (export_json (table_rows ks0 table))).
    cbv beta iota. rewrite Hr1. cbv beta iota. rewrite Hd1.
    destruct table as [|cells table].
    + exists {| Upload.data := []; Upload.schema := []; Upload.rowCount := 0;
                Upload.columnCount := 0; Upload.analysis_domain := "custom";
                Upload.analysis_quality_score := 85 |}.
      split; [reflexivity|]. split; [now rewrite Hc|].
      simpl in Hs. injection Hs as <-. intros k. tauto.
    + destruct (csv_leg date_parses ks0 (table_rows ks0 (cells :: table)))
        as (r2 & He & Hr2 & _ & Hc2 & Hk2).
      { now apply table_exportable. }
      rewrite He. cbv beta iota. rewrite Hr2. exists r2. split; [reflexivity|]. split.
      * rewrite Hc2, Hc. unfold table_rows. now rewrite length_map.
      * intros k. rewrite Hk2. symmetry.
        eapply table_schema_keys; [| |exact Hs]; auto.
        inversion Hlens; auto.
  - destruct (csv_leg date_parses ks rows Hexp) as (r1 & He & Hr1 & Hd1 & Hc1 & _).
    destruct Hexp as (Hnd & _ & _ & Hord & Hproto & (first & rest & -> & _) & _).
    destruct (upload_json_table date_parses ks (map (cells_of ks) (first :: rest))
                Hnd Hord)
      as (r2 & Hr2 & Hd2 & Hc2 & Hs2).
    { rewrite Forall_map. rewrite Forall_forall. intros row _. apply cells_of_length. }
    unfold round_trip. rewrite He. cbv beta iota. rewrite Hr1. cbv beta iota.
    rewrite Hd1.
    change (exportData ?d (Some "json")) with (Normal (export_json d)).
    cbv beta iota. rewrite Hr2. exists r2. split; [reflexivity|]. split.
    + rewrite Hc2. now rewrite length_map.
    + cbn [map] in Hs2. eapply table_schema_keys; [| |exact Hs2]; auto.
      apply cells_of_length.
  - eexists. split; [reflexivity|]. split; reflexivity.
Qed.

Lemma round_trips_preserve_witness :
  exists r,
    upload (fun _ => false) "csv" example_csv = Some (Normal r)
    /\ (exists r2,
          round_trip (fun _ => false) "json" "csv" (Upload.data r) = Some (Normal r2)
          /\ Upload.rowCount r2 = Upload.rowCount r
          /\ same_keys (Upload.schema r2) (Upload.schema r))
    /\ (exists r2,
          round_trip (fun _ => false) "csv" "json" staff_rows = Some (Normal r2)
          /\ Upload.rowCount r2 = 2
          /\ forall k, In k (keys (Upload.schema r2)) <-> In k staff_keys).
Proof.
  eexists. split; [reflexivity|].
  refine (let H := round_trips_preserve (fun _ => false) example_csv _ staff_keys
                     staff_rows eq_refl _ in conj (proj1 H) (proj1 (proj2 H))).
  unfold csv_exportable, staff_keys, staff_rows.
  split; [|split; [|split; [|split; [|split; [|split]]]]].
  - repeat constructor; simpl; intuition discriminate.
  - discriminate.
  - repeat constructor.
  - reflexivity.
  - simpl. intuition discriminate.
  - eexists _, _. split; reflexivity.
  - repeat constructor; try (eexists; split; [reflexivity|repeat constructor]).
Defined.


(* ================================================================== *)
(** * Schemas from a description *)
(* ================================================================== *)

Lemma generateFallbackSchema_spec (w : World) (domain : string) (tick : nat) :
  world_ok w ->
  exists rows tick',
    generateFallbackSchema w domain tick
    = Normal ({| SchemaResult.schema := domain_schema domain;
                 SchemaResult.sampleData := rows;
                 SchemaResult.detectedDomain := domain |}, tick')
    /\ (tick <= tick')%nat
    /\ List.length rows = 3%nat
    /\ forall j row, nth_error rows j = Some row ->
         exists props, row = JObj props
           /\ row_ok (sample_ok w tick tick' (Z.of_nat j)) (domain_schema domain) props.
Proof.
  intros Hw.
  destruct (rows_loop_spec (sample_value w) (sample_ok w) (domain_schema domain)
              (domain_schema_defined domain) (sample_ok_mono w)
              (fun i ft key tick => sample_value_ok w i key ft tick Hw)
              3 0 [] tick)
    as (rows & tick' & Hrun & Hle & Hlen & Hrows).
  exists rows, tick'. unfold generateFallbackSchema, bind. rewrite Hrun.
  split; [reflexivity|]. split; [exact Hle|]. split; [exact Hlen|].
  intros j row Hj. destruct (Hrows j row Hj) as (props & -> & Hok).
  exists props. split; auto.
Qed.

Lemma domain_schema_keys (domain : string) :
  keys (domain_schema domain) <> [] /\ NoDup (keys (domain_schema domain)).
Proof.
  unfold domain_schema.
  destruct (String.eqb domain "healthcare");
    [|destruct (String.eqb domain "finance"); [|destruct (String.eqb domain "retail")]];
    (split; [discriminate|]);
    cbn; repeat constructor; cbn; intuition discriminate.
Qed.

Lemma remote_failure_runs_fallback (w : World) (options : DatasetGenerationOptions)
    (outcome : FetchOutcome) :
  remote_call_fails outcome = true ->
  generateSyntheticDataset w options outcome = generateFallbackData w options.
Proof.
  intros Hfail.
  destruct outcome as [|[|] [body|e]]; simpl in *; try reflexivity.
  destruct body; try discriminate; reflexivity.
Qed.

(** Property X1.  When the schema request fails (no answer, a status that
    is not a success, a body that does not parse),
    [generateSchemaFromDescription] returns what [generateFallbackSchema]
    returns for the domain: the schema of the domain, three sample rows and
    the domain itself as [detectedDomain], whatever the description and the
    data type are.  That answer passes the test that [handleGenerateSchema]
    applies to it. *)

Theorem schema_from_description_fallback (w : World)
    (description domain dataType : string) (outcome : FetchOutcome) (tick : nat) :
  world_ok w ->
  schema_call_fails outcome = true ->
  exists r tick',
    generateSchemaFromDescription w description domain dataType outcome tick
    = Normal (schema_result_value r, tick')
    /\ generateFallbackSchema w domain tick = Normal (r, tick')
    /\ SchemaResult.schema r = domain_schema domain
    /\ SchemaResult.detectedDomain r = domain
    /\ List.length (SchemaResult.sampleData r) = 3%nat
    /\ schema_answer_check (schema_result_value r) = Normal tt.
Proof.
  intros Hw Hfail.
  destruct (generateFallbackSchema_spec w domain tick Hw)
    as (rows & tick' & Hrun & _ & Hlen & _).
  eexists _, tick'. split; [|split; [exact Hrun|]].
  - destruct outcome as [|[|] [body|e]]; try discriminate;
      unfold generateSchemaFromDescription, bind; rewrite Hrun; reflexivity.
  - cbn [SchemaResult.schema SchemaResult.detectedDomain SchemaResult.sampleData].
    repeat split; auto.
    unfold schema_answer_check, schema_result_value. cbn.
    destruct (domain_schema_keys domain) as [Hne _]. unfold keys in Hne.
    destruct (map fst (domain_schema domain)); [congruence|reflexivity].
Qed.

Lemma schema_from_description_fallback_witness :
  exists r tick',
    generateSchemaFromDescription demo_world "shop orders" "retail" "tabular"
      (Response false (Normal JNull)) 0%nat = Normal (schema_result_value r, tick')
    /\ generateFallbackSchema demo_world "retail" 0%nat = Normal (r, tick')
    /\ SchemaResult.schema r = domain_schema "retail"
    /\ SchemaResult.detectedDomain r = "retail"
    /\ List.length (SchemaResult.sampleData r) = 3%nat
    /\ schema_answer_check (schema_result_value r) = Normal tt.
Proof.
  apply (schema_from_description_fallback demo_world "shop orders" "retail" "tabular"
           (Response false (Normal JNull)) 0%nat).
  - demo_world_ok.
  - reflexivity.
Defined.

(** Property X2.  A body that the backend sends with a success status is
    returned as it is and without a read of the clock or of the random
    source, also when it is null or carries no schema: the local schema
    does not replace it, and [handleGenerateSchema] rejects it as empty or
    invalid. *)

Theorem schema_answer_passed_through (w : World)
    (description domain dataType : string) (body : JsVal) (tick : nat) :
  truthy body = false \/ truthy (get_opt body "schema") = false ->
  generateSchemaFromDescription w description domain dataType
    (Response true (Normal body)) tick = Normal (body, tick)
  /\ schema_answer_check body
     = Throw (Failure "Generated schema is empty or invalid").
Proof.
  intros H. split; [reflexivity|].
  unfold schema_answer_check.
  destruct (truthy body) eqn:Hb; [|reflexivity].
  destruct H as [H|H]; [discriminate|].
  unfold get_opt in H. destruct (get body "schema") as [fields|e] eqn:Hg.
  - cbn. rewrite H. reflexivity.
  - destruct body; discriminate.
Qed.

Lemma schema_answer_passed_through_witness :
  generateSchemaFromDescription demo_world "shop orders" "retail" "tabular"
    (Response true (Normal JNull)) 0%nat = Normal (JNull, 0%nat)
  /\ schema_answer_check JNull
     = Throw (Failure "Generated schema is empty or invalid").
Proof.
  apply (schema_answer_passed_through demo_world "shop orders" "retail" "tabular"
           JNull 0%nat).
  left. reflexivity.
Defined.

(** Property X3.  Describe, then generate, with no backend: the schema
    that [generateSchemaFromDescription] falls back to is one that
    [generateSyntheticDataset] can fall back on.  For every domain and
    every row count that is not negative the second call returns that many
    rows, each with the keys of the sample rows of the first, and counts
    the fields of the schema as columns. *)

Theorem offline_describe_then_generate (w : World)
    (description domain dataType : string) (outcome1 outcome2 : FetchOutcome)
    (options : DatasetGenerationOptions) (tick : nat) :
  world_ok w ->
  schema_call_fails outcome1 = true ->
  remote_call_fails outcome2 = true ->
  0 <= requested_rows options ->
  exists answer tick1 fields samples g tick2 rows,
    generateSchemaFromDescription w description domain dataType outcome1 tick
    = Normal (answer, tick1)
    /\ get answer "schema" = Normal (JObj fields)
    /\ get answer "sampleData" = Normal (JArr samples)
    /\ generateSyntheticDataset w (with_schema options (JObj fields)) outcome2 tick1
       = Normal (g, tick2)
    /\ data g = JArr rows
    /\ Z.of_nat (List.length rows) = requested_rows options
    /\ columnsGenerated (metadata g) = Z.of_nat (List.length (keys fields))
    /\ forall row sample, In row rows -> In sample samples ->
         exists p q, row = JObj p /\ sample = JObj q /\ same_keys p q.
Proof.
  intros Hw Hf1 Hf2 Hn.
  destruct (generateFallbackSchema_spec w domain tick Hw)
    as (samples & tick1 & Hrun & _ & _ & Hsamples).
  destruct (generateFallbackData_spec w (with_schema options (JObj (domain_schema domain)))
              (domain_schema domain) tick1 Hw eq_refl (domain_schema_defined domain))
    as (rows & tick2 & Hgen & Hlen & Hrows).
  exists (schema_result_value
            {| SchemaResult.schema := domain_schema domain;
               SchemaResult.sampleData := samples;
               SchemaResult.detectedDomain := domain |}).
  eexists tick1, (domain_schema domain), samples, _, tick2, rows.
  split; [|split; [reflexivity|split; [reflexivity|split]]].
  - destruct outcome1 as [|[|] [body|e]]; try discriminate;
      unfold generateSchemaFromDescription, bind; rewrite Hrun; reflexivity.
  - rewrite (remote_failure_runs_fallback _ _ _ Hf2). exact Hgen.
  - cbn [data metadata columnsGenerated]. split; [reflexivity|].
    split; [rewrite Hlen; unfold requested_rows in *; cbn [rowCount with_schema]; lia|].
    split; [reflexivity|].
    intros row sample Hrow Hsample.
    apply In_nth_error in Hrow. destruct Hrow as [j Hj].
    apply In_nth_error in Hsample. destruct Hsample as [i Hi].
    destruct (Hrows j row Hj) as (p & -> & Hp & _).
    destruct (Hsamples i sample Hi) as (q & -> & Hq & _).
    exists p, q. split; [reflexivity|]. split; [reflexivity|].
    intros k. rewrite (Hp k), (Hq k). reflexivity.
Qed.

Lemma offline_describe_then_generate_witness :
  exists answer tick1 fields samples g tick2 rows,
    generateSchemaFromDescription demo_world "shop orders" "retail" "tabular"
      NetworkFailure 0%nat = Normal (answer, tick1)
    /\ get answer "schema" = Normal (JObj fields)
    /\ get answer "sampleData" = Normal (JArr samples)
    /\ generateSyntheticDataset demo_world
         (with_schema (request JNull (Some 5)) (JObj fields)) NetworkFailure tick1
       = Normal (g, tick2)
    /\ data g = JArr rows
    /\ Z.of_nat (List.length rows) = 5
    /\ columnsGenerated (metadata g) = Z.of_nat (List.length (keys fields))
    /\ forall row sample, In row rows -> In sample samples ->
         exists p q, row = JObj p /\ sample = JObj q /\ same_keys p q.
Proof.
  apply (offline_describe_then_generate demo_world "shop orders" "retail" "tabular"
           NetworkFailure NetworkFailure (request JNull (Some 5)) 0%nat).
  - demo_world_ok.
  - reflexivity.
  - reflexivity.
  - unfold requested_rows; simpl; lia.
Defined.

(* ================================================================== *)
(** * From an upload to generated rows *)
(* ================================================================== *)

Lemma infer_type_cases (date_parses : string -> bool) (v : JsVal) :
  In (infer_type date_parses v) inferred_types.
Proof.
  unfold infer_type, inferred_types.
  destruct (negb (Number_isNaN v)); [simpl; auto|].
  destruct (strict_eq_str v "true" || strict_eq_str v "false"); [simpl; auto|].
  destruct (Date_valid date_parses v); simpl; auto.
Qed.

Lemma infer_fields_typed (date_parses : string -> bool) (first : JsVal) :
  forall ks schema schema',
    infer_fields date_parses first ks schema = Normal schema' ->
    NoDup (keys schema) -> Forall typed_descriptor (values schema) ->
    ~ In "__proto__" (keys schema) ->
    NoDup (keys schema') /\ Forall typed_descriptor (values schema')
    /\ ~ In "__proto__" (keys schema').
Proof.
  induction ks as [|k ks IH]; intros schema schema' Hrun Hnd Hall Hproto; simpl in Hrun.
  - inversion Hrun; subst; auto.
  - destruct (get first k) as [v|e]; [|discriminate]. simpl in Hrun.
    destruct (to_primitive_throws v); [discriminate|].
    apply IH in Hrun; auto.
    + apply NoDup_keys_obj_set; auto.
    + apply obj_set_values; auto.
      exists (infer_type date_parses v). split; [reflexivity|apply infer_type_cases].
    + rewrite keys_obj_set. intros [[H1 H2]|H]; auto.
Qed.

Lemma infer_schema_typed (date_parses : string -> bool) (rows : list JsVal)
    (schema : Props) :
  infer_schema date_parses rows = Normal schema ->
  NoDup (keys schema) /\ Forall typed_descriptor (values schema)
  /\ ~ In "__proto__" (keys schema).
Proof.
  unfold infer_schema. destruct rows as [|first rest].
  - intros H; inversion H; subst. split; [constructor|]. split; [constructor|]. auto.
  - destruct (Object_keys first) as [ks|e]; [|discriminate]. simpl.
    intros H. apply infer_fields_typed in H; auto; constructor.
Qed.

Lemma typed_descriptors_defined (schema : Props) :
  Forall typed_descriptor (values schema) -> descriptors_defined schema.
Proof.
  unfold descriptors_defined. intros H. apply forallb_forall.
  intros d Hd. rewrite Forall_forall in H. destruct (H d Hd) as (t & -> & _).
  reflexivity.
Qed.

(** Property X4.  Upload, then generate, with no backend: the schema that
    [processUploadedData] infers is one that [generateSyntheticDataset] can
    fall back on.  The call returns the rows asked for, counts as many
    columns as the upload did, and every row has the fields of the inferred
    schema, each with a value of the inferred type: no field gets the
    placeholder of an unknown type. *)

Theorem offline_upload_then_generate (w : World) (date_parses : string -> bool)
    (file : File) (u : Upload.t) (options : DatasetGenerationOptions)
    (outcome : FetchOutcome) (tick : nat) :
  world_ok w ->
  processUploadedData date_parses file = Some (Normal u) ->
  remote_call_fails outcome = true ->
  0 <= requested_rows options ->
  exists g tick' rows,
    generateSyntheticDataset w (with_schema options (JObj (Upload.schema u))) outcome tick
    = Normal (g, tick')
    /\ data g = JArr rows
    /\ Z.of_nat (List.length rows) = requested_rows options
    /\ columnsGenerated (metadata g) = Upload.columnCount u
    /\ forall j row, nth_error rows j = Some row ->
         exists props,
           row = JObj props /\ same_keys props (Upload.schema u)
           /\ forall key d, lookup key (Upload.schema u) = Some d ->
                exists t v,
                  d = type_of t /\ In t inferred_types
                  /\ lookup key props = Some v
                  /\ cell_ok w tick tick' (Z.of_nat j) key (JStr t) v.
Proof.
  intros Hw Hup Hfail Hn.
  destruct (processUploadedData_schema date_parses file u Hup) as (Hschema & _ & Hcols).
  destruct (infer_schema_typed _ _ _ Hschema) as (Hnd & Htyped & Hproto).
  destruct (generateFallbackData_spec w (with_schema options (JObj (Upload.schema u)))
              (Upload.schema u) tick Hw eq_refl (typed_descriptors_defined _ Htyped))
    as (rows & tick' & Hgen & Hlen & Hrows).
  eexists _, tick', rows. rewrite (remote_failure_runs_fallback _ _ _ Hfail).
  split; [exact Hgen|]. cbn [data metadata columnsGenerated].
  split; [reflexivity|].
  split; [rewrite Hlen; unfold requested_rows in *; cbn [rowCount with_schema]; lia|].
  split; [symmetry; exact Hcols|].
  intros j row Hj. destruct (Hrows j row Hj) as (props & -> & Hkeys & _ & _ & Hcells).
  exists props. split; [reflexivity|]. split; [now apply stored_keys_same|].
  intros key d Hd.
  assert (Hkey : key <> "__proto__").
  { intros ->. apply Hproto. apply lookup_in_keys. eauto. }
  destruct (Hcells key d Hd Hkey) as (ft & v & Hft & Hv & Hcell).
  rewrite Forall_forall in Htyped.
  destruct (Htyped d (lookup_in_values _ _ _ Hd)) as (t & -> & Ht).
  exists t, v. simpl in Hft. inversion Hft; subst ft. auto.
Qed.

Lemma offline_upload_then_generate_witness :
  exists u,
    processUploadedData (fun _ => false) example_file = Some (Normal u)
    /\ exists g tick' rows,
         generateSyntheticDataset demo_world
           (with_schema (request JNull (Some 4)) (JObj (Upload.schema u)))
           NetworkFailure 0%nat = Normal (g, tick')
         /\ data g = JArr rows
         /\ Z.of_nat (List.length rows) = 4
         /\ columnsGenerated (metadata g) = Upload.columnCount u
         /\ forall j row, nth_error rows j = Some row ->
              exists props,
                row = JObj props /\ same_keys props (Upload.schema u)
                /\ forall key d, lookup key (Upload.schema u) = Some d ->
                     exists t v,
                       d = type_of t /\ In t inferred_types
                       /\ lookup key props = Some v
                       /\ cell_ok demo_world 0 tick' (Z.of_nat j) key (JStr t) v.
Proof.
  eexists. split; [reflexivity|].
  apply (offline_upload_then_generate demo_world (fun _ => false) example_file _
           (request JNull (Some 4)) NetworkFailure 0%nat).
  - demo_world_ok.
  - reflexivity.
  - reflexivity.
  - unfold requested_rows; simpl; lia.
Defined.

(** Property X5.  A schema that is null or undefined makes
    [generateSyntheticDataset] reject with a TypeError whenever the backend
    call fails, for every row count, zero included: [Object.keys(schema)]
    is evaluated after the loop as well. *)

Theorem null_schema_rejects (w : World) (options : DatasetGenerationOptions)
    (outcome : FetchOutcome) (tick : nat) :
  nullish (schema options) = true ->
  remote_call_fails outcome = true ->
  generateSyntheticDataset w options outcome tick = Throw TypeError.
Proof.
  intros Hnull Hfail. rewrite (remote_failure_runs_fallback _ _ _ Hfail).
  unfold generateFallbackData.
  destruct (Z.to_nat (match rowCount options with Some n => n | None => 1000 end))
    as [|n].
  - cbn [rows_loop]. unfold bind, ret, lift.
    destruct (schema options); try discriminate; reflexivity.
  - cbn [rows_loop]. unfold bind, lift.
    destruct (schema options); try discriminate; reflexivity.
Qed.

Lemma null_schema_rejects_witness :
  generateSyntheticDataset demo_world (request JNull (Some 0)) NetworkFailure 0%nat
  = Throw TypeError.
Proof.
  apply (null_schema_rejects demo_world (request JNull (Some 0)) NetworkFailure 0%nat);
    reflexivity.
Defined.

(* ================================================================== *)
(** * The standalone generator *)
(* ================================================================== *)

Lemma mock_value_ok (w : World) (i : Z) (key : string) (fieldType : JsVal)
    (tick : nat) :
  world_ok w ->
  exists v tick', Standalone.mock_value w fieldType key i tick = Normal (v, tick')
                  /\ (tick <= tick')%nat
                  /\ mock_ok w tick tick' i key fieldType v.
Proof.
  intros Hw. unfold Standalone.mock_value, mock_ok, unknown_type. by_type_tests.
  - eexists _, _. split; [reflexivity|]. subst.
    repeat split; try discriminate; auto. intuition congruence.
  - destruct (Hw tick) as [[H0 H1] _].
    eexists _, _. split; [reflexivity|]. subst.
    repeat split; try discriminate; try (intuition congruence); auto.
    intros _. eexists. split; [reflexivity|]. now apply floor_below_1000.
  - eexists _, _. split; [reflexivity|]. subst.
    repeat split; try discriminate; try (intuition congruence); eauto.
  - destruct (Hw tick) as [_ Ht]. destruct (Hw (S tick)) as [[H0 H1] _].
    destruct (Date_of_number_in_year _ _ H0 H1 Ht) as (t' & Hd & Hb & Ha).
    exists (JStr (iso_string t')), (S (S tick)). split.
    + unfold bind, now, random, lift, ret. rewrite Hd. reflexivity.
    + subst. repeat split; try discriminate; try (intuition congruence); auto.
      intros _. exists t', tick. repeat split; auto; lia.
  - eexists _, _. split; [reflexivity|].
    repeat split; try contradiction; auto.
Qed.

Lemma mock_ok_mono (w : World) (a b a' b' : nat) (i : Z) (key : string)
    (fieldType v : JsVal) :
  (a' <= a)%nat -> (b <= b')%nat ->
  mock_ok w a b i key fieldType v -> mock_ok w a' b' i key fieldType v.
Proof.
  intros Ha Hb (Hs & Hn & Hbool & Hd & Hu). repeat split; auto.
  intros Hft. destruct (Hd Hft) as (t & k & Hk & Hrest).
  exists t, k. split; [lia|exact Hrest].
Qed.

Lemma generateMockData_spec (w : World) (options : Standalone.DataGenerationOptions)
    (fields : Props) (tick : nat) :
  world_ok w ->
  Standalone.schema options = JObj fields ->
  descriptors_defined fields ->
  exists rows tick',
    Standalone.generateMockData w options tick = Normal (rows, tick')
    /\ (tick <= tick')%nat
    /\ List.length rows = Z.to_nat (Standalone.numRows options)
    /\ forall j row, nth_error rows j = Some row ->
         exists props, row = JObj props
           /\ row_ok (mock_ok w tick tick' (Z.of_nat j)) fields props.
Proof.
  intros Hw Hs Hdef.
  destruct (rows_loop_spec (Standalone.mock_value w) (mock_ok w) fields Hdef
              (mock_ok_mono w)
              (fun i ft key tick => mock_value_ok w i key ft tick Hw)
              (Z.to_nat (Standalone.numRows options)) 0 [] tick)
    as (rows & tick' & Hrun & Hle & Hlen & Hrows).
  exists rows, tick'. unfold Standalone.generateMockData. rewrite Hs.
  auto.
Qed.

(** Property X6.  [generateMockData] returns [numRows] rows, none when
    [numRows] is negative; every row has the keys of the schema, each once,
    except [__proto__], which [row[key] = ...] does not store; and under
    each key a value of the declared type: the text ["Sample <key> <i+1>"],
    an integer in [[0,1000)], a boolean, the ISO text of an instant of the
    year before a clock read, or ["Value <i+1>"] for any other type. *)

Theorem mock_data_rows (w : World) (options : Standalone.DataGenerationOptions)
    (fields : Props) (tick : nat) :
  world_ok w ->
  Standalone.schema options = JObj fields ->
  descriptors_defined fields ->
  exists rows tick',
    Standalone.generateMockData w options tick = Normal (rows, tick')
    /\ Z.of_nat (List.length rows) = Z.max 0 (Standalone.numRows options)
    /\ forall j row, nth_error rows j = Some row ->
         exists props,
           row = JObj props
           /\ (forall k, In k (keys props) <-> In k (keys fields) /\ k <> "__proto__")
           /\ NoDup (keys props)
           /\ forall key d fieldType,
                lookup key fields = Some d -> key <> "__proto__" ->
                get d "type" = Normal fieldType ->
                exists v, lookup key props = Some v
                          /\ mock_ok w tick tick' (Z.of_nat j) key fieldType v.
Proof.
  intros Hw Hs Hdef.
  destruct (generateMockData_spec w options fields tick Hw Hs Hdef)
    as (rows & tick' & Hrun & _ & Hlen & Hrows).
  exists rows, tick'. split; [exact Hrun|]. split; [lia|].
  intros j row Hj.
  destruct (Hrows j row Hj) as (props & -> & Hkeys & Hnd & _ & Hcells).
  exists props. split; [reflexivity|]. split; [exact Hkeys|]. split; [exact Hnd|].
  intros key d ft Hd Hproto Hft.
  destruct (Hcells key d Hd Hproto) as (ft' & v & Hft' & Hv & Hcell).
  exists v. split; [exact Hv|]. congruence.
Qed.

Lemma mock_data_rows_witness :
  exists rows tick',
    Standalone.generateMockData demo_world (mock_request (JObj demo_fields) 3 None) 0%nat
    = Normal (rows, tick')
    /\ Z.of_nat (List.length rows) = Z.max 0 3
    /\ forall j row, nth_error rows j = Some row ->
         exists props,
           row = JObj props
           /\ (forall k, In k (keys props)
                         <-> In k (keys demo_fields) /\ k <> "__proto__")
           /\ NoDup (keys props)
           /\ forall key d fieldType,
                lookup key demo_fields = Some d -> key <> "__proto__" ->
                get d "type" = Normal fieldType ->
                exists v, lookup key props = Some v
                          /\ mock_ok demo_world 0 tick' (Z.of_nat j) key fieldType v.
Proof.
  apply (mock_data_rows demo_world (mock_request (JObj demo_fields) 3 None)
           demo_fields 0%nat).
  - demo_world_ok.
  - reflexivity.
  - reflexivity.
Defined.

Lemma mock_result_spec (w : World) (options : Standalone.DataGenerationOptions)
    (fields : Props) (startTime : Z) (tick : nat) :
  world_ok w ->
  Standalone.schema options = JObj fields ->
  descriptors_defined fields ->
  exists rows k ks,
    Standalone.mock_result w options startTime tick
    = Normal ({| Standalone.data := JArr rows;
                 Standalone.metadata :=
                   {| Standalone.Metadata.rowCount := JNum (Z.of_nat (List.length rows));
                      Standalone.Metadata.columns := ks;
                      Standalone.Metadata.generationTime := Date_now w k - startTime;
                      Standalone.Metadata.format := Standalone.format_or_json options |} |},
              S k)
    /\ (tick <= k)%nat
    /\ Z.of_nat (List.length rows) = Z.max 0 (Standalone.numRows options)
    /\ (forall key, In key ks <-> 0 < Standalone.numRows options
                                  /\ In key (keys fields) /\ key <> "__proto__")
    /\ Object_keys (js_or (nth 0 rows JUndefined) (JObj [])) = Normal ks
    /\ forall j row, nth_error rows j = Some row ->
         exists props, row = JObj props
           /\ row_ok (mock_ok w tick k (Z.of_nat j)) fields props.
Proof.
  intros Hw Hs Hdef.
  destruct (generateMockData_spec w options fields tick Hw Hs Hdef)
    as (rows & k & Hrun & Hle & Hlen & Hrows).
  assert (Hks : exists ks,
             Object_keys (js_or (nth 0 rows JUndefined) (JObj [])) = Normal ks
             /\ forall key, In key ks
                            <-> 0 < Standalone.numRows options
                                /\ In key (keys fields) /\ key <> "__proto__").
  { destruct rows as [|row rest].
    - exists []. split; [reflexivity|]. simpl in Hlen. intros key. simpl. split; [tauto|].
      intros [Hpos _]. lia.
    - destruct (Hrows 0%nat row eq_refl) as (props & -> & Hkeys & _).
      exists (keys props). split; [reflexivity|]. intros key. rewrite (Hkeys key).
      simpl in Hlen. split; [intros H; split; [lia|exact H]|tauto]. }
  destruct Hks as (ks & Hks & Hcols).
  exists rows, k, ks. split.
  - unfold Standalone.mock_result, bind. rewrite Hrun. unfold now, lift.
    rewrite Hks. reflexivity.
  - split; [exact Hle|]. split; [lia|]. split; [exact Hcols|].
    split; [exact Hks|exact Hrows].
Qed.

Lemma data_missing_catch (w : World) (options : Standalone.DataGenerationOptions)
    (outcome : FetchOutcome) (tick : nat) :
  data_missing outcome = true ->
  exists tick1,
    (S tick <= tick1)%nat
    /\ Standalone.generateSyntheticData w options outcome tick
       = Standalone.mock_result w options (Date_now w tick) tick1.
Proof.
  intros Hmiss. unfold Standalone.generateSyntheticData, bind, now.
  destruct outcome as [|[|] [body|e]]; simpl in Hmiss;
    try (exists (S tick); split; [lia|reflexivity]).
  exists (S (S tick)). split; [lia|].
  assert (Hthrow : exists e, Standalone.remote_result options
                               (Date_now w (S tick) - Date_now w tick) body = Throw e).
  { unfold Standalone.remote_result.
    destruct (nullish body) eqn:Hb.
    - destruct body; try discriminate; eexists; reflexivity.
    - simpl in Hmiss. unfold get_opt in Hmiss.
      destruct (get body "data") as [d|e] eqn:Hd.
      + destruct d; try discriminate; eexists; reflexivity.
      + eexists; reflexivity. }
  destruct Hthrow as [e He]. rewrite He. reflexivity.
Qed.

(** Property X7.  When the call of [generateSyntheticData] fails, or the
    body carries no [data], the result holds the rows of
    [generateMockData]: [rowCount] is their number, [columns] are the keys
    of the schema other than [__proto__] when there is a row and none
    otherwise, and [generationTime] is the difference of a clock read made
    after the rows were generated and the read on entry.  Every row holds
    the keys that [columns] lists, each once and with a value of the
    declared type. *)

Theorem synthetic_data_falls_back (w : World)
    (options : Standalone.DataGenerationOptions) (fields : Props)
    (outcome : FetchOutcome) (tick : nat) :
  world_ok w ->
  Standalone.schema options = JObj fields ->
  descriptors_defined fields ->
  data_missing outcome = true ->
  exists r tick' rows k,
    Standalone.generateSyntheticData w options outcome tick = Normal (r, tick')
    /\ Standalone.data r = JArr rows
    /\ Z.of_nat (List.length rows) = Z.max 0 (Standalone.numRows options)
    /\ Standalone.Metadata.rowCount (Standalone.metadata r)
       = JNum (Z.of_nat (List.length rows))
    /\ (forall key, In key (Standalone.Metadata.columns (Standalone.metadata r))
                    <-> 0 < Standalone.numRows options
                        /\ In key (keys fields) /\ key <> "__proto__")
    /\ (tick < k < tick')%nat
    /\ Standalone.Metadata.generationTime (Standalone.metadata r)
       = Date_now w k - Date_now w tick
    /\ forall j row, nth_error rows j = Some row ->
         exists props,
           row = JObj props
           /\ (forall key, In key (keys props)
                           <-> In key (keys fields) /\ key <> "__proto__")
           /\ NoDup (keys props)
           /\ forall key d, lookup key fields = Some d -> key <> "__proto__" ->
                exists fieldType v,
                  get d "type" = Normal fieldType /\ lookup key props = Some v
                  /\ mock_ok w tick k (Z.of_nat j) key fieldType v.
Proof.
  intros Hw Hs Hdef Hmiss.
  destruct (data_missing_catch w options outcome tick Hmiss) as (tick1 & Ht1 & Hrun).
  destruct (mock_result_spec w options fields (Date_now w tick) tick1 Hw Hs Hdef)
    as (rows & k & ks & Hres & Hk & Hlen & Hcols & _ & Hrows).
  eexists _, (S k), rows, k. rewrite Hrun, Hres.
  split; [reflexivity|].
  cbn [Standalone.data Standalone.metadata Standalone.Metadata.rowCount
       Standalone.Metadata.columns Standalone.Metadata.generationTime].
  split; [reflexivity|]. split; [exact Hlen|]. split; [reflexivity|].
  split; [exact Hcols|]. split; [lia|]. split; [reflexivity|].
  intros j row Hj.
  destruct (Hrows j row Hj) as (props & -> & Hkeys & Hnd & _ & Hcells).
  exists props. split; [reflexivity|]. split; [exact Hkeys|]. split; [exact Hnd|].
  intros key d Hd Hproto.
  destruct (Hcells key d Hd Hproto) as (ft & v & Hft & Hv & Hcell).
  exists ft, v. split; [exact Hft|]. split; [exact Hv|].
  apply (mock_ok_mono w tick1 k tick k); auto; lia.
Qed.

Lemma synthetic_data_falls_back_witness :
  exists r tick' rows k,
    Standalone.generateSyntheticData demo_world
      (mock_request (JObj demo_fields) 3 None) (Response true (Normal (JObj []))) 0%nat
    = Normal (r, tick')
    /\ Standalone.data r = JArr rows
    /\ Z.of_nat (List.length rows) = Z.max 0 3
    /\ Standalone.Metadata.rowCount (Standalone.metadata r)
       = JNum (Z.of_nat (List.length rows))
    /\ (forall key, In key (Standalone.Metadata.columns (Standalone.metadata r))
                    <-> 0 < 3 /\ In key (keys demo_fields) /\ key <> "__proto__")
    /\ (0 < k < tick')%nat
    /\ Standalone.Metadata.generationTime (Standalone.metadata r)
       = Date_now demo_world k - Date_now demo_world 0
    /\ forall j row, nth_error rows j = Some row ->
         exists props,
           row = JObj props
           /\ (forall key, In key (keys props)
                           <-> In key (keys demo_fields) /\ key <> "__proto__")
           /\ NoDup (keys props)
           /\ forall key d, lookup key demo_fields = Some d -> key <> "__proto__" ->
                exists fieldType v,
                  get d "type" = Normal fieldType /\ lookup key props = Some v
                  /\ mock_ok demo_world 0 k (Z.of_nat j) key fieldType v.
Proof.
  apply (synthetic_data_falls_back demo_world (mock_request (JObj demo_fields) 3 None)
           demo_fields (Response true (Normal (JObj []))) 0%nat).
  - demo_world_ok.
  - reflexivity.
  - reflexivity.
  - reflexivity.
Defined.

Lemma get_array_first (rows : list JsVal) :
  get (JArr rows) "0" = Normal (nth 0 rows JUndefined).
Proof. unfold get. rewrite first_index. reflexivity. Qed.

Lemma remote_result_defined (options : Standalone.DataGenerationOptions)
    (generationTime : Z) (body d : JsVal) :
  get body "data" = Normal d -> nullish d = false ->
  exists n first ks,
    get d "length" = Normal n /\ get d "0" = Normal first
    /\ Object_keys (js_or first (JObj [])) = Normal ks
    /\ Standalone.remote_result options generationTime body
       = Normal {| Standalone.data := d;
                   Standalone.metadata :=
                     {| Standalone.Metadata.rowCount := n;
                        Standalone.Metadata.columns := ks;
                        Standalone.Metadata.generationTime := generationTime;
                        Standalone.Metadata.format :=
                          Standalone.format_or_json options |} |}.
Proof.
  intros Hd Hnn.
  destruct (get_defined d "length" Hnn) as [n Hn].
  destruct (get_defined d "0" Hnn) as [first Hf].
  destruct (Object_keys_or_empty first) as [ks Hks].
  exists n, first, ks. repeat split; auto.
  unfold Standalone.remote_result. rewrite Hd. cbn [cbind].
  rewrite Hn. cbn [cbind]. rewrite Hf. cbn [cbind]. rewrite Hks. reflexivity.
Qed.

Lemma data_present (outcome : FetchOutcome) :
  data_missing outcome = false ->
  exists body d, outcome = Response true (Normal body)
                 /\ get body "data" = Normal d /\ nullish d = false.
Proof.
  destruct outcome as [|[|] [body|e]]; try discriminate. simpl. intros H.
  apply orb_false_iff in H. destruct H as [Hb Hd].
  exists body, (get_opt body "data"). split; [reflexivity|]. split; [|exact Hd].
  apply get_opt_get. exact Hb.
Qed.

(** Property X8.  With a schema whose descriptors are defined,
    [generateSyntheticData] resolves whatever the backend does.
    [generationTime] is the difference of two clock reads, the later one
    minus the one on entry, so it is not negative when the clock does not
    go back; [format] is the format of the request, ["json"] when that is
    absent or empty; and when [data] is an array, [rowCount] is its length
    and [columns] are the keys of its first element, none when it has no
    element. *)

Theorem synthetic_data_resolves (w : World)
    (options : Standalone.DataGenerationOptions) (fields : Props)
    (outcome : FetchOutcome) (tick : nat) :
  world_ok w ->
  Standalone.schema options = JObj fields ->
  descriptors_defined fields ->
  exists r tick' k,
    Standalone.generateSyntheticData w options outcome tick = Normal (r, tick')
    /\ (tick < k < tick')%nat
    /\ Standalone.Metadata.generationTime (Standalone.metadata r)
       = Date_now w k - Date_now w tick
    /\ (clock_monotone w ->
        0 <= Standalone.Metadata.generationTime (Standalone.metadata r))
    /\ Standalone.Metadata.format (Standalone.metadata r)
       = Standalone.format_or_json options
    /\ forall rows, Standalone.data r = JArr rows ->
         Standalone.Metadata.rowCount (Standalone.metadata r)
         = JNum (Z.of_nat (List.length rows))
         /\ Object_keys (js_or (nth 0 rows JUndefined) (JObj []))
            = Normal (Standalone.Metadata.columns (Standalone.metadata r)).
Proof.
  intros Hw Hs Hdef.
  destruct (data_missing outcome) eqn:Hmiss.
  - destruct (data_missing_catch w options outcome tick Hmiss) as (tick1 & Ht1 & Hrun).
    destruct (mock_result_spec w options fields (Date_now w tick) tick1 Hw Hs Hdef)
      as (rows & k & ks & Hres & Hk & _ & _ & Hks & _).
    eexists _, (S k), k. rewrite Hrun, Hres. split; [reflexivity|].
    cbn [Standalone.data Standalone.metadata Standalone.Metadata.rowCount
         Standalone.Metadata.columns Standalone.Metadata.generationTime
         Standalone.Metadata.format].
    split; [lia|]. split; [reflexivity|].
    split; [intros Hmono; pose proof (Hmono tick k); lia|].
    split; [reflexivity|].
    intros rows' Hrows'. inversion Hrows'; subst rows'. auto.
  - destruct (data_present outcome Hmiss) as (body & d & -> & Hd & Hnn).
    destruct (remote_result_defined options (Date_now w (S tick) - Date_now w tick)
                body d Hd Hnn) as (n & first & ks & Hn & Hf & Hks & Hres).
    eexists _, (S (S tick)), (S tick).
    unfold Standalone.generateSyntheticData, bind, now. rewrite Hres.
    split; [reflexivity|].
    cbn [Standalone.data Standalone.metadata Standalone.Metadata.rowCount
         Standalone.Metadata.columns Standalone.Metadata.generationTime
         Standalone.Metadata.format].
    split; [lia|]. split; [reflexivity|].
    split; [intros Hmono; pose proof (Hmono tick (S tick)); lia|].
    split; [reflexivity|].
    intros rows ->. rewrite get_array_first in Hf. cbn in Hn.
    inversion Hn; inversion Hf; subst. auto.
Qed.

Lemma synthetic_data_resolves_witness :
  exists r tick' k,
    Standalone.generateSyntheticData demo_world
      (mock_request (JObj demo_fields) 3 (Some "")) (Response true (Normal wide_body)) 0%nat
    = Normal (r, tick')
    /\ (0 < k < tick')%nat
    /\ Standalone.Metadata.generationTime (Standalone.metadata r)
       = Date_now demo_world k - Date_now demo_world 0
    /\ (clock_monotone demo_world ->
        0 <= Standalone.Metadata.generationTime (Standalone.metadata r))
    /\ Standalone.Metadata.format (Standalone.metadata r)
       = Standalone.format_or_json (mock_request (JObj demo_fields) 3 (Some ""))
    /\ forall rows, Standalone.data r = JArr rows ->
         Standalone.Metadata.rowCount (Standalone.metadata r)
         = JNum (Z.of_nat (List.length rows))
         /\ Object_keys (js_or (nth 0 rows JUndefined) (JObj []))
            = Normal (Standalone.Metadata.columns (Standalone.metadata r)).
Proof.
  apply (synthetic_data_resolves demo_world (mock_request (JObj demo_fields) 3 (Some ""))
           demo_fields (Response true (Normal wide_body)) 0%nat).
  - demo_world_ok.
  - reflexivity.
  - reflexivity.
Defined.

(** Property X9.  [generateSyntheticData] looks at the schema only in its
    [catch] block.  With a schema that is null or undefined it still
    resolves when the body carries [data], after two clock reads and no
    random draw; when the call fails it rejects with a TypeError if
    [numRows] is positive, and resolves with no row and no column if
    [numRows] is zero or negative. *)

Theorem synthetic_data_null_schema (w : World)
    (options : Standalone.DataGenerationOptions) (tick : nat) :
  nullish (Standalone.schema options) = true ->
  (forall body d,
     get body "data" = Normal d -> nullish d = false ->
     exists r,
       Standalone.generateSyntheticData w options (Response true (Normal body)) tick
       = Normal (r, S (S tick))
       /\ Standalone.data r = d)
  /\ (forall outcome,
        data_missing outcome = true -> 0 < Standalone.numRows options ->
        Standalone.generateSyntheticData w options outcome tick = Throw TypeError)
  /\ (forall outcome,
        data_missing outcome = true -> Standalone.numRows options <= 0 ->
        exists r tick',
          Standalone.generateSyntheticData w options outcome tick = Normal (r, tick')
          /\ Standalone.data r = JArr []
          /\ Standalone.Metadata.rowCount (Standalone.metadata r) = JNum 0
          /\ Standalone.Metadata.columns (Standalone.metadata r) = []).
Proof.
  intros Hnull. split; [|split].
  - intros body d Hd Hnn.
    destruct (remote_result_defined options (Date_now w (S tick) - Date_now w tick)
                body d Hd Hnn) as (n & first & ks & Hn & Hf & Hks & Hres).
    eexists. unfold Standalone.generateSyntheticData, bind, now. rewrite Hres.
    split; reflexivity.
  - intros outcome Hmiss Hpos.
    destruct (data_missing_catch w options outcome tick Hmiss) as (tick1 & _ & ->).
    unfold Standalone.mock_result, Standalone.generateMockData, bind.
    destruct (Z.to_nat (Standalone.numRows options)) as [|n] eqn:Hn; [lia|].
    cbn [rows_loop]. unfold bind, lift.
    destruct (Standalone.schema options); try discriminate; reflexivity.
  - intros outcome Hmiss Hle.
    destruct (data_missing_catch w options outcome tick Hmiss) as (tick1 & _ & ->).
    unfold Standalone.mock_result, Standalone.generateMockData, bind.
    replace (Z.to_nat (Standalone.numRows options)) with 0%nat by lia.
    eexists _, _. split; [reflexivity|]. repeat split.
Qed.

Lemma synthetic_data_null_schema_witness :
  (forall body d,
     get body "data" = Normal d -> nullish d = false ->
     exists r,
       Standalone.generateSyntheticData demo_world (mock_request JNull 2 None)
         (Response true (Normal body)) 0%nat = Normal (r, 2%nat)
       /\ Standalone.data r = d)
  /\ (forall outcome,
        data_missing outcome = true -> 0 < 2 ->
        Standalone.generateSyntheticData demo_world (mock_request JNull 2 None)
          outcome 0%nat = Throw TypeError)
  /\ (forall outcome,
        data_missing outcome = true -> 2 <= 0 ->
        exists r tick',
          Standalone.generateSyntheticData demo_world (mock_request JNull 2 None)
            outcome 0%nat = Normal (r, tick')
          /\ Standalone.data r = JArr []
          /\ Standalone.Metadata.rowCount (Standalone.metadata r) = JNum 0
          /\ Standalone.Metadata.columns (Standalone.metadata r) = []).
Proof.
  apply (synthetic_data_null_schema demo_world (mock_request JNull 2 None) 0%nat).
  reflexivity.
Defined.

Lemma relabelled_keys (p q : Props) : Forall2 relabelled p q -> keys p = keys q.
Proof.
  unfold keys. induction 1 as [|[k1 a] [k2 b] p q [Hk _] _ IH]; simpl; auto.
  simpl in Hk. now rewrite Hk, IH.
Qed.

Lemma overwrite_relabelled (k : string) (v1 v2 : JsVal) (p q : Props) :
  relabelled (k, v1) (k, v2) -> Forall2 relabelled p q ->
  Forall2 relabelled (overwrite k v1 p) (overwrite k v2 q).
Proof.
  intros Hv H. induction H as [|[k1 a] [k2 b] p q [Hk Hab] H IH]; simpl.
  - constructor.
  - simpl in Hk. subst k2. destruct (String.eqb k k1).
    + constructor; auto.
    + constructor; auto. split; auto.
Qed.

Lemma insert_key_relabelled (k : string) (v1 v2 : JsVal) (p q : Props) :
  relabelled (k, v1) (k, v2) -> Forall2 relabelled p q ->
  Forall2 relabelled (insert_key k v1 p) (insert_key k v2 q).
Proof.
  intros Hv H. induction H as [|[k1 a] [k2 b] p q [Hk Hab] H IH]; simpl.
  - constructor; auto.
  - simpl in Hk. subst k2. destruct (listed_before k k1).
    + constructor; auto. constructor; auto. split; auto.
    + constructor; auto. split; auto.
Qed.

Lemma obj_set_relabelled (k : string) (v1 v2 : JsVal) (p q : Props) :
  relabelled (k, v1) (k, v2) -> Forall2 relabelled p q ->
  Forall2 relabelled (obj_set k v1 p) (obj_set k v2 q).
Proof.
  intros Hv H. pose proof (relabelled_keys p q H) as Hkeys. unfold obj_set.
  destruct (lookup k p) as [x1|] eqn:E1, (lookup k q) as [x2|] eqn:E2.
  - now apply overwrite_relabelled.
  - exfalso. apply lookup_none in E2. apply E2. rewrite <- Hkeys.
    apply lookup_in_keys. eauto.
  - exfalso. apply lookup_none in E1. apply E1. rewrite Hkeys.
    apply lookup_in_keys. eauto.
  - destruct (String.eqb k "__proto__"); auto. now apply insert_key_relabelled.
Qed.

Lemma values_agree (w : World) (fieldType : JsVal) (key : string) (i : Z) (tick : nat) :
  runs_agree (fun a b => relabelled (key, a) (key, b))
    (Standalone.mock_value w fieldType key i tick)
    (fallback_value w fieldType key i tick).
Proof.
  unfold Standalone.mock_value, fallback_value.
  destruct (strict_eq_str fieldType "string").
  { simpl. split; [reflexivity|]. split; [reflexivity|]. right. eexists. split; reflexivity. }
  destruct (strict_eq_str fieldType "number").
  { simpl. split; [reflexivity|]. split; [reflexivity|]. left. reflexivity. }
  destruct (strict_eq_str fieldType "boolean").
  { simpl. split; [reflexivity|]. split; [reflexivity|]. left. reflexivity. }
  destruct (strict_eq_str fieldType "date").
  { unfold bind, now, random, lift, ret, runs_agree.
    destruct (toISOString _) as [s|e]; [|reflexivity].
    split; [reflexivity|]. split; [reflexivity|]. left. reflexivity. }
  simpl. split; [reflexivity|]. split; [reflexivity|]. left. reflexivity.
Qed.

Lemma runs_agree_bind {A B C D} (R1 : A -> B -> Prop) (R2 : C -> D -> Prop)
    (m1 : Eff A) (m2 : Eff B) (k1 : A -> Eff C) (k2 : B -> Eff D) (tick : nat) :
  runs_agree R1 (m1 tick) (m2 tick) ->
  (forall a b t, R1 a b -> runs_agree R2 (k1 a t) (k2 b t)) ->
  runs_agree R2 (bind m1 k1 tick) (bind m2 k2 tick).
Proof.
  unfold runs_agree, bind. intros Hm Hk.
  destruct (m1 tick) as [[a t1]|e1]; destruct (m2 tick) as [[b t2]|e2];
    try contradiction; auto.
  destruct Hm as [<- Hab]. apply Hk. exact Hab.
Qed.

Lemma runs_agree_lift {A} (c : Completion A) (tick : nat) :
  runs_agree eq (lift c tick) (lift c tick).
Proof. unfold runs_agree, lift. destruct c; auto. Qed.

Lemma fill_rows_agree (w : World) (schema : JsVal) (i : Z) (ks : list string) :
  forall (p q : Props) (tick : nat),
    Forall2 relabelled p q ->
    runs_agree (Forall2 relabelled)
      (fill_row (Standalone.mock_value w) schema i ks p tick)
      (fill_row (fallback_value w) schema i ks q tick).
Proof.
  induction ks as [|key ks IH]; intros p q tick Hpq.
  - simpl. auto.
  - cbn [fill_row].
    eapply runs_agree_bind; [apply runs_agree_lift|]. intros d ? t1 <-.
    eapply runs_agree_bind; [apply runs_agree_lift|]. intros ft ? t2 <-.
    eapply runs_agree_bind; [apply values_agree|]. intros a b t3 Hab.
    apply IH. apply obj_set_relabelled; auto.
Qed.

Lemma rows_loops_agree (w : World) (schema : JsVal) (n : nat) :
  forall (i : Z) (acc1 acc2 : list JsVal) (tick : nat),
    Forall2 relabelled_row acc1 acc2 ->
    runs_agree (Forall2 relabelled_row)
      (rows_loop (Standalone.mock_value w) schema n i acc1 tick)
      (rows_loop (fallback_value w) schema n i acc2 tick).
Proof.
  induction n as [|n IH]; intros i acc1 acc2 tick Hacc.
  - simpl. auto.
  - cbn [rows_loop].
    eapply runs_agree_bind; [apply runs_agree_lift|]. intros ks ? t1 <-.
    eapply runs_agree_bind; [apply fill_rows_agree; constructor|]. intros p q t2 Hpq.
    apply IH. apply Forall2_app; auto.
    constructor; [|constructor]. exists p, q. auto.
Qed.

(** Property X10.  [generateMockData] and [generateFallbackData] are the
    same generator up to the label of a string field.  On the same schema
    and row count, started at the same read of the world, they make the
    same number of reads, raise the same exception if one is raised in the
    loop, and return rows with the same keys in the same order whose
    values are equal except that ["Sample <key> <n>"] in the one is
    ["Generated <key> <n>"] in the other. *)

Theorem mock_and_fallback_rows_agree (w : World)
    (options1 : Standalone.DataGenerationOptions) (options2 : DatasetGenerationOptions)
    (tick : nat) :
  Standalone.schema options1 = schema options2 ->
  rowCount options2 = Some (Standalone.numRows options1) ->
  (forall g tick',
     generateFallbackData w options2 tick = Normal (g, tick') ->
     exists rows1 rows2,
       Standalone.generateMockData w options1 tick = Normal (rows1, tick')
       /\ data g = JArr rows2 /\ Forall2 relabelled_row rows1 rows2)
  /\ (forall rows1 tick',
        Standalone.generateMockData w options1 tick = Normal (rows1, tick') ->
        nullish (schema options2) = false ->
        exists g rows2,
          generateFallbackData w options2 tick = Normal (g, tick')
          /\ data g = JArr rows2 /\ Forall2 relabelled_row rows1 rows2)
  /\ (forall e,
        Standalone.generateMockData w options1 tick = Throw e ->
        generateFallbackData w options2 tick = Throw e).
Proof.
  intros Hs Hn.
  pose proof (rows_loops_agree w (schema options2)
                (Z.to_nat (Standalone.numRows options1)) 0 [] [] tick (Forall2_nil _))
    as Hloops.
  assert (Hfb : generateFallbackData w options2 tick
                = bind (rows_loop (fallback_value w) (schema options2)
                          (Z.to_nat (Standalone.numRows options1)) 0 [])
                    (fun rows =>
                       bind (lift (Object_keys (schema options2)))
                         (fun ks =>
                            ret {| data := JArr rows;
                                   metadata :=
                                     {| rowsGenerated := JNum (Z.of_nat (List.length rows));
                                        columnsGenerated := Z.of_nat (List.length ks);
                                        generationMethod := "local_fallback" |};
                                   qualityScore := 85;
                                   privacyScore := 90;
                                   biasScore := 88 |})) tick).
  { unfold generateFallbackData. rewrite Hn. reflexivity. }
  rewrite Hfb. unfold Standalone.generateMockData. rewrite Hs.
  unfold runs_agree in Hloops. unfold bind at 1 3 5.
  destruct (rows_loop (Standalone.mock_value w) (schema options2) _ 0 [] tick)
    as [[rows1 t1]|e1];
    destruct (rows_loop (fallback_value w) (schema options2) _ 0 [] tick)
      as [[rows2 t2]|e2]; try contradiction.
  - destruct Hloops as [<- Hrows]. split; [|split].
    + intros g tick' Hg. unfold bind, lift in Hg.
      destruct (Object_keys (schema options2)) as [ks|e]; [|discriminate].
      inversion Hg; subst. exists rows1, rows2. auto.
    + intros rows1' tick' H1 Hnn. inversion H1; subst.
      destruct (Object_keys_total _ Hnn) as [ks Hks].
      unfold bind, lift. rewrite Hks. eexists _, rows2.
      split; [reflexivity|]. split; [reflexivity|exact Hrows].
    + intros e He. discriminate.
  - subst e2. split; [|split].
    + intros g tick' Hg. discriminate.
    + intros rows1 tick' H1. discriminate.
    + intros e He. inversion He; subst. reflexivity.
Qed.

Lemma mock_and_fallback_rows_agree_witness :
  (forall g tick',
     generateFallbackData demo_world (request (JObj demo_fields) (Some 3)) 0%nat
     = Normal (g, tick') ->
     exists rows1 rows2,
       Standalone.generateMockData demo_world (mock_request (JObj demo_fields) 3 None)
         0%nat = Normal (rows1, tick')
       /\ data g = JArr rows2 /\ Forall2 relabelled_row rows1 rows2)
  /\ (forall rows1 tick',
        Standalone.generateMockData demo_world (mock_request (JObj demo_fields) 3 None)
          0%nat = Normal (rows1, tick') ->
        nullish (schema (request (JObj demo_fields) (Some 3))) = false ->
        exists g rows2,
          generateFallbackData demo_world (request (JObj demo_fields) (Some 3)) 0%nat
          = Normal (g, tick')
          /\ data g = JArr rows2 /\ Forall2 relabelled_row rows1 rows2)
  /\ (forall e,
        Standalone.generateMockData demo_world (mock_request (JObj demo_fields) 3 None)
          0%nat = Throw e ->
        generateFallbackData demo_world (request (JObj demo_fields) (Some 3)) 0%nat
        = Throw e).
Proof.
  apply (mock_and_fallback_rows_agree demo_world (mock_request (JObj demo_fields) 3 None)
           (request (JObj demo_fields) (Some 3)) 0%nat); reflexivity.
Defined.

(* ================================================================== *)
(** * Uploads: names, lines and cells *)
(* ================================================================== *)

(** Property X11.  A file whose name ends neither in [.json] nor in [.csv]
    is read as no data at all: the upload resolves with no row, an empty
    schema and both counts zero, whatever the file holds.  This is what
    happens to a [.xlsx] file, which the page accepts, and to [.CSV]. *)

Theorem unknown_extension_reads_nothing (date_parses : string -> bool)
    (file_name content : string) :
  endsWith file_name ".json" = false ->
  endsWith file_name ".csv" = false ->
  processUploadedData date_parses {| name := file_name; text := Some content |}
  = Some (Normal empty_upload).
Proof.
  intros Hj Hc. unfold processUploadedData, read_rows. cbn [name text].
  rewrite Hj, Hc. reflexivity.
Qed.

Lemma unknown_extension_reads_nothing_witness :
  processUploadedData (fun _ => true)
    {| name := "patients.xlsx"; text := Some example_csv |}
  = Some (Normal empty_upload).
Proof.
  apply (unknown_extension_reads_nothing (fun _ => true) "patients.xlsx" example_csv);
    reflexivity.
Defined.

Lemma csv_is_not_json (file_name : string) :
  endsWith file_name ".csv" = true -> endsWith file_name ".json" = false.
Proof.
  unfold endsWith. destruct (rev (list_ascii_of_string file_name)) as [|c l];
    cbn -[Ascii.eqb]; [discriminate|].
  destruct (Ascii.eqb "v" c) eqn:E; [|discriminate].
  apply Ascii.eqb_eq in E. subst c. reflexivity.
Qed.

Lemma value_at_trimmed (vals : list string) (index : nat) :
  Forall (fun s => no_char comma s = true /\ no_char newline s = true /\ trim s = s) vals ->
  trimmed_cell (value_at vals index).
Proof.
  intros H. unfold value_at. destruct (nth_error vals index) as [s|] eqn:E.
  - apply nth_error_In in E. rewrite Forall_forall in H. destruct (H s E) as (H1 & H2 & H3).
    unfold js_or. simpl. destruct (String.eqb s "") eqn:Es.
    + simpl. exists "". repeat split; reflexivity.
    + simpl. exists s. repeat split; auto.
  - exists "". repeat split; reflexivity.
Qed.

Lemma fill_object_trimmed (vals : list string) (headers : list string) :
  Forall (fun s => no_char comma s = true /\ no_char newline s = true /\ trim s = s) vals ->
  forall n acc,
    Forall trimmed_cell (values acc) ->
    Forall trimmed_cell (values (fill_object vals headers n acc)).
Proof.
  intros Hvals. induction headers as [|h hs IH]; intros n acc Hacc; simpl; auto.
  apply IH. apply obj_set_values; auto. apply value_at_trimmed; auto.
Qed.

Lemma some_non_empty_value (props : Props) :
  some_non_empty (JObj props) = true ->
  exists v, In v (values props) /\ v <> JStr "".
Proof.
  simpl. intros H. apply existsb_exists in H. destruct H as (v & Hin & Hv).
  exists v. split; auto. apply negb_true_iff in Hv. now apply strict_eq_str_false in Hv.
Qed.

Lemma parse_csv_rows (content : string) (row : JsVal) :
  In row (parse_csv content) ->
  exists props line,
    row = JObj props
    /\ In line (tl (split newline content))
    /\ props = fill_object (map trim (split comma line))
                 (map trim (split comma (hd "" (split newline content)))) 0 []
    /\ some_non_empty row = true.
Proof.
  unfold parse_csv. intros H. apply filter_In in H. destruct H as [H Hne].
  apply in_map_iff in H. destruct H as (line & <- & Hline).
  eexists _, line. repeat split; auto.
Qed.

Lemma filter_length_le {A} (f : A -> bool) (l : list A) :
  (List.length (filter f l) <= List.length l)%nat.
Proof. induction l as [|a l IH]; simpl; [lia|]. destruct (f a); simpl; lia. Qed.

Lemma same_elements_length (l1 l2 : list string) :
  NoDup l1 -> NoDup l2 -> (forall k, In k l1 <-> In k l2) ->
  List.length l1 = List.length l2.
Proof.
  intros H1 H2 H. apply Nat.le_antisymm; apply NoDup_incl_length; auto;
    intros k Hk; apply H; auto.
Qed.

Lemma parse_csv_converts (content : string) :
  first_row_converts (parse_csv content) = true.
Proof.
  destruct (parse_csv_shape content) as (ks & table & -> & _).
  apply table_rows_convert.
Qed.

(** Property X12.  The upload of a [.csv] file never rejects, whatever the
    text.  There are fewer rows than lines; every row has the trimmed
    headers of the first line as its keys, each once, a header [__proto__]
    apart, which [obj[header] = ...] does not store; every value is a
    trimmed string with no comma and no line feed, and at least one value
    of every row is not empty; [columnCount] is the number of keys of a
    row when there is a row, and zero, with an empty schema, when there is
    none. *)

Theorem csv_upload_invariants (date_parses : string -> bool)
    (file_name content : string) :
  endsWith file_name ".csv" = true ->
  exists u,
    processUploadedData date_parses {| name := file_name; text := Some content |}
    = Some (Normal u)
    /\ Upload.data u = parse_csv content
    /\ Upload.rowCount u = Z.of_nat (List.length (Upload.data u))
    /\ Upload.rowCount u < Z.of_nat (List.length (split newline content))
    /\ (Upload.data u = [] -> Upload.schema u = [] /\ Upload.columnCount u = 0)
    /\ forall row, In row (Upload.data u) ->
         exists props,
           row = JObj props
           /\ NoDup (keys props)
           /\ (forall k, In k (keys props)
                         <-> In k (map trim (split comma (hd "" (split newline content))))
                             /\ k <> "__proto__")
           /\ same_keys (Upload.schema u) props
           /\ Upload.columnCount u = Z.of_nat (List.length (keys props))
           /\ (exists v, In v (values props) /\ v <> JStr "")
           /\ Forall trimmed_cell (values props).
Proof.
  intros Hcsv.
  set (headers := map trim (split comma (hd "" (split newline content)))).
  assert (Hrows : Forall (fun row => nullish row = false) (parse_csv content)).
  { rewrite Forall_forall. intros row Hrow.
    destruct (parse_csv_rows content row Hrow) as (props & line & -> & _). reflexivity. }
  destruct (infer_schema_keys date_parses (parse_csv content) Hrows
              (parse_csv_converts content))
    as (schema & Hschema & Hempty & Hkeys).
  destruct (infer_schema_typed _ _ _ Hschema) as [Hnd _].
  eexists. split.
  { unfold processUploadedData, read_rows. cbn [name text].
    rewrite (csv_is_not_json _ Hcsv), Hcsv, Hschema. reflexivity. }
  cbn [Upload.data Upload.schema Upload.rowCount Upload.columnCount].
  split; [reflexivity|]. split; [reflexivity|]. split; [|split].
  - unfold parse_csv. rewrite <- Nat2Z.inj_lt.
    eapply Nat.le_lt_trans; [apply filter_length_le|]. rewrite length_map.
    pose proof (split_not_nil newline content).
    destruct (split newline content); [congruence|simpl; lia].
  - intros Hnil. rewrite (Hempty Hnil). auto.
  - intros row Hrow.
    destruct (parse_csv_rows content row Hrow) as (props & line & -> & Hline & Hprops & Hne).
    fold headers in Hprops.
    assert (Hlines : Forall (fun l => no_char newline l = true) (split newline content))
      by apply split_no_sep.
    assert (Hnl : no_char newline line = true).
    { rewrite Forall_forall in Hlines. apply Hlines.
      destruct (split newline content); [inversion Hline|now right]. }
    assert (Hk : forall k, In k (keys props) <-> In k headers /\ k <> "__proto__").
    { intros k. subst props. rewrite fill_object_keys_in. simpl. tauto. }
    assert (Hndp : NoDup (keys props)).
    { subst props. apply fill_object_NoDup. constructor. }
    assert (Hsame : same_keys schema props).
    { destruct (parse_csv content) as [|first rest] eqn:E; [inversion Hrow|].
      assert (Hfirst : In first (parse_csv content)) by (rewrite E; now left).
      destruct (parse_csv_rows content first Hfirst)
        as (props0 & line0 & -> & _ & Hprops0 & _).
      fold headers in Hprops0.
      intros k. rewrite (Hkeys (JObj props0) rest (keys props0) eq_refl eq_refl k).
      rewrite Hk. subst props0. rewrite fill_object_keys_in. simpl. tauto. }
    exists props. split; [reflexivity|]. split; [exact Hndp|]. split; [exact Hk|].
    split; [exact Hsame|]. split; [|split].
    + f_equal. apply same_elements_length; auto.
    + apply some_non_empty_value. exact Hne.
    + subst props. apply fill_object_trimmed; [|constructor].
      eapply Forall_impl; [|exact (line_pieces _ Hnl)]. intros s (H1 & H2 & H3). auto.
Qed.

Lemma csv_upload_invariants_witness :
  exists u,
    processUploadedData (fun _ => false) example_file = Some (Normal u)
    /\ Upload.data u = parse_csv example_csv
    /\ Upload.rowCount u = Z.of_nat (List.length (Upload.data u))
    /\ Upload.rowCount u < Z.of_nat (List.length (split newline example_csv))
    /\ (Upload.data u = [] -> Upload.schema u = [] /\ Upload.columnCount u = 0)
    /\ forall row, In row (Upload.data u) ->
         exists props,
           row = JObj props
           /\ NoDup (keys props)
           /\ (forall k, In k (keys props)
                         <-> In k (map trim (split comma (hd "" (split newline example_csv))))
                             /\ k <> "__proto__")
           /\ same_keys (Upload.schema u) props
           /\ Upload.columnCount u = Z.of_nat (List.length (keys props))
           /\ (exists v, In v (values props) /\ v <> JStr "")
           /\ Forall trimmed_cell (values props).
Proof.
  apply (csv_upload_invariants (fun _ => false) "example.csv" example_csv).
  reflexivity.
Defined.

Lemma split_append_sep (c : ascii) (s : string) :
  split c (s ++ String c EmptyString) = (split c s ++ [EmptyString])%list.
Proof.
  induction s as [|a s IH]; simpl.
  - rewrite Ascii.eqb_refl. reflexivity.
  - destruct (Ascii.eqb a c).
    + now rewrite IH.
    + rewrite IH. pose proof (split_not_nil c s).
      destruct (split c s); [congruence|reflexivity].
Qed.

Lemma split_all_chars (p : ascii -> bool) (c : ascii) (s : string) :
  all_chars p s = true -> Forall (fun piece => all_chars p piece = true) (split c s).
Proof.
  induction s as [|a s IH]; simpl; intros H.
  - repeat constructor.
  - apply andb_true_iff in H. destruct H as [Ha Hs]. specialize (IH Hs).
    destruct (Ascii.eqb a c).
    + constructor; auto.
    + destruct (split c s) as [|h t]; [repeat constructor; simpl; now rewrite Ha|].
      inversion IH; subst. constructor; auto. simpl. now rewrite Ha.
Qed.

Lemma trim_start_spaces (s : string) :
  all_chars is_space s = true -> trim_start s = "".
Proof.
  induction s as [|a s IH]; simpl; auto. intros H.
  apply andb_true_iff in H. destruct H as [Ha Hs]. rewrite Ha. auto.
Qed.

Lemma trim_spaces (s : string) : all_chars is_space s = true -> trim s = "".
Proof. intros H. unfold trim. now rewrite trim_start_spaces. Qed.

Lemma blank_line_cells (l : string) :
  blank_line l = true -> Forall (fun s => s = "") (map trim (split comma l)).
Proof.
  intros H. apply Forall_map.
  pose proof (split_all_chars _ comma l H) as H1.
  pose proof (split_no_sep comma l) as H2.
  rewrite Forall_forall in *. intros piece Hin.
  apply trim_spaces. specialize (H1 piece Hin). specialize (H2 piece Hin).
  unfold no_char in H2. clear Hin. induction piece as [|a piece IH]; simpl in *; auto.
  apply andb_true_iff in H1. destruct H1 as [Ha H1].
  apply andb_true_iff in H2. destruct H2 as [Hb H2].
  rewrite IH; auto. destruct (Ascii.eqb a comma); [discriminate|].
  rewrite orb_false_r in Ha. now rewrite Ha.
Qed.

Lemma value_at_empty (vals : list string) (index : nat) :
  Forall (fun s => s = "") vals -> value_at vals index = JStr "".
Proof.
  intros H. unfold value_at. destruct (nth_error vals index) as [s|] eqn:E; auto.
  apply nth_error_In in E. rewrite Forall_forall in H. rewrite (H s E). reflexivity.
Qed.

Lemma fill_object_empty (vals : list string) (headers : list string) :
  Forall (fun s => s = "") vals ->
  forall n acc,
    Forall (fun v => v = JStr "") (values acc) ->
    Forall (fun v => v = JStr "") (values (fill_object vals headers n acc)).
Proof.
  intros Hvals. induction headers as [|h hs IH]; intros n acc Hacc; simpl; auto.
  apply IH. apply obj_set_values; auto. now apply value_at_empty.
Qed.

Lemma blank_line_dropped (headers : list string) (l : string) :
  blank_line l = true ->
  some_non_empty (JObj (fill_object (map trim (split comma l)) headers 0 [])) = false.
Proof.
  intros H. simpl.
  pose proof (fill_object_empty _ headers (blank_line_cells l H) 0%nat [] (Forall_nil _)) as Hv.
  induction Hv as [|v vs Hv _ IH]; simpl; auto.
  subst v. simpl. exact IH.
Qed.

(** Property X13.  A line feed at the end of a CSV text changes nothing:
    the empty last line gives no row. *)

Theorem trailing_line_feed_ignored (content : string) :
  parse_csv (content ++ lf) = parse_csv content.
Proof.
  unfold parse_csv, lf. rewrite split_append_sep.
  pose proof (split_not_nil newline content) as Hne.
  destruct (split newline content) as [|header lines]; [congruence|].
  cbn [hd tl app]. rewrite map_app, filter_app. cbn [map filter].
  rewrite blank_line_dropped by reflexivity. now rewrite app_nil_r.
Qed.

Lemma read_lines_skip_blank (headers : list string) (lines : list string) :
  filter some_non_empty
    (map (fun line => JObj (fill_object (map trim (split comma line)) headers 0 [])) lines)
  = filter some_non_empty
      (map (fun line => JObj (fill_object (map trim (split comma line)) headers 0 []))
         (filter (fun l => negb (blank_line l)) lines)).
Proof.
  induction lines as [|l ls IH]; [reflexivity|].
  cbn [map filter]. destruct (blank_line l) eqn:Hb.
  - rewrite (blank_line_dropped headers l Hb). exact IH.
  - cbn [negb map filter]. now rewrite IH.
Qed.

Lemma split_join_lf (lines : list string) :
  lines <> [] -> Forall (fun l => no_char newline l = true) lines ->
  split newline (join lf lines) = lines.
Proof. intros Hne H. now apply split_join. Qed.

Lemma split_lines (header : string) (lines : list string) :
  Forall (fun l => no_char newline l = true) (header :: lines) ->
  split newline (join lf (header :: lines)) = header :: lines.
Proof. intros H. apply split_join_lf; [discriminate|exact H]. Qed.

(** Property X14.  The CSV reader skips blank lines: a data line that
    holds only commas and white space gives no row, wherever it stands. *)

Theorem blank_lines_skipped (header : string) (lines : list string) :
  Forall (fun l => no_char newline l = true) (header :: lines) ->
  parse_csv (join lf (header :: lines))
  = parse_csv (join lf (header :: filter (fun l => negb (blank_line l)) lines)).
Proof.
  intros H. unfold parse_csv. rewrite split_lines by exact H.
  rewrite split_lines.
  - cbn [hd tl]. apply read_lines_skip_blank.
  - inversion H; subst. constructor; auto.
    rewrite Forall_forall in *. intros l Hl. apply filter_In in Hl. intuition.
Qed.

Lemma blank_lines_skipped_witness :
  parse_csv (join lf ("a,b" :: ragged_lines))
  = parse_csv (join lf ("a,b" :: filter (fun l => negb (blank_line l)) ragged_lines)).
Proof.
  apply (blank_lines_skipped "a,b" ragged_lines).
  repeat constructor.
Defined.

Lemma split_append_char (c a : ascii) (s : string) :
  Ascii.eqb a c = false ->
  split c (s ++ String a EmptyString) = append_to_last (split c s) (String a EmptyString).
Proof.
  intros Ha. induction s as [|b s IH]; simpl.
  - now rewrite Ha.
  - pose proof (split_not_nil c s) as Hne. rewrite IH.
    destruct (Ascii.eqb b c).
    + destruct (split c s); [congruence|reflexivity].
    + destruct (split c s) as [|h [|h' t]]; [congruence| |]; reflexivity.
Qed.

Lemma trim_end_append_space (s : string) (a : ascii) :
  is_space a = true -> trim_end (s ++ String a EmptyString) = trim_end s.
Proof.
  intros Ha. induction s as [|b s IH]; simpl.
  - now rewrite Ha.
  - now rewrite IH.
Qed.

Lemma trim_start_append (s : string) (a : ascii) :
  trim_start (s ++ String a EmptyString)
  = if all_chars is_space s then trim_start (String a EmptyString)
    else trim_start s ++ String a EmptyString.
Proof.
  induction s as [|b s IH]; [reflexivity|].
  cbn [append trim_start all_chars]. destruct (is_space b); [exact IH|reflexivity].
Qed.

Lemma trim_append_space (s : string) (a : ascii) :
  is_space a = true -> trim (s ++ String a EmptyString) = trim s.
Proof.
  intros Ha. unfold trim. rewrite trim_start_append.
  destruct (all_chars is_space s) eqn:Hs.
  - rewrite (trim_start_spaces s Hs). simpl. now rewrite Ha.
  - now apply trim_end_append_space.
Qed.

Lemma map_trim_append_to_last (l : list string) (a : ascii) :
  is_space a = true ->
  map trim (append_to_last l (String a EmptyString)) = map trim l.
Proof.
  intros Ha. induction l as [|x [|y r] IH]; [reflexivity| |].
  - simpl. now rewrite trim_append_space.
  - change (append_to_last (x :: y :: r) (String a EmptyString))
      with (x :: append_to_last (y :: r) (String a EmptyString)).
    cbn [map]. now rewrite IH.
Qed.

Lemma cells_ignore_carriage_return (l : string) :
  map trim (split comma (l ++ String carriage_return EmptyString))
  = map trim (split comma l).
Proof.
  rewrite split_append_char by reflexivity.
  apply map_trim_append_to_last. reflexivity.
Qed.

Lemma join_crlf_lines (l : string) (ls : list string) :
  join crlf (l :: ls) = join lf (crlf_lines l ls).
Proof.
  revert l. induction ls as [|l' ls IH]; intros l; [reflexivity|].
  change (join crlf (l :: l' :: ls)) with (l ++ crlf ++ join crlf (l' :: ls)).
  rewrite IH. cbn [crlf_lines].
  change (join lf ((l ++ String carriage_return EmptyString) :: crlf_lines l' ls))
    with (match crlf_lines l' ls with
          | [] => l ++ String carriage_return EmptyString
          | _ :: _ => (l ++ String carriage_return EmptyString) ++ lf
                      ++ join lf (crlf_lines l' ls)
          end).
  destruct (crlf_lines l' ls) eqn:E.
  - destruct ls; discriminate.
  - rewrite append_assoc. reflexivity.
Qed.

Lemma crlf_lines_no_newline (l : string) (ls : list string) :
  Forall (fun x => no_char newline x = true) (l :: ls) ->
  Forall (fun x => no_char newline x = true) (crlf_lines l ls).
Proof.
  revert l. induction ls as [|l' ls IH]; intros l H; simpl.
  - exact H.
  - inversion H; subst. constructor; [|apply IH; auto].
    rewrite no_char_append. rewrite H2. reflexivity.
Qed.

Lemma crlf_lines_rows (headers : list string) (l : string) (ls : list string) :
  map (fun line => JObj (fill_object (map trim (split comma line)) headers 0 []))
    (crlf_lines l ls)
  = map (fun line => JObj (fill_object (map trim (split comma line)) headers 0 []))
      (l :: ls).
Proof.
  revert l. induction ls as [|l' ls IH]; intros l; [reflexivity|].
  cbn [crlf_lines map]. rewrite cells_ignore_carriage_return.
  f_equal. exact (IH l').
Qed.

(** Property X15.  A CSV text with CR LF line ends is read like the same
    text with LF line ends: the carriage return that [split] leaves at the
    end of a line is trimmed away with the last cell. *)

Theorem carriage_returns_ignored (header : string) (lines : list string) :
  Forall (fun l => no_char newline l = true) (header :: lines) ->
  parse_csv (join crlf (header :: lines)) = parse_csv (join lf (header :: lines)).
Proof.
  intros H. unfold parse_csv. rewrite join_crlf_lines.
  rewrite (split_join_lf (crlf_lines header lines)).
  - rewrite split_lines by exact H. cbn [hd tl].
    destruct lines as [|l ls]; [reflexivity|].
    cbn [crlf_lines hd tl]. rewrite cells_ignore_carriage_return.
    f_equal. apply crlf_lines_rows.
  - destruct lines; discriminate.
  - apply crlf_lines_no_newline. exact H.
Qed.

Lemma carriage_returns_ignored_witness :
  parse_csv (join crlf ("a,b" :: ragged_lines))
  = parse_csv (join lf ("a,b" :: ragged_lines)).
Proof.
  apply (carriage_returns_ignored "a,b" ragged_lines).
  repeat constructor.
Defined.

Lemma value_at_nth (vals : list string) (i : nat) :
  value_at vals i = JStr (nth i vals "").
Proof.
  unfold value_at. destruct (nth_error vals i) as [s|] eqn:E.
  - rewrite (nth_error_nth _ _ _ E). unfold js_or. simpl.
    destruct (String.eqb s "") eqn:Es; simpl; [|reflexivity].
    apply String.eqb_eq in Es. now subst.
  - apply nth_error_None in E. rewrite nth_overflow by exact E. reflexivity.
Qed.

Lemma fill_object_combine (vals : list string) :
  forall headers n acc,
    NoDup (keys acc ++ headers) ->
    key_order (keys acc ++ headers) = true ->
    ~ In "__proto__" headers ->
    fill_object vals headers n acc
    = (acc ++ combine headers
                (map (fun i => JStr (nth i vals "")) (seq n (List.length headers))))%list.
Proof.
  induction headers as [|h hs IH]; intros n acc Hnd Hord Hproto; simpl.
  - now rewrite app_nil_r.
  - assert (Hfresh : ~ In h (keys acc)).
    { apply NoDup_remove_2 in Hnd. intros Hin. apply Hnd. apply in_or_app. now left. }
    rewrite (obj_set_last h _ acc Hfresh).
    + rewrite IH.
      * rewrite value_at_nth, <- app_assoc. reflexivity.
      * unfold keys in *. rewrite map_app, <- app_assoc. exact Hnd.
      * unfold keys in *. rewrite map_app, <- app_assoc. exact Hord.
      * intros H. apply Hproto. now right.
    + intros ->. apply Hproto. now left.
    + now apply (key_order_middle (keys acc) h hs).
Qed.

Lemma split_join_comma (cells : list string) :
  cells <> [] -> Forall (fun c => no_char comma c = true) cells ->
  split comma (join "," cells) = cells.
Proof. intros Hne H. now apply split_join. Qed.

Lemma cells_read_back (cells : list string) :
  Forall survives cells ->
  forall i, nth i (map trim (split comma (join "," cells))) "" = nth i cells "".
Proof.
  intros H i. destruct cells as [|c cs].
  - destruct i as [|[|i]]; reflexivity.
  - rewrite (split_join_comma (c :: cs)).
    + f_equal. rewrite <- (map_id (c :: cs)) at 2. apply map_ext_in.
      intros s Hs. rewrite Forall_forall in H. now destruct (H s Hs) as (_ & _ & ?).
    + discriminate.
    + eapply Forall_impl; [|exact H]. intros s (? & _). assumption.
Qed.

Lemma headers_read_back (hs : list string) :
  hs <> [] -> Forall survives hs -> map trim (split comma (join "," hs)) = hs.
Proof.
  intros Hne H. rewrite (split_join_comma hs Hne).
  - rewrite <- (map_id hs) at 2. apply map_ext_in.
    intros s Hs. rewrite Forall_forall in H. now destruct (H s Hs) as (_ & _ & ?).
  - eapply Forall_impl; [|exact H]. intros s (? & _). assumption.
Qed.

Lemma line_no_newline (cells : list string) :
  Forall survives cells -> no_char newline (join "," cells) = true.
Proof.
  intros H. apply no_char_join; [reflexivity|].
  eapply Forall_impl; [|exact H]. intros s (_ & ? & _). assumption.
Qed.

Lemma padded_cells_length (width : nat) (cells : list string) :
  List.length (padded_cells width cells) = width.
Proof. unfold padded_cells. now rewrite length_map, length_seq. Qed.

Lemma values_combine (ks : list string) (vs : list JsVal) :
  List.length vs = List.length ks -> values (combine ks vs) = vs.
Proof.
  revert vs. induction ks as [|k ks IH]; intros [|v vs] H; try discriminate; auto.
  simpl in *. f_equal. apply IH. lia.
Qed.

Lemma some_non_empty_cells (ks cells : list string) :
  List.length cells = List.length ks ->
  some_non_empty (JObj (combine ks (map JStr cells))) = existsb non_empty cells.
Proof.
  intros H. simpl. rewrite values_combine by now rewrite length_map.
  clear H. induction cells as [|c cs IH]; simpl; auto. now rewrite IH.
Qed.

Lemma filter_map_commute {A B} (f : B -> bool) (g : A -> B) (l : list A) :
  filter f (map g l) = map g (filter (fun a => f (g a)) l).
Proof.
  induction l as [|a l IH]; simpl; auto. destruct (f (g a)); simpl; now rewrite IH.
Qed.

(** Property X16.  What the CSV reader makes of a table whose headers
    are distinct, none of them [__proto__], and stand in the order in which
    JavaScript lists the keys of an object (any order when none is an array
    index): cell [j] of a line goes to header [j], a line that is too short
    is filled up with empty strings, the cells of a line that is too long
    are dropped beyond the last header, and a line is left out when all the
    cells under the headers are empty. *)

Theorem csv_table_read (hs : list string) (table : list (list string)) :
  NoDup hs -> hs <> [] -> Forall survives hs ->
  key_order hs = true -> ~ In "__proto__" hs ->
  Forall (Forall survives) table ->
  parse_csv (join lf (join "," hs :: map (join ",") table))
  = map (fun cells => JObj (combine hs (map JStr (padded_cells (List.length hs) cells))))
      (filter (fun cells => existsb non_empty (padded_cells (List.length hs) cells))
         table).
Proof.
  intros Hnd Hne Hhs Hord Hproto Htable. unfold parse_csv.
  rewrite split_lines.
  2:{ constructor; [now apply line_no_newline|]. apply Forall_map.
      eapply Forall_impl; [|exact Htable]. intros cells. apply line_no_newline. }
  cbn [hd tl]. rewrite (headers_read_back hs Hne Hhs).
  rewrite map_map.
  rewrite (map_ext_in _
             (fun cells =>
                JObj (combine hs (map JStr (padded_cells (List.length hs) cells))))).
  - rewrite filter_map_commute. f_equal. apply filter_ext_in. intros cells _.
    apply some_non_empty_cells. apply padded_cells_length.
  - intros cells Hin. rewrite Forall_forall in Htable. specialize (Htable cells Hin).
    rewrite fill_object_combine by auto. cbn [app]. f_equal. f_equal.
    unfold padded_cells. rewrite map_map. apply map_ext. intros i.
    now rewrite cells_read_back.
Qed.

Lemma csv_table_read_witness :
  parse_csv (join lf (join "," ["a"; "b"]
                        :: map (join ",") [["1"; "true"]; []; ["2"]; ["3"; "false"; "x"]]))
  = map (fun cells => JObj (combine ["a"; "b"] (map JStr (padded_cells 2 cells))))
      (filter (fun cells => existsb non_empty (padded_cells 2 cells))
         [["1"; "true"]; []; ["2"]; ["3"; "false"; "x"]]).
Proof.
  apply (csv_table_read ["a"; "b"] [["1"; "true"]; []; ["2"]; ["3"; "false"; "x"]]).
  - repeat constructor; simpl; intuition discriminate.
  - discriminate.
  - repeat constructor.
  - reflexivity.
  - simpl. intuition discriminate.
  - repeat constructor.
Defined.

(* ================================================================== *)
(** * Uploads: values and errors *)
(* ================================================================== *)

(** Property X17.  Schema inference types a value [boolean] exactly when it
    is the string ["true"] or the string ["false"].  A boolean, a number
    and null, as a JSON file holds them, are typed [number], and so is a
    string that is empty or white space, as a missing CSV cell is;
    undefined is typed [string]. *)

Theorem inference_of_plain_values (date_parses : string -> bool) :
  (forall v, infer_type date_parses v = "boolean" <-> v = JStr "true" \/ v = JStr "false")
  /\ (forall b, infer_type date_parses (JBool b) = "number")
  /\ (forall n, infer_type date_parses (JNum n) = "number")
  /\ infer_type date_parses JNull = "number"
  /\ (forall s, all_chars is_space s = true -> infer_type date_parses (JStr s) = "number")
  /\ infer_type date_parses JUndefined = "string".
Proof.
  split; [|split; [|split; [|split; [|split]]]]; try reflexivity.
  - intros v. split.
    + unfold infer_type. destruct (negb (Number_isNaN v)); [discriminate|].
      destruct (strict_eq_str v "true") eqn:Et.
      * intros _. left. now apply strict_eq_str_true.
      * destruct (strict_eq_str v "false") eqn:Ef.
        -- intros _. right. now apply strict_eq_str_true.
        -- simpl. destruct (Date_valid date_parses v); discriminate.
    + intros [-> | ->]; reflexivity.
  - intros s Hs. unfold infer_type, Number_isNaN, string_is_numeric.
    rewrite (trim_spaces s Hs). reflexivity.
Qed.

(** Property X18.  The upload of a [.json] file: a text that is not JSON
    rejects with the SyntaxError of [JSON.parse]; an empty array resolves
    with no row, an empty schema and both counts zero; an array whose first
    element is null rejects with a TypeError, and so does one whose first
    element holds a value that [Number] cannot convert, an object with a
    property [toString]; any other array resolves with all its elements
    as rows, the schema being inferred from the first one alone, so that a
    null further down does no harm. *)
Theorem json_upload_cases (date_parses : string -> bool) (file_name content : string) :
  endsWith file_name ".json" = true ->
  (forall e,
     JSON_parse content = Some (Throw e) ->
     processUploadedData date_parses {| name := file_name; text := Some content |}
     = Some (Throw e))
  /\ (JSON_parse content = Some (Normal (JArr [])) ->
      processUploadedData date_parses {| name := file_name; text := Some content |}
      = Some (Normal empty_upload))
  /\ (forall first rest,
        JSON_parse content = Some (Normal (JArr (first :: rest))) ->
        (nullish first = true ->
         processUploadedData date_parses {| name := file_name; text := Some content |}
         = Some (Throw TypeError))
        /\ (nullish first = false -> first_row_converts [first] = false ->
            processUploadedData date_parses {| name := file_name; text := Some content |}
            = Some (Throw TypeError))
        /\ (nullish first = false -> first_row_converts [first] = true ->
            exists u,
              processUploadedData date_parses
                {| name := file_name; text := Some content |} = Some (Normal u)
              /\ Upload.data u = first :: rest
              /\ Upload.rowCount u = Z.of_nat (S (List.length rest))
              /\ infer_schema date_parses [first] = Normal (Upload.schema u))).
Proof.
  intros Hj. unfold processUploadedData, read_rows. cbn [name text]. rewrite Hj.
  split; [|split].
  - intros e ->. reflexivity.
  - intros ->. reflexivity.
  - intros first rest ->. split; [|split]; intros Hn.
    + destruct first; try discriminate; reflexivity.
    + intros Hconv. destruct (Object_keys_total first Hn) as [ks Hks].
      cbn [first_row_converts] in Hconv. rewrite Hks in Hconv.
      cbn [infer_schema]. rewrite Hks. cbn [cbind].
      now rewrite (infer_fields_rejects date_parses first Hn ks [] Hconv).
    + intros Hconv. destruct (Object_keys_total first Hn) as [ks Hks].
      cbn [first_row_converts] in Hconv. rewrite Hks in Hconv.
      destruct (infer_fields_spec date_parses first Hn ks [] Hconv)
        as (schema & Hrun & _).
      eexists. cbn [infer_schema]. rewrite Hks. cbn [cbind]. rewrite Hrun.
      split; [reflexivity|]. cbn. repeat split.
Qed.

Lemma json_upload_cases_witness :
  processUploadedData (fun _ => false)
    {| name := "rows.json"; text := Some null_first_json |} = Some (Throw TypeError)
  /\ processUploadedData (fun _ => false)
       {| name := "rows.json"; text := Some unconvertible_json |} = Some (Throw TypeError)
  /\ exists u,
       processUploadedData (fun _ => false)
         {| name := "rows.json"; text := Some null_later_json |} = Some (Normal u)
       /\ Upload.data u = [JObj [("a", JNum 1)]; JNull]
       /\ Upload.rowCount u = Z.of_nat 2
       /\ infer_schema (fun _ => false) [JObj [("a", JNum 1)]] = Normal (Upload.schema u).
Proof.
  split; [|split].
  - exact (proj1 (proj2 (proj2 (json_upload_cases (fun _ => false) "rows.json"
                                  null_first_json eq_refl))
                    JNull [JObj [("a", JNum 1)]] eq_refl) eq_refl).
  - exact (proj1 (proj2 (proj2 (proj2 (json_upload_cases (fun _ => false) "rows.json"
                                         unconvertible_json eq_refl))
                           (JObj [("a", JObj [("toString", JNum 1)])]) [] eq_refl))
             eq_refl eq_refl).
  - exact (proj2 (proj2 (proj2 (proj2 (json_upload_cases (fun _ => false) "rows.json"
                                         null_later_json eq_refl))
                           (JObj [("a", JNum 1)]) [JNull] eq_refl))
             eq_refl eq_refl).
Defined.

(* ================================================================== *)
(** * Exports: null rows, and the way back from CSV *)
(* ================================================================== *)

Lemma csv_rows_null (headers : list string) (h : string) :
  forall rows csvRows,
    Exists (fun row => nullish row = true) rows ->
    csv_rows (h :: headers) rows csvRows = Throw TypeError.
Proof.
  induction rows as [|row rows IH]; intros csvRows Hex; [inversion Hex|].
  cbn [csv_rows]. destruct (nullish row) eqn:Hn.
  - destruct row; try discriminate; reflexivity.
  - rewrite (csv_values_closed row (h :: headers) Hn). cbn [cbind].
    unfold array_join. destruct (existsb to_primitive_throws _); [reflexivity|].
    cbn [cbind]. apply IH. inversion Hex; subst; [congruence|assumption].
Qed.

(** Property X19.  A row that is null or undefined makes the CSV export
    reject with a TypeError, as soon as the first row has a key (or is
    itself such a row), also when the format is left out; the JSON export
    of the same rows resolves. *)

Theorem csv_export_rejects_null_rows (first : JsVal) (rest : list JsVal) :
  Exists (fun row => nullish row = true) (first :: rest) ->
  (nullish first = true
   \/ exists h headers, Object_keys first = Normal (h :: headers)) ->
  exportData (first :: rest) (Some "csv") = Throw TypeError
  /\ exportData (first :: rest) None = Throw TypeError
  /\ exportData (first :: rest) (Some "json") = Normal (export_json (first :: rest)).
Proof.
  intros Hex Hfirst.
  assert (H : exportData (first :: rest) (Some "csv") = Throw TypeError).
  { unfold exportData. cbn [String.eqb Ascii.eqb Bool.eqb].
    destruct Hfirst as [Hn | (h & headers & Hks)].
    - destruct first; try discriminate; reflexivity.
    - rewrite Hks. cbn [cbind]. rewrite (csv_rows_null headers h _ _ Hex). reflexivity. }
  split; [exact H|]. split; [exact H|reflexivity].
Qed.

Lemma csv_export_rejects_null_rows_witness :
  exportData [JObj [("a", JNum 1)]; JNull] (Some "csv") = Throw TypeError
  /\ exportData [JObj [("a", JNum 1)]; JNull] None = Throw TypeError
  /\ exportData [JObj [("a", JNum 1)]; JNull] (Some "json")
     = Normal (export_json [JObj [("a", JNum 1)]; JNull]).
Proof.
  apply (csv_export_rejects_null_rows (JObj [("a", JNum 1)]) [JNull]).
  - right. left. reflexivity.
  - right. exists "a", []. reflexivity.
Defined.

Lemma all_chars_append (p : ascii -> bool) (s1 s2 : string) :
  all_chars p (s1 ++ s2) = all_chars p s1 && all_chars p s2.
Proof. induction s1 as [|a s1 IH]; simpl; auto. now rewrite IH, andb_assoc. Qed.

Lemma span_digits_all (s : string) :
  all_chars is_digit s = true -> span_digits s = (String.length s, "").
Proof.
  induction s as [|a s IH]; simpl; auto. intros H.
  apply andb_true_iff in H. destruct H as [Ha Hs]. now rewrite Ha, IH.
Qed.

Lemma digits_numeric (s : string) :
  s <> "" -> all_chars is_digit s = true -> unsigned_decimal_literal s = true.
Proof.
  intros Hne Hd. unfold unsigned_decimal_literal.
  destruct (String.eqb s "Infinity"); [reflexivity|].
  rewrite (span_digits_all s Hd). destruct s; [congruence|reflexivity].
Qed.

Lemma string_of_uint_not_empty (d : Decimal.uint) : NilZero.string_of_uint d <> "".
Proof. destruct d; discriminate. Qed.

Lemma nilzero_digits (d : Decimal.uint) :
  all_chars is_digit (NilZero.string_of_uint d) = true.
Proof.
  unfold NilZero.string_of_uint. destruct d; try reflexivity;
    apply (string_of_uint_digits (_ d)) || (simpl; apply string_of_uint_digits).
Qed.

Lemma number_text_numeric (n : Z) : string_is_numeric (number_to_string n) = true.
Proof.
  unfold string_is_numeric.
  destruct (number_to_string_numeral n) as [Hnum Hne].
  rewrite trim_no_space.
  2:{ eapply all_chars_impl; [|exact Hnum]. intros c Hc.
      now destruct (numeral_char_cases c Hc). }
  assert (Hlit : unsigned_decimal_literal (drop_sign (number_to_string n)) = true).
  { unfold number_to_string, NilZero.string_of_int.
    destruct (Z.to_int n) as [d|d].
    - pose proof (nilzero_digits d) as Hd. pose proof (string_of_uint_not_empty d) as Hn.
      destruct (NilZero.string_of_uint d) as [|a s] eqn:E; [congruence|].
      assert (Hs : drop_sign (String a s) = String a s).
      { unfold drop_sign. simpl in Hd. apply andb_true_iff in Hd. destruct Hd as [Ha _].
        assert (one_of a "+" "-" = false).
        { unfold one_of. destruct (Ascii.eqb a "+") eqn:E1.
          - apply Ascii.eqb_eq in E1. subst a. discriminate.
          - destruct (Ascii.eqb a "-") eqn:E2; [|reflexivity].
            apply Ascii.eqb_eq in E2. subst a. discriminate. }
        now rewrite H. }
      rewrite Hs. apply digits_numeric; [discriminate|exact Hd].
    - cbn [drop_sign one_of Ascii.eqb Bool.eqb orb].
      apply digits_numeric; [apply string_of_uint_not_empty|apply nilzero_digits]. }
  rewrite Hlit. now rewrite !orb_true_r.
Qed.

Lemma quoted_not_numeric (s : string) : string_is_numeric (quoted s) = false.
Proof.
  unfold string_is_numeric, quoted. rewrite trim_quoted. reflexivity.
Qed.

Lemma table_rows_reread (ks : list string) (rows : list JsVal) :
  table_rows ks (map (cells_of ks) rows) = map (reread ks) rows.
Proof.
  unfold table_rows. rewrite map_map. apply map_ext. intros row.
  unfold reread, cells_of. f_equal. rewrite map_map.
  induction ks as [|k ks IH]; simpl; auto. now rewrite IH.
Qed.

Lemma reread_schema (date_parses : string -> bool) (ks : list string)
    (first : JsVal) (rest : list JsVal) (schema : Props) :
  ~ In "__proto__" ks ->
  infer_schema date_parses (map (reread ks) (first :: rest)) = Normal schema ->
  forall k, In k ks ->
    lookup k schema
    = Some (type_of (infer_type date_parses (JStr (cell_text (get_opt first k))))).
Proof.
  intros Hproto Hs k Hk. cbn [map infer_schema] in Hs.
  assert (Hkeys : Object_keys (reread ks first) = Normal ks).
  { unfold reread. simpl. f_equal. unfold keys. rewrite map_map. apply map_id. }
  rewrite Hkeys in Hs. cbn [cbind] in Hs.
  assert (Hconv : forallb (sample_converts (reread ks first)) ks = true).
  { unfold reread. apply props_convert. unfold values. rewrite map_map.
    rewrite Forall_map. rewrite Forall_forall. intros; reflexivity. }
  destruct (infer_fields_spec date_parses (reread ks first) eq_refl ks [] Hconv)
    as (schema' & Hrun & _ & Hty & _).
  rewrite Hrun in Hs. inversion Hs; subst schema'.
  apply Hty; auto.
  { intros ->. contradiction. }
  unfold reread, get. f_equal.
  assert (H : lookup k (map (fun k0 => (k0, JStr (cell_text (get_opt first k0)))) ks)
              = Some (JStr (cell_text (get_opt first k)))).
  { clear -Hk. induction ks as [|k' ks IH]; [inversion Hk|]. simpl.
    destruct (String.eqb k k') eqn:E.
    - apply String.eqb_eq in E. now subst.
    - destruct Hk as [->|Hk]; [now rewrite String.eqb_refl in E|auto]. }
  now rewrite H.
Qed.

Lemma csv_leg_values (date_parses : string -> bool) (ks : list string)
    (first : JsVal) (rest : list JsVal) :
  csv_exportable ks (first :: rest) ->
  exists text u,
    exportData (first :: rest) (Some "csv") = Normal text
    /\ upload date_parses "csv" text = Some (Normal u)
    /\ Upload.data u = map (reread ks) (first :: rest)
    /\ Upload.rowCount u = Z.of_nat (S (List.length rest))
    /\ (forall k, In k (keys (Upload.schema u)) <-> In k ks)
    /\ forall k, In k ks ->
         lookup k (Upload.schema u)
         = Some (type_of (infer_type date_parses (JStr (cell_text (get_opt first k))))).
Proof.
  intros Hex.
  destruct (csv_leg date_parses ks (first :: rest) Hex)
    as (u & Hexp & Hup & Hdata & Hcount & Hkeys).
  exists (csv_text ks (first :: rest)), u.
  rewrite table_rows_reread in Hdata.
  split; [exact Hexp|]. split; [exact Hup|]. split; [exact Hdata|].
  split; [exact Hcount|]. split; [exact Hkeys|].
  apply (reread_schema date_parses ks first rest).
  { now destruct Hex as (_ & _ & _ & _ & Hproto & _). }
  rewrite <- Hdata.
  unfold upload in Hup.
  now destruct (processUploadedData_schema _ _ _ Hup) as (Hs & _).
Qed.

(** Property X20.  Rows that can go through the CSV writer and reader
    come back changed from an export as CSV and an upload: every value is
    the text of its cell, so a number is a string of digits, a boolean the
    string ["true"] or ["false"], a string has gained a pair of double
    quotes, and a null or missing value is the empty string.  The types
    inferred from the first row keep a number a [number] and a boolean a
    [boolean]; a string is typed [date] or [string], as [Date.parse] takes
    the quoted text. *)

Theorem csv_round_trip_types (date_parses : string -> bool) (ks : list string)
    (first : JsVal) (rest : list JsVal) :
  csv_exportable ks (first :: rest) ->
  exists text u,
    exportData (first :: rest) (Some "csv") = Normal text
    /\ upload date_parses "csv" text = Some (Normal u)
    /\ Upload.data u = map (reread ks) (first :: rest)
    /\ forall k, In k ks ->
         (forall n, get_opt first k = JNum n ->
            lookup k (Upload.schema u) = Some (type_of "number"))
         /\ (forall b, get_opt first k = JBool b ->
               lookup k (Upload.schema u) = Some (type_of "boolean"))
         /\ (forall s, get_opt first k = JStr s ->
               lookup k (Upload.schema u)
               = Some (type_of (if date_parses (quoted s) then "date" else "string"))).
Proof.
  intros Hex.
  destruct (csv_leg_values date_parses ks first rest Hex)
    as (text & u & Hexp & Hup & Hdata & _ & _ & Hty).
  exists text, u. split; [exact Hexp|]. split; [exact Hup|]. split; [exact Hdata|].
  intros k Hk. rewrite (Hty k Hk). split; [|split].
  - intros n ->. cbn [cell_text to_string]. unfold infer_type, Number_isNaN.
    now rewrite number_text_numeric.
  - intros b ->. destruct b; reflexivity.
  - intros s ->. cbn [cell_text]. fold (quoted s).
    unfold infer_type, Number_isNaN. rewrite quoted_not_numeric.
    cbn [negb]. unfold quoted at 1 2. cbn [strict_eq_str String.eqb Ascii.eqb Bool.eqb dquote orb].
    unfold Date_valid. fold (quoted s). reflexivity.
Qed.

Lemma csv_round_trip_types_witness :
  exists text u,
    exportData (staff_first :: staff_rest) (Some "csv") = Normal text
    /\ upload (fun _ => false) "csv" text = Some (Normal u)
    /\ Upload.data u = map (reread staff_keys) (staff_first :: staff_rest)
    /\ forall k, In k staff_keys ->
         (forall n, get_opt staff_first k = JNum n ->
            lookup k (Upload.schema u) = Some (type_of "number"))
         /\ (forall b, get_opt staff_first k = JBool b ->
               lookup k (Upload.schema u) = Some (type_of "boolean"))
         /\ (forall s, get_opt staff_first k = JStr s ->
               lookup k (Upload.schema u)
               = Some (type_of (if (fun _ : string => false) (quoted s)
                                then "date" else "string"))).
Proof.
  apply (csv_round_trip_types (fun _ => false) staff_keys staff_first staff_rest).
  unfold csv_exportable, staff_keys, staff_first, staff_rest.
  split; [|split; [|split; [|split; [|split; [|split]]]]].
  - repeat constructor; simpl; intuition discriminate.
  - discriminate.
  - repeat constructor.
  - reflexivity.
  - simpl. intuition discriminate.
  - eexists _, _. split; reflexivity.
  - repeat constructor; try (eexists; split; [reflexivity|repeat constructor]).
Defined.

Lemma digits_fixed_iso (w : nat) : forall n, all_chars iso_char (digits_fixed w n) = true.
Proof.
  induction w as [|w IH]; intros n; [reflexivity|].
  cbn [digits_fixed]. rewrite all_chars_append, IH. cbn [all_chars andb].
  assert (H : 0 <= n mod 10 < 10) by (apply Z.mod_pos_bound; lia).
  destruct (digit_char_ok _ H) as [Hd _]. unfold iso_char. now rewrite Hd.
Qed.

Lemma iso_string_chars (t : Z) : all_chars iso_char (iso_string t) = true.
Proof.
  unfold iso_string. destruct (civil_from_days (t / ms_per_day)) as [[y m] d].
  assert (Hy : all_chars iso_char (year_string y) = true).
  { unfold year_string. destruct ((0 <=? y) && (y <=? 9999)).
    - apply digits_fixed_iso.
    - rewrite all_chars_append, digits_fixed_iso. now destruct (y <? 0). }
  repeat (rewrite all_chars_append; rewrite ?digits_fixed_iso, ?Hy; cbn [andb]).
  reflexivity.
Qed.

Lemma iso_char_plain (c : ascii) :
  iso_char c = true ->
  negb (Ascii.eqb c comma) = true /\ negb (Ascii.eqb c newline) = true.
Proof.
  intros H. split; apply negb_true_iff.
  - destruct (Ascii.eqb c comma) eqn:E; [|reflexivity].
    apply Ascii.eqb_eq in E. subst c. discriminate.
  - destruct (Ascii.eqb c newline) eqn:E; [|reflexivity].
    apply Ascii.eqb_eq in E. subst c. discriminate.
Qed.

Lemma plain_text (p : ascii -> bool) (s : string) :
  (forall c, p c = true ->
     negb (Ascii.eqb c comma) = true /\ negb (Ascii.eqb c newline) = true) ->
  all_chars p s = true -> plain_value (JStr s) = true.
Proof.
  intros Hp Hs. unfold plain_value, no_char. apply andb_true_iff. split.
  - eapply all_chars_impl; [|exact Hs]. intros c Hc. now destruct (Hp c Hc).
  - eapply all_chars_impl; [|exact Hs]. intros c Hc. now destruct (Hp c Hc).
Qed.

Lemma plain_value_append (s1 s2 : string) :
  plain_value (JStr s1) = true -> plain_value (JStr s2) = true ->
  plain_value (JStr (s1 ++ s2)) = true.
Proof.
  unfold plain_value. rewrite !no_char_append. intros H1 H2.
  apply andb_true_iff in H1. apply andb_true_iff in H2.
  destruct H1 as [-> ->], H2 as [-> ->]. reflexivity.
Qed.

Lemma number_text_plain (n : Z) : plain_value (JStr (number_to_string n)) = true.
Proof.
  destruct (number_to_string_numeral n) as [H _].
  apply (plain_text numeral_char); auto.
  intros c Hc. destruct (numeral_char_cases c Hc) as (_ & ? & ?). auto.
Qed.

Lemma cell_ok_plain (w : World) (a b : nat) (i : Z) (key : string)
    (fieldType v : JsVal) :
  survives key -> cell_ok w a b i key fieldType v -> plain_value v = true.
Proof.
  intros (Hc & Hn & _) (Hs & Hnum & Hb & Hd & Hu).
  assert (Hkey : plain_value (JStr key) = true)
    by (unfold plain_value; now rewrite Hc, Hn).
  destruct (strict_eq_str fieldType "string") eqn:E1.
  { apply strict_eq_str_true in E1. rewrite (Hs E1).
    repeat apply plain_value_append; auto using number_text_plain. }
  destruct (strict_eq_str fieldType "number") eqn:E2.
  { apply strict_eq_str_true in E2. destruct (Hnum E2) as (z & -> & Hz).
    unfold plain_value, max_safe_integer. apply Z.leb_le. lia. }
  destruct (strict_eq_str fieldType "boolean") eqn:E3.
  { apply strict_eq_str_true in E3. destruct (Hb E3) as (x & ->). reflexivity. }
  destruct (strict_eq_str fieldType "date") eqn:E4.
  { apply strict_eq_str_true in E4. destruct (Hd E4) as (t & k & _ & -> & _).
    apply (plain_text iso_char); [apply iso_char_plain|apply iso_string_chars]. }
  apply strict_eq_str_false in E1, E2, E3, E4.
  rewrite Hu by (repeat split; assumption).
  apply plain_value_append; auto using number_text_plain.
Qed.

(** The rows of the row synthesizer can go through CSV when the keys of
    the schema can. *)
Lemma generated_rows_exportable (w : World) (fields : Props) (a b : nat)
    (p0 : Props) (rest : list JsVal) :
  (exists k, In k (keys fields) /\ k <> "__proto__") ->
  Forall survives (keys fields) ->
  (forall j row, nth_error (JObj p0 :: rest) j = Some row ->
     exists props, row = JObj props
       /\ row_ok (cell_ok w a b (Z.of_nat j)) fields props) ->
  csv_exportable (keys p0) (JObj p0 :: rest) /\ stored_keys p0 fields.
Proof.
  intros (k0 & Hk0in & Hk0) Hsurv Hrows.
  destruct (Hrows 0%nat (JObj p0) eq_refl) as (p & Hp & Hin & Hnd0 & Hord0 & _).
  inversion Hp; subst p. clear Hp.
  split; [|exact Hin].
  assert (Hplain : forall j row props k,
            nth_error (JObj p0 :: rest) j = Some row -> row = JObj props ->
            In k (keys fields) -> k <> "__proto__" ->
            plain_value (get_opt row k) = true).
  { intros j row props k Hj -> Hk Hkp.
    destruct (Hrows j _ Hj) as (props' & Hp' & _ & _ & _ & Hc).
    inversion Hp'; subst props'. clear Hp'.
    destruct (proj1 (lookup_in_keys k fields) Hk) as [d Hd].
    destruct (Hc k d Hd Hkp) as (ft & v & _ & Hv & Hcell).
    unfold get_opt, get. rewrite Hv. simpl.
    apply (cell_ok_plain w a b (Z.of_nat j) k ft v); auto.
    rewrite Forall_forall in Hsurv. now apply Hsurv. }
  split; [exact Hnd0|]. split; [|split; [|split; [|split; [|split]]]].
  - intros H0. assert (H : In k0 (keys p0)) by (apply Hin; auto).
    rewrite H0 in H. inversion H.
  - rewrite Forall_forall in *. intros k Hk. apply Hsurv. now apply Hin.
  - exact Hord0.
  - intros H. apply Hin in H. now destruct H.
  - exists (JObj p0), rest. split; reflexivity.
  - rewrite Forall_forall. intros row Hrow.
    apply In_nth_error in Hrow. destruct Hrow as [j Hj].
    destruct (Hrows j row Hj) as (props & Hrow & Hk & _).
    split; [|split].
    + exists props. split; [exact Hrow|]. rewrite Forall_forall. intros k Hkin.
      unfold own_read. apply orb_true_iff. left. apply has_key_in.
      apply Hk. now apply Hin.
    + rewrite Forall_forall. intros k Hkin. apply Hin in Hkin.
      destruct Hkin as [Hkin Hkp]. unfold csv_value.
      now rewrite (Hplain j row props k Hj Hrow Hkin Hkp).
    + apply Exists_exists. exists k0. split; [apply Hin; auto|].
      pose proof (Hplain j row props k0 Hj Hrow Hk0in Hk0) as Hv.
      destruct (get_opt row k0); auto; discriminate.
Qed.

(** Property X21.  Generate, export as CSV, upload: the rows that
    [generateFallbackData] makes from a schema whose keys hold no comma,
    no line feed and no white space at either end, and one of which at
    least is not [__proto__], all come back.  The upload has as many rows as
    were asked for and a schema with the keys of the original one that a
    row stores, that is all but [__proto__]; in it a field declared
    [number] is typed [number] and a field declared [boolean] is typed
    [boolean]. *)

Theorem generated_rows_survive_csv (w : World) (date_parses : string -> bool)
    (options : DatasetGenerationOptions) (fields : Props) (tick : nat) :
  world_ok w ->
  schema options = JObj fields ->
  descriptors_defined fields ->
  (exists k, In k (keys fields) /\ k <> "__proto__") ->
  Forall survives (keys fields) ->
  0 < requested_rows options ->
  exists g tick' rows text u,
    generateFallbackData w options tick = Normal (g, tick')
    /\ data g = JArr rows
    /\ exportData rows (Some "csv") = Normal text
    /\ upload date_parses "csv" text = Some (Normal u)
    /\ Upload.rowCount u = requested_rows options
    /\ (forall k, In k (keys (Upload.schema u))
                  <-> In k (keys fields) /\ k <> "__proto__")
    /\ forall key d,
         lookup key fields = Some d -> key <> "__proto__" ->
         (get d "type" = Normal (JStr "number") ->
            lookup key (Upload.schema u) = Some (type_of "number"))
         /\ (get d "type" = Normal (JStr "boolean") ->
               lookup key (Upload.schema u) = Some (type_of "boolean")).
Proof.
  intros Hw Hs Hdef Hne Hsurv Hpos.
  destruct (generateFallbackData_spec w options fields tick Hw Hs Hdef)
    as (rows & tick' & Hgen & Hlen & Hrows).
  fold (requested_rows options) in Hlen.
  destruct rows as [|first rest]; [simpl in Hlen; lia|].
  destruct (Hrows 0%nat first eq_refl) as (p0 & -> & _ & _ & _ & Hc0).
  destruct (generated_rows_exportable w fields tick tick' p0 rest Hne Hsurv Hrows)
    as [Hex Hin].
  destruct (csv_leg_values date_parses (keys p0) (JObj p0) rest Hex)
    as (text & u & Hexp & Hup & _ & Hcount & Hkeys & Hty).
  eexists _, tick', (JObj p0 :: rest), text, u.
  split; [exact Hgen|]. split; [reflexivity|]. split; [exact Hexp|].
  split; [exact Hup|]. split; [rewrite Hcount; simpl in Hlen; lia|].
  split; [intros k; rewrite Hkeys; apply Hin|].
  intros key d Hd Hkp.
  assert (Hkey : In key (keys p0)).
  { apply Hin. split; auto. apply lookup_in_keys; eauto. }
  destruct (Hc0 key d Hd Hkp) as (ft & v & Hft & Hv & Hcell).
  rewrite (Hty key Hkey).
  change (get_opt (JObj p0) key) with (or_undefined (lookup key p0)).
  rewrite Hv. cbn [or_undefined].
  destruct Hcell as (_ & Hnum & Hb & _).
  split; intros Ht; rewrite Ht in Hft; inversion Hft; subst ft.
  - destruct (Hnum eq_refl) as (z & -> & _). cbn [cell_text to_string].
    unfold infer_type, Number_isNaN. now rewrite number_text_numeric.
  - destruct (Hb eq_refl) as (x & ->). destruct x; reflexivity.
Qed.

Lemma generated_rows_survive_csv_witness :
  exists g tick' rows text u,
    generateFallbackData demo_world (request (JObj demo_fields) (Some 3)) 0%nat
    = Normal (g, tick')
    /\ data g = JArr rows
    /\ exportData rows (Some "csv") = Normal text
    /\ upload (fun _ => false) "csv" text = Some (Normal u)
    /\ Upload.rowCount u = requested_rows (request (JObj demo_fields) (Some 3))
    /\ (forall k, In k (keys (Upload.schema u))
                  <-> In k (keys demo_fields) /\ k <> "__proto__")
    /\ forall key d,
         lookup key demo_fields = Some d -> key <> "__proto__" ->
         (get d "type" = Normal (JStr "number") ->
            lookup key (Upload.schema u) = Some (type_of "number"))
         /\ (get d "type" = Normal (JStr "boolean") ->
               lookup key (Upload.schema u) = Some (type_of "boolean")).
Proof.
  apply (generated_rows_survive_csv demo_world (fun _ => false)
           (request (JObj demo_fields) (Some 3)) demo_fields 0%nat).
  - demo_world_ok.
  - reflexivity.
  - reflexivity.
  - exists "id". split; [simpl; auto|discriminate].
  - repeat constructor.
  - unfold requested_rows; simpl; lia.
Defined.

(* ================================================================== *)
(** * The log of the page *)
(* ================================================================== *)

Lemma slice_last_step {A} (l : list A) (x : A) :
  (slice_last 9 (slice_last 10 l) ++ [x] = slice_last 10 (l ++ [x]))%list.
Proof.
  unfold slice_last. rewrite skipn_skipn, length_skipn, length_app. cbn [List.length].
  rewrite skipn_app.
  replace (List.length l + 1 - 10 - List.length l)%nat with 0%nat by lia.
  cbn [skipn]. f_equal. f_equal. lia.
Qed.

Lemma log_from (entries : list (string * string)) :
  forall done,
    fold_left (fun prev e => addRealtimeLog (fst e) (snd e) prev) entries
      (slice_last 10 (map log_entry done))
    = slice_last 10 (map log_entry (done ++ entries)).
Proof.
  induction entries as [|e entries IH]; intros done; cbn [fold_left].
  - now rewrite app_nil_r.
  - unfold addRealtimeLog at 2. cbv zeta. fold (log_entry e).
    rewrite slice_last_step. rewrite <- (map_last log_entry).
    rewrite IH. now rewrite <- app_assoc.
Qed.

(** Property X22.  The log that [addRealtimeLog] keeps never holds more
    than ten entries: after any number of calls it holds the last ten of
    all the entries made, in the order they were made, each in the form
    [[time] message]. *)

Theorem realtime_log_bounded (entries : list (string * string)) :
  log_after entries = slice_last 10 (map log_entry entries)
  /\ List.length (log_after entries) = Nat.min (List.length entries) 10.
Proof.
  assert (H : log_after entries = slice_last 10 (map log_entry entries))
    by exact (log_from entries []).
  split; [exact H|]. rewrite H. unfold slice_last.
  rewrite length_skipn, length_map. lia.
Qed.

(* ================================================================== *)
(** * JSON texts parse back to the values they were written from *)
(* ================================================================== *)

Lemma digits_value_acc (d : Decimal.uint) :
  forall acc : positive,
    digits_value (Z.pos acc) (NilEmpty.string_of_uint d)
    = Some (Z.pos (Pos.of_uint_acc d acc)).
Proof.
  induction d; intros acc; cbn [NilEmpty.string_of_uint digits_value Pos.of_uint_acc];
    try reflexivity;
    match goal with
    | |- (if is_digit ?c then _ else _) = _ =>
        change (is_digit c) with true; cbv iota
    end;
    match goal with
    | |- digits_value (_ + digit_value ?c) _ = Some (Z.pos (Pos.of_uint_acc _ ?b)) =>
        let v := eval vm_compute in (digit_value c) in
        change (digit_value c) with v;
        replace (10 * Z.pos acc + v) with (Z.pos b) by lia
    end; apply IHd.
Qed.

Lemma digits_value_uint (d : Decimal.uint) :
  digits_value 0 (NilEmpty.string_of_uint d) = Some (Z.of_N (Pos.of_uint d)).
Proof.
  induction d; cbn [NilEmpty.string_of_uint digits_value Pos.of_uint];
    try reflexivity;
    match goal with
    | |- (if is_digit ?c then _ else _) = _ =>
        change (is_digit c) with true; cbv iota
    end;
    [ exact IHd | .. ];
    match goal with
    | |- digits_value ?a _ = Some (Z.of_N (N.pos (Pos.of_uint_acc _ ?b))) =>
        change a with (Z.pos b)
    end; apply digits_value_acc.
Qed.

Lemma digits_value_positive (p : positive) :
  digits_value 0 (NilEmpty.string_of_uint (Pos.to_uint p)) = Some (Z.pos p).
Proof.
  rewrite digits_value_uint.
  now rewrite DecimalPos.Unsigned.of_to.
Qed.

Lemma nzhead_not_zero (d u : Decimal.uint) : Decimal.nzhead d <> Decimal.D0 u.
Proof. induction d; simpl; auto; discriminate. Qed.

Lemma to_uint_head (p : positive) :
  forall u, Pos.to_uint p <> Decimal.D0 u.
Proof.
  intros u Hd.
  pose proof (DecimalPos.Unsigned.to_of (Pos.to_uint p)) as H.
  rewrite DecimalPos.Unsigned.of_to in H.
  change (N.to_uint (N.pos p)) with (Pos.to_uint p) in H.
  rewrite Hd in H. unfold Decimal.unorm in H. cbn [Decimal.nzhead] in H.
  destruct (Decimal.nzhead u) eqn:E; try discriminate.
  - inversion H; subst u.
    now apply (DecimalPos.Unsigned.to_uint_nonzero p).
  - now apply nzhead_not_zero in E.
Qed.

Lemma positive_text_head (p : positive) :
  exists c s,
    NilEmpty.string_of_uint (Pos.to_uint p) = String c s
    /\ is_digit c = true /\ c <> "0"%char.
Proof.
  pose proof (to_uint_head p) as H0.
  pose proof (DecimalPos.Unsigned.to_uint_nonnil p) as Hn.
  destruct (Pos.to_uint p) as [|u|u|u|u|u|u|u|u|u|u]; [congruence|now elim (H0 u)|..];
    eexists _, _; (split; [reflexivity|]); split; (reflexivity || discriminate).
Qed.

Lemma span_digits_text (ds tail : string) :
  all_chars is_digit ds = true ->
  match tail with String c _ => is_digit c = false | EmptyString => True end ->
  span_digits (ds ++ tail) = (String.length ds, tail).
Proof.
  intros Hd Ht. induction ds as [|a ds IH]; simpl.
  - destruct tail as [|c t]; [reflexivity|]. simpl. now rewrite Ht.
  - simpl in Hd. apply andb_true_iff in Hd. destruct Hd as [Ha Hd].
    rewrite Ha, (IH Hd). reflexivity.
Qed.

Lemma delimited_not_digit (tail : string) :
  delimited tail = true ->
  match tail with String c _ => is_digit c = false | EmptyString => True end.
Proof.
  destruct tail as [|c t]; simpl; auto. intros H. apply orb_true_iff in H.
  destruct H as [H|H]; apply Ascii.eqb_eq in H; subst c; reflexivity.
Qed.

Lemma parse_digits_positive (p : positive) (tail : string) :
  delimited tail = true ->
  parse_digits (NilEmpty.string_of_uint (Pos.to_uint p) ++ tail) = Parsed (Z.pos p) tail.
Proof.
  intros Ht.
  destruct (positive_text_head p) as (c & s & Hs & Hc & Hz).
  assert (Hgen : parse_digits (NilEmpty.string_of_uint (Pos.to_uint p) ++ tail)
                 = let (n, rest) :=
                     span_digits (NilEmpty.string_of_uint (Pos.to_uint p) ++ tail) in
                   match take n (NilEmpty.string_of_uint (Pos.to_uint p) ++ tail) with
                   | Some (ds, _) =>
                       match digits_value 0 ds with
                       | Some v => if (n =? 0)%nat then Malformed else Parsed v rest
                       | None => Malformed
                       end
                   | None => Malformed
                   end).
  { rewrite Hs. cbn [append]. unfold parse_digits.
    destruct c as [[] [] [] [] [] [] [] []]; try reflexivity; congruence. }
  rewrite Hgen.
  rewrite (span_digits_text _ tail (string_of_uint_digits _) (delimited_not_digit _ Ht)).
  rewrite take_append, digits_value_positive.
  rewrite Hs. reflexivity.
Qed.

Lemma delimited_number_end (tail : string) (bound v : Z) :
  delimited tail = true ->
  match tail with
  | String c _ =>
      if Ascii.eqb c "." || one_of c "e" "E" then Unsupported
      else if bound <=? max_safe_integer then Parsed v tail else Unsupported
  | EmptyString => if bound <=? max_safe_integer then Parsed v tail else Unsupported
  end
  = if bound <=? max_safe_integer then Parsed v tail else @Unsupported Z.
Proof.
  destruct tail as [|c t]; simpl; auto. intros H. apply orb_true_iff in H.
  destruct H as [H|H]; apply Ascii.eqb_eq in H; subst c; reflexivity.
Qed.

Lemma parse_number_text (n : Z) (tail : string) :
  Z.abs n <= max_safe_integer ->
  delimited tail = true ->
  parse_number (number_to_string n ++ tail) = Parsed n tail.
Proof.
  intros Hn Ht. unfold number_to_string, NilZero.string_of_int.
  destruct n as [|p|p]; cbn [Z.to_int].
  - destruct tail as [|c t]; [reflexivity|]. simpl in Ht. apply orb_true_iff in Ht.
    destruct Ht as [H|H]; apply Ascii.eqb_eq in H; subst c; reflexivity.
  - assert (Hs : NilZero.string_of_uint (Pos.to_uint p)
                 = NilEmpty.string_of_uint (Pos.to_uint p)).
    { pose proof (DecimalPos.Unsigned.to_uint_nonnil p).
      destruct (Pos.to_uint p); [congruence|reflexivity..]. }
    rewrite Hs. unfold parse_number.
    destruct (positive_text_head p) as (c & s & Hcs & Hc & Hz).
    assert (Hsign : (match NilEmpty.string_of_uint (Pos.to_uint p) ++ tail with
                     | String "-"%char r => (true, r)
                     | _ => (false, NilEmpty.string_of_uint (Pos.to_uint p) ++ tail)
                     end)
                    = (false, NilEmpty.string_of_uint (Pos.to_uint p) ++ tail)).
    { rewrite Hcs. cbn [append].
      destruct c as [[] [] [] [] [] [] [] []]; try reflexivity; discriminate. }
    rewrite Hsign. rewrite (parse_digits_positive p tail Ht).
    rewrite (delimited_number_end tail (Z.pos p) (Z.pos p) Ht).
    replace (Z.pos p <=? max_safe_integer) with true; [reflexivity|].
    symmetry. apply Z.leb_le. lia.
  - assert (Hs : NilZero.string_of_uint (Pos.to_uint p)
                 = NilEmpty.string_of_uint (Pos.to_uint p)).
    { pose proof (DecimalPos.Unsigned.to_uint_nonnil p).
      destruct (Pos.to_uint p); [congruence|reflexivity..]. }
    rewrite Hs. unfold parse_number. cbn [append].
    rewrite (parse_digits_positive p tail Ht).
    rewrite (delimited_number_end tail (Z.pos p) (- Z.pos p) Ht).
    replace (Z.pos p <=? max_safe_integer) with true; [reflexivity|].
    symmetry. apply Z.leb_le. lia.
Qed.

Lemma JsVal_induction (P : JsVal -> Prop) :
  P JUndefined -> P JNull -> (forall b, P (JBool b)) -> (forall n, P (JNum n)) ->
  (forall s, P (JStr s)) ->
  (forall items, Forall P items -> P (JArr items)) ->
  (forall props, Forall (fun p => P (snd p)) props -> P (JObj props)) ->
  forall v, P v.
Proof.
  intros Hu Hn Hb Hz Hs Ha Ho.
  refine (fix IH (v : JsVal) : P v :=
            match v with
            | JUndefined => Hu
            | JNull => Hn
            | JBool b => Hb b
            | JNum n => Hz n
            | JStr s => Hs s
            | JArr items =>
                Ha items ((fix all (l : list JsVal) : Forall P l :=
                             match l with
                             | [] => Forall_nil _
                             | x :: r => Forall_cons x (IH x) (all r)
                             end) items)
            | JObj props =>
                Ho props ((fix all (l : list (string * JsVal))
                             : Forall (fun p => P (snd p)) l :=
                             match l with
                             | [] => Forall_nil _
                             | (k, x) :: r => Forall_cons (k, x) (IH x) (all r)
                             end) props)
            end).
Qed.

Lemma weight_array (items : list JsVal) : weight (JArr items) = S (items_weight items).
Proof. reflexivity. Qed.

Lemma weight_object (props : Props) : weight (JObj props) = S (props_weight props).
Proof.
  cbn [weight]. f_equal. unfold props_weight.
  induction props as [|[k x] props IH]; [reflexivity|]. cbn [fold_right snd]. now rewrite IH.
Qed.

Lemma json_safe_object (props : Props) :
  json_safe (JObj props) = true ->
  distinct (keys props) = true /\ key_order (keys props) = true
  /\ forallb (fun p => json_safe (snd p)) props = true.
Proof.
  cbn [json_safe]. intros H. apply andb_true_iff in H. destruct H as [Hd Ha].
  apply andb_true_iff in Hd. destruct Hd as [Hd Ho].
  split; [exact Hd|]. split; [exact Ho|]. clear Hd Ho.
  induction props as [|[k x] props IH]; [reflexivity|]. cbn [forallb snd].
  apply andb_true_iff in Ha. destruct Ha as [Hx Ha]. now rewrite Hx, IH.
Qed.

Lemma distinct_NoDup (l : list string) : distinct l = true -> NoDup l.
Proof.
  induction l as [|k r IH]; intros H; [constructor|].
  cbn [distinct] in H. apply andb_true_iff in H. destruct H as [Hk Hr].
  constructor; [|auto]. intros Hin. apply negb_true_iff in Hk.
  assert (existsb (String.eqb k) r = true).
  { apply existsb_exists. exists k. split; [exact Hin|apply String.eqb_refl]. }
  congruence.
Qed.

Lemma serialize_object (indent : string) (props : Props) :
  forallb (fun p => json_safe (snd p)) props = true ->
  serialize indent (JObj props)
  = wrap "{" "}" indent (map (member (indent ++ "  ")) props).
Proof.
  intros H. cbn [serialize]. f_equal.
  induction props as [|[k x] props IH]; [reflexivity|].
  cbn [forallb snd] in H. apply andb_true_iff in H. destruct H as [Hx H].
  cbn [map]. rewrite <- (IH H). unfold member. cbn [fst snd].
  destruct x; try reflexivity. discriminate.
Qed.

Lemma skip_ws_spaces (indent s : string) :
  spaces indent = true -> skip_ws (indent ++ s) = skip_ws s.
Proof.
  induction indent as [|c indent IH]; [reflexivity|]. cbn [spaces all_chars].
  intros H. apply andb_true_iff in H. destruct H as [Hc H].
  apply Ascii.eqb_eq in Hc. subst c. cbn. now apply IH.
Qed.

Lemma spaces_inner (indent : string) : spaces indent = true -> spaces (indent ++ "  ") = true.
Proof. intros H. unfold spaces in *. now rewrite all_chars_append, H. Qed.

Lemma wrap_head (opening closing indent : string) (members : list string) (c : ascii)
    (s : string) :
  opening = String c s ->
  exists s', wrap opening closing indent members = String c s'.
Proof. intros ->. unfold wrap. destruct members; eexists; reflexivity. Qed.

Lemma serialize_head (indent : string) (v : JsVal) :
  json_safe v = true ->
  exists c s, serialize indent v = String c s /\ opens_value c = true.
Proof.
  destruct v as [| |[|]|n|s|items|props]; cbn [json_safe serialize]; intros H;
    try discriminate; try (eexists _, _; split; reflexivity).
  - destruct (number_to_string_numeral n) as [Hnum Hne].
    destruct (number_to_string n) as [|c s]; [congruence|].
    exists c, s. split; [reflexivity|]. cbn [all_chars] in Hnum.
    apply andb_true_iff in Hnum. destruct Hnum as [Hc _].
    destruct c as [[] [] [] [] [] [] [] []]; try discriminate; reflexivity.
  - destruct (wrap_head "[" "]" indent (map (serialize (indent ++ "  ")) items) "[" ""
                eq_refl) as [s' Hs].
    exists "["%char, s'. split; [exact Hs|reflexivity].
  - match goal with
    | |- exists c s, wrap "{" "}" indent ?m = _ /\ _ =>
        destruct (wrap_head "{" "}" indent m "{" "" eq_refl) as [s' Hs]
    end.
    exists "{"%char, s'. split; [exact Hs|reflexivity].
Qed.

Lemma skip_ws_head (c : ascii) (s : string) :
  opens_value c = true -> skip_ws (String c s) = String c s.
Proof.
  unfold opens_value. intros H. apply andb_true_iff in H. destruct H as [H _].
  apply andb_true_iff in H. destruct H as [H _]. apply negb_true_iff in H.
  cbn [skip_ws]. now rewrite H.
Qed.

Lemma parse_value_open_array (f : nat) (rest : string) (c : ascii) (s : string) :
  skip_ws rest = String c s -> opens_value c = true ->
  parse_value (S f) (String "[" rest) = parse_elements f rest [].
Proof.
  intros Hskip Hc. rewrite parse_value_step.
  change (skip_ws (String "[" rest)) with (String "["%char rest). cbv iota beta.
  change (Ascii.eqb "[" "{") with false. change (Ascii.eqb "[" "[") with true.
  cbv iota. rewrite (parse_elements_skip_ws f rest), Hskip.
  destruct c as [[] [] [] [] [] [] [] []]; try reflexivity; discriminate.
Qed.

Lemma parse_value_open_object (f : nat) (rest : string) (c : ascii) (s : string) :
  skip_ws rest = String c s -> opens_value c = true ->
  parse_value (S f) (String "{" rest) = parse_members f rest [].
Proof.
  intros Hskip Hc. rewrite parse_value_step.
  change (skip_ws (String "{" rest)) with (String "{"%char rest). cbv iota beta.
  change (Ascii.eqb "{" "{") with true.
  cbv iota. rewrite (parse_members_skip_ws f rest), Hskip.
  destruct c as [[] [] [] [] [] [] [] []]; try reflexivity; discriminate.
Qed.

Lemma parse_value_numeral (f : nat) (c : ascii) (s : string) :
  numeral_char c = true ->
  parse_value (S f) (String c s) = pmap JNum (parse_number (String c s)).
Proof.
  intros Hc. rewrite parse_value_step.
  destruct c as [[] [] [] [] [] [] [] []]; try discriminate; reflexivity.
Qed.

Lemma parse_value_quoted (f : nat) (s tail : string) :
  parse_value (S f) (quote s ++ tail) = Parsed (JStr s) tail.
Proof.
  rewrite quote_append, parse_value_step, skip_ws_dquote. cbv iota beta.
  change (Ascii.eqb dquote "{") with false. change (Ascii.eqb dquote "[") with false.
  change (Ascii.eqb dquote dquote) with true. cbv iota.
  now rewrite parse_quote_body.
Qed.

Lemma parse_value_number (f : nat) (n : Z) (tail : string) :
  Z.abs n <= max_safe_integer -> delimited tail = true ->
  parse_value (S f) (number_to_string n ++ tail) = Parsed (JNum n) tail.
Proof.
  intros Hn Ht. destruct (number_to_string_numeral n) as [Hnum Hne].
  destruct (number_to_string n) as [|c s] eqn:E; [congruence|].
  cbn [all_chars] in Hnum. apply andb_true_iff in Hnum. destruct Hnum as [Hc _].
  cbn [append]. rewrite (parse_value_numeral f c _ Hc).
  change (String c (s ++ tail)) with (String c s ++ tail). rewrite <- E.
  now rewrite parse_number_text.
Qed.

Lemma skip_ws_line (indent s : string) :
  spaces indent = true -> skip_ws (lf ++ indent ++ s) = skip_ws s.
Proof. intros H. cbn. now apply skip_ws_spaces. Qed.

Lemma parse_elements_text (inner indent : string) (items : list JsVal) :
  Forall parses_back items ->
  forallb json_safe items = true -> items <> [] ->
  spaces inner = true -> spaces indent = true ->
  forall acc fuel tail,
    (items_weight items <= fuel)%nat ->
    parse_elements fuel
      (join ("," ++ lf ++ inner) (map (serialize inner) items)
       ++ lf ++ indent ++ "]" ++ tail) acc
    = Parsed (JArr (acc ++ items)%list) tail.
Proof.
  intros Hall. induction Hall as [|x rest Hx _ IH];
    intros Hsafe Hne Hinner Hindent acc fuel tail Hfuel; [congruence|].
  cbn [forallb] in Hsafe. apply andb_true_iff in Hsafe. destruct Hsafe as [Hsx Hsrest].
  unfold items_weight in Hfuel. cbn [fold_right] in Hfuel. fold (items_weight rest) in Hfuel.
  destruct fuel as [|f]; [lia|]. rewrite parse_elements_step.
  destruct rest as [|y rest].
  - cbn [map]. unfold join. cbn [String.concat].
    rewrite (Hx Hsx inner (lf ++ indent ++ "]" ++ tail) f Hinner eq_refl) by lia.
    rewrite (skip_ws_line indent _ Hindent).
    change (skip_ws ("]" ++ tail)) with (String "]"%char tail). reflexivity.
  - cbn [map]. rewrite join_cons. rewrite !append_assoc.
    rewrite (Hx Hsx) by (first [exact Hinner | reflexivity | lia]).
    change (skip_ws ("," ++ ?z)) with (String ","%char z). cbv iota beta.
    rewrite parse_elements_skip_ws, (skip_ws_line inner _ Hinner),
      <- parse_elements_skip_ws.
    change (serialize inner y :: map (serialize inner) rest)
      with (map (serialize inner) (y :: rest)).
    rewrite IH; auto; [now rewrite <- app_assoc | discriminate | lia].
Qed.

Lemma member_append (inner : string) (k : string) (x : JsVal) (tail : string) :
  (member inner (k, x) ++ tail)%string
  = String dquote (quote_body k ++ String dquote
      (String ":" (String " " (serialize inner x ++ tail)))).
Proof.
  unfold member. cbn [fst snd]. rewrite append_assoc, quote_append.
  rewrite append_assoc. reflexivity.
Qed.

Lemma parse_members_text (inner indent : string) (props : Props) :
  Forall (fun p => parses_back (snd p)) props ->
  forallb (fun p => json_safe (snd p)) props = true -> props <> [] ->
  spaces inner = true -> spaces indent = true ->
  forall acc fuel tail,
    NoDup (keys acc ++ keys props) ->
    key_order (keys acc ++ keys props) = true ->
    (props_weight props <= fuel)%nat ->
    parse_members fuel
      (join ("," ++ lf ++ inner) (map (member inner) props)
       ++ lf ++ indent ++ "}" ++ tail) acc
    = Parsed (JObj (acc ++ props)%list) tail.
Proof.
  intros Hall. induction Hall as [|[k x] rest Hx _ IH];
    intros Hsafe Hne Hinner Hindent acc fuel tail Hnd Hord Hfuel; [congruence|].
  cbn [forallb snd] in Hsafe, Hx. apply andb_true_iff in Hsafe.
  destruct Hsafe as [Hsx Hsrest].
  unfold props_weight in Hfuel. cbn [fold_right snd] in Hfuel.
  fold (props_weight rest) in Hfuel.
  assert (Hfresh : ~ In k (keys acc)).
  { cbn [keys map fst] in Hnd. apply NoDup_remove_2 in Hnd.
    intros Hin. apply Hnd. apply in_or_app. now left. }
  assert (Hlast : listed_last k (keys acc) = true).
  { cbn [keys map fst] in Hord. now apply key_order_middle in Hord. }
  assert (Hnd' : NoDup (keys (acc ++ [(k, x)]) ++ keys rest)%list).
  { unfold keys in *. rewrite map_app, <- app_assoc. exact Hnd. }
  assert (Hord' : key_order (keys (acc ++ [(k, x)]) ++ keys rest)%list = true).
  { unfold keys in *. rewrite map_app, <- app_assoc. exact Hord. }
  destruct fuel as [|f]; [lia|]. rewrite parse_members_step.
  destruct rest as [|q rest].
  - cbn [map]. unfold join. cbn [String.concat].
    rewrite member_append, skip_ws_dquote. cbv iota beta.
    change (Ascii.eqb dquote dquote) with true. cbv iota.
    rewrite parse_quote_body.
    change (skip_ws (String ":" ?z)) with (String ":"%char z). cbv iota beta.
    rewrite parse_value_skip_ws.
    change (skip_ws (String " " ?z)) with (skip_ws z).
    rewrite <- parse_value_skip_ws.
    rewrite (Hx Hsx) by (first [exact Hinner | reflexivity | lia]).
    rewrite (skip_ws_line indent _ Hindent).
    change (skip_ws ("}" ++ tail)) with (String "}"%char tail). cbv iota beta.
    now rewrite (define_property_last k x acc Hfresh Hlast).
  - cbn [map]. rewrite join_cons. rewrite !append_assoc.
    rewrite member_append, skip_ws_dquote. cbv iota beta.
    change (Ascii.eqb dquote dquote) with true. cbv iota.
    rewrite parse_quote_body.
    change (skip_ws (String ":" ?z)) with (String ":"%char z). cbv iota beta.
    rewrite parse_value_skip_ws.
    change (skip_ws (String " " ?z)) with (skip_ws z).
    rewrite <- parse_value_skip_ws.
    rewrite (Hx Hsx) by (first [exact Hinner | reflexivity | lia]).
    change (skip_ws ("," ++ ?z)) with (String ","%char z). cbv iota beta.
    rewrite parse_members_skip_ws, (skip_ws_line inner _ Hinner),
      <- parse_members_skip_ws.
    change (member inner q :: map (member inner) rest)
      with (map (member inner) (q :: rest)).
    rewrite (define_property_last k x acc Hfresh Hlast).
    rewrite IH; auto; [now rewrite <- app_assoc | discriminate | lia].
Qed.

Lemma join_head (sep : string) (c : ascii) (s : string) (l : list string) (tail : string) :
  exists s', (join sep (String c s :: l) ++ tail)%string = String c s'.
Proof. destruct l; eexists; reflexivity. Qed.

Lemma members_open (sep inner : string) (x : JsVal) (l : list string) (tail : string) :
  json_safe x = true ->
  exists c s,
    skip_ws (join sep (serialize inner x :: l) ++ tail) = String c s
    /\ opens_value c = true.
Proof.
  intros Hx. destruct (serialize_head inner x Hx) as (c & s & Hs & Hc).
  rewrite Hs. destruct (join_head sep c s l tail) as [s' Hj].
  exists c, s'. rewrite Hj. split; [now apply skip_ws_head|exact Hc].
Qed.

Lemma parse_serialized : forall v, parses_back v.
Proof.
  apply JsVal_induction; unfold parses_back.
  - discriminate.
  - intros _ indent tail [|f] _ Ht Hf; [simpl in Hf; lia|]. reflexivity.
  - intros [|] _ indent tail [|f] _ Ht Hf; try (simpl in Hf; lia); reflexivity.
  - intros n Hn indent tail [|f] _ Ht Hf; [simpl in Hf; lia|].
    cbn [serialize]. apply parse_value_number; auto.
    cbn [json_safe] in Hn. now apply Z.leb_le.
  - intros s _ indent tail [|f] _ Ht Hf; [simpl in Hf; lia|].
    cbn [serialize]. apply parse_value_quoted.
  - intros items Hall Hsafe indent tail fuel Hind Ht Hf.
    rewrite weight_array in Hf. destruct fuel as [|f]; [lia|].
    cbn [json_safe] in Hsafe. cbn [serialize].
    destruct items as [|x rest]; [reflexivity|].
    assert (Hinner : spaces (indent ++ "  ") = true) by now apply spaces_inner.
    set (inner := (indent ++ "  ")%string) in *.
    cbn [map]. unfold wrap. cbv zeta. change (indent ++ "  ")%string with inner.
    rewrite !append_assoc.
    change ("[" ++ ?z)%string with (String "["%char z).
    assert (Hsx : json_safe x = true).
    { cbn [forallb] in Hsafe. now apply andb_true_iff in Hsafe. }
    destruct (members_open ("," ++ lf ++ inner) inner x (map (serialize inner) rest)
                (lf ++ indent ++ "]" ++ tail) Hsx) as (c & s & Hskip & Hc).
    rewrite (parse_value_open_array f _ c s).
    + rewrite parse_elements_skip_ws, (skip_ws_line inner _ Hinner),
        <- parse_elements_skip_ws.
      change (serialize inner x :: map (serialize inner) rest)
        with (map (serialize inner) (x :: rest)).
      apply (parse_elements_text inner indent (x :: rest) Hall Hsafe); auto.
      * discriminate.
      * lia.
    + rewrite (skip_ws_line inner _ Hinner). exact Hskip.
    + exact Hc.
  - intros props Hall Hsafe indent tail fuel Hind Ht Hf.
    rewrite weight_object in Hf. destruct fuel as [|f]; [lia|].
    destruct (json_safe_object props Hsafe) as (Hd & Ho & Hs).
    rewrite (serialize_object indent props Hs).
    destruct props as [|[k x] rest]; [reflexivity|].
    assert (Hinner : spaces (indent ++ "  ") = true) by now apply spaces_inner.
    set (inner := (indent ++ "  ")%string) in *.
    cbn [map]. unfold wrap. cbv zeta. change (indent ++ "  ")%string with inner.
    rewrite !append_assoc.
    change ("{" ++ ?z)%string with (String "{"%char z).
    assert (Hopen : exists s,
               skip_ws (join ("," ++ lf ++ inner)
                          (member inner (k, x) :: map (member inner) rest)
                        ++ lf ++ indent ++ "}" ++ tail)
               = String dquote s).
    { destruct (join_head ("," ++ lf ++ inner) dquote
                  (quote_body k ++ String dquote (": " ++ serialize inner x))
                  (map (member inner) rest) (lf ++ indent ++ "}" ++ tail)) as [s' Hj].
      exists s'. unfold member at 1. cbn [fst snd]. rewrite quote_append.
      rewrite Hj. apply skip_ws_dquote. }
    destruct Hopen as [s Hskip].
    rewrite (parse_value_open_object f _ dquote s).
    + rewrite parse_members_skip_ws, (skip_ws_line inner _ Hinner),
        <- parse_members_skip_ws.
      change (member inner (k, x) :: map (member inner) rest)
        with (map (member inner) ((k, x) :: rest)).
      apply (parse_members_text inner indent ((k, x) :: rest) Hall Hs); auto.
      * discriminate.
      * cbn [keys map app]. now apply distinct_NoDup.
      * lia.
    + rewrite (skip_ws_line inner _ Hinner). exact Hskip.
    + reflexivity.
Qed.

Lemma join_length (sep : string) (l : list string) :
  (sum_lengths l <= String.length (join sep l))%nat.
Proof.
  induction l as [|x [|y l] IH]; [simpl; lia|simpl; lia|].
  rewrite join_cons, !length_append.
  change (sum_lengths (x :: y :: l)) with (String.length x + sum_lengths (y :: l))%nat.
  lia.
Qed.

Lemma wrap_length (opening closing indent : string) (members : list string) :
  (String.length opening + String.length closing + sum_lengths members
   <= String.length (wrap opening closing indent members))%nat.
Proof.
  unfold wrap. destruct members as [|m ms].
  - rewrite length_append. simpl. lia.
  - rewrite !length_append. pose proof (join_length ("," ++ lf ++ indent ++ "  ") (m :: ms)).
    lia.
Qed.

Lemma weight_bound :
  forall v, json_safe v = true ->
            forall indent, (S (weight v) <= 2 * String.length (serialize indent v))%nat.
Proof.
  intros v. induction v as [| |b|n|s|items Hall|props Hall] using JsVal_induction;
    intros Hsafe indent.
  - discriminate.
  - simpl. lia.
  - destruct b; simpl; lia.
  - cbn [serialize weight].
    destruct (number_to_string_numeral n) as [_ Hne].
    destruct (number_to_string n); [congruence|simpl; lia].
  - cbn [serialize weight]. unfold quote. simpl. lia.
  - rewrite weight_array. cbn [json_safe] in Hsafe. cbn [serialize].
    pose proof (wrap_length "[" "]" indent (map (serialize (indent ++ "  ")) items)) as Hw.
    assert (Hsum : (items_weight items
                    <= 2 * sum_lengths (map (serialize (indent ++ "  ")) items))%nat).
    { clear Hw. induction Hall as [|x rest Hx _ IH]; [simpl; lia|].
      cbn [forallb] in Hsafe. apply andb_true_iff in Hsafe. destruct Hsafe as [Hsx Hsr].
      specialize (IH Hsr). specialize (Hx Hsx (indent ++ "  ")%string).
      unfold items_weight in *. cbn [fold_right map sum_lengths].
      fold (sum_lengths (map (serialize (indent ++ "  ")) rest)). lia. }
    simpl String.length in Hw. lia.
  - rewrite weight_object.
    destruct (json_safe_object props Hsafe) as (_ & _ & Hs).
    rewrite (serialize_object indent props Hs).
    pose proof (wrap_length "{" "}" indent (map (member (indent ++ "  ")) props)) as Hw.
    assert (Hsum : (props_weight props
                    <= 2 * sum_lengths (map (member (indent ++ "  ")) props))%nat).
    { clear Hw Hsafe. induction Hall as [|[k x] rest Hx _ IH]; [simpl; lia|].
      cbn [forallb snd] in Hs, Hx. apply andb_true_iff in Hs. destruct Hs as [Hsx Hsr].
      specialize (IH Hsr). specialize (Hx Hsx (indent ++ "  ")%string).
      unfold props_weight in *. cbn [fold_right map sum_lengths snd].
      fold (sum_lengths (map (member (indent ++ "  ")) rest)).
      unfold member at 1. cbn [fst snd]. rewrite !length_append. lia. }
    simpl String.length in Hw. lia.
Qed.

Lemma JSON_parse_serialize (v : JsVal) :
  json_safe v = true -> JSON_parse (serialize "" v) = Some (Normal v).
Proof.
  intros Hv. unfold JSON_parse.
  pose proof (parse_serialized v Hv "" "" (2 * String.length (serialize "" v) + 2)%nat
                eq_refl eq_refl) as H.
  rewrite append_nil_r in H. rewrite H; [reflexivity|].
  pose proof (weight_bound v Hv ""). lia.
Qed.

Lemma infer_schema_defined (date_parses : string -> bool) (data : list JsVal) :
  match data with
  | first :: _ => nullish first = false
  | [] => True
  end ->
  first_row_converts data = true ->
  exists schema, infer_schema date_parses data = Normal schema.
Proof.
  destruct data as [|first rest]; intros H Hconv; [now exists []|].
  destruct (Object_keys_total first H) as [ks Hks].
  cbn [first_row_converts] in Hconv. rewrite Hks in Hconv.
  destruct (infer_fields_spec date_parses first H ks [] Hconv) as (schema & Hrun & _).
  exists schema. cbn [infer_schema]. rewrite Hks. exact Hrun.
Qed.

Lemma upload_json_rows (date_parses : string -> bool) (data : list JsVal) :
  forallb json_safe data = true ->
  match data with
  | first :: _ => nullish first = false
  | [] => True
  end ->
  first_row_converts data = true ->
  exists schema,
    infer_schema date_parses data = Normal schema
    /\ upload date_parses "json" (export_json data)
       = Some (Normal {| Upload.data := data;
                         Upload.schema := schema;
                         Upload.rowCount := Z.of_nat (List.length data);
                         Upload.columnCount := Z.of_nat (List.length (keys schema));
                         Upload.analysis_domain := "custom";
                         Upload.analysis_quality_score := 85 |}).
Proof.
  intros Hsafe Hfirst Hconv.
  destruct (infer_schema_defined date_parses data Hfirst Hconv) as [schema Hs].
  exists schema. split; [exact Hs|].
  unfold upload, processUploadedData, read_rows. cbn [name text].
  change (endsWith ("roundtrip." ++ "json") ".json") with true. cbv iota.
  unfold export_json. rewrite (JSON_parse_serialize (JArr data) Hsafe).
  rewrite Hs. reflexivity.
Qed.

(* ================================================================== *)
(** * The two encodings of a dataset *)
(* ================================================================== *)

Lemma dataset_rows_convert (headers : list string) (data : list JsVal) :
  Forall (dataset_row headers) data ->
  Forall (fun row => nullish row = false /\ row_converts headers row = true) data.
Proof.
  intros H. eapply Forall_impl; [|exact H]. intros row (props & -> & Hcells).
  split; [reflexivity|]. unfold row_converts. apply forallb_forall. intros k Hk.
  rewrite Forall_forall in Hcells. destruct (Hcells k Hk) as (_ & Hc & _).
  unfold sample_converts. now rewrite Hc.
Qed.

Lemma csv_lines (headers : list string) (data : list JsVal) :
  Forall (fun row => nullish row = false) data ->
  Forall2 (csv_line_of headers) data
    (map (fun row => join "," (cells_of headers row)) data).
Proof.
  induction 1 as [|row data Hrow _ IH]; cbn [map]; constructor; auto.
  exists (cells_of headers row). split; [reflexivity|].
  unfold cells_of. clear IH. induction headers as [|h hs IHh]; cbn [map]; constructor; auto.
  exists (get_opt row h). split; [now apply get_opt_get|reflexivity].
Qed.

(** Claim C5.  On a well-formed dataset (every row a plain object whose
    values under the keys of the first row convert to strings, with safe
    integers for numbers, and are its own properties whenever the key names
    a member of [Object.prototype]; the keys of the first row as
    [Object.keys] lists them) the CSV export raises nothing; it is the
    empty text for no rows, and otherwise the keys of the first row joined
    by commas, then one line per row holding the cells of that row under
    these keys, in their order, where the cell of a string is the string
    between double quotes, unchanged.  The default format is CSV.  The JSON
    export raises nothing, is ["[]"] for no rows, is what every format other
    than ["csv"] gives, and parses back to the dataset when JSON can carry
    it.  The function reads nothing but its arguments. *)
Theorem export_encoding (data : list JsVal) :
  well_formed_dataset data ->
  (exists csv,
     exportData data (Some "csv") = Normal csv
     /\ exportData data None = Normal csv
     /\ match data with
        | [] => csv = ""
        | first :: _ =>
            exists headers lines,
              Object_keys first = Normal headers
              /\ csv = join lf (join "," headers :: lines)
              /\ Forall2 (csv_line_of headers) data lines
        end)
  /\ (forall s, cell_text (JStr s) = String dquote (s ++ String dquote EmptyString))
  /\ exportData [] (Some "csv") = Normal ""
  /\ exportData [] (Some "json") = Normal "[]"
  /\ (exists json,
        exportData data (Some "json") = Normal json
        /\ (forall format, format <> "csv" -> exportData data (Some format) = Normal json)
        /\ (forallb json_safe data = true ->
              JSON_parse json = Some (Normal (JArr data)))).
Proof.
  intros Hdata. split; [|split; [|split; [|split]]]; try reflexivity.
  - destruct data as [|first data'].
    + exists "". repeat split; reflexivity.
    + destruct Hdata as (headers & Hks & _ & _ & Hrows).
      pose proof (dataset_rows_convert headers _ Hrows) as Hconv.
      pose proof (exportData_csv_closed first data' headers Hks Hconv) as Hcsv.
      exists (csv_text headers (first :: data')).
      split; [exact Hcsv|]. split; [exact Hcsv|].
      exists headers, (map (fun row => join "," (cells_of headers row)) (first :: data')).
      split; [exact Hks|]. split; [reflexivity|].
      apply csv_lines. eapply Forall_impl; [|exact Hconv]. now intros row [H _].
  - exists (export_json data). split; [reflexivity|]. split.
    + intros format Hcsv. unfold exportData.
      apply String.eqb_neq in Hcsv. rewrite Hcsv.
      now destruct (String.eqb format "json").
    + intros Hsafe. unfold export_json. now apply JSON_parse_serialize.
Qed.

Lemma export_encoding_witness :
  (exists csv,
     exportData example_rows (Some "csv") = Normal csv
     /\ exportData example_rows None = Normal csv
     /\ exists headers lines,
          Object_keys (JObj [("name", JStr "Doe, Jane"); ("n", JNum 3); ("ok", JBool true)])
            = Normal headers
          /\ csv = join lf (join "," headers :: lines)
          /\ Forall2 (csv_line_of headers) example_rows lines)
  /\ (forall s, cell_text (JStr s) = String dquote (s ++ String dquote EmptyString))
  /\ exportData [] (Some "csv") = Normal ""
  /\ exportData [] (Some "json") = Normal "[]"
  /\ (exists json,
        exportData example_rows (Some "json") = Normal json
        /\ (forall format, format <> "csv" ->
              exportData example_rows (Some format) = Normal json)
        /\ (forallb json_safe example_rows = true ->
              JSON_parse json = Some (Normal (JArr example_rows)))).
Proof.
  apply (export_encoding example_rows).
  exists ["name"; "n"; "ok"]. split; [reflexivity|].
  split; [repeat constructor; simpl; intuition discriminate|].
  split; [reflexivity|].
  repeat constructor; eexists; (split; [reflexivity|]); repeat constructor.
Defined.

(** Property X23.  Export as JSON, upload: rows that JSON can carry (no
    undefined, safe integers, the keys of every object distinct and in the
    order of listing), the first of which is not null and holds only values
    that [Number] converts (no object with a property [toString] of its
    own), come back from [processUploadedData] exactly as they were given
    to [exportData], with all their nested values and in the same order,
    and so they do after a second such trip. *)
Theorem json_round_trip_identity (date_parses : string -> bool) (data : list JsVal) :
  forallb json_safe data = true ->
  match data with
  | first :: _ => nullish first = false
  | [] => True
  end ->
  first_row_converts data = true ->
  exists u,
    exportData data (Some "json") = Normal (export_json data)
    /\ upload date_parses "json" (export_json data) = Some (Normal u)
    /\ Upload.data u = data
    /\ Upload.rowCount u = Z.of_nat (List.length data)
    /\ round_trip date_parses "json" "json" data = Some (Normal u).
Proof.
  intros Hsafe Hfirst Hconv.
  destruct (upload_json_rows date_parses data Hsafe Hfirst Hconv) as (schema & Hs & Hup).
  eexists. split; [reflexivity|]. split; [exact Hup|].
  split; [reflexivity|]. split; [reflexivity|].
  unfold round_trip.
  change (exportData data (Some "json")) with (Normal (export_json data)).
  cbv iota beta. rewrite Hup. cbn [Upload.data].
  change (exportData data (Some "json")) with (Normal (export_json data)).
  exact Hup.
Qed.

Lemma json_round_trip_identity_witness :
  exists u,
    exportData nested_rows (Some "json") = Normal (export_json nested_rows)
    /\ upload (fun _ => false) "json" (export_json nested_rows) = Some (Normal u)
    /\ Upload.data u = nested_rows
    /\ Upload.rowCount u = Z.of_nat (List.length nested_rows)
    /\ round_trip (fun _ => false) "json" "json" nested_rows = Some (Normal u).
Proof.
  apply (json_round_trip_identity (fun _ => false) nested_rows); reflexivity.
Defined.

(* ================================================================== *)
(** * Further compositions of the service *)
(* ================================================================== *)

(** Property X24.  A row count that is zero or negative gives no row and
    no error: when the backend call fails, [generateSyntheticDataset]
    resolves with an empty [data], [rowsGenerated] 0 and the fields of the
    schema counted as columns, without a read of the clock or of the
    random source, and without looking at any descriptor. *)
Theorem no_rows_requested (w : World) (options : DatasetGenerationOptions)
    (fields : Props) (outcome : FetchOutcome) (n : Z) (tick : nat) :
  schema options = JObj fields ->
  rowCount options = Some n ->
  n <= 0 ->
  remote_call_fails outcome = true ->
  exists g,
    generateSyntheticDataset w options outcome tick = Normal (g, tick)
    /\ data g = JArr []
    /\ rowsGenerated (metadata g) = JNum 0
    /\ columnsGenerated (metadata g) = Z.of_nat (List.length (keys fields))
    /\ generationMethod (metadata g) = "local_fallback".
Proof.
  intros Hs Hn Hle Hfail. rewrite (remote_failure_runs_fallback _ _ _ Hfail).
  unfold generateFallbackData. rewrite Hs, Hn.
  replace (Z.to_nat n) with 0%nat by lia.
  eexists. split; [reflexivity|]. repeat split.
Qed.

Lemma no_rows_requested_witness :
  exists g,
    generateSyntheticDataset demo_world (request (JObj [("a", JNull)]) (Some (-5)))
      NetworkFailure 0%nat = Normal (g, 0%nat)
    /\ data g = JArr []
    /\ rowsGenerated (metadata g) = JNum 0
    /\ columnsGenerated (metadata g) = Z.of_nat (List.length (keys [("a", JNull)]))
    /\ generationMethod (metadata g) = "local_fallback".
Proof.
  apply (no_rows_requested demo_world (request (JObj [("a", JNull)]) (Some (-5)))
           [("a", JNull)] NetworkFailure (-5) 0%nat); try reflexivity. lia.
Defined.

Lemma NoDup_distinct (l : list string) : NoDup l -> distinct l = true.
Proof.
  induction 1 as [|k r Hk _ IH]; [reflexivity|]. cbn [distinct]. rewrite IH, andb_true_r.
  apply negb_true_iff. destruct (existsb (String.eqb k) r) eqn:E; [|reflexivity].
  apply existsb_exists in E. destruct E as (k' & Hin & Heq).
  apply String.eqb_eq in Heq. subst k'. contradiction.
Qed.

Lemma cell_ok_safe (w : World) (a b : nat) (i : Z) (key : string)
    (fieldType v : JsVal) :
  cell_ok w a b i key fieldType v -> json_safe v = true.
Proof.
  intros (Hs & Hnum & Hb & Hd & Hu).
  destruct (strict_eq_str fieldType "string") eqn:E1.
  { apply strict_eq_str_true in E1. now rewrite (Hs E1). }
  destruct (strict_eq_str fieldType "number") eqn:E2.
  { apply strict_eq_str_true in E2. destruct (Hnum E2) as (z & -> & Hz).
    cbn [json_safe]. apply Z.leb_le. unfold max_safe_integer. lia. }
  destruct (strict_eq_str fieldType "boolean") eqn:E3.
  { apply strict_eq_str_true in E3. now destruct (Hb E3) as (x & ->). }
  destruct (strict_eq_str fieldType "date") eqn:E4.
  { apply strict_eq_str_true in E4. now destruct (Hd E4) as (t & k & _ & -> & _). }
  apply strict_eq_str_false in E1, E2, E3, E4.
  now rewrite Hu by (repeat split; assumption).
Qed.

Lemma lookup_in (k : string) (v : JsVal) (props : Props) :
  NoDup (keys props) -> In (k, v) props -> lookup k props = Some v.
Proof.
  intros Hnd Hin. induction props as [|[k0 v0] props IH]; [inversion Hin|].
  cbn [keys map fst] in Hnd. inversion Hnd as [|? ? Hfresh Hnd']; subst.
  simpl. destruct (String.eqb k k0) eqn:E.
  - apply String.eqb_eq in E. subst k0. destruct Hin as [Hin|Hin].
    + now inversion Hin.
    + exfalso. apply Hfresh. unfold keys. apply in_map_iff. exists (k, v). auto.
  - destruct Hin as [Hin|Hin]; [inversion Hin; subst; now rewrite String.eqb_refl in E|].
    now apply IH.
Qed.

Lemma row_ok_values (cell : string -> JsVal -> JsVal -> Prop) (fields props : Props) :
  row_ok cell fields props ->
  forall k v, In (k, v) props -> exists fieldType, cell k fieldType v.
Proof.
  intros (Hkeys & Hnd & _ & Hcells) k v Hin.
  assert (Hk : In k (keys fields) /\ k <> "__proto__").
  { apply Hkeys. unfold keys. apply in_map_iff. exists (k, v). auto. }
  destruct Hk as [Hk Hkp].
  destruct (proj1 (lookup_in_keys k fields) Hk) as [d Hd].
  destruct (Hcells k d Hd Hkp) as (ft & v' & _ & Hv' & Hcell).
  rewrite (lookup_in k v props Hnd Hin) in Hv'. inversion Hv'; subst v'.
  now exists ft.
Qed.

Lemma json_safe_members (props : Props) :
  (forall k v, In (k, v) props -> json_safe v = true) ->
  (fix all (ps : list (string * JsVal)) : bool :=
     match ps with
     | [] => true
     | (_, x) :: ps' => json_safe x && all ps'
     end) props = true.
Proof.
  intros Hall. induction props as [|[k v] props IH]; [reflexivity|].
  rewrite (Hall k v) by now left. cbn [andb]. apply IH.
  intros k' v' Hin. apply (Hall k' v'). now right.
Qed.

Lemma row_ok_safe (w : World) (a b : nat) (i : Z) (fields props : Props) :
  row_ok (cell_ok w a b i) fields props -> json_safe (JObj props) = true.
Proof.
  intros Hok. pose proof (row_ok_values _ _ _ Hok) as Hvalues.
  destruct Hok as (_ & Hnd & Hord & _). cbn [json_safe].
  rewrite (NoDup_distinct _ Hnd), Hord. cbn [andb].
  apply json_safe_members. intros k v Hin.
  destruct (Hvalues k v Hin) as [ft Hcell].
  exact (cell_ok_safe _ _ _ _ _ _ _ Hcell).
Qed.

Lemma cell_ok_converts (w : World) (a b : nat) (i : Z) (key : string)
    (fieldType v : JsVal) :
  cell_ok w a b i key fieldType v -> to_primitive_throws v = false.
Proof.
  intros (Hs & Hnum & Hb & Hd & Hu).
  destruct (strict_eq_str fieldType "string") eqn:E1.
  { apply strict_eq_str_true in E1. now rewrite (Hs E1). }
  destruct (strict_eq_str fieldType "number") eqn:E2.
  { apply strict_eq_str_true in E2. now destruct (Hnum E2) as (z & -> & Hz). }
  destruct (strict_eq_str fieldType "boolean") eqn:E3.
  { apply strict_eq_str_true in E3. now destruct (Hb E3) as (x & ->). }
  destruct (strict_eq_str fieldType "date") eqn:E4.
  { apply strict_eq_str_true in E4. now destruct (Hd E4) as (t & k & _ & -> & _). }
  apply strict_eq_str_false in E1, E2, E3, E4.
  now rewrite Hu by (repeat split; assumption).
Qed.

Lemma row_ok_converts (w : World) (a b : nat) (i : Z) (fields props : Props)
    (rest : list JsVal) :
  row_ok (cell_ok w a b i) fields props ->
  first_row_converts (JObj props :: rest) = true.
Proof.
  intros Hok. cbn [first_row_converts Object_keys]. apply props_convert.
  apply Forall_forall. intros v Hv. unfold values in Hv. apply in_map_iff in Hv.
  destruct Hv as ([k v'] & Heq & Hin). cbn [snd] in Heq. subst v'.
  destruct (row_ok_values _ _ _ Hok k v Hin) as [ft Hcell].
  exact (cell_ok_converts _ _ _ _ _ _ _ Hcell).
Qed.

(** Property X25.  Generate, export as JSON, upload: the rows that
    [generateFallbackData] makes from a schema whose descriptors are
    defined come back from the upload exactly as they were generated, all
    of them, whatever the keys of the schema are. *)
Theorem generated_rows_survive_json (w : World) (date_parses : string -> bool)
    (options : DatasetGenerationOptions) (fields : Props) (tick : nat) :
  world_ok w ->
  schema options = JObj fields ->
  descriptors_defined fields ->
  exists g tick' rows u,
    generateFallbackData w options tick = Normal (g, tick')
    /\ data g = JArr rows
    /\ exportData rows (Some "json") = Normal (export_json rows)
    /\ upload date_parses "json" (export_json rows) = Some (Normal u)
    /\ Upload.data u = rows
    /\ Upload.rowCount u = Z.max 0 (requested_rows options).
Proof.
  intros Hw Hs Hdef.
  destruct (generateFallbackData_spec w options fields tick Hw Hs Hdef)
    as (rows & tick' & Hgen & Hlen & Hrows).
  fold (requested_rows options) in Hlen.
  assert (Hsafe : forallb json_safe rows = true).
  { apply forallb_forall. intros row Hrow.
    apply In_nth_error in Hrow. destruct Hrow as [j Hj].
    destruct (Hrows j row Hj) as (props & -> & Hok).
    exact (row_ok_safe _ _ _ _ _ _ Hok). }
  assert (Hfirst : match rows with first :: _ => nullish first = false | [] => True end).
  { destruct rows as [|first rest]; [exact I|].
    now destruct (Hrows 0%nat first eq_refl) as (props & -> & _). }
  assert (Hconv : first_row_converts rows = true).
  { destruct rows as [|first rest]; [reflexivity|].
    destruct (Hrows 0%nat first eq_refl) as (props & -> & Hok).
    exact (row_ok_converts _ _ _ _ _ _ rest Hok). }
  destruct (upload_json_rows date_parses rows Hsafe Hfirst Hconv) as (schema & _ & Hup).
  eexists _, tick', rows, _. split; [exact Hgen|]. split; [reflexivity|].
  split; [reflexivity|]. split; [exact Hup|]. split; [reflexivity|].
  cbn [Upload.rowCount]. lia.
Qed.

Lemma generated_rows_survive_json_witness :
  exists g tick' rows u,
    generateFallbackData demo_world (request (JObj demo_fields) (Some 3)) 0%nat
    = Normal (g, tick')
    /\ data g = JArr rows
    /\ exportData rows (Some "json") = Normal (export_json rows)
    /\ upload (fun _ => false) "json" (export_json rows) = Some (Normal u)
    /\ Upload.data u = rows
    /\ Upload.rowCount u = Z.max 0 (requested_rows (request (JObj demo_fields) (Some 3))).
Proof.
  apply (generated_rows_survive_json demo_world (fun _ => false)
           (request (JObj demo_fields) (Some 3)) demo_fields 0%nat).
  - demo_world_ok.
  - reflexivity.
  - reflexivity.
Defined.

Lemma csv_schema_keys_survive (date_parses : string -> bool) (content : string)
    (schema : Props) :
  infer_schema date_parses (parse_csv content) = Normal schema ->
  Forall survives (keys schema)
  /\ (parse_csv content <> [] -> keys schema <> []).
Proof.
  intros Hs.
  destruct (parse_csv_shape content)
    as (ks & table & Heq & Hnd & Hne & Hks & _ & Hproto & _ & Htable).
  rewrite Heq in Hs. destruct table as [|cells table].
  - cbn in Hs. inversion Hs; subst. split; [constructor|]. rewrite Heq. intros H. now elim H.
  - inversion Htable as [|? ? [Hlen _] _]; subst.
    pose proof (table_schema_keys date_parses ks cells table schema Hlen Hproto Hs)
      as Hkeys.
    split.
    + rewrite Forall_forall in *. intros k Hk. apply Hks. now apply Hkeys.
    + intros _ H0. destruct ks as [|k ks]; [congruence|].
      assert (Hin : In k (keys schema)) by (apply Hkeys; now left).
      rewrite H0 in Hin. inversion Hin.
Qed.

(** Property X26.  Upload a CSV file, generate from the inferred schema
    with no backend, export the rows as CSV and upload them: the second
    upload has the rows that were asked for and the fields of the first
    one, and every field that the first upload typed [number] or [boolean]
    is typed so again. *)
Theorem regenerated_upload_keeps_types (w : World) (date_parses : string -> bool)
    (file_name content : string) (u : Upload.t) (options : DatasetGenerationOptions)
    (tick : nat) :
  world_ok w ->
  endsWith file_name ".csv" = true ->
  processUploadedData date_parses {| name := file_name; text := Some content |}
  = Some (Normal u) ->
  Upload.data u <> [] ->
  0 < requested_rows options ->
  exists g tick' rows text u2,
    generateFallbackData w (with_schema options (JObj (Upload.schema u))) tick
    = Normal (g, tick')
    /\ data g = JArr rows
    /\ exportData rows (Some "csv") = Normal text
    /\ upload date_parses "csv" text = Some (Normal u2)
    /\ Upload.rowCount u2 = requested_rows options
    /\ same_keys (Upload.schema u2) (Upload.schema u)
    /\ forall key,
         (lookup key (Upload.schema u) = Some (type_of "number") ->
            lookup key (Upload.schema u2) = Some (type_of "number"))
         /\ (lookup key (Upload.schema u) = Some (type_of "boolean") ->
               lookup key (Upload.schema u2) = Some (type_of "boolean")).
Proof.
  intros Hw Hcsv Hup Hdata Hpos.
  destruct (processUploadedData_schema date_parses _ u Hup) as (Hschema & _ & _).
  assert (Hrows : Upload.data u = parse_csv content).
  { unfold processUploadedData, read_rows in Hup. cbn [name text] in Hup.
    rewrite (csv_is_not_json _ Hcsv), Hcsv in Hup.
    destruct (infer_schema date_parses (parse_csv content)); [|discriminate].
    cbn [cbind] in Hup. inversion Hup; subst u. reflexivity. }
  rewrite Hrows in Hschema, Hdata.
  destruct (csv_schema_keys_survive date_parses content _ Hschema) as [Hsurv Hne].
  destruct (infer_schema_typed _ _ _ Hschema) as (_ & Htyped & Hproto).
  set (fields := Upload.schema u) in *.
  assert (Hsome : exists k, In k (keys fields) /\ k <> "__proto__").
  { specialize (Hne Hdata). destruct (keys fields) as [|k ks] eqn:E; [congruence|].
    exists k. split; [now left|]. intros ->. apply Hproto. now left. }
  set (options' := with_schema options (JObj fields)).
  destruct (generateFallbackData_spec w options' fields tick Hw eq_refl
              (typed_descriptors_defined _ Htyped))
    as (rows & tick' & Hgen & Hlen & Hgenrows).
  change (match rowCount options' with Some n => n | None => 1000 end)
    with (requested_rows options) in Hlen.
  destruct rows as [|first rest]; [simpl in Hlen; lia|].
  destruct (Hgenrows 0%nat first eq_refl) as (p0 & -> & _ & _ & _ & Hc0).
  destruct (generated_rows_exportable w fields tick tick' p0 rest Hsome Hsurv
              Hgenrows) as [Hex Hstored].
  pose proof (stored_keys_same p0 fields Hstored Hproto) as Hin.
  destruct (csv_leg_values date_parses (keys p0) (JObj p0) rest Hex)
    as (text & u2 & Hexp & Hup2 & _ & Hcount & Hkeys & Hty).
  eexists _, tick', (JObj p0 :: rest), text, u2.
  split; [exact Hgen|]. split; [reflexivity|]. split; [exact Hexp|].
  split; [exact Hup2|]. split; [rewrite Hcount; simpl in Hlen; lia|].
  split; [intros k; rewrite Hkeys; apply Hin|].
  intros key.
  assert (Hstep : forall t, lookup key fields = Some (type_of t) ->
            exists v, In key (keys p0) /\ lookup key p0 = Some v
                      /\ cell_ok w tick tick' 0 key (JStr t) v).
  { intros t Hd.
    assert (Hk : In key (keys fields)) by (apply lookup_in_keys; eauto).
    assert (Hkp : key <> "__proto__") by (intros ->; contradiction).
    destruct (Hc0 key _ Hd Hkp) as (ft & v & Hft & Hv & Hcell).
    inversion Hft; subst ft. exists v. split; [|auto].
    now apply Hin. }
  split; intros Hd; destruct (Hstep _ Hd) as (v & Hkey & Hv & (_ & Hnum & Hb & _));
    rewrite (Hty key Hkey);
    change (get_opt (JObj p0) key) with (or_undefined (lookup key p0));
    rewrite Hv; cbn [or_undefined].
  - destruct (Hnum eq_refl) as (z & -> & _). cbn [cell_text to_string].
    unfold infer_type, Number_isNaN. now rewrite number_text_numeric.
  - destruct (Hb eq_refl) as (x & ->). destruct x; reflexivity.
Qed.

Lemma regenerated_upload_keeps_types_witness :
  exists u,
    processUploadedData (fun _ => false) example_file = Some (Normal u)
    /\ exists g tick' rows text u2,
         generateFallbackData demo_world
           (with_schema (request JNull (Some 3)) (JObj (Upload.schema u))) 0%nat
         = Normal (g, tick')
         /\ data g = JArr rows
         /\ exportData rows (Some "csv") = Normal text
         /\ upload (fun _ => false) "csv" text = Some (Normal u2)
         /\ Upload.rowCount u2 = requested_rows (request JNull (Some 3))
         /\ same_keys (Upload.schema u2) (Upload.schema u)
         /\ forall key,
              (lookup key (Upload.schema u) = Some (type_of "number") ->
                 lookup key (Upload.schema u2) = Some (type_of "number"))
              /\ (lookup key (Upload.schema u) = Some (type_of "boolean") ->
                    lookup key (Upload.schema u2) = Some (type_of "boolean")).
Proof.
  eexists. split; [reflexivity|].
  apply (regenerated_upload_keeps_types demo_world (fun _ => false) "example.csv"
           example_csv _ (request JNull (Some 3)) 0%nat).
  - demo_world_ok.
  - reflexivity.
  - reflexivity.
  - discriminate.
  - unfold requested_rows; simpl; lia.
Defined.

